(* ===== verification/_CoqProject ===== *)
-Q . S2P
Prelude.v
CanTypes.v
Ring.v
Obp.v
World.v
Demo.v
CanSend.v
CanChip.v
Console.v
CanObj.v
CanMain.v
DriverInv.v
DriverTotal.v
DriverFiles.v
DriverSteps.v
DriverInit.v
ObjProps.v
ConsoleProps.v
ConsoleStream.v
FileProps.v
FileErrors.v
CanLib.v
CanLibProps.v
CanLibDriver.v
Cancon.v
CanconProps.v
CanconTyped.v
CanconReader.v
TypedRemote.v
ConsoleDialog.v
ConsoleRun.v
ConsoleNode.v
CanconConnect.v
Getopt.v
CanTools.v
CanToolsProps.v
CanToolsDriver.v
CanconMain.v
CanconSession.v
Iommu.v
IommuProps.v
Machine.v
Irq.v
Timer.v
TimerProps.v
CrossCall.v
CrossCallProps.v
Smp.v
SmpProps.v
SmpIdle.v
Tick.v
Bargraph.v
BargraphProps.v
TestProgs.v
ElanDrv.v
