(* ===== verification/Prelude.v ===== *)
(** * Linux for the Meiko CS/2: the CAN network and the board support

    The repository ports Linux 2.2 to the Meiko CS/2, a machine of SPARC nodes
    that a slow control bus, the CAN, connects beside the data network. Two
    bodies of code carry the logic, and this library models both.

    ** The CAN

    Packets cross the bus in frames of at most eight bytes. Each node answers
    requests to a set of numbered objects (node type, heartbeat, console
    connection, PROM settings, reset, ...), and its console is a stream of DAT
    packets to and from a "console host". The parts, lowest first:

    - [CanTypes] (include/asm-sparc/meiko/can.h): headers, packets, addresses
      and the registers of the 82C200 controller. Unions are their storage
      words, bit fields are [field] descriptors of those words, in the order
      of a big-endian compiler.
    - [Ring] (the RING_ macros of can.h, pkt_to_ring() and ring_to_pkt() of
      can_main.c): bounded queues. [Obp] (include/asm-sparc/meiko/obp.h):
      paths and properties of the PROM tree; the PROM is the class [Prom].
    - [World]: the static variables of the three files of the driver as one
      record each, and the kernel around them (clock, timers, heap, tty,
      the trace of chip accesses, the log of calls into other kernel code).
      The chip is any function of the access trace ([CanHw]); what the kernel
      answers (kmalloc, user pages, request_irq, printk formatting, ...) is
      [Kernel]. [Demo] is a concrete instance of both for the examples.
    - [CanSend] and [CanMain] (drivers/meiko/can_main.c), [Console]
      (can_console.c), [CanObj] (can_obj.c): one definition per function, with
      its name. They run in the state-and-fault monad of [Prelude]: [Done r s]
      or [Fault f], where a fault is what the C code has no defined behaviour
      for (NULL dereference, index outside an array, add_timer on a queued
      timer, use of an uninitialised value, panic). [CanSend] is what
      the other files call; [CanMain] has the interrupt handler, the bottom half, the file operations and
      module start and stop.
    - [CanLib] (cmd/can.c, can.h): the library of the user tools, over the
      interface [CanFd] of a descriptor; [CanLibDriver] implements that
      interface with the model of the driver.
    - [Cancon] (cmd/cancon.c): the console client's escape filter, character
      queue, acknowledgement mailbox, send-and-retry loop, connection
      protocol and the steps of its threads; [CanconMain]: its main(), with
      options and terminal modes, and the process after that as a transition
      system of the rounds of its threads, signals and disconnect() threads. [ConsoleNode] is the
      console of a node as its clients see it.
    - [CanTools] (cmd/canctrl.c, canping.c, canhb.c, cansnoop.c, candebug.c,
      canwhack.c): main() and the helpers of each; [Getopt]: the option
      parser of the C library as they use it.

    ** The board

    - [Machine]: PROM, registers and time, shared by [Irq]
      (arch/sparc/meiko/irq.c: the interrupt PALs) and [Timer] (timer.c, the
      kernel's elan.c, elan.h: interval timers, gettimeofday, busy waits).
      Register writes are logged; what the hardware then holds is computed
      from the log.
    - [Iommu] (arch/sparc/meiko/iommu.c): the SBus page table; the page
      allocator, the MMU's tables and the flushes are [IommuEnv].
    - [CrossCall], [Smp], [Tick] (arch/sparc/meiko/smp.c): the cross call
      protocol as interleaved steps of all processors, the boot of the
      processors and their messages, the profiling tick and the instructions
      the kernel patches itself with.
    - [Bargraph] (drivers/meiko/bargraph.c) and [ElanDrv]
      (drivers/meiko/elan.c): the two small character devices.
    - [TestProgs] (cmd/testled.c, testclock.c): the test programs, over the
      models of what they test.

    ** What is shown

    - Safety of the driver. [DriverInv] states the invariant [drv_ok] of its
      state and shows that each function keeps it; [DriverTotal] that every
      object handler does and that the bottom half ends; [DriverFiles] that the
      table of open files and console identifiers stays consistent;
      [DriverSteps] takes all entries of the kernel into the driver as the
      events of a transition system and shows which of them can fault in a
      reachable state: an open for which kmalloc() fails, and the bottom half on
      a DAT packet that announces more than eight bytes, which write() lets
      programs send. The invariant takes a bound on the packets' lengths as a
      parameter, the class [Lengths]: with [short_only] (no packet is longer)
      nothing else is needed and nothing faults but that open; with [any_length] the
      invariant says nothing of lengths. [DriverInit]: loading the module
      reaches a good state.
    - Function of the driver. [CanChip] (what goes to the wire and comes from
      it), [ConsoleProps], [ConsoleStream], [ObjProps], [FileProps]: who gets which packet, in
      which order, which answer, on every branch; [FileErrors]: what a failing
      call on an open file leaves behind; the ring macros refine a list queue
      ([Ring]); PROM paths ([Obp]).
    - Composition. [CanLibDriver] proves can_send() and can_recv_ack() of the
      tools against the driver; [CanLibProps] the tables of hosts and objects.
      [ConsoleNode]: the object handlers implement the abstract console.
    - The console client. [CanconProps]: its queues and the retry loop;
      [CanconTyped] follows typed characters from the terminal to the packets
      that carry them, in whatever order the client's threads run, and
      [TypedRemote] on to the terminal of the node; [CanconReader]: what
      happens to received packets; [ConsoleDialog] and [ConsoleRun]: what each
      operation of a node does to its console's output and what the client
      does with a packet of it, and where every character of the output is
      after any sequence of these, of time-outs and of losses on the way;
      [CanconConnect]: the connection protocol against the abstract console and
      another client; [CanconSession]: the whole program, from its arguments to
      the end of the process, which a signal of its own may bring.
    - The tools. [CanToolsProps]: canping against a node, the data of canctrl,
      what cansnoop can print; [CanToolsDriver]: canhb and canwhack over the
      driver.
    - The board. [IommuProps] in terms of the translation the hardware does;
      [Irq] (a refinement to sets of levels); [TimerProps] (monotone,
      normalised time without overflow; the counters run at HZ);
      [CrossCallProps] (an atomic broadcast in every interleaving, which
      ends); [SmpProps] (which processors are counted after the boot; the panic
      of the stop message), [SmpIdle] (which of them get past the wait for
      their idle task); [Tick] (bounds of the profile buffer, no tick lost);
      [BargraphProps].

    ** Bounds and fuel

    Loops that are not structural take fuel, and running out is the fault
    [OutOfFuel], which the theorems exclude. The fuel is a constant where the code
    bounds the loop (transmit loop: [xmit_fuel], the queue's length plus one;
    search of the IOMMU window: [window_fuel], its pages; carry of
    microseconds: [carry_fuel], for any 32-bit value), and a parameter where
    the environment decides (bottom half, receive loops, busy waits, retries
    of the client); theorems then say how much suffices: [bh_fuel] for the
    bottom half, the length of the queue, the number of clock readings.
    Integers are [Z] with [u8], [u16], [u32], [s32] written where C truncates.

    ** What is not modelled

    Code outside the repository is a parameter: kernel services, PROM, chip,
    MMU, libc's files, terminals and system calls. Locks that only protect a
    uniprocessor section leave no
    trace; a sleep in read() or write() is an argument that says what happened
    meanwhile, and so is what other threads or processors do while one waits.
    Flushes of caches and TLBs and the calibration of the delay loop leave no
    trace either. The threads of cancon are interleaved round by round, and
    what other threads do inside a round, while it waits, is the class
    [Threads]. [ConsoleRun] leaves out what empties the output ring (flush,
    hangup, the end of the connection) and other programs of the node that
    send packets as its console. Code under #if 0
    and the branches of USE_MMAP that are not compiled are left out, as are
    the patches to the kernel and the boot loader, whose context is not in the
    repository. *)

From stdpp Require Import prelude list numbers gmap strings.
From Stdlib Require Import ZArith Lia.

#[global] Open Scope Z_scope.
#[global] Set Default Proof Using "Type".

(** ** Machine integers

    C integers are [Z]; where the code relies on the width of a type the
    truncation is written out with [u8], [u16], [u32] or [s32]. *)

Definition u8 (x : Z) : Z := x mod 2 ^ 8.
Definition u16 (x : Z) : Z := x mod 2 ^ 16.
Definition u32 (x : Z) : Z := x mod 2 ^ 32.
(** [(int) x] for a 32-bit value. *)
Definition s32 (x : Z) : Z := (x + 2 ^ 31) mod 2 ^ 32 - 2 ^ 31.

Definition b2z (b : bool) : Z := if b then 1 else 0.
(** [x & m] as the condition of an [if]. *)
Definition has (x m : Z) : bool := negb (Z.land x m =? 0).

Lemma u8_range x : 0 <= u8 x < 2 ^ 8.
Proof. apply Z.mod_pos_bound; lia. Qed.
Lemma u16_range x : 0 <= u16 x < 2 ^ 16.
Proof. apply Z.mod_pos_bound; lia. Qed.
Lemma u32_range x : 0 <= u32 x < 2 ^ 32.
Proof. apply Z.mod_pos_bound; lia. Qed.
Lemma u8_id x : 0 <= x < 2 ^ 8 -> u8 x = x.
Proof. apply Z.mod_small. Qed.
Lemma u16_id x : 0 <= x < 2 ^ 16 -> u16 x = x.
Proof. apply Z.mod_small. Qed.
Lemma u32_id x : 0 <= x < 2 ^ 32 -> u32 x = x.
Proof. apply Z.mod_small. Qed.

(** ** Bit fields

    A field of [f_wid] bits that starts [f_off] bits above the least
    significant bit of its storage word. *)

Record field := Fld { f_off : Z; f_wid : Z }.

Definition fget (f : field) (x : Z) : Z :=
  Z.land (Z.shiftr x (f_off f)) (Z.ones (f_wid f)).

(** Assignment to a bit field: the value is truncated to the width. *)
Definition fset (f : field) (v x : Z) : Z :=
  Z.lor (Z.ldiff x (Z.shiftl (Z.ones (f_wid f)) (f_off f)))
        (Z.shiftl (Z.land v (Z.ones (f_wid f))) (f_off f)).

Definition fld_ok (f : field) : Prop := 0 <= f_off f /\ 0 <= f_wid f.
(** Two fields of one word that do not overlap. *)
Definition fld_disj (f g : field) : Prop :=
  f_off f + f_wid f <= f_off g \/ f_off g + f_wid g <= f_off f.

Lemma ones_testbit n i : 0 <= n -> 0 <= i -> Z.testbit (Z.ones n) i = (i <? n).
Proof.
  intros Hn Hi. destruct (i <? n) eqn:E.
  - apply Z.ltb_lt in E. apply Z.ones_spec_low. lia.
  - apply Z.ltb_ge in E. apply Z.ones_spec_high. lia.
Qed.

Lemma fget_testbit f x i :
  fld_ok f -> 0 <= i ->
  Z.testbit (fget f x) i = Z.testbit x (i + f_off f) && (i <? f_wid f).
Proof.
  intros [? ?] Hi. unfold fget.
  rewrite Z.land_spec, Z.shiftr_spec, ones_testbit by lia. done.
Qed.

Lemma fset_testbit f v x i :
  fld_ok f -> 0 <= i ->
  Z.testbit (fset f v x) i =
  if (f_off f <=? i) && (i <? f_off f + f_wid f)
  then Z.testbit v (i - f_off f) else Z.testbit x i.
Proof.
  intros [? ?] Hi. unfold fset. rewrite Z.lor_spec, Z.ldiff_spec.
  rewrite !Z.shiftl_spec by lia.
  destruct (Z.leb_spec (f_off f) i) as [Hle|Hlt]; cbn.
  - rewrite Z.land_spec, !ones_testbit by lia.
    destruct (Z.ltb_spec (i - f_off f) (f_wid f)) as [Hlt'|Hge];
      destruct (Z.ltb_spec i (f_off f + f_wid f)); try lia;
      destruct (Z.testbit x i), (Z.testbit v (i - f_off f)); done.
  - rewrite !(Z.testbit_neg_r _ (i - f_off f)) by lia.
    destruct (Z.testbit x i); done.
Qed.

Lemma fget_range f x : fld_ok f -> 0 <= fget f x < 2 ^ f_wid f.
Proof.
  intros [? ?]. unfold fget. rewrite Z.land_ones by lia.
  apply Z.mod_pos_bound. lia.
Qed.

Lemma fget_fset_eq f v x : fld_ok f -> fget f (fset f v x) = v mod 2 ^ f_wid f.
Proof.
  intros Hf. pose proof Hf as [? ?]. rewrite <- Z.land_ones by lia.
  apply Z.bits_inj'. intros i Hi.
  rewrite fget_testbit, fset_testbit, Z.land_spec, ones_testbit by (done || lia).
  replace (i + f_off f - f_off f) with i by lia.
  destruct (Z.leb_spec (f_off f) (i + f_off f)); [|lia].
  destruct (Z.ltb_spec (i + f_off f) (f_off f + f_wid f)), (Z.ltb_spec i (f_wid f));
    try lia; cbn; rewrite ?andb_true_r, ?andb_false_r; done.
Qed.

Lemma fget_fset_ne f g v x :
  fld_ok f -> fld_ok g -> fld_disj f g -> fget f (fset g v x) = fget f x.
Proof.
  intros Hf Hg Hd. pose proof Hf as [? ?]. pose proof Hg as [? ?].
  apply Z.bits_inj'. intros i Hi.
  rewrite !fget_testbit, fset_testbit by (done || lia).
  destruct (Z.ltb_spec i (f_wid f)); rewrite ?andb_true_r, ?andb_false_r; [|done].
  destruct (Z.leb_spec (f_off g) (i + f_off f)),
    (Z.ltb_spec (i + f_off f) (f_off g + f_wid g)); cbn; try done.
  destruct Hd; lia.
Qed.

(** The last of two assignments to a field stays. *)
Lemma fset_fset f v w x : fld_ok f -> fset f v (fset f w x) = fset f v x.
Proof.
  intros Hf. apply Z.bits_inj'. intros i Hi. rewrite !fset_testbit by done.
  by destruct ((f_off f <=? i) && (i <? f_off f + f_wid f)).
Qed.

Lemma fset_range f v x n :
  fld_ok f -> f_off f + f_wid f <= n -> 0 <= x < 2 ^ n -> 0 <= fset f v x < 2 ^ n.
Proof.
  intros Hf Hn [Hx0 Hx]. pose proof Hf as [? ?].
  assert (Hpos : 0 <= fset f v x).
  { unfold fset. apply Z.lor_nonneg. split.
    - apply Z.ldiff_nonneg. lia.
    - apply Z.shiftl_nonneg, Z.land_nonneg. right.
      rewrite Z.ones_equiv. pose proof (Z.pow_pos_nonneg 2 (f_wid f)). lia. }
  split; [done|].
  destruct (Z.eq_dec (fset f v x) 0) as [->|Hnz]; [lia|].
  apply Z.log2_lt_pow2; [lia|].
  destruct (Z.lt_ge_cases (Z.log2 (fset f v x)) n) as [|Hge]; [done|].
  exfalso. pose proof (Z.log2_nonneg (fset f v x)).
  pose proof (Z.bit_log2 (fset f v x) ltac:(lia)) as Hb.
  rewrite fset_testbit in Hb by (done || lia).
  destruct (Z.ltb_spec (Z.log2 (fset f v x)) (f_off f + f_wid f)); [lia|].
  rewrite andb_false_r in Hb.
  revert Hb Hge. generalize (Z.log2 (fset f v x)). intros k Hb Hge.
  rewrite <- (Z.mod_small x (2 ^ n)), Z.mod_pow2_bits_high in Hb by lia. done.
Qed.

(** Field reads after field writes are decided by computation on the
    (closed) field descriptors: the rewriting tactic [fld] does both cases. *)
Ltac fld_side :=
  match goal with
  | |- fld_ok _ => unfold fld_ok; cbn; lia
  | |- fld_disj _ _ => unfold fld_disj; cbn; lia
  end.
Ltac fld :=
  repeat first
    [ rewrite fget_fset_eq by fld_side
    | rewrite fget_fset_ne by fld_side ].

(** ** Effectful code

    C functions that touch static variables, devices or other kernel code
    are state transformers.  [Fault] is behaviour the C standard does not
    define (or a kernel panic); loops whose bound is not syntactic carry fuel,
    and running out of it is the fault [OutOfFuel]. *)

Inductive fault :=
  | OutOfFuel      (* the loop did not finish within its fuel *)
  | NullDeref      (* a NULL or dangling pointer is dereferenced *)
  | OutOfBounds    (* an array is accessed outside its bounds *)
  | TimerAddedTwice (* add_timer() on a timer that is already queued *)
  | Uninit         (* the value of an uninitialised object is used *)
  | Panic          (* an assertion failed or panic() was called *)
  | Exit (code : Z) (* the process called exit() *)
  | Blocked.       (* the process sleeps, and nothing wakes it *)

Inductive outcome (S A : Type) :=
  | Done (a : A) (s : S)
  | Fault (f : fault).
Arguments Done {S A} _ _.
Arguments Fault {S A} _.

Definition eff (S A : Type) : Type := S -> outcome S A.

#[global] Instance eff_ret {S} : MRet (eff S) := fun A a s => Done a s.
#[global] Instance eff_bind {S} : MBind (eff S) := fun A B f m s =>
  match m s with Done a s' => f a s' | Fault e => Fault e end.

Definition fail {S A} (f : fault) : eff S A := fun _ => Fault f.
Definition gets {S A} (g : S -> A) : eff S A := fun s => Done (g s) s.
Definition modify {S} (g : S -> S) : eff S unit := fun s => Done tt (g s).
(** A total function of the state that also returns a value. *)
Definition run {S A} (g : S -> A * S) : eff S A := fun s => Done (g s).1 (g s).2.
Definition skip {S} : eff S unit := fun s => Done tt s.
Definition when {S} (b : bool) (m : eff S unit) : eff S unit := if b then m else skip.

(** Run a computation on one part of the state. *)
Definition zoom {S T A} (get : S -> T) (set : T -> S -> S) (m : eff T A) : eff S A :=
  fun s => match m (get s) with Done a t => Done a (set t s) | Fault e => Fault e end.

(** A value the C code reads from an array or through a pointer. *)
Definition the {S A} (e : fault) (o : option A) : eff S A :=
  match o with Some a => mret a | None => fail e end.

(** [for] loops over an explicit list of values. *)
Fixpoint for_each {S A} (l : list A) (body : A -> eff S unit) : eff S unit :=
  match l with
  | [] => skip
  | x :: l' => body x ;; for_each l' body
  end.

(** ** Weakest preconditions

    [wp m Q s]: run in [s], [m] does not fault and its result and final state
    satisfy [Q]. *)

Definition wp {S A} (m : eff S A) (Q : A -> S -> Prop) (s : S) : Prop :=
  match m s with Done a s' => Q a s' | Fault _ => False end.

Section wp_rules.
Context {S A B : Type}.
Implicit Types (s : S) (m : eff S A) (Q : A -> S -> Prop).

Lemma wp_done m Q s : wp m Q s <-> exists a s', m s = Done a s' /\ Q a s'.
Proof.
  unfold wp. destruct (m s) as [a s'|e]; split.
  - intros HQ. by exists a, s'.
  - intros (a' & s'' & [= -> ->] & HQ). done.
  - done.
  - intros (? & ? & ? & _). done.
Qed.

Lemma wp_ret (a : A) Q s : wp (mret a) Q s <-> Q a s.
Proof. done. Qed.

Lemma wp_bind m (f : A -> eff S B) (Q : B -> S -> Prop) s :
  wp (m ≫= f) Q s <-> wp m (fun a s' => wp (f a) Q s') s.
Proof. unfold wp, mbind, eff_bind. destruct (m s); done. Qed.

Lemma wp_mono m (P Q : A -> S -> Prop) s :
  wp m P s -> (forall a s', P a s' -> Q a s') -> wp m Q s.
Proof. unfold wp. destruct (m s); [|done]. intros HP HPQ. by apply HPQ. Qed.

Lemma wp_and m (P Q : A -> S -> Prop) s :
  wp m P s -> wp m Q s -> wp m (fun a s' => P a s' /\ Q a s') s.
Proof. unfold wp. destruct (m s); [by split|done]. Qed.

Lemma wp_gets (g : S -> A) Q s : wp (gets g) Q s <-> Q (g s) s.
Proof. done. Qed.

Lemma wp_modify (g : S -> S) (Q : unit -> S -> Prop) s :
  wp (modify g) Q s <-> Q tt (g s).
Proof. done. Qed.

Lemma wp_run (g : S -> A * S) Q s : wp (run g) Q s <-> Q (g s).1 (g s).2.
Proof. done. Qed.

Lemma wp_skip (Q : unit -> S -> Prop) s : wp skip Q s <-> Q tt s.
Proof. done. Qed.

Lemma wp_if (b : bool) (m1 m2 : eff S A) Q s :
  wp (if b then m1 else m2) Q s <->
  (b = true -> wp m1 Q s) /\ (b = false -> wp m2 Q s).
Proof. destruct b; split; [by intros|by intros [H _]; apply H|by intros|by intros [_ H]; apply H]. Qed.

Lemma wp_when (b : bool) (m : eff S unit) (Q : unit -> S -> Prop) s :
  wp (when b m) Q s <-> (b = true -> wp m Q s) /\ (b = false -> Q tt s).
Proof. destruct b; split; [by intros|by intros [H _]; apply H|by intros|by intros [_ H]; apply H]. Qed.

Lemma wp_the e (o : option A) Q s :
  wp (the e o) Q s <-> exists a, o = Some a /\ Q a s.
Proof.
  destruct o as [a|]; unfold the; split.
  - intros HQ. by exists a.
  - by intros (? & [= ->] & ?).
  - done.
  - by intros (? & ? & ?).
Qed.

Lemma wp_zoom {T} (get : S -> T) set (m : eff T A) Q s :
  wp (zoom get set m) Q s <-> wp m (fun a t => Q a (set t s)) (get s).
Proof. unfold wp, zoom. destruct (m (get s)); done. Qed.

Lemma wp_fail e Q s : wp (fail e : eff S A) Q s <-> False.
Proof. done. Qed.

(** Rule for loops over a list: the invariant is indexed by what is done. *)
Lemma wp_for_each {X} (body : X -> eff S unit) (I : list X -> S -> Prop)
    (l done_l : list X) s :
  I done_l s ->
  (forall pre x post s', l = pre ++ x :: post -> I (done_l ++ pre) s' ->
     wp (body x) (fun _ s'' => I (done_l ++ pre ++ [x]) s'') s') ->
  wp (for_each l body) (fun _ s' => I (done_l ++ l) s') s.
Proof.
  revert done_l s. induction l as [|x l IH]; intros done_l s HI Hstep; cbn.
  { unfold wp, skip. by rewrite app_nil_r. }
  unfold wp, mbind, eff_bind.
  pose proof (Hstep [] x l s eq_refl) as Hx. rewrite app_nil_r in Hx.
  specialize (Hx HI). unfold wp in Hx. destruct (body x s) as [[] s'|]; [|done].
  specialize (IH (done_l ++ [x]) s' Hx).
  replace (done_l ++ x :: l) with ((done_l ++ [x]) ++ l) by (by rewrite <- app_assoc).
  apply IH. intros pre y post s1 -> HI1. rewrite <- app_assoc.
  apply (Hstep (x :: pre) y post s1 eq_refl). by rewrite <- app_assoc in HI1.
Qed.
End wp_rules.

Create Rewrite HintDb wp.
#[global] Hint Rewrite @wp_ret @wp_bind @wp_gets @wp_modify @wp_run @wp_skip @wp_zoom : wp.

(** Symbolic execution of straight-line code; [wp_call] uses the
    specification of a callee. *)
Ltac wp_go := repeat (progress (autorewrite with wp; cbn beta)).
Ltac wp_call lem := eapply wp_mono; [eapply lem | cbn beta].

(** [wpl]: the same up to fuel; loops whose length is up to a device may
    run out of it. *)
Definition wpl {S A} (m : eff S A) (Q : A -> S -> Prop) (s : S) : Prop :=
  match m s with Done a s' => Q a s' | Fault f => f = OutOfFuel end.

Lemma wp_wpl {S A} (m : eff S A) Q s : wp m Q s -> wpl m Q s.
Proof. unfold wp, wpl. by destruct (m s). Qed.
Lemma wpl_bind {S A B} (m : eff S A) (f : A -> eff S B) (Q : B -> S -> Prop) s :
  wpl m (fun a s' => wpl (f a) Q s') s -> wpl (m ≫= f) Q s.
Proof. unfold wpl, mbind, eff_bind. by destruct (m s). Qed.
Lemma wpl_mono {S A} (m : eff S A) (Q R : A -> S -> Prop) s :
  wpl m Q s -> (forall a s', Q a s' -> R a s') -> wpl m R s.
Proof. unfold wpl. destruct (m s); [|done]. intros HQ HR. by apply HR. Qed.

(** ** Preservation of a state predicate *)

Definition preserves {S A} (I : S -> Prop) (m : eff S A) : Prop :=
  forall s, I s -> wp m (fun _ s' => I s') s.

Create HintDb pres.

Section preserves_rules.
Context {S A B : Type} (I : S -> Prop).

Lemma preserves_ret (a : A) : preserves I (mret a).
Proof. by intros s Hs. Qed.
Lemma preserves_skip : preserves I skip.
Proof. by intros s Hs. Qed.
Lemma preserves_gets (g : S -> A) : preserves I (gets g).
Proof. by intros s Hs. Qed.
Lemma preserves_modify g : (forall s, I s -> I (g s)) -> preserves I (modify g).
Proof. intros H s Hs. by apply H. Qed.
Lemma preserves_bind (m : eff S A) (f : A -> eff S B) :
  preserves I m -> (forall a, preserves I (f a)) -> preserves I (m ≫= f).
Proof.
  intros Hm Hf s Hs. apply wp_bind. eapply wp_mono; [by apply Hm|].
  intros a s' Hs'. by apply Hf.
Qed.
Lemma preserves_if (b : bool) (m1 m2 : eff S A) :
  preserves I m1 -> preserves I m2 -> preserves I (if b then m1 else m2).
Proof. by destruct b. Qed.
Lemma preserves_when b (m : eff S unit) : preserves I m -> preserves I (when b m).
Proof. destruct b; [done|]. intros. apply preserves_skip. Qed.
End preserves_rules.

Section preserves_loops.
Context {S : Type} (I : S -> Prop).

Lemma preserves_for_each {X} (l : list X) (body : X -> eff S unit) :
  (forall x, preserves I (body x)) -> preserves I (for_each l body).
Proof.
  intros Hb. induction l as [|x l IH]; cbn; [apply preserves_skip|].
  apply preserves_bind; [apply Hb | done].
Qed.
Lemma preserves_impl {A} (m : eff S A) (Q : A -> S -> Prop) s :
  preserves I m -> I s -> (forall a s', I s' -> Q a s') -> wp m Q s.
Proof. intros Hm Hs HQ. eapply wp_mono; [by apply Hm|]. cbn. intros a s'. apply HQ. Qed.
End preserves_loops.

#[export] Hint Resolve preserves_ret preserves_skip preserves_gets preserves_bind
  preserves_if preserves_when preserves_for_each : pres.

(** ** Error numbers of asm/errno.h *)

Definition EPERM : Z := 1.
Definition EINTR : Z := 4.
Definition EIO : Z := 5.
Definition ENXIO : Z := 6.
Definition EAGAIN : Z := 11.
Definition EFAULT : Z := 14.
Definition EBUSY : Z := 16.
Definition EINVAL : Z := 22.

(** ** Lists and options shared by the components *)

Lemma list_lookup_total_Z {A} (l : list A) (i : Z) :
  0 <= i < Z.of_nat (length l) -> is_Some (l !! Z.to_nat i).
Proof. intros. apply lookup_lt_is_Some. lia. Qed.
