(* ===== verification/CanTypes.v ===== *)
(** * can.h: identifiers, headers and packets of the CAN

    The unions of can.h are kept as their storage words: [can_header] is the
    16-bit word of [can_b], [can_header_ext] the 32-bit word of [ext_dat] and
    [can_dat] the 32-bit word of [dat].  The bit fields of both headers are
    [field] descriptors of those words; SPARC is big-endian and its compiler
    allocates bit fields from the most significant bit down, so the first
    member of each struct is the top field. *)

From stdpp Require Import prelude list numbers.
From Stdlib Require Import ZArith Lia.
From S2P Require Import Prelude.

(** ** ioctl commands *)
Inductive can_cmd :=
  | CAN_GET_CONSOBJ | CAN_GET_ADDR | CAN_SET_PROMISCUOUS | CAN_CLR_PROMISCUOUS
  | CAN_GET_HEARTBEAT | CAN_SET_HEARTBEAT | CAN_SET_RESET | CAN_SET_DEBUG
  | CAN_CLR_DEBUG | CAN_SET_SNOOPY | CAN_CLR_SNOOPY
  | CAN_OTHER (cmd : Z).

(** ** Constants *)
Definition HZ : Z := 100.
Definition HB_CAN_RUNNING : Z := 0x07.
Definition HB_INTERVAL : Z := 250 * HZ / 1000.
Definition HB_IAM_FACTOR : Z := 0x77.
Definition CANCON_ACK_TIMEOUT : Z := 500 * HZ / 1000.

Definition CAN_HIGH_PRIORITY : Z := 0.
Definition CAN_MODULE_H8 : Z := 0x1d.

Definition CANTYPE_RO : Z := 0.
Definition CANTYPE_WO : Z := 1.
Definition CANTYPE_WNA : Z := 2.
Definition CANTYPE_DAT : Z := 3.
Definition CANTYPE_ACK : Z := 4.
Definition CANTYPE_NAK : Z := 6.
Definition CANTYPE_SIG : Z := 7.

Definition CANOBJ_HEARTBEAT : Z := 0x31.
Definition CANOBJ_IAM : Z := 0x76.
Definition CANOBJ_CONSMIN : Z := 0x100.
Definition CANOBJ_CONSMAX : Z := 0x1ff.
Definition CANOBJ_FORCE_DISCONN : Z := 0x3ef.
Definition CANOBJ_CONSOLE_CONNECT : Z := 0x3f0.
Definition CANOBJ_CONSOLE_DISCONN : Z := 0x3f1.
Definition CANOBJ_BREAK : Z := 0x3f3.
Definition CANOBJ_AUTOBOOT : Z := 0x3e3.
Definition CANOBJ_RESET_IO : Z := 0x3f2.
Definition CANOBJ_BOOT_DEV : Z := 0x3f4.
Definition CANOBJ_TESTRW : Z := 0x3ff.

Definition CAN_MAX_USECOUNT : Z := 256.

(** ** Node addresses *)
Definition UNPACK_NODE (id : Z) : Z := Z.land id 0x1f.
Definition UNPACK_MODULE (id : Z) : Z := Z.land (Z.shiftr id 6) 0x1f.
Definition UNPACK_CLUSTER (id : Z) : Z := Z.land (Z.shiftr id 12) 0x1f.
Definition CAN_GET_BOARD_H8 (node : Z) : Z := Z.shiftr node 2 + 0x10.

Definition CAN_VALID_CONSOBJ (c : Z) : bool :=
  (CANOBJ_CONSMIN <=? c) && (c <=? CANOBJ_CONSMAX).

(** ** can_header: 16 bits *)
Module Can.
Definition lpriority := Fld 15 1.
Definition dest := Fld 10 5.
Definition src := Fld 5 5.
Definition remote := Fld 4 1.
Definition length := Fld 0 4.
Definition fields := [lpriority; dest; src; remote; length].
End Can.

(** ** can_header_ext: 32 bits *)
Module Ext.
Definition xpriority := Fld 31 1.
Definition type := Fld 28 3.
Definition cluster := Fld 22 6.
Definition module := Fld 16 6.
Definition node := Fld 10 6.
Definition object := Fld 0 10.
Definition fields := [xpriority; type; cluster; module; node; object].
End Ext.

(** A CAN packet: [struct can_packet]. *)
Record can_packet := CanPacket {
  timestamp : Z;   (* uint32_t, jiffies when received *)
  can : Z;         (* can_header, uint16_t *)
  ext : Z;         (* can_header_ext, uint32_t *)
  dat : Z          (* can_dat, uint32_t *)
}.

#[global] Instance can_packet_eq_dec : EqDecision can_packet.
Proof. solve_decision. Defined.

Definition set_timestamp (v : Z) (p : can_packet) : can_packet :=
  CanPacket v (can p) (ext p) (dat p).
Definition set_can (v : Z) (p : can_packet) : can_packet :=
  CanPacket (timestamp p) v (ext p) (dat p).
Definition set_ext (v : Z) (p : can_packet) : can_packet :=
  CanPacket (timestamp p) (can p) v (dat p).
Definition set_dat (v : Z) (p : can_packet) : can_packet :=
  CanPacket (timestamp p) (can p) (ext p) v.

(** [p->can.can.f] and [p->ext.ext.f], read and assigned. *)
Definition canf (f : field) (p : can_packet) : Z := fget f (can p).
Definition extf (f : field) (p : can_packet) : Z := fget f (ext p).
Definition set_canf (f : field) (v : Z) (p : can_packet) : can_packet :=
  set_can (fset f v (can p)) p.
Definition set_extf (f : field) (v : Z) (p : can_packet) : can_packet :=
  set_ext (fset f v (ext p)) p.

(** The storage of a packet has the width of its C members. *)
Definition pkt_ok (p : can_packet) : Prop :=
  0 <= timestamp p < 2 ^ 32 /\ 0 <= can p < 2 ^ 16 /\
  0 <= ext p < 2 ^ 32 /\ 0 <= dat p < 2 ^ 32.

Definition zero_packet : can_packet := CanPacket 0 0 0 0.

(** ** Bytewise access, as used for the copies to and from the chip

    [byte_of n i w]: member [i] of the [uint8_t] array that overlays the
    [n]-byte word [w] (big-endian: index 0 is the most significant byte). *)
Definition byte_of (n i : Z) (w : Z) : Z := Z.land (Z.shiftr w (8 * (n - 1 - i))) 0xff.
(** Assignment to that array member. *)
Definition set_byte (n i : Z) (v w : Z) : Z := fset (Fld (8 * (n - 1 - i)) 8) v w.

Definition can_b (i : Z) (p : can_packet) : Z := byte_of 2 i (can p).
Definition ext_b (i : Z) (p : can_packet) : Z := byte_of 4 i (ext p).
Definition dat_b (i : Z) (p : can_packet) : Z := byte_of 4 i (dat p).
Definition set_can_b (i v : Z) (p : can_packet) : can_packet :=
  set_can (set_byte 2 i v (can p)) p.
Definition set_ext_b (i v : Z) (p : can_packet) : can_packet :=
  set_ext (set_byte 4 i v (ext p)) p.
Definition set_dat_b (i v : Z) (p : can_packet) : can_packet :=
  set_dat (set_byte 4 i v (dat p)) p.

(** [sizeof(struct can_packet)]: the 16-bit header is followed by two bytes
    of padding, so that the 32-bit members are aligned. *)
Definition sizeof_can_header_ext : Z := 4.
Definition sizeof_can_dat : Z := 4.
Definition PKTSIZE : Z := 16.

(** Layout of a struct: offset of each member given (size, alignment). *)
Fixpoint offsets (at_ : Z) (members : list (Z * Z)) : list Z :=
  match members with
  | [] => []
  | (size, align) :: ms =>
      let off := (at_ + align - 1) / align * align in
      off :: offsets (off + size) ms
  end.

(** can_checkalign() on the offsets of timestamp, can, ext and dat. *)
Definition can_checkalign (offs : list Z) : Z :=
  match offs with
  | [o_ts; o_can; o_ext; o_dat] =>
      if negb (o_ts + 4 =? o_can) then -1
      else if negb (o_can + 4 =? o_ext) then -1
      else if negb (o_ext + 4 =? o_dat) then -1
      else 0
  | _ => -1
  end.
Definition can_packet_offsets : list Z := offsets 0 [(4, 4); (2, 2); (4, 4); (4, 4)].

(** CANCON_UNCONNECTED(x): the third conjunct repeats the cluster. *)
Definition CANCON_UNCONNECTED (x : Z) : bool :=
  (fget Ext.cluster x =? 0x3f) && (fget Ext.module x =? 0x3f)
  && (fget Ext.cluster x =? 0x3f).

(** The connection word after cancon_setcon(NULL). *)
Definition disconnected (rmt : Z) : Z :=
  fset Ext.object 0x3f (fset Ext.node 0x3f (fset Ext.module 0x3f (fset Ext.cluster 0x3f rmt))).

(** ** 82C200 registers and their bits *)
Inductive creg :=
  | control | command | status | interrupt | accept_code | accept_mask
  | bus_timing0 | bus_timing1 | out_control | test
  | txdb1 | txdb2 | tx0 | tx1 | tx2 | tx3 | tx4 | tx5 | tx6 | tx7
  | rxdb1 | rxdb2 | rx0 | rx1 | rx2 | rx3 | rx4 | rx5 | rx6 | rx7
  | clock_div.

#[global] Instance creg_eq_dec : EqDecision creg.
Proof. solve_decision. Defined.

Definition CAN_CONTROL_RESET : Z := 0x01.
Definition CAN_CONTROL_RIE : Z := 0x02.
Definition CAN_CONTROL_TIE : Z := 0x04.
Definition CAN_CONTROL_EIE : Z := 0x08.
Definition CAN_CONTROL_OIE : Z := 0x10.
Definition CAN_COMMAND_TRANSMIT : Z := 0x01.
Definition CAN_COMMAND_CLR_RECV : Z := 0x04.
Definition CAN_COMMAND_CLR_OVERRUN : Z := 0x08.
Definition CAN_STATUS_RECV_AVAIL : Z := 0x01.
Definition CAN_STATUS_OVERRUN : Z := 0x02.
Definition CAN_STATUS_XMIT_AVAIL : Z := 0x04.
Definition CAN_STATUS_ERROR_STAT : Z := 0x40.
Definition CAN_STATUS_BUS_STAT : Z := 0x80.

(** Byte register [r] in the 4-byte-per-register map of [struct can_reg]:
    [LONG_LSB(x)] places the byte at the end of its long word. *)
Definition creg_index (r : creg) : Z :=
  match r with
  | control => 0 | command => 1 | status => 2 | interrupt => 3 | accept_code => 4
  | accept_mask => 5 | bus_timing0 => 6 | bus_timing1 => 7 | out_control => 8
  | test => 9 | txdb1 => 10 | txdb2 => 11 | tx0 => 12 | tx1 => 13 | tx2 => 14
  | tx3 => 15 | tx4 => 16 | tx5 => 17 | tx6 => 18 | tx7 => 19 | rxdb1 => 20
  | rxdb2 => 21 | rx0 => 22 | rx1 => 23 | rx2 => 24 | rx3 => 25 | rx4 => 26
  | rx5 => 27 | rx6 => 28 | rx7 => 29 | clock_div => 31
  end.
Definition creg_offset (r : creg) : Z := 4 * creg_index r + 3.

(** ** Lemmas on words and bytes *)

Definition be_word (bs : list Z) : Z := fold_left (fun acc b => acc * 256 + b) bs 0.

Definition bytes_of (n : Z) (w : Z) : list Z :=
  map (fun i => byte_of n (Z.of_nat i) w) (seq 0 (Z.to_nat n)).

Lemma byte_of_fget n i w : byte_of n i w = fget (Fld (8 * (n - 1 - i)) 8) w.
Proof. done. Qed.

Lemma byte_of_div n i w : 0 <= n - 1 - i ->
  byte_of n i w = (w / 2 ^ (8 * (n - 1 - i))) mod 256.
Proof.
  intros. unfold byte_of. change 0xff with (Z.ones 8).
  by rewrite Z.land_ones, Z.shiftr_div_pow2 by lia.
Qed.

Lemma byte_of_range n i w : 0 <= n - 1 - i -> 0 <= byte_of n i w < 2 ^ 8.
Proof. intros. rewrite byte_of_div by done. apply Z.mod_pos_bound. lia. Qed.

Lemma be_word_bytes2 w : 0 <= w < 2 ^ 16 -> be_word [byte_of 2 0 w; byte_of 2 1 w] = w.
Proof.
  intros Hw. unfold be_word. cbn [fold_left]. rewrite !byte_of_div by lia. cbn [Z.sub Z.mul].
  change (2 ^ (8 * (2 - 1 - 0))) with 256. change (2 ^ (8 * (2 - 1 - 1))) with 1.
  rewrite Z.div_1_r. Z.to_euclidean_division_equations. lia.
Qed.

Lemma be_word_bytes4 w : 0 <= w < 2 ^ 32 ->
  be_word [byte_of 4 0 w; byte_of 4 1 w; byte_of 4 2 w; byte_of 4 3 w] = w.
Proof.
  intros Hw. unfold be_word. cbn [fold_left]. rewrite !byte_of_div by lia.
  change (2 ^ (8 * (4 - 1 - 0))) with 16777216. change (2 ^ (8 * (4 - 1 - 1))) with 65536.
  change (2 ^ (8 * (4 - 1 - 2))) with 256. change (2 ^ (8 * (4 - 1 - 3))) with 1.
  rewrite Z.div_1_r. Z.to_euclidean_division_equations. lia.
Qed.

(** A word is determined by its bytes. *)
Lemma word2_ext w w' : 0 <= w < 2 ^ 16 -> 0 <= w' < 2 ^ 16 ->
  (forall i, 0 <= i < 2 -> byte_of 2 i w = byte_of 2 i w') -> w = w'.
Proof.
  intros Hw Hw' E. rewrite <- (be_word_bytes2 w), <- (be_word_bytes2 w') by done.
  by rewrite !E by lia.
Qed.
Lemma word4_ext w w' : 0 <= w < 2 ^ 32 -> 0 <= w' < 2 ^ 32 ->
  (forall i, 0 <= i < 4 -> byte_of 4 i w = byte_of 4 i w') -> w = w'.
Proof.
  intros Hw Hw' E. rewrite <- (be_word_bytes4 w), <- (be_word_bytes4 w') by done.
  by rewrite !E by lia.
Qed.

Lemma byte_of_set_byte_eq n i v w :
  0 <= n - 1 - i -> 0 <= v < 2 ^ 8 -> byte_of n i (set_byte n i v w) = v.
Proof.
  intros. rewrite byte_of_fget. unfold set_byte.
  rewrite fget_fset_eq by (unfold fld_ok; cbn; lia). by apply Z.mod_small.
Qed.
Lemma byte_of_set_byte_ne n i j v w :
  0 <= n - 1 - i -> 0 <= n - 1 - j -> i <> j ->
  byte_of n i (set_byte n j v w) = byte_of n i w.
Proof.
  intros. rewrite !byte_of_fget. unfold set_byte.
  apply fget_fset_ne; unfold fld_ok, fld_disj; cbn; lia.
Qed.
Lemma set_byte_range n i v w :
  0 <= n - 1 - i -> 0 <= i -> 0 <= w < 2 ^ (8 * n) -> 0 <= set_byte n i v w < 2 ^ (8 * n).
Proof. intros. apply fset_range; unfold fld_ok; cbn; lia. Qed.

(** Bytewise assignment of all bytes of a word replaces it. *)
Lemma set_bytes2 v w : 0 <= w < 2 ^ 16 -> 0 <= v < 2 ^ 16 ->
  set_byte 2 1 (byte_of 2 1 v) (set_byte 2 0 (byte_of 2 0 v) w) = v.
Proof.
  intros Hw Hv. apply word2_ext; [|done|].
  - apply (set_byte_range 2); [lia..|]. by apply (set_byte_range 2); [lia..|].
  - intros i Hi. assert (i = 0 \/ i = 1) as [->| ->] by lia;
      repeat first [ rewrite byte_of_set_byte_eq by (lia || (apply byte_of_range; lia))
                   | rewrite byte_of_set_byte_ne by lia ]; done.
Qed.

Lemma set_bytes4 v w : 0 <= w < 2 ^ 32 -> 0 <= v < 2 ^ 32 ->
  set_byte 4 3 (byte_of 4 3 v) (set_byte 4 2 (byte_of 4 2 v)
    (set_byte 4 1 (byte_of 4 1 v) (set_byte 4 0 (byte_of 4 0 v) w))) = v.
Proof.
  intros Hw Hv. apply word4_ext; [|done|].
  - repeat (apply (set_byte_range 4); [lia..|]). done.
  - intros i Hi. assert (i = 0 \/ i = 1 \/ i = 2 \/ i = 3) as [->|[->|[->| ->]]] by lia;
      repeat first [ rewrite byte_of_set_byte_eq by (lia || (apply byte_of_range; lia))
                   | rewrite byte_of_set_byte_ne by lia ]; done.
Qed.

(** ** Packets keep the width of their members *)
Create HintDb pkt.

Lemma set_canf_ok f v p :
  fld_ok f -> f_off f + f_wid f <= 16 -> pkt_ok p -> pkt_ok (set_canf f v p).
Proof.
  intros Hf Hw (?&?&?&?). unfold pkt_ok; cbn. refine (conj _ (conj _ (conj _ _))); try done; by apply fset_range.
Qed.
Lemma set_extf_ok f v p :
  fld_ok f -> f_off f + f_wid f <= 32 -> pkt_ok p -> pkt_ok (set_extf f v p).
Proof.
  intros Hf Hw (?&?&?&?). unfold pkt_ok; cbn. refine (conj _ (conj _ (conj _ _))); try done; by apply fset_range.
Qed.
Lemma set_timestamp_ok v p : pkt_ok p -> pkt_ok (set_timestamp (u32 v) p).
Proof.
  intros (?&?&?&?). unfold pkt_ok; cbn. refine (conj _ (conj _ (conj _ _))); try done; by apply u32_range.
Qed.
Lemma set_dat_ok v p : 0 <= v < 2 ^ 32 -> pkt_ok p -> pkt_ok (set_dat v p).
Proof. intros ? (?&?&?&?). unfold pkt_ok; cbn. lia. Qed.
Lemma set_ext_ok v p : 0 <= v < 2 ^ 32 -> pkt_ok p -> pkt_ok (set_ext v p).
Proof. intros ? (?&?&?&?). unfold pkt_ok; cbn. lia. Qed.

#[export] Hint Resolve set_canf_ok set_extf_ok set_timestamp_ok set_dat_ok set_ext_ok : pkt.
#[export] Hint Extern 1 (fld_ok _) => fld_side : pkt.
#[export] Hint Extern 1 (f_off _ + f_wid _ <= _) => cbn; lia : pkt.

(** What is on the wire: the two headers and the data. *)
Definition frame : Type := Z * Z * Z.
Definition frame_of (p : can_packet) : frame := (can p, ext p, dat p).
Definition frame_ok (f : frame) : Prop :=
  0 <= f.1.1 < 2 ^ 16 /\ 0 <= f.1.2 < 2 ^ 32 /\ 0 <= f.2 < 2 ^ 32.
