(* ===== verification/Ring.v ===== *)
(** * Ring buffers of can.h (ringbuf_t, cringbuf_t)

    Both ring types share their macros, so the model is generic in the
    element type.  The macros assign to the members of the ring and index its
    array; an index outside the array is the fault [OutOfBounds].

    Specification: a ring represents a list ([ring_rep]), insertion appends to
    it while it is shorter than [MAXRING - 1], removal takes its first
    element.  The clients are proved against the class [RingSpec]. *)

From stdpp Require Import prelude list numbers.
From Stdlib Require Import ZArith Lia.
From S2P Require Import Prelude.

Definition MAXRING : Z := 1024.

Record ring (A : Type) := Ring {
  buf : list A;
  head : Z;
  tail : Z;
  use_inlock : Z;
  use_outlock : Z
}.
Arguments Ring {A}. Arguments buf {A}. Arguments head {A}. Arguments tail {A}.
Arguments use_inlock {A}. Arguments use_outlock {A}.

Section ring_ops.
Context {A : Type}.
Implicit Types r : ring A.

Definition set_buf (b : list A) r := Ring b (head r) (tail r) (use_inlock r) (use_outlock r).
Definition set_head (h : Z) r := Ring (buf r) h (tail r) (use_inlock r) (use_outlock r).
Definition set_tail (t : Z) r := Ring (buf r) (head r) t (use_inlock r) (use_outlock r).

Definition RING_NEXT (n : Z) : Z := (n + 1) mod MAXRING.
Definition RING_FULL r : bool := RING_NEXT (head r) =? tail r.
Definition RING_EMPTY r : bool := head r =? tail r.
Definition RING_ROOM r : Z :=
  if tail r - head r <=? 0 then MAXRING - head r + tail r - 1
  else tail r - head r - 1.
Definition RING_INIT r : ring A := Ring (buf r) 0 0 0 0.
Definition RING_CLEAR r : ring A := Ring (buf r) 0 0 (use_inlock r) (use_outlock r).
Definition RING_INIT_INLOCK r : ring A := Ring (buf r) (head r) (tail r) 1 (use_outlock r).
Definition RING_SIZE r : Z :=
  if 0 <=? head r - tail r then head r - tail r else MAXRING - tail r + head r.

(** [RING_HEAD(rb) = x] *)
Definition RING_HEAD_set (x : A) : eff (ring A) unit :=
  h ← gets head;
  n ← gets (fun r => Z.of_nat (length (buf r)));
  if (0 <=? h) && (h <? n) then modify (fun r => set_buf (<[Z.to_nat h := x]> (buf r)) r)
  else fail OutOfBounds.
(** [x = RING_TAIL(rb)] *)
Definition RING_TAIL_get : eff (ring A) A :=
  t ← gets tail;
  if 0 <=? t then b ← gets buf; the OutOfBounds (b !! Z.to_nat t)
  else fail OutOfBounds.
Definition RING_HEADPP : eff (ring A) unit := modify (fun r => set_head (RING_NEXT (head r)) r).
Definition RING_TAILPP : eff (ring A) unit := modify (fun r => set_tail (RING_NEXT (tail r)) r).

Definition RING_IN (x : A) : eff (ring A) unit := RING_HEAD_set x ;; RING_HEADPP.
Definition RING_OUT : eff (ring A) A := x ← RING_TAIL_get; RING_TAILPP ;; mret x.
End ring_ops.

(** ** The list a ring represents *)

Section ring_rep.
Context {A : Type}.
Implicit Types (r : ring A) (q : list A).

(** [q] is what the ring holds, oldest element first. *)
Definition ring_rep r q : Prop :=
  length (buf r) = Z.to_nat MAXRING /\
  0 <= tail r < MAXRING /\
  (Z.of_nat (length q) < MAXRING) /\
  head r = (tail r + Z.of_nat (length q)) mod MAXRING /\
  forall i x, q !! i = Some x -> buf r !! Z.to_nat ((tail r + Z.of_nat i) mod MAXRING) = Some x.

Definition ring_ok r : Prop := exists q, ring_rep r q.

Lemma mod_ring x : 0 <= x < 2 * MAXRING ->
  x mod MAXRING = if x <? MAXRING then x else x - MAXRING.
Proof.
  intros Hx. destruct (Z.ltb_spec x MAXRING).
  - apply Z.mod_small. lia.
  - replace x with (x - MAXRING + 1 * MAXRING) at 1 by lia.
    rewrite Z.mod_add by done. apply Z.mod_small. lia.
Qed.

Lemma ring_rep_bounds r q : ring_rep r q ->
  0 <= head r < MAXRING /\ 0 <= tail r < MAXRING.
Proof.
  intros (_ & Ht & Hq & Hh & _). split; [|done].
  rewrite Hh. by apply Z.mod_pos_bound.
Qed.

Lemma ring_head_cases r q : ring_rep r q ->
  head r = (if tail r + Z.of_nat (length q) <? MAXRING
            then tail r + Z.of_nat (length q)
            else tail r + Z.of_nat (length q) - MAXRING).
Proof. intros (_ & Ht & Hq & -> & _). apply mod_ring. lia. Qed.

Lemma ring_next_cases n : 0 <= n < MAXRING ->
  RING_NEXT n = if n + 1 <? MAXRING then n + 1 else 0.
Proof.
  intros Hn. unfold RING_NEXT. rewrite mod_ring by lia.
  destruct (Z.ltb_spec (n + 1) MAXRING); lia.
Qed.

(** Case analysis on where head and tail are. *)
Ltac ring_arith H :=
  pose proof (ring_head_cases _ _ H); pose proof (ring_rep_bounds _ _ H);
  pose proof (proj1 (proj2 (proj2 H)));
  repeat match goal with
  | |- context [RING_NEXT ?n] => rewrite (ring_next_cases n) by lia
  | H : context [?a <? ?b] |- _ => destruct (Z.ltb_spec a b)
  | |- context [?a <? ?b] => destruct (Z.ltb_spec a b)
  | |- context [?a <=? ?b] => destruct (Z.leb_spec a b)
  | |- context [?a =? ?b] => destruct (Z.eqb_spec a b)
  end; unfold MAXRING in *; try lia; try done.

Lemma ring_size_rep r q : ring_rep r q -> RING_SIZE r = Z.of_nat (length q).
Proof. intros H. unfold RING_SIZE. ring_arith H. Qed.

Lemma ring_room_rep r q :
  ring_rep r q -> RING_ROOM r = MAXRING - 1 - Z.of_nat (length q).
Proof. intros H. unfold RING_ROOM. ring_arith H. Qed.

Lemma ring_full_rep r q :
  ring_rep r q -> RING_FULL r = (Z.of_nat (length q) =? MAXRING - 1).
Proof. intros H. unfold RING_FULL. ring_arith H. Qed.

Lemma ring_empty_rep r q : ring_rep r q -> RING_EMPTY r = bool_decide (q = []).
Proof.
  intros H. unfold RING_EMPTY. case_bool_decide as Hq.
  - subst q. ring_arith H; cbn in *; lia.
  - destruct q as [|x q]; [done|]. cbn in *. ring_arith H; cbn in *; lia.
Qed.

Lemma ring_rep_clear r q : ring_rep r q -> ring_rep (RING_CLEAR r) [].
Proof. intros (? & _). unfold ring_rep; cbn. repeat split; done. Qed.

Lemma ring_rep_inlock r q : ring_rep r q -> ring_rep (RING_INIT_INLOCK r) q.
Proof. done. Qed.

Lemma ring_rep_init r : length (buf r) = Z.to_nat MAXRING -> ring_rep (RING_INIT r) [].
Proof. intros ?. unfold ring_rep; cbn. repeat split; done. Qed.

Lemma ring_rep_functional r q1 q2 : ring_rep r q1 -> ring_rep r q2 -> q1 = q2.
Proof.
  intros H1 H2.
  assert (Hl : length q1 = length q2).
  { pose proof (ring_size_rep _ _ H1). pose proof (ring_size_rep _ _ H2). lia. }
  destruct H1 as (_ & _ & _ & _ & E1), H2 as (_ & _ & _ & _ & E2).
  apply list_eq. intros i. destruct (q1 !! i) as [x|] eqn:Ex.
  - destruct (lookup_lt_is_Some_2 q2 i) as [y Ey].
    { rewrite <- Hl. by eapply lookup_lt_Some. }
    pose proof (E1 _ _ Ex). pose proof (E2 _ _ Ey). congruence.
  - symmetry. apply lookup_ge_None. rewrite <- Hl. by apply lookup_ge_None.
Qed.
End ring_rep.

(** ** Insertion and removal

    The bodies of pkt_to_ring / char_to_ring and ring_to_pkt / ring_to_char:
    insertion returns 0 on a full ring, removal returns [None] (the C code: 0)
    on an empty one. *)

Section ring_put_get.
Context {A : Type}.
Implicit Types (r : ring A) (q : list A).

Definition ring_put (x : A) : eff (ring A) Z :=
  full ← gets RING_FULL;
  if (full : bool) then mret 0 else RING_IN x ;; mret 1.

Definition ring_get : eff (ring A) (option A) :=
  empty ← gets RING_EMPTY;
  if (empty : bool) then mret None else x ← RING_OUT; mret (Some x).

Lemma ring_rep_push r q x :
  ring_rep r q -> Z.of_nat (length q) < MAXRING - 1 ->
  ring_rep (set_head (RING_NEXT (head r))
              (set_buf (<[Z.to_nat (head r) := x]> (buf r)) r)) (q ++ [x]).
Proof.
  intros Hr Hlt. pose proof (ring_rep_bounds _ _ Hr) as [Hh Ht].
  pose proof Hr as (Hb & _ & Hq & Eh & El).
  unfold ring_rep; cbn. rewrite length_insert, length_app; cbn.
  split_and!; [done|lia|lia|lia| |].
  - unfold RING_NEXT. rewrite Eh, Zplus_mod_idemp_l. f_equal. lia.
  - intros i y Hi. apply lookup_app_Some in Hi as [Hi|[Hge Hi]].
    + rewrite list_lookup_insert_ne; [by apply El|].
      apply lookup_lt_Some in Hi. intros E.
      apply Z2Nat.inj in E; [|lia|apply Z.mod_pos_bound; done].
      revert E. rewrite Eh, !mod_ring by lia.
      repeat case_match; unfold MAXRING in *; lia.
    + apply list_lookup_singleton_Some in Hi as [Hi <-].
      replace (Z.of_nat i) with (Z.of_nat (length q)) by lia.
      rewrite <- Eh. apply list_lookup_insert_eq. unfold MAXRING in *. lia.
Qed.

Lemma ring_rep_pop r x q :
  ring_rep r (x :: q) -> ring_rep (set_tail (RING_NEXT (tail r)) r) q.
Proof.
  intros Hr. pose proof Hr as (Hb & Ht & Hq & Eh & El). cbn in Hq, Eh.
  unfold ring_rep; cbn. split_and!; [done| | |lia| |].
  - unfold RING_NEXT. apply Z.mod_pos_bound. done.
  - unfold RING_NEXT. apply Z.mod_pos_bound. done.
  - unfold RING_NEXT. rewrite Zplus_mod_idemp_l. rewrite Eh. f_equal. lia.
  - intros i y Hi. unfold RING_NEXT. rewrite Zplus_mod_idemp_l.
    rewrite <- (El (S i) y) by done. do 3 f_equal. lia.
Qed.

Lemma ring_put_spec x r q :
  ring_rep r q ->
  wp (ring_put x) (fun v r' =>
    if Z.of_nat (length q) <? MAXRING - 1
    then v = 1 /\ ring_rep r' (q ++ [x])
    else v = 0 /\ r' = r) r.
Proof.
  intros Hr. pose proof (ring_rep_bounds _ _ Hr) as [Hh _].
  pose proof Hr as (Hb & _ & Hq & _).
  unfold ring_put. wp_go. rewrite (ring_full_rep _ _ Hr).
  apply wp_if. split; intros Hf.
  - rewrite (proj2 (Z.ltb_ge _ _)) by lia. done.
  - rewrite (proj2 (Z.ltb_lt _ _)) by lia.
    unfold RING_IN, RING_HEAD_set, RING_HEADPP. wp_go.
    apply wp_if. split; [|lia]. intros _. wp_go. split; [done|].
    apply (ring_rep_push r q x); [done|lia].
Qed.

Lemma ring_get_spec r q :
  ring_rep r q ->
  wp ring_get (fun o r' =>
    match q with
    | [] => o = None /\ r' = r
    | x :: q' => o = Some x /\ ring_rep r' q'
    end) r.
Proof.
  intros Hr. pose proof (ring_rep_bounds _ _ Hr) as [_ Ht].
  unfold ring_get. wp_go. rewrite (ring_empty_rep _ _ Hr).
  apply wp_if. split; intros Hq.
  - apply bool_decide_eq_true in Hq. by subst q.
  - apply bool_decide_eq_false in Hq. destruct q as [|x q]; [done|].
    unfold RING_OUT, RING_TAIL_get, RING_TAILPP. wp_go.
    apply wp_if. split; [intros _|lia]. wp_go. apply wp_the.
    pose proof Hr as (_ & _ & _ & _ & El).
    specialize (El 0%nat x eq_refl). rewrite Z.add_0_r, Z.mod_small in El by done.
    exists x. split; [done|]. wp_go. split; [done|]. apply (ring_rep_pop r x q Hr).
Qed.
End ring_put_get.

(** ** The interface the clients use

    A bounded first-in first-out queue: what its state represents, what the
    operations do to it, and how they fail. *)

Class BoundedFifo (R A : Type) := {
  fifo_rep : R -> list A -> Prop;
  fifo_cap : Z;
  fifo_put : A -> eff R Z;
  fifo_get : eff R (option A);
  fifo_clear : R -> R;
  fifo_size : R -> Z;
  fifo_room : R -> Z;
  fifo_bound : forall r q, fifo_rep r q -> Z.of_nat (length q) <= fifo_cap;
  fifo_put_spec : forall x r q, fifo_rep r q ->
    wp (fifo_put x) (fun v r' =>
      if Z.of_nat (length q) <? fifo_cap then v = 1 /\ fifo_rep r' (q ++ [x])
      else v = 0 /\ r' = r) r;
  fifo_get_spec : forall r q, fifo_rep r q ->
    wp fifo_get (fun o r' =>
      match q with
      | [] => o = None /\ r' = r
      | x :: q' => o = Some x /\ fifo_rep r' q'
      end) r;
  fifo_clear_spec : forall r q, fifo_rep r q -> fifo_rep (fifo_clear r) [];
  fifo_size_spec : forall r q, fifo_rep r q -> fifo_size r = Z.of_nat (length q);
  fifo_room_spec : forall r q, fifo_rep r q -> fifo_room r = fifo_cap - Z.of_nat (length q)
}.

#[global, refine] Instance ring_fifo (A : Type) : BoundedFifo (ring A) A := {|
  fifo_rep := ring_rep;
  fifo_cap := MAXRING - 1;
  fifo_put := ring_put;
  fifo_get := ring_get;
  fifo_clear := RING_CLEAR;
  fifo_size := RING_SIZE;
  fifo_room := RING_ROOM
|}.
Proof.
  - intros r q (_ & _ & ? & _). lia.
  - apply ring_put_spec.
  - apply ring_get_spec.
  - apply ring_rep_clear.
  - apply ring_size_rep.
  - apply ring_room_rep.
Defined.

(** The abstract queue: a list that refuses a [cap + 1]st element. *)
Inductive fifo_op (A : Type) := Put (x : A) | Get | Clear | Size | Room.
Inductive fifo_ans (A : Type) := Num (n : Z) | Elem (o : option A).
Arguments Put {A} _. Arguments Get {A}. Arguments Clear {A}.
Arguments Size {A}. Arguments Room {A}.
Arguments Num {A} _. Arguments Elem {A} _.

Definition queue_op {A} (cap : Z) (op : fifo_op A) (q : list A) : fifo_ans A * list A :=
  match op with
  | Put x => if Z.of_nat (length q) <? cap then (Num 1, q ++ [x]) else (Num 0, q)
  | Get => match q with [] => (Elem None, []) | x :: q' => (Elem (Some x), q') end
  | Clear => (Num 0, [])
  | Size => (Num (Z.of_nat (length q)), q)
  | Room => (Num (cap - Z.of_nat (length q)), q)
  end.

Fixpoint queue_ops {A} (cap : Z) (ops : list (fifo_op A)) (q : list A)
    : list (fifo_ans A) * list A :=
  match ops with
  | [] => ([], q)
  | op :: ops' =>
      let (a, q') := queue_op cap op q in
      let (l, q'') := queue_ops cap ops' q' in (a :: l, q'')
  end.

Section fifo_clients.
Context {R A : Type} `{BoundedFifo R A}.

Definition fifo_do (op : fifo_op A) : eff R (fifo_ans A) :=
  match op with
  | Put x => v ← fifo_put x; mret (Num v)
  | Get => o ← fifo_get; mret (Elem o)
  | Clear => modify fifo_clear ;; mret (Num 0)
  | Size => n ← gets fifo_size; mret (Num n)
  | Room => n ← gets fifo_room; mret (Num n)
  end.

Fixpoint fifo_ops (ops : list (fifo_op A)) : eff R (list (fifo_ans A)) :=
  match ops with
  | [] => mret []
  | op :: ops' => a ← fifo_do op; l ← fifo_ops ops'; mret (a :: l)
  end.

(** Inserting a list of elements, for clients that start from a filled queue. *)
Fixpoint put_all (l : list A) : eff R Z :=
  match l with
  | [] => mret 0
  | x :: l' => v ← fifo_put x; n ← put_all l'; mret (v + n)
  end.

Lemma put_all_fits l r q :
  fifo_rep r q -> Z.of_nat (length q) + Z.of_nat (length l) <= fifo_cap ->
  wp (put_all l) (fun n r' => n = Z.of_nat (length l) /\ fifo_rep r' (q ++ l)) r.
Proof.
  revert r q. induction l as [|x l IH]; intros r q Hr Hl; cbn -[Z.of_nat] in *.
  { wp_go. by rewrite app_nil_r. }
  wp_go. wp_call fifo_put_spec; [done|]. intros v r'.
  destruct (Z.ltb_spec (Z.of_nat (length q)) fifo_cap); [|lia].
  intros [-> Hr']. wp_go.
  wp_call (IH r' (q ++ [x])); [done|rewrite length_app; cbn; lia|].
  intros n r'' [-> Hr'']. wp_go. rewrite <- app_assoc in Hr''. split; [lia|done].
Qed.

Lemma fifo_do_queue op r q :
  fifo_rep r q ->
  wp (fifo_do op) (fun a r' =>
    a = (queue_op fifo_cap op q).1 /\ fifo_rep r' (queue_op fifo_cap op q).2) r.
Proof.
  intros Hr. destruct op as [x| | | |]; cbn.
  - wp_go. wp_call fifo_put_spec; [done|]. intros v r'.
    destruct (_ <? _); intros [-> ?]; wp_go; cbn; [done|by subst].
  - wp_go. wp_call fifo_get_spec; [done|]. intros o r'.
    destruct q; intros [-> ?]; wp_go; cbn; [by subst|done].
  - wp_go. split; [done|]. by eapply fifo_clear_spec.
  - wp_go. by rewrite (fifo_size_spec _ _ Hr).
  - wp_go. by rewrite (fifo_room_spec _ _ Hr).
Qed.

Lemma fifo_ops_queue ops r q :
  fifo_rep r q ->
  wp (fifo_ops ops) (fun l r' =>
    l = (queue_ops fifo_cap ops q).1 /\ fifo_rep r' (queue_ops fifo_cap ops q).2) r.
Proof.
  revert r q. induction ops as [|op ops IH]; intros r q Hr; cbn; [by wp_go|].
  wp_go. wp_call fifo_do_queue; [done|]. intros a r' [-> Hr'].
  wp_go. wp_call IH; [done|]. intros l r'' [-> Hr'']. wp_go.
  destruct (queue_op fifo_cap op q) as [a q']; cbn in *.
  by destruct (queue_ops fifo_cap ops q').
Qed.
End fifo_clients.

(** C7. The ring buffer refines a bounded queue: starting from a ring that
    represents the list [q], every sequence of insertions, removals, clears,
    and RING_SIZE / RING_ROOM queries runs without an access outside [buf],
    and gives exactly the answers a list of at most MAXRING - 1 elements
    gives: insertion fails (0) exactly on a full queue, removal fails exactly
    on an empty one, elements come out in the order they went in. *)
Theorem ring_refines_queue {A} (ops : list (fifo_op A)) (r : ring A) (q : list A) :
  ring_rep r q ->
  exists r', fifo_ops (R := ring A) ops r = Done (queue_ops (MAXRING - 1) ops q).1 r' /\
    ring_rep r' (queue_ops (MAXRING - 1) ops q).2.
Proof.
  intros Hr. destruct (proj1 (wp_done _ _ _) (fifo_ops_queue (H := ring_fifo A) ops r q Hr)) as (l & r' & E & -> & H).
  by exists r'.
Qed.

Lemma ring_refines_queue_witness :
  let r0 := RING_INIT (Ring (replicate (Z.to_nat MAXRING) 0) 5 9 0 0) in
  ring_rep r0 [] /\
  exists r', fifo_ops (R := ring Z) [Put 7; Put 8; Get; Size; Room; Get; Get] r0 =
    Done [Num 1; Num 1; Elem (Some 7); Num 1; Num 1022; Elem (Some 8); Elem None] r' /\
    ring_rep r' [].
Proof.
  split; [exact (ring_rep_init (Ring (replicate (Z.to_nat MAXRING) 0) 5 9 0 0) eq_refl)|].
  exact (ring_refines_queue [Put 7; Put 8; Get; Size; Room; Get; Get] _ []
    (ring_rep_init (Ring (replicate (Z.to_nat MAXRING) 0) 5 9 0 0) eq_refl)).
Defined.
