(* ===== verification/Obp.v ===== *)
(** * obp.h: OpenBoot PROM properties

    Path lookup in the PROM device tree, reading and writing of properties,
    and the conversion between property strings and the encodings used on the
    CAN.  The PROM itself (arch/sparc/prom) is the interface [Prom]: the shape
    of the tree and the two property calls.  C strings are the lists of their
    bytes without the terminating NUL. *)

From stdpp Require Import prelude list numbers strings.
From Stdlib Require Import ZArith Lia Ascii.
From S2P Require Import Prelude.

Definition cstring : Type := list Z.

(** The bytes of a string literal. *)
Definition str (s : string) : cstring :=
  map (fun a => Z.of_N (N_of_ascii a)) (String.list_ascii_of_string s).

Definition slash : Z := 47.

(** A NUL-terminated string at the start of a buffer: [None] when the buffer
    holds no NUL, and the C code would read past what was written. *)
Fixpoint cstr (b : list Z) : option cstring :=
  match b with
  | [] => None
  | c :: b' => if c =? 0 then Some [] else cons c <$> cstr b'
  end.

(** strchr(s, c) that also cuts the string there. *)
Fixpoint strchr (c : Z) (s : cstring) : option (cstring * cstring) :=
  match s with
  | [] => None
  | x :: s' =>
      if x =? c then Some ([], s')
      else match strchr c s' with
           | Some (a, b) => Some (x :: a, b)
           | None => None
           end
  end.

(** ** Option paths and values *)
Definition OBP_AUTO_BOOT := str "/options/auto-boot?".
Definition OBP_BOOT_DEVICE := str "/options/boot-device".
Definition OBP_INPUT_DEVICE := str "/options/input-device".
Definition OBP_OUTPUT_DEVICE := str "/options/output-device".
Definition OBP_CANCON_HOST := str "/options/cancon-host".
Definition OBP_CAN_REG := str "/obio/can/reg".
Definition OBP_CAN_NODEID := str "/obio/can/can-nodeid".
Definition OBP_CAN_MEIKO_BOARD_TYPE := str "/obio/can/can-meiko-board-type".
Definition OBP_CAN_ELAN_REG := str "/obio/can/elan/reg".
Definition OBP_LEDS_REG := str "/obio/leds/reg".
Definition OBP_TIMER_REG := str "/obio/counter/reg".
Definition OBP_INTERRUPT_REG := str "/obio/interrupt/reg".
Definition OBP_MAX_PATHLEN : Z := 80.
Definition OBP_MAXSTR : Z := 80.

(** Tables of option values; the NULL that ends each is the end of the list. *)
Definition OBP_BOOT_DEVICE_VALUES : list cstring :=
  map str [""; "elan"; "disk"; "net"; "disk0"; "disk1"; "disk2"; "disk3"; "can"; "eip"]%string.
Definition OBP_INPUT_DEVICE_VALUES : list cstring :=
  map str ["keyboard"; "can"; "ttya"; "ttyb"]%string.
Definition OBP_OUTPUT_DEVICE_VALUES : list cstring :=
  map str ["screen"; "can"; "ttya"; "ttyb"]%string.
Definition OBP_BOOLEAN : list cstring := map str ["false"; "true"]%string.

(** ** Encodings *)

(** The loop of obp_strtonum() from index [i] on. *)
Fixpoint strtonum_from (i : Z) (s : cstring) (names : list cstring) : Z :=
  match names with
  | [] => -1
  | nm :: names' => if decide (nm = s) then i else strtonum_from (i + 1) s names'
  end.
Definition obp_strtonum (s : cstring) (names : list cstring) : Z := strtonum_from 0 s names.

Definition obp_numtostr (num : Z) (names : list cstring) : option cstring :=
  if (0 <=? num) && (num <? Z.of_nat (length names)) then names !! Z.to_nat num else None.

Lemma strtonum_from_spec names s i :
  NoDup names ->
  match strtonum_from i s names with
  | n => (n = -1 /\ s ∉ names) \/ (exists k, n = i + Z.of_nat k /\ names !! k = Some s)
  end.
Proof.
  intros Hnd. revert i. induction Hnd as [|nm names Hnm Hnd IH]; intros i; cbn.
  { left. split; [done|]. apply not_elem_of_nil. }
  case_decide as Heq.
  - right. exists 0%nat. cbn. split; [lia|by subst].
  - destruct (IH (i + 1)) as [[-> Hs]|(k & -> & Hk)].
    + left. split; [done|]. rewrite not_elem_of_cons. split; congruence.
    + right. exists (S k). split; [lia|done].
Qed.

(** ** "reg" properties: arrays of [struct linux_prom_registers] *)
Record linux_prom_registers := PromReg {
  which_io : Z;
  phys_addr : Z;
  reg_size : Z
}.
Definition sizeof_prom_reg : Z := 12.

Definition be32 (bs : list Z) : Z := fold_left (fun acc b => acc * 256 + b) bs 0.
Definition parse_prom_reg (bs : list Z) : linux_prom_registers :=
  PromReg (be32 (take 4 bs)) (be32 (take 4 (drop 4 bs))) (be32 (take 4 (drop 8 bs))).
(** The first [n] elements of the array in a buffer. *)
Fixpoint parse_prom_regs (n : nat) (bs : list Z) : list linux_prom_registers :=
  match n with
  | O => []
  | S n' => parse_prom_reg bs :: parse_prom_regs n' (drop 12 bs)
  end.

(** ** The PROM *)

Class Prom := {
  prom_st : Type;
  prom_root_node : Z;
  prom_getchild : Z -> Z;
  prom_searchsiblings : Z -> cstring -> Z;
  prom_node_has_property : Z -> cstring -> bool;
  (** the bytes of the property, [None] for -1 (no such property, or it does
      not fit in the given size) *)
  prom_getproperty : prom_st -> Z -> cstring -> Z -> option (list Z);
  prom_setprop : Z -> cstring -> list Z -> prom_st -> Z * prom_st
}.

(** Documented behaviour of the property calls: what was set is what is read
    back, and other properties keep their values. *)
Class PromLaws (P : Prom) := {
  prom_get_set : forall n nm v st r st' sz,
    prom_setprop n nm v st = (r, st') -> r <> -1 -> Z.of_nat (length v) <= sz ->
    prom_getproperty st' n nm sz = Some v;
  prom_get_set_ne : forall n nm n' nm' v st sz,
    (n, nm) <> (n', nm') ->
    prom_getproperty (prom_setprop n nm v st).2 n' nm' sz = prom_getproperty st n' nm' sz
}.

Section obp.
Context {P : Prom}.

(** __obp_lookup(): [fuel] bounds the number of path components. *)
Fixpoint __obp_lookup (fuel : nat) (node : Z) (path : cstring) : Z :=
  match fuel with
  | O => -1
  | S fuel' =>
      match strchr slash path with
      | None => if prom_node_has_property node path then node else -1
      | Some (name, path') =>
          let node1 := prom_getchild node in
          if node1 =? -1 then -1
          else
            let node2 := prom_searchsiblings node1 name in
            if node2 =? 0 then -1 else __obp_lookup fuel' node2 path'
      end
  end.

Definition skip_slash (path : cstring) : cstring :=
  match path with c :: p => if c =? slash then p else path | [] => [] end.

(** obp_lookup(): the copy made with strncpy() has room for
    [OBP_MAX_PATHLEN] characters and their terminator. *)
Definition obp_lookup (path : cstring) : eff prom_st Z :=
  let path := skip_slash path in
  if Z.of_nat (length path) <=? OBP_MAX_PATHLEN
  then mret (__obp_lookup (S (length path)) prom_root_node path)
  else fail OutOfBounds.

(** basename(): what follows the last slash. *)
Fixpoint basename (path : cstring) : cstring :=
  match path with
  | [] => []
  | c :: p => if (c =? slash) || bool_decide (slash ∈ p) then basename p else path
  end.

Definition obp_getprop (path : cstring) (size : Z) : eff prom_st (option (list Z)) :=
  node ← obp_lookup path;
  if node =? -1 then mret None
  else gets (fun st => prom_getproperty st node (basename path) size).

Definition obp_setprop (path : cstring) (b : list Z) : eff prom_st Z :=
  node ← obp_lookup path;
  if node =? -1 then mret (-1)
  else run (prom_setprop node (basename path) b).

(** obp_getcan(): [None] for the return value -1, otherwise the value
    stored through [val]. *)
Definition obp_getcan (path : cstring) (table : list cstring) : eff prom_st (option Z) :=
  o ← obp_getprop path OBP_MAXSTR;
  match o with
  | None => mret None
  | Some b => s ← the OutOfBounds (cstr b); mret (Some (u32 (obp_strtonum s table)))
  end.

Definition obp_setcan (path : cstring) (table : list cstring) (val : Z) : eff prom_st Z :=
  match obp_numtostr val table with
  | None => mret (-1)
  | Some s => obp_setprop path (s ++ [0])
  end.

(** The literal paths of obp.h reach the PROM: none is too long for
    obp_lookup()'s copy. *)
Definition path_fits (path : cstring) : bool :=
  Z.of_nat (length (skip_slash path)) <=? OBP_MAX_PATHLEN.

Lemma strchr_split c s a b : strchr c s = Some (a, b) -> s = a ++ c :: b /\ c ∉ a.
Proof.
  revert a b. induction s as [|x s IH]; intros a b; cbn; [done|].
  destruct (Z.eqb_spec x c) as [->|Hne].
  { intros [= <- <-]. split; [done|]. apply not_elem_of_nil. }
  destruct (strchr c s) as [[a' b']|]; [|done]. intros [= <- <-].
  destruct (IH a' b' eq_refl) as [-> Ha]. split; [done|].
  rewrite not_elem_of_cons. split; [congruence|done].
Qed.

Lemma strchr_None c s : strchr c s = None <-> c ∉ s.
Proof.
  induction s as [|x s IH]; cbn; [split; [by intros _ ?%elem_of_nil|done]|].
  rewrite not_elem_of_cons. destruct (Z.eqb_spec x c) as [->|Hne].
  { split; [done|]. by intros [? _]. }
  destruct (strchr c s) as [[a b]|].
  - split; [done|]. intros [_ Hs]. by apply IH in Hs.
  - split; [|done]. intros _. split; [congruence|by apply IH].
Qed.

(** The fuel of obp_lookup() is enough: more of it changes nothing. *)
Lemma obp_lookup_fuel n1 n2 node path :
  (length path < n1)%nat -> (length path < n2)%nat ->
  __obp_lookup n1 node path = __obp_lookup n2 node path.
Proof.
  revert n2 node path. induction n1 as [|n1 IH]; intros [|n2] node path H1 H2; try lia.
  cbn. destruct (strchr slash path) as [[name path']|] eqn:E; [|done].
  apply strchr_split in E as [-> _]. rewrite length_app in *. cbn in *.
  repeat case_match; try done. apply IH; lia.
Qed.

Lemma cstr_app s : 0 ∉ s -> cstr (s ++ [0]) = Some s.
Proof.
  induction s as [|c s IH]; [done|]. rewrite not_elem_of_cons. intros [Hc Hs]. cbn.
  destruct (Z.eqb_spec c 0); [congruence|]. by rewrite IH.
Qed.
End obp.

(** * Properties *)

(** ** A PROM that keeps its properties in memory

    The interface [Prom] has models: a tree given by its two navigation
    functions and properties in an association list. *)
Definition props : Type := list ((Z * cstring) * list Z).
Fixpoint prop_find (k : Z * cstring) (ps : props) : option (list Z) :=
  match ps with
  | [] => None
  | (k', v) :: ps' => if decide (k' = k) then Some v else prop_find k ps'
  end.

Definition mem_prom (root : Z) (child : Z -> Z) (sib : Z -> cstring -> Z)
    (hasp : Z -> cstring -> bool) : Prom := {|
  prom_st := props;
  prom_root_node := root;
  prom_getchild := child;
  prom_searchsiblings := sib;
  prom_node_has_property := hasp;
  prom_getproperty := fun st n nm sz =>
    match prop_find (n, nm) st with
    | Some v => if Z.of_nat (length v) <=? sz then Some v else None
    | None => None
    end;
  prom_setprop := fun n nm v st => (Z.of_nat (length v), ((n, nm), v) :: st)
|}.

#[global] Instance mem_prom_laws root child sib hasp :
  PromLaws (mem_prom root child sib hasp).
Proof.
  split; cbn.
  - intros n nm v st r st' sz [= <- <-] _ Hsz. cbn.
    rewrite decide_True by done. by rewrite (proj2 (Z.leb_le _ _) Hsz).
  - intros n nm n' nm' v st sz Hne. by rewrite decide_False.
Qed.

(** The PROM of the examples: one node with the driver's properties under
    /obio/can, one with the options. *)
Definition demo_prom : Prom := mem_prom 1
  (fun n => if n =? 1 then 2 else if n =? 3 then 4 else -1)
  (fun n nm =>
     if decide (nm = str "options") then 2
     else if decide (nm = str "obio") then 3
     else if decide (nm = str "can") then 4 else 0)
  (fun _ _ => true).

Definition demo_props : props :=
  [((2, str "cancon-host"), str "4294967295" ++ [0]);
   ((2, str "input-device"), str "can" ++ [0]);
   ((2, str "output-device"), str "screen" ++ [0]);
   ((2, str "auto-boot?"), str "false" ++ [0]);
   ((2, str "boot-device"), str "disk" ++ [0]);
   ((4, str "can-nodeid"), [0; 0; 0; 5]);
   ((4, str "can-meiko-board-type"), [0; 0; 0; 3]);
   ((4, str "reg"), repeat 0 12)].

(** ** Encodings *)

(** obp_strtonum() and obp_numtostr() are inverse to each other on a table
    without repetitions: a number has a string exactly when the string's
    position in the table is that number, and obp_numtostr() refuses (NULL)
    every number that is not a position of the table. *)
Theorem obp_num_str_inverse names n s :
  NoDup names ->
  (obp_numtostr n names = Some s <-> 0 <= n /\ obp_strtonum s names = n) /\
  (obp_numtostr n names = None <-> ~ 0 <= n < Z.of_nat (length names)).
Proof.
  intros Hnd. unfold obp_numtostr, obp_strtonum.
  pose proof (strtonum_from_spec names s 0 Hnd) as Hs. cbn zeta in Hs.
  destruct (Z.leb_spec 0 n), (Z.ltb_spec n (Z.of_nat (length names))); cbn;
    (split; [split|split]); try done; try lia.
  - intros E. destruct Hs as [[-> Hin]|(k & -> & Hk)].
    + destruct Hin. by eapply list_elem_of_lookup_2.
    + split; [done|]. pose proof (NoDup_lookup _ _ _ _ Hnd E Hk). lia.
  - intros [_ <-]. destruct Hs as [[E Hin]|(k & -> & Hk)]; [lia|].
    by replace (Z.to_nat (0 + Z.of_nat k)) with k by lia.
  - intros E. apply lookup_ge_None in E. lia.
  - intros [_ <-]. destruct Hs as [[E Hin]|(k & E & Hk)]; [lia|].
    apply lookup_lt_Some in Hk. lia.
Qed.

Lemma obp_num_str_inverse_witness :
  (obp_numtostr 1 OBP_INPUT_DEVICE_VALUES = Some (str "can") <->
   0 <= 1 /\ obp_strtonum (str "can") OBP_INPUT_DEVICE_VALUES = 1) /\
  (obp_numtostr 1 OBP_INPUT_DEVICE_VALUES = None <->
   ~ 0 <= 1 < Z.of_nat (length OBP_INPUT_DEVICE_VALUES)).
Proof.
  apply (obp_num_str_inverse OBP_INPUT_DEVICE_VALUES 1 (str "can")).
  apply (bool_decide_unpack _). vm_compute. exact I.
Defined.

(** ** Properties by path and by encoding *)
Section obp_props.
Context {P : Prom}.

(** What a path below [node] means: every component but the last names a
    child, the last one is a property of the node reached. *)
Inductive resolves : Z -> cstring -> Z -> Prop :=
  | res_prop node name :
      slash ∉ name -> prom_node_has_property node name = true -> resolves node name node
  | res_child node name path n :
      slash ∉ name -> prom_getchild node <> -1 ->
      prom_searchsiblings (prom_getchild node) name <> 0 ->
      resolves (prom_searchsiblings (prom_getchild node) name) path n ->
      resolves node (name ++ slash :: path) n.

Lemma strchr_app c a b : c ∉ a -> strchr c (a ++ c :: b) = Some (a, b).
Proof.
  induction a as [|x a IH]; cbn; [by rewrite Z.eqb_refl|].
  rewrite not_elem_of_cons. intros [Hx Ha].
  destruct (Z.eqb_spec x c); [congruence|]. by rewrite IH.
Qed.

Lemma resolves_inv node path n : resolves node path n ->
  match strchr slash path with
  | None => prom_node_has_property node path = true /\ n = node
  | Some (name, path') =>
      prom_getchild node <> -1 /\ prom_searchsiblings (prom_getchild node) name <> 0 /\
      resolves (prom_searchsiblings (prom_getchild node) name) path' n
  end.
Proof.
  destruct 1 as [node name Hs Hp|node name path n Hs Hc Hsib Hr].
  - by rewrite (proj2 (strchr_None _ _) Hs).
  - by rewrite strchr_app.
Qed.

Lemma obp_lookup_resolves fuel node path n :
  (length path < fuel)%nat -> n <> -1 ->
  (__obp_lookup fuel node path = n <-> resolves node path n).
Proof.
  revert node path. induction fuel as [|fuel IH]; intros node path Hf Hn; [lia|].
  cbn. split.
  - destruct (strchr slash path) as [[name path']|] eqn:E.
    + apply strchr_split in E as [-> Hname]. rewrite length_app in Hf. cbn in Hf.
      intros HR. destruct (Z.eqb_spec (prom_getchild node) (-1)) as [Ec|Ec]; [congruence|].
      destruct (Z.eqb_spec (prom_searchsiblings (prom_getchild node) name) 0) as [Es|Es];
        [congruence|].
      apply res_child; [done..|]. apply IH; [lia|done|done].
    + apply strchr_None in E. destruct (prom_node_has_property node path) eqn:Hp; [|congruence].
      intros <-. by apply res_prop.
  - intros Hr%resolves_inv. destruct (strchr slash path) as [[name path']|] eqn:E.
    + destruct Hr as (Hc & Hs & Hr). apply strchr_split in E as [-> Hname].
      rewrite length_app in Hf. cbn in Hf.
      destruct (Z.eqb_spec (prom_getchild node) (-1)); [done|].
      destruct (Z.eqb_spec (prom_searchsiblings (prom_getchild node) name) 0); [done|].
      apply IH; [lia|done|done].
    + by destruct Hr as [-> ->].
Qed.

(** obp_lookup() walks the PROM tree along the path: it terminates and
    returns node [n] exactly when the path, less a leading slash, names a
    property of [n] below the root; -1 stands for "no such node". *)
Theorem obp_lookup_walks_tree path n st :
  path_fits path = true -> n <> -1 ->
  (obp_lookup path st = Done n st <-> resolves prom_root_node (skip_slash path) n).
Proof.
  intros Hfit Hn. unfold obp_lookup. unfold path_fits in Hfit. cbn zeta. rewrite Hfit.
  rewrite <- (obp_lookup_resolves (S (length (skip_slash path)))) by (done || lia).
  unfold mret, eff_ret. split; [by intros [= ?]|by intros ->].
Qed.

(** Reading back through the encoding what obp_setcan() stored. *)
Definition table_ok (table : list cstring) : bool :=
  bool_decide (NoDup table) &&
  forallb (fun s => negb (bool_decide (0 ∈ s)) && (Z.of_nat (length s) <? OBP_MAXSTR)) table.

Lemma table_ok_spec table : table_ok table = true ->
  NoDup table /\ forall s, s ∈ table -> (0 ∉ s) /\ Z.of_nat (length s) < OBP_MAXSTR.
Proof.
  unfold table_ok. rewrite andb_true_iff, bool_decide_eq_true. intros [Hnd Hall].
  split; [done|]. intros s Hs. rewrite forallb_forall in Hall.
  specialize (Hall s (proj1 (list_elem_of_In _ _) Hs)).
  rewrite andb_true_iff, negb_true_iff, bool_decide_eq_false in Hall.
  destruct Hall. split; [done|lia].
Qed.

(** What obp_setcan() stores under a path, obp_getcan() reads back: with a
    PROM that keeps the properties it is given, a number accepted by the table
    survives the trip through its string. *)
Theorem obp_setcan_getcan `{!PromLaws P} path table v st r st' :
  path_fits path = true -> table_ok table = true ->
  obp_setcan path table v st = Done r st' -> r <> -1 ->
  0 <= v < Z.of_nat (length table) /\ obp_getcan path table st' = Done (Some (u32 v)) st'.
Proof.
  intros Hfit [Hnd Hok]%table_ok_spec. unfold obp_setcan.
  destruct (obp_numtostr v table) as [s|] eqn:Es; [|by intros [= <- <-]].
  unfold obp_setprop, obp_getcan, obp_getprop, obp_lookup. unfold path_fits in Hfit.
  cbn zeta. rewrite Hfit. unfold mbind, eff_bind, mret, eff_ret. cbn beta iota.
  set (node := __obp_lookup _ _ _). destruct (Z.eqb_spec node (-1)); [by intros [= <- <-]|].
  unfold run, gets. destruct (prom_setprop _ _ _ st) as [r0 st0] eqn:Eset. cbn.
  intros [= -> ->] Hr.
  pose proof (strtonum_from_spec table s 0 Hnd) as Hs. cbn zeta in Hs.
  unfold obp_numtostr in Es.
  destruct (Z.leb_spec 0 v), (Z.ltb_spec v (Z.of_nat (length table))); try done.
  cbn in Es. pose proof (list_elem_of_lookup_2 _ _ _ Es) as Hin.
  destruct (Hok s Hin) as [Hnul Hlen]. split; [lia|].
  erewrite prom_get_set; [|exact Eset|done|rewrite length_app; cbn; lia].
  rewrite cstr_app by done. cbn. unfold obp_strtonum.
  destruct Hs as [[_ Hni]|(k & -> & Hk)]; [done|].
  pose proof (NoDup_lookup _ _ _ _ Hnd Es Hk) as E. do 3 f_equal. lia.
Qed.
End obp_props.

Lemma obp_lookup_walks_tree_witness :
  obp_lookup (P := demo_prom) OBP_CAN_NODEID demo_props = Done 4 demo_props <->
  resolves (P := demo_prom) 1 (skip_slash OBP_CAN_NODEID) 4.
Proof.
  apply (obp_lookup_walks_tree (P := demo_prom) OBP_CAN_NODEID 4 demo_props);
    [vm_compute; reflexivity | lia].
Defined.

Lemma obp_setcan_getcan_witness :
  0 <= 2 < Z.of_nat (length OBP_INPUT_DEVICE_VALUES) /\
  obp_getcan (P := demo_prom) OBP_INPUT_DEVICE OBP_INPUT_DEVICE_VALUES
    (((2, str "input-device"), str "ttya" ++ [0]) :: demo_props) =
  Done (Some (u32 2)) (((2, str "input-device"), str "ttya" ++ [0]) :: demo_props).
Proof.
  apply (obp_setcan_getcan (P := demo_prom) OBP_INPUT_DEVICE OBP_INPUT_DEVICE_VALUES 2
           demo_props 5); [vm_compute; reflexivity.. | lia].
Defined.
