(* ===== verification/World.v ===== *)
(** * State of the CAN driver and of the kernel around it

    The static variables of can_main.c, can_obj.c and can_console.c are one
    record each ([main_state], [obj_state], [con_state]); [kern_state] is the
    kernel's side of the driver: the clock, the accesses made to the chip, the
    calls made into other kernel code, the heap, the tty structs and the PROM.
    The functions of the three files call each other, so they run on the
    [world] that holds the four records. *)

From stdpp Require Import prelude list numbers gmap strings.
From Stdlib Require Import ZArith Lia.
From S2P Require Import Prelude CanTypes Ring Obp.

(** ** The chip

    A register access is an event of the trace [io]; the chip is a function of
    the trace so far, which gives the value a read returns.  Any deterministic
    chip is such a function, status bits that change by themselves included. *)
Inductive ioev :=
  | Rd (r : creg) (v : Z)
  | Wr (r : creg) (v : Z).

Class CanHw := {
  hw_read : list ioev -> creg -> Z
}.

(** ** Kernel services *)

(** Arguments of printk(). *)
Inductive parg := PInt (z : Z) | PStr (s : string).

(** Calls into the kernel that only have an effect outside the driver. *)
Inductive kev :=
  | Printk (fmt : string) (args : list parg)
  | WakeReadq (fstate : Z)       (* wake_up_interruptible(&fstate->readq) *)
  | WakeWriteq                   (* wake_up_interruptible(&writeq) *)
  | TtyWakeWait (tty : Z)        (* wake_up_interruptible(&tty->write_wait) *)
  | LdiscWriteWakeup (tty : Z)   (* tty->ldisc.write_wakeup(tty) *)
  | TtyHangup (tty : Z)          (* tty_hangup(tty) *)
  | FlipPush (tty : Z)           (* tty_flip_buffer_push(tty) *)
  | UnmapRegs                    (* sparc_free_io(reg, PAGE_SIZE) *)
  | TtyUnregister                (* tty_unregister_driver(&cantty_driver) *)
  | MachineHalt.                 (* machine_halt() *)

(** What the driver uses of the rest of the kernel: [printk_text] is the
    text printk() hands to the write method of a registered console for a
    message, piece by piece (nothing, when the console log level drops it);
    [console_backlog] is the buffered text register_console() writes first to
    a console with the flag CON_PRINTBUFFER. *)
Class Kernel := {
  printk_text : string -> list parg -> list (list Z);
  console_backlog : list (list Z);
  TTY_FLIPBUF_SIZE : Z;
  PROMREG_MAX : Z;
  (** return values of request_irq(), tty_register_driver(), misc_register() *)
  request_irq_ret : Z;
  tty_register_driver_ret : Z;
  misc_register_ret : Z;
  (** prom_apply_obio_ranges() and sparc_alloc_io(phys_addr, which_io) *)
  prom_apply_obio_ranges : list linux_prom_registers -> list linux_prom_registers;
  sparc_alloc_io : Z -> Z -> Z
}.

(** State kept per open file: [struct file_state].  [readq] is a wait queue
    head and appears as the address in [WakeReadq]. *)
Record file_state := FileState {
  fs_inq : ring can_packet;
  promiscuous : Z;
  snoopy : Z;
  consobj : Z
}.

(** The members of [struct tty_struct] the driver uses: [flip_chars] is what
    was stored through [flip.char_buf_ptr] and [flip.flag_buf_ptr]. *)
Record tty_struct := Tty {
  tty_stopped : bool;
  flip_ptr_null : bool;
  flip_count : Z;
  flip_chars : list (Z * Z);
  do_write_wakeup : bool;      (* flags & (1 << TTY_DO_WRITE_WAKEUP) *)
  ldisc_has_wakeup : bool      (* ldisc.write_wakeup != NULL *)
}.

(** ** The state *)

(** Static variables of can_main.c. *)
Record main_state := Main {
  inq : ring can_packet;   (* packets for the bottom half *)
  outq : ring can_packet;   (* packets waiting for the chip *)
  can_debug : Z;
  can_usecount : Z;
  promiscuous_usecount : Z;
  openfd : list Z;   (* struct file_state *[], 0 is NULL *)
  consobj_reserved : list Z;   (* char[] *)
  can_nodeid : Z;   (* uint32_t *)
  first_time : Z   (* static of can_init_82c200() *)
}.

(** Static variables of can_obj.c. *)
Record obj_state := Obj {
  hb_timer : option Z;   (* expiry, while queued *)
  can_boardtype : Z;   (* uint32_t *)
  can_hb_val : Z;   (* uint32_t *)
  hb_count : Z;   (* static of canobj_send_heartbeat() *)
  obj_val : Z   (* static of canobj_testrw() *)
}.

(** Static variables of can_console.c. *)
Record con_state := Con {
  cancon_outbuf : ring Z;
  cancon_inbuf : ring Z;
  cancon_ack_pending : Z;
  cancon_rmt : Z;   (* can_header_ext *)
  ttyp : Z;   (* struct tty_struct *, 0 is NULL *)
  cantty_myrefcount : Z;
  cantty_registered : Z;
  ack_timer : option (Z * Z)   (* expiry and data, while queued *)
}.

(** The kernel around the driver. *)
Record kern_state {P : Prom} := Kern {
  jiffies : Z;   (* unsigned long *)
  io : list ioev;   (* accesses to the chip, newest first *)
  klog : list kev;   (* calls into the kernel, newest first *)
  heap : gmap Z file_state;   (* kmalloc'ed per-file state, by address *)
  ttys : gmap Z tty_struct;   (* tty structs of the tty layer, by address *)
  prom : prom_st;   (* PROM properties *)
  con_registered : bool;   (* can_console is on the console list *)
  bh_queued : bool;   (* bh_tq is on tq_immediate *)
  irq_installed : bool;   (* can_intr handles CAN_IRQ *)
  misc_registered : bool;   (* can_dev is registered *)
  mod_usecount : Z;   (* MOD_INC/DEC_USE_COUNT *)
  stack_pkt : can_packet   (* an uninitialised local struct can_packet *)
}.

Record world {P : Prom} := World {
  w_main :> main_state;
  w_obj :> obj_state;
  w_con :> con_state;
  w_kern :> kern_state
}.

Section setters.
Context {P : Prom}.
Implicit Types w : world.

Definition set_inq (v : ring can_packet) w : world :=
  World _ (Main v (outq w) (can_debug w) (can_usecount w) (promiscuous_usecount w) (openfd w)
  (consobj_reserved w) (can_nodeid w) (first_time w)) (w_obj w) (w_con w) (w_kern w).
Definition set_outq (v : ring can_packet) w : world :=
  World _ (Main (inq w) v (can_debug w) (can_usecount w) (promiscuous_usecount w) (openfd w)
  (consobj_reserved w) (can_nodeid w) (first_time w)) (w_obj w) (w_con w) (w_kern w).
Definition set_can_debug (v : Z) w : world :=
  World _ (Main (inq w) (outq w) v (can_usecount w) (promiscuous_usecount w) (openfd w)
  (consobj_reserved w) (can_nodeid w) (first_time w)) (w_obj w) (w_con w) (w_kern w).
Definition set_can_usecount (v : Z) w : world :=
  World _ (Main (inq w) (outq w) (can_debug w) v (promiscuous_usecount w) (openfd w)
  (consobj_reserved w) (can_nodeid w) (first_time w)) (w_obj w) (w_con w) (w_kern w).
Definition set_promiscuous_usecount (v : Z) w : world :=
  World _ (Main (inq w) (outq w) (can_debug w) (can_usecount w) v (openfd w)
  (consobj_reserved w) (can_nodeid w) (first_time w)) (w_obj w) (w_con w) (w_kern w).
Definition set_openfd (v : list Z) w : world :=
  World _ (Main (inq w) (outq w) (can_debug w) (can_usecount w) (promiscuous_usecount w) v
  (consobj_reserved w) (can_nodeid w) (first_time w)) (w_obj w) (w_con w) (w_kern w).
Definition set_consobj_reserved (v : list Z) w : world :=
  World _ (Main (inq w) (outq w) (can_debug w) (can_usecount w) (promiscuous_usecount w)
  (openfd w) v (can_nodeid w) (first_time w)) (w_obj w) (w_con w) (w_kern w).
Definition set_can_nodeid (v : Z) w : world :=
  World _ (Main (inq w) (outq w) (can_debug w) (can_usecount w) (promiscuous_usecount w)
  (openfd w) (consobj_reserved w) v (first_time w)) (w_obj w) (w_con w) (w_kern w).
Definition set_first_time (v : Z) w : world :=
  World _ (Main (inq w) (outq w) (can_debug w) (can_usecount w) (promiscuous_usecount w)
  (openfd w) (consobj_reserved w) (can_nodeid w) v) (w_obj w) (w_con w) (w_kern w).
Definition set_hb_timer (v : option Z) w : world :=
  World _ (w_main w) (Obj v (can_boardtype w) (can_hb_val w) (hb_count w) (obj_val w)) (w_con w)
  (w_kern w).
Definition set_can_boardtype (v : Z) w : world :=
  World _ (w_main w) (Obj (hb_timer w) v (can_hb_val w) (hb_count w) (obj_val w)) (w_con w)
  (w_kern w).
Definition set_can_hb_val (v : Z) w : world :=
  World _ (w_main w) (Obj (hb_timer w) (can_boardtype w) v (hb_count w) (obj_val w)) (w_con w)
  (w_kern w).
Definition set_hb_count (v : Z) w : world :=
  World _ (w_main w) (Obj (hb_timer w) (can_boardtype w) (can_hb_val w) v (obj_val w)) (w_con w)
  (w_kern w).
Definition set_obj_val (v : Z) w : world :=
  World _ (w_main w) (Obj (hb_timer w) (can_boardtype w) (can_hb_val w) (hb_count w) v)
  (w_con w) (w_kern w).
Definition set_cancon_outbuf (v : ring Z) w : world :=
  World _ (w_main w) (w_obj w) (Con v (cancon_inbuf w) (cancon_ack_pending w) (cancon_rmt w)
  (ttyp w) (cantty_myrefcount w) (cantty_registered w) (ack_timer w)) (w_kern w).
Definition set_cancon_inbuf (v : ring Z) w : world :=
  World _ (w_main w) (w_obj w) (Con (cancon_outbuf w) v (cancon_ack_pending w) (cancon_rmt w)
  (ttyp w) (cantty_myrefcount w) (cantty_registered w) (ack_timer w)) (w_kern w).
Definition set_cancon_ack_pending (v : Z) w : world :=
  World _ (w_main w) (w_obj w) (Con (cancon_outbuf w) (cancon_inbuf w) v (cancon_rmt w) (ttyp w)
  (cantty_myrefcount w) (cantty_registered w) (ack_timer w)) (w_kern w).
Definition set_cancon_rmt (v : Z) w : world :=
  World _ (w_main w) (w_obj w) (Con (cancon_outbuf w) (cancon_inbuf w) (cancon_ack_pending w) v
  (ttyp w) (cantty_myrefcount w) (cantty_registered w) (ack_timer w)) (w_kern w).
Definition set_ttyp (v : Z) w : world :=
  World _ (w_main w) (w_obj w) (Con (cancon_outbuf w) (cancon_inbuf w) (cancon_ack_pending w)
  (cancon_rmt w) v (cantty_myrefcount w) (cantty_registered w) (ack_timer w)) (w_kern w).
Definition set_cantty_myrefcount (v : Z) w : world :=
  World _ (w_main w) (w_obj w) (Con (cancon_outbuf w) (cancon_inbuf w) (cancon_ack_pending w)
  (cancon_rmt w) (ttyp w) v (cantty_registered w) (ack_timer w)) (w_kern w).
Definition set_cantty_registered (v : Z) w : world :=
  World _ (w_main w) (w_obj w) (Con (cancon_outbuf w) (cancon_inbuf w) (cancon_ack_pending w)
  (cancon_rmt w) (ttyp w) (cantty_myrefcount w) v (ack_timer w)) (w_kern w).
Definition set_ack_timer (v : option (Z * Z)) w : world :=
  World _ (w_main w) (w_obj w) (Con (cancon_outbuf w) (cancon_inbuf w) (cancon_ack_pending w)
  (cancon_rmt w) (ttyp w) (cantty_myrefcount w) (cantty_registered w) v) (w_kern w).
Definition set_jiffies (v : Z) w : world :=
  World _ (w_main w) (w_obj w) (w_con w) (Kern _ v (io w) (klog w) (heap w) (ttys w) (prom w)
  (con_registered w) (bh_queued w) (irq_installed w) (misc_registered w) (mod_usecount w)
  (stack_pkt w)).
Definition set_io (v : list ioev) w : world :=
  World _ (w_main w) (w_obj w) (w_con w) (Kern _ (jiffies w) v (klog w) (heap w) (ttys w)
  (prom w) (con_registered w) (bh_queued w) (irq_installed w) (misc_registered w)
  (mod_usecount w) (stack_pkt w)).
Definition set_klog (v : list kev) w : world :=
  World _ (w_main w) (w_obj w) (w_con w) (Kern _ (jiffies w) (io w) v (heap w) (ttys w) (prom w)
  (con_registered w) (bh_queued w) (irq_installed w) (misc_registered w) (mod_usecount w)
  (stack_pkt w)).
Definition set_heap (v : gmap Z file_state) w : world :=
  World _ (w_main w) (w_obj w) (w_con w) (Kern _ (jiffies w) (io w) (klog w) v (ttys w) (prom w)
  (con_registered w) (bh_queued w) (irq_installed w) (misc_registered w) (mod_usecount w)
  (stack_pkt w)).
Definition set_ttys (v : gmap Z tty_struct) w : world :=
  World _ (w_main w) (w_obj w) (w_con w) (Kern _ (jiffies w) (io w) (klog w) (heap w) v (prom w)
  (con_registered w) (bh_queued w) (irq_installed w) (misc_registered w) (mod_usecount w)
  (stack_pkt w)).
Definition set_prom (v : prom_st) w : world :=
  World _ (w_main w) (w_obj w) (w_con w) (Kern _ (jiffies w) (io w) (klog w) (heap w) (ttys w) v
  (con_registered w) (bh_queued w) (irq_installed w) (misc_registered w) (mod_usecount w)
  (stack_pkt w)).
Definition set_con_registered (v : bool) w : world :=
  World _ (w_main w) (w_obj w) (w_con w) (Kern _ (jiffies w) (io w) (klog w) (heap w) (ttys w)
  (prom w) v (bh_queued w) (irq_installed w) (misc_registered w) (mod_usecount w)
  (stack_pkt w)).
Definition set_bh_queued (v : bool) w : world :=
  World _ (w_main w) (w_obj w) (w_con w) (Kern _ (jiffies w) (io w) (klog w) (heap w) (ttys w)
  (prom w) (con_registered w) v (irq_installed w) (misc_registered w) (mod_usecount w)
  (stack_pkt w)).
Definition set_irq_installed (v : bool) w : world :=
  World _ (w_main w) (w_obj w) (w_con w) (Kern _ (jiffies w) (io w) (klog w) (heap w) (ttys w)
  (prom w) (con_registered w) (bh_queued w) v (misc_registered w) (mod_usecount w)
  (stack_pkt w)).
Definition set_misc_registered (v : bool) w : world :=
  World _ (w_main w) (w_obj w) (w_con w) (Kern _ (jiffies w) (io w) (klog w) (heap w) (ttys w)
  (prom w) (con_registered w) (bh_queued w) (irq_installed w) v (mod_usecount w) (stack_pkt w)).
Definition set_mod_usecount (v : Z) w : world :=
  World _ (w_main w) (w_obj w) (w_con w) (Kern _ (jiffies w) (io w) (klog w) (heap w) (ttys w)
  (prom w) (con_registered w) (bh_queued w) (irq_installed w) (misc_registered w) v
  (stack_pkt w)).
Definition set_stack_pkt (v : can_packet) w : world :=
  World _ (w_main w) (w_obj w) (w_con w) (Kern _ (jiffies w) (io w) (klog w) (heap w) (ttys w)
  (prom w) (con_registered w) (bh_queued w) (irq_installed w) (misc_registered w)
  (mod_usecount w) v).
End setters.

(** Reads of a field after writes of fields, without unfolding the writes
    elsewhere. *)
Ltac world_setter s :=
  lazymatch s with
  | @set_inq _ => idtac
  | @set_outq _ => idtac
  | @set_can_debug _ => idtac
  | @set_can_usecount _ => idtac
  | @set_promiscuous_usecount _ => idtac
  | @set_openfd _ => idtac
  | @set_consobj_reserved _ => idtac
  | @set_can_nodeid _ => idtac
  | @set_first_time _ => idtac
  | @set_hb_timer _ => idtac
  | @set_can_boardtype _ => idtac
  | @set_can_hb_val _ => idtac
  | @set_hb_count _ => idtac
  | @set_obj_val _ => idtac
  | @set_cancon_outbuf _ => idtac
  | @set_cancon_inbuf _ => idtac
  | @set_cancon_ack_pending _ => idtac
  | @set_cancon_rmt _ => idtac
  | @set_ttyp _ => idtac
  | @set_cantty_myrefcount _ => idtac
  | @set_cantty_registered _ => idtac
  | @set_ack_timer _ => idtac
  | @set_jiffies _ => idtac
  | @set_io _ => idtac
  | @set_klog _ => idtac
  | @set_heap _ => idtac
  | @set_ttys _ => idtac
  | @set_prom _ => idtac
  | @set_con_registered _ => idtac
  | @set_bh_queued _ => idtac
  | @set_irq_installed _ => idtac
  | @set_misc_registered _ => idtac
  | @set_mod_usecount _ => idtac
  | @set_stack_pkt _ => idtac
  end.
Ltac wcbn e := eval cbn [w_main w_obj w_con w_kern inq outq can_debug can_usecount
    promiscuous_usecount openfd consobj_reserved can_nodeid first_time hb_timer can_boardtype
    can_hb_val hb_count obj_val cancon_outbuf cancon_inbuf cancon_ack_pending cancon_rmt ttyp
    cantty_myrefcount cantty_registered ack_timer jiffies io klog heap ttys prom con_registered
    bh_queued irq_installed misc_registered mod_usecount stack_pkt set_inq set_outq
    set_can_debug set_can_usecount set_promiscuous_usecount set_openfd set_consobj_reserved
    set_can_nodeid set_first_time set_hb_timer set_can_boardtype set_can_hb_val set_hb_count
    set_obj_val set_cancon_outbuf set_cancon_inbuf set_cancon_ack_pending set_cancon_rmt
    set_ttyp set_cantty_myrefcount set_cantty_registered set_ack_timer set_jiffies set_io
    set_klog set_heap set_ttys set_prom set_con_registered set_bh_queued set_irq_installed
    set_misc_registered set_mod_usecount set_stack_pkt] in e.
Ltac ws_goal :=
  repeat match goal with
  | |- context [?p (?c (?s ?x ?w))] =>
      world_setter s;
      let e := constr:(p (c (s x w))) in
      let e' := wcbn e in
      progress change e with e'
  end.
Ltac ws_hyp H :=
  repeat match type of H with
  | context [?p (?c (?s ?x ?w))] =>
      world_setter s;
      let e := constr:(p (c (s x w))) in
      let e' := wcbn e in
      progress change e with e' in H
  end.
Tactic Notation "ws" := ws_goal.
Tactic Notation "ws" "in" hyp(H) := ws_hyp H.

(** Equality of worlds that agree field by field. *)
Ltac world_eq :=
  repeat match goal with w : world |- _ => destruct w as [[] [] [] []] end; reflexivity.

(** ** Access to the parts *)
Section world_ops.
Context {P : Prom} {H : CanHw} {K : Kernel}.
Abbreviation M := (eff world).

Definition on_inq {A} (m : eff (ring can_packet) A) : M A := zoom (fun w : world => inq w) set_inq m.
Definition on_outq {A} (m : eff (ring can_packet) A) : M A := zoom (fun w : world => outq w) set_outq m.
Definition on_outbuf {A} (m : eff (ring Z) A) : M A := zoom (fun w : world => cancon_outbuf w) set_cancon_outbuf m.
Definition on_inbuf {A} (m : eff (ring Z) A) : M A := zoom (fun w : world => cancon_inbuf w) set_cancon_inbuf m.
Definition on_prom {A} (m : eff prom_st A) : M A := zoom (fun w : world => prom w) set_prom m.

(** [reg->r] and [reg->r = v] *)
Definition rd (r : creg) : M Z :=
  run (fun w : world => let v := u8 (hw_read (io w) r) in (v, set_io (Rd r v :: io w) w)).
Definition wr (r : creg) (v : Z) : M unit :=
  modify (fun w : world => set_io (Wr r (u8 v) :: io w) w).

Definition log (e : kev) : M unit := modify (fun w : world => set_klog (e :: klog w) w).

(** [*fstate] for a [struct file_state *]. *)
Definition get_fs (p : Z) : M file_state :=
  h ← gets (fun w : world => heap w); the NullDeref (h !! p).
Definition put_fs (p : Z) (fs : file_state) : M unit :=
  modify (fun w : world => set_heap (<[p := fs]> (heap w)) w).
Definition on_fs_inq {A} (p : Z) (m : eff (ring can_packet) A) : M A :=
  fs ← get_fs p;
  match m (fs_inq fs) with
  | Done a r => put_fs p (FileState r (promiscuous fs) (snoopy fs) (consobj fs)) ;; mret a
  | Fault e => fail e
  end.

Definition get_tty (p : Z) : M tty_struct :=
  t ← gets (fun w : world => ttys w); the NullDeref (t !! p).
Definition put_tty (p : Z) (t : tty_struct) : M unit :=
  modify (fun w : world => set_ttys (<[p := t]> (ttys w)) w).

(** queue_task(&bh_tq, &tq_immediate); mark_bh(IMMEDIATE_BH) *)
Definition queue_bh : M unit := modify (set_bh_queued true).

Definition set_promiscuous v (fs : file_state) :=
  FileState (fs_inq fs) v (snoopy fs) (consobj fs).
Definition set_snoopy v (fs : file_state) :=
  FileState (fs_inq fs) (promiscuous fs) v (consobj fs).
Definition set_consobj v (fs : file_state) :=
  FileState (fs_inq fs) (promiscuous fs) (snoopy fs) v.
End world_ops.

(** ** Symbolic execution of the primitives *)
Section world_wp.
Context {P : Prom} {H : CanHw} {K : Kernel}.
Implicit Types w : world.

Lemma wp_rd r (Q : Z -> world -> Prop) w :
  wp (rd r) Q w <-> Q (u8 (hw_read (io w) r)) (set_io (Rd r (u8 (hw_read (io w) r)) :: io w) w).
Proof. done. Qed.
Lemma wp_wr r v (Q : unit -> world -> Prop) w :
  wp (wr r v) Q w <-> Q tt (set_io (Wr r (u8 v) :: io w) w).
Proof. done. Qed.
Lemma wp_log e (Q : unit -> world -> Prop) w :
  wp (log e) Q w <-> Q tt (set_klog (e :: klog w) w).
Proof. done. Qed.
Lemma wp_queue_bh (Q : unit -> world -> Prop) w :
  wp queue_bh Q w <-> Q tt (set_bh_queued true w).
Proof. done. Qed.
Lemma wp_on_inq {A} (m : eff _ A) (Q : A -> world -> Prop) w :
  wp (on_inq m) Q w <-> wp m (fun a r => Q a (set_inq r w)) (inq w).
Proof. exact (wp_zoom _ _ m Q w). Qed.
Lemma wp_on_outq {A} (m : eff _ A) (Q : A -> world -> Prop) w :
  wp (on_outq m) Q w <-> wp m (fun a r => Q a (set_outq r w)) (outq w).
Proof. exact (wp_zoom _ _ m Q w). Qed.
Lemma wp_on_outbuf {A} (m : eff _ A) (Q : A -> world -> Prop) w :
  wp (on_outbuf m) Q w <-> wp m (fun a r => Q a (set_cancon_outbuf r w)) (cancon_outbuf w).
Proof. exact (wp_zoom _ _ m Q w). Qed.
Lemma wp_on_inbuf {A} (m : eff _ A) (Q : A -> world -> Prop) w :
  wp (on_inbuf m) Q w <-> wp m (fun a r => Q a (set_cancon_inbuf r w)) (cancon_inbuf w).
Proof. exact (wp_zoom _ _ m Q w). Qed.
Lemma wp_on_prom {A} (m : eff _ A) (Q : A -> world -> Prop) w :
  wp (on_prom m) Q w <-> wp m (fun a r => Q a (set_prom r w)) (prom w).
Proof. exact (wp_zoom _ _ m Q w). Qed.
Lemma wp_get_fs p (Q : file_state -> world -> Prop) w :
  wp (get_fs p) Q w <-> exists fs, heap w !! p = Some fs /\ Q fs w.
Proof. unfold get_fs. rewrite wp_bind, wp_gets. apply wp_the. Qed.
Lemma wp_put_fs p fs (Q : unit -> world -> Prop) w :
  wp (put_fs p fs) Q w <-> Q tt (set_heap (<[p := fs]> (heap w)) w).
Proof. done. Qed.
Lemma wp_get_tty p (Q : tty_struct -> world -> Prop) w :
  wp (get_tty p) Q w <-> exists t, ttys w !! p = Some t /\ Q t w.
Proof. unfold get_tty. rewrite wp_bind, wp_gets. apply wp_the. Qed.
Lemma wp_put_tty p t (Q : unit -> world -> Prop) w :
  wp (put_tty p t) Q w <-> Q tt (set_ttys (<[p := t]> (ttys w)) w).
Proof. done. Qed.
Lemma wp_on_fs_inq {A} p (m : eff (ring can_packet) A) (Q : A -> world -> Prop) w :
  wp (on_fs_inq p m) Q w <->
  exists fs, heap w !! p = Some fs /\
    wp m (fun a r => Q a (set_heap
      (<[p := FileState r (promiscuous fs) (snoopy fs) (consobj fs)]> (heap w)) w)) (fs_inq fs).
Proof.
  unfold on_fs_inq. rewrite wp_bind, wp_get_fs.
  split; intros (fs & E & Hm); exists fs; (split; [done|]);
    revert Hm; unfold wp, mbind, eff_bind; destruct (m (fs_inq fs)); done.
Qed.
End world_wp.

#[global] Hint Rewrite @wp_rd @wp_wr @wp_log @wp_queue_bh @wp_on_inq @wp_on_outq
  @wp_on_outbuf @wp_on_inbuf @wp_on_prom @wp_get_fs @wp_put_fs @wp_get_tty @wp_put_tty
  @wp_on_fs_inq : wp.
