(* ===== verification/Demo.v ===== *)
(** * A concrete system

    The states the examples (witnesses) of the other files start from: a PROM
    with the driver's properties, a kernel that copies printk() text to the
    console, a node with address (cluster 0, module 0, node 5) and no console
    connection. *)

From stdpp Require Import prelude list numbers gmap strings.
From Stdlib Require Import ZArith Lia.
From S2P Require Import Prelude CanTypes Ring Obp World.

Definition demo_kernel : Kernel := {|
  printk_text := fun fmt _ => [str fmt];
  console_backlog := [str "booting"];
  TTY_FLIPBUF_SIZE := 512;
  PROMREG_MAX := 16;
  request_irq_ret := 0;
  tty_register_driver_ret := 0;
  misc_register_ret := 0;
  prom_apply_obio_ranges := fun l => l;
  sparc_alloc_io := fun addr _ => addr + 4096
|}.

(** A chip that never has anything to say. *)
Definition quiet_chip : CanHw := {| hw_read := fun _ _ => 0 |}.
(** A chip with a free transmit buffer and nothing received. *)
Definition ready_chip : CanHw := {| hw_read := fun _ r =>
  if decide (r = status) then CAN_STATUS_XMIT_AVAIL else 0 |}.

Definition empty_ring {A} (x : A) : ring A := Ring (replicate (Z.to_nat MAXRING) x) 0 0 0 0.

Definition demo_main : main_state :=
  Main (empty_ring zero_packet) (empty_ring zero_packet) 0 0 0 (replicate 256 0)
    (replicate 256 0) 5 0.
Definition demo_obj : obj_state := Obj (Some 25) 3 (Z.shiftl HB_CAN_RUNNING 2) 0 0.
Definition demo_con : con_state :=
  Con (empty_ring 0) (empty_ring 0) 0 (2 ^ 32 - 1) 0 0 1 None.
Definition demo_kern : @kern_state demo_prom :=
  Kern demo_prom 0 [] [] ∅ ∅ demo_props true false true true 0 zero_packet.
Definition demo_world : @world demo_prom := World demo_prom demo_main demo_obj demo_con demo_kern.

Lemma empty_ring_rep {A} (x : A) : ring_rep (empty_ring x) [].
Proof. exact (ring_rep_init (empty_ring x) eq_refl). Qed.

(** A request from node 3 to the TESTRW object of node 5. *)
Definition demo_request (type object val : Z) : can_packet :=
  set_dat val (set_extf Ext.type type (set_extf Ext.object object
    (set_canf Can.length 8 (set_canf Can.src 3 (set_canf Can.dest 5 zero_packet))))).

Lemma zero_packet_ok : pkt_ok zero_packet.
Proof. repeat split; vm_compute; discriminate || reflexivity. Qed.
