(* ===== verification/CanSend.v ===== *)
(** * can_main.c, first part: queues, sending, the chip, console objects

    What the other files of the driver call: packets enter through send_pkt()
    (from the console, the object handlers and the write system call) or
    through the chip; they leave through try_xmit() or through the bottom half
    (CanMain.v). *)

From stdpp Require Import prelude list numbers gmap strings.
From Stdlib Require Import ZArith Lia.
From S2P Require Import Prelude CanTypes Ring Obp World.


Section can_send.
Context {P : Prom} {H : CanHw} {K : Kernel}.
Abbreviation M := (eff world).

(** ** Queues *)

Definition can_init_queues : M unit :=
  modify (fun w : world => set_inq (RING_INIT (inq w)) w) ;;
  modify (fun w : world => set_outq (RING_INIT (outq w)) w).

(** fail (return 0) if buffer is full *)
Definition pkt_to_ring (pkt : can_packet) : eff (ring can_packet) Z :=
  full ← gets RING_FULL;
  if (full : bool) then mret 0 else RING_IN pkt ;; mret 1.

(** fail (return 0, here [None]) if buffer is empty *)
Definition ring_to_pkt : eff (ring can_packet) (option can_packet) :=
  empty ← gets RING_EMPTY;
  if (empty : bool) then mret None else pkt ← RING_OUT; mret (Some pkt).

(** ** Headers *)

Definition outgoing_fixup (pkt : can_packet) : M can_packet :=
  id ← gets (fun w : world => can_nodeid w);
  mret (set_canf Can.remote 0 (set_canf Can.src (UNPACK_NODE id) pkt)).

Definition incoming_fixup (pkt : can_packet) : M can_packet :=
  j ← gets (fun w : world => jiffies w); mret (set_timestamp (u32 j) pkt).

Definition IS_MYPACKET (id : Z) (x : can_packet) : bool :=
  canf Can.dest x =? UNPACK_NODE id.

(** ** The chip's buffers *)

Definition can_copy_rx (pkt : can_packet) : M can_packet :=
  v ← rd rxdb1; let pkt := set_can_b 0 v pkt in
  v ← rd rxdb2; let pkt := set_can_b 1 v pkt in
  v ← rd rx0; let pkt := set_ext_b 0 v pkt in
  v ← rd rx1; let pkt := set_ext_b 1 v pkt in
  v ← rd rx2; let pkt := set_ext_b 2 v pkt in
  v ← rd rx3; let pkt := set_ext_b 3 v pkt in
  v ← rd rx4; let pkt := set_dat_b 0 v pkt in
  v ← rd rx5; let pkt := set_dat_b 1 v pkt in
  v ← rd rx6; let pkt := set_dat_b 2 v pkt in
  v ← rd rx7; let pkt := set_dat_b 3 v pkt in
  mret pkt.

Definition can_copy_tx (pkt : can_packet) : M unit :=
  wr txdb1 (can_b 0 pkt) ;;
  wr txdb2 (can_b 1 pkt) ;;
  wr tx0 (ext_b 0 pkt) ;;
  wr tx1 (ext_b 1 pkt) ;;
  wr tx2 (ext_b 2 pkt) ;;
  wr tx3 (ext_b 3 pkt) ;;
  wr tx4 (dat_b 0 pkt) ;;
  wr tx5 (dat_b 1 pkt) ;;
  wr tx6 (dat_b 2 pkt) ;;
  wr tx7 (dat_b 3 pkt).

(** The loop of try_xmit(); every iteration takes a packet off [outq], so
    [MAXRING + 1] iterations are enough. *)
Fixpoint try_xmit_loop (fuel : nat) (i : Z) : M Z :=
  match fuel with
  | O => fail OutOfFuel
  | S fuel' =>
      s ← rd status;
      if has s CAN_STATUS_XMIT_AVAIL then
        o ← on_outq ring_to_pkt;
        match o with
        | None => mret i
        | Some pkt =>
            can_copy_tx pkt ;;
            wr command CAN_COMMAND_TRANSMIT ;;
            try_xmit_loop fuel' (i + 1)
        end
      else mret i
  end.
Definition xmit_fuel : nat := Z.to_nat (MAXRING + 1).

Definition try_xmit : M unit :=
  i ← try_xmit_loop xmit_fuel 0;
  when (0 <? i) (log WakeWriteq).

(** The loop of try_recv(); how often it runs is up to the chip. *)
Fixpoint try_recv_loop (fuel : nat) (i : Z) (pkt : can_packet) : M Z :=
  match fuel with
  | O => fail OutOfFuel
  | S fuel' =>
      s ← rd status;
      if has s CAN_STATUS_RECV_AVAIL then
        pkt ← can_copy_rx pkt;
        wr command CAN_COMMAND_CLR_RECV ;;
        pkt ← incoming_fixup pkt;
        on_inq (pkt_to_ring pkt) ;;
        try_recv_loop fuel' (i + 1) pkt
      else mret i
  end.

Definition try_recv (fuel : nat) : M unit :=
  pkt ← gets (fun w : world => stack_pkt w);
  i ← try_recv_loop fuel 0 pkt;
  when (0 <? i) queue_bh.

(** ** Sending

    Both functions write to the packet they are given; they return it with
    their result. *)

Definition send_pkt_no_out_fixup (pkt : can_packet) : M (Z * can_packet) :=
  pkt ← incoming_fixup pkt;
  id ← gets (fun w : world => can_nodeid w);
  '(instat, outstat) ←
    (if IS_MYPACKET id pkt then
       instat ← on_inq (pkt_to_ring pkt); mret (instat, 0)
     else
       outstat ← on_outq (pkt_to_ring pkt);
       instat ← (if outstat =? 0 then mret 0 else on_inq (pkt_to_ring pkt));
       mret (instat, outstat));
  when (negb (instat =? 0)) queue_bh ;;
  when (negb (outstat =? 0)) try_xmit ;;
  mret (b2z (negb (instat =? 0) || negb (outstat =? 0)), pkt).

Definition send_pkt (pkt : can_packet) : M (Z * can_packet) :=
  pkt ← outgoing_fixup pkt;
  send_pkt_no_out_fixup pkt.

(** ** Initialisation of the 82C200

    request_irq() is called the first time only. *)
Definition can_init_82c200 (promiscuous : Z) : M Z :=
  id ← gets (fun w : world => can_nodeid w);
  wr control CAN_CONTROL_RESET ;;
  wr accept_mask (if promiscuous =? 0 then 0x83 else 0xff) ;;
  wr accept_code (Z.shiftl (UNPACK_NODE id) 2) ;;
  wr bus_timing0 0x40 ;;
  wr bus_timing1 0x16 ;;
  wr out_control 0xaa ;;
  rd interrupt ;;
  first ← gets (fun w : world => first_time w);
  failed ← (if negb (first =? 0) then
              if request_irq_ret =? 0 then modify (set_irq_installed true) ;; mret false
              else mret true
            else mret false);
  if (failed : bool) then mret (- EIO)
  else
    modify (set_first_time 0) ;;
    wr control (Z.lor (Z.lor (Z.lor CAN_CONTROL_RIE CAN_CONTROL_EIE) CAN_CONTROL_OIE)
                      CAN_CONTROL_TIE) ;;
    c ← rd control;
    if has c CAN_CONTROL_RESET then mret (- EIO)
    else
      s ← rd status;
      if has s CAN_STATUS_BUS_STAT then mret (- EIO) else mret 0.

Definition can_fini_82c200 : M unit :=
  wr control CAN_CONTROL_RESET ;;
  rd interrupt ;;
  wr control 0 ;;
  modify (set_irq_installed false).

(** ** Console object identifiers *)

Definition COSIZE : Z := CANOBJ_CONSMAX - CANOBJ_CONSMIN + 1.

(** [consobj_reserved[i]] and [consobj_reserved[i] = v] *)
Definition reserved_get (i : Z) : M Z :=
  l ← gets (fun w : world => consobj_reserved w);
  if 0 <=? i then the OutOfBounds (l !! Z.to_nat i) else fail OutOfBounds.
Definition reserved_set (i v : Z) : M unit :=
  l ← gets (fun w : world => consobj_reserved w);
  if (0 <=? i) && (i <? Z.of_nat (length l))
  then modify (set_consobj_reserved (<[Z.to_nat i := v]> l)) else fail OutOfBounds.

Definition can_init_consobj : M unit :=
  modify (set_consobj_reserved (replicate (Z.to_nat COSIZE) 0)).

Definition can_inuse_consobj (consobj : Z) : M Z := reserved_get (consobj - CANOBJ_CONSMIN).

(** The search loop of can_alloc_consobj(): [(try, count)] at its end. *)
Fixpoint can_alloc_consobj_loop (fuel : nat) (try count : Z) : M (Z * Z) :=
  match fuel with
  | O => fail OutOfFuel
  | S fuel' =>
      if count <? COSIZE then
        v ← reserved_get try;
        if v =? 1
        then can_alloc_consobj_loop fuel' ((try + 1) mod COSIZE) (count + 1)
        else mret (try, count)
      else mret (try, count)
  end.

Definition can_alloc_consobj : M Z :=
  j ← gets (fun w : world => jiffies w);
  '(try, count) ← can_alloc_consobj_loop (S (Z.to_nat COSIZE)) (j mod COSIZE) 0;
  if count <? COSIZE
  then reserved_set try 1 ;; mret (try + CANOBJ_CONSMIN)
  else mret (-1).

Definition can_free_consobj (i : Z) : M unit :=
  let i := i - CANOBJ_CONSMIN in
  when ((0 <=? i) && (i <? COSIZE)) (reserved_set i 0).
End can_send.

(** * Properties *)

(** ** What the chip was told to transmit

    [tx_frames tr] is read off the register accesses: each transmit command
    sends what the transmit buffer registers hold at that moment. *)

Fixpoint last_wr (r : creg) (tr : list ioev) : Z :=
  match tr with
  | [] => 0
  | Wr r' v :: tr' => if decide (r' = r) then v else last_wr r tr'
  | Rd _ _ :: tr' => last_wr r tr'
  end.

Definition tx_frame (tr : list ioev) : frame :=
  (be_word (map (fun r => last_wr r tr) [txdb1; txdb2]),
   be_word (map (fun r => last_wr r tr) [tx0; tx1; tx2; tx3]),
   be_word (map (fun r => last_wr r tr) [tx4; tx5; tx6; tx7])).

Fixpoint tx_frames (tr : list ioev) : list frame :=
  match tr with
  | [] => []
  | Wr command v :: tr' =>
      if has v CAN_COMMAND_TRANSMIT then tx_frames tr' ++ [tx_frame tr'] else tx_frames tr'
  | _ :: tr' => tx_frames tr'
  end.

(** The register accesses of can_copy_tx() and the transmit command. *)
Definition xmit_trace (p : can_packet) (tr : list ioev) : list ioev :=
  Wr command CAN_COMMAND_TRANSMIT ::
  Wr tx7 (dat_b 3 p) :: Wr tx6 (dat_b 2 p) :: Wr tx5 (dat_b 1 p) :: Wr tx4 (dat_b 0 p) ::
  Wr tx3 (ext_b 3 p) :: Wr tx2 (ext_b 2 p) :: Wr tx1 (ext_b 1 p) :: Wr tx0 (ext_b 0 p) ::
  Wr txdb2 (can_b 1 p) :: Wr txdb1 (can_b 0 p) :: tr.

Lemma tx_frames_xmit_trace p tr :
  pkt_ok p -> tx_frames (xmit_trace p tr) = tx_frames tr ++ [frame_of p].
Proof.
  intros (_ & Hc & He & Hd). cbn. unfold tx_frame. cbn [map last_wr].
  repeat (case_decide; [try discriminate|try congruence]).
  unfold can_b, ext_b, dat_b. by rewrite be_word_bytes2, !be_word_bytes4.
Qed.

Lemma pkt_byte_u8 n i w : 0 <= n - 1 - i -> u8 (byte_of n i w) = byte_of n i w.
Proof. intros. apply u8_id. by apply byte_of_range. Qed.

Section send_props.
Context {P : Prom} {H : CanHw} {K : Kernel}.
Implicit Types w : world.

Lemma pkt_to_ring_put x : pkt_to_ring x = fifo_put x.
Proof. done. Qed.
Lemma ring_to_pkt_get : ring_to_pkt = fifo_get.
Proof. done. Qed.

Lemma pkt_to_ring_spec x r q : ring_rep r q ->
  wp (pkt_to_ring x) (fun v r' =>
    if Z.of_nat (length q) <? MAXRING - 1
    then v = 1 /\ ring_rep r' (q ++ [x]) else v = 0 /\ r' = r) r.
Proof. exact (fifo_put_spec (BoundedFifo := ring_fifo can_packet) x r q). Qed.

Lemma ring_to_pkt_spec r q : ring_rep r q ->
  wp ring_to_pkt (fun o r' =>
    match q with
    | [] => o = None /\ r' = r
    | x :: q' => o = Some x /\ ring_rep r' q'
    end) r.
Proof. exact (fifo_get_spec (BoundedFifo := ring_fifo can_packet) r q). Qed.

Lemma wp_xmit_one {A} p (m : eff world A) (Q : A -> world -> Prop) w :
  wp m Q (set_io (xmit_trace p (io w)) w) ->
  wp (can_copy_tx p ;; wr command CAN_COMMAND_TRANSMIT ;; m) Q w.
Proof.
  intros HQ. unfold can_copy_tx. rewrite wp_bind. repeat rewrite wp_bind, wp_wr.
  rewrite wp_wr. repeat rewrite wp_bind, wp_wr. ws.
  unfold can_b, ext_b, dat_b. rewrite !pkt_byte_u8 by lia. exact HQ.
Qed.

(** ** Transmission *)

(** What a run of the loop leaves behind, in terms of the queue [q] it found:
    a prefix of the queue went to the chip, in order. *)
Definition xmit_post (w : world) (q : list can_packet) (n : nat) (w' : world) : Prop :=
  exists tr r,
    (n <= length q)%nat /\ w' = set_outq r (set_io tr w) /\
    ring_rep r (drop n q) /\
    tx_frames tr = tx_frames (io w) ++ map frame_of (take n q) /\
    (drop n q = [] \/
     exists s tr', tr = Rd status s :: tr' /\ has s CAN_STATUS_XMIT_AVAIL = false).

Lemma try_xmit_loop_spec fuel i w q :
  ring_rep (outq w) q -> Forall pkt_ok q -> (length q < fuel)%nat ->
  wp (try_xmit_loop fuel i) (fun i' w' =>
    exists n, i' = i + Z.of_nat n /\ xmit_post w q n w') w.
Proof.
  revert i w q. induction fuel as [|fuel IH]; intros i w q Hq Hok Hf; [lia|].
  cbn [try_xmit_loop]. wp_go. ws.
  set (s := u8 (hw_read (io w) status)). apply wp_if. split; intros Hs.
  - wp_go. ws. wp_call ring_to_pkt_spec; [exact Hq|]. intros o r. destruct q as [|p q].
    + intros [-> ->]. wp_go. exists 0%nat. split; [lia|].
      exists (Rd status s :: io w), (outq w). cbn. rewrite app_nil_r.
      split_and!; try done. by left.
    + intros [-> Hr]. apply Forall_cons in Hok as [Hp Hok].
      apply wp_xmit_one. ws. wp_call IH; [exact Hr|done|cbn in Hf; lia|].
      intros i' w' (n & -> & tr & r' & Hn & -> & Hr' & Htx & Hend).
      exists (S n). split; [lia|]. exists tr, r'. cbn [length drop take map] in *.
      split_and!; try done; [lia|]. rewrite Htx. ws.
      rewrite tx_frames_xmit_trace by done. cbn [tx_frames]. by rewrite <- app_assoc.
  - wp_go. exists 0%nat. split; [lia|]. exists (Rd status s :: io w), (outq w).
    cbn [take drop map]. rewrite app_nil_r.
    split_and!; try done; [lia|world_eq|]. right. by eexists _, _.
Qed.

Lemma try_xmit_spec w q :
  ring_rep (outq w) q -> Forall pkt_ok q ->
  wp try_xmit (fun _ w' => exists n w1,
    xmit_post w q n w1 /\
    w' = if (0 <? n)%nat then set_klog (WakeWriteq :: klog w) w1 else w1) w.
Proof.
  intros Hq Hok. unfold try_xmit. wp_go.
  wp_call try_xmit_loop_spec; [exact Hq|done| |].
  { destruct Hq as (_ & _ & Hl & _). unfold xmit_fuel, MAXRING in *. lia. }
  intros i w' (n & -> & Hp). apply wp_when. pose proof Hp as (tr & r & _ & -> & _).
  split; intros Hi; wp_go; exists n, (set_outq r (set_io tr w)); (split; [exact Hp|]).
  - destruct (Nat.ltb_spec 0 n); [done|lia].
  - destruct (Nat.ltb_spec 0 n); [lia|done].
Qed.

Lemma try_xmit_queue w q :
  ring_rep (outq w) q -> Forall pkt_ok q ->
  wp try_xmit (fun _ w' => exists r n tr,
    ring_rep r (drop n q) /\
    tx_frames tr = tx_frames (io w) ++ map frame_of (take n q) /\
    w' = set_klog (if (0 <? n)%nat then WakeWriteq :: klog w else klog w)
           (set_outq r (set_io tr w))) w.
Proof.
  intros Hq Hok. wp_call try_xmit_spec; [exact Hq|done|].
  intros _ w' (n & w2 & (tr & r & Hn & -> & Hr & Htx & _) & ->).
  exists r, n, tr. split_and!; try done. destruct (0 <? n)%nat; world_eq.
Qed.

(** ** send_pkt() *)

Definition room {A} (q : list A) : bool := Z.of_nat (length q) <? MAXRING - 1.

(** The packet as the queues get it: stamped with the current jiffies. *)
Definition stamped (w : world) (pkt : can_packet) : can_packet :=
  set_timestamp (u32 (jiffies w)) pkt.
(** The header fixup of send_pkt(). *)
Definition fixed_up (w : world) (pkt : can_packet) : can_packet :=
  set_canf Can.remote 0 (set_canf Can.src (UNPACK_NODE (can_nodeid w)) pkt).

(** The queues of [w] hold [qi] and [qo]. *)
Definition queues (w : world) (qi qo : list can_packet) : Prop :=
  ring_rep (inq w) qi /\ ring_rep (outq w) qo /\ Forall pkt_ok qi /\ Forall pkt_ok qo.

(** A packet [p] addressed to this node is looped back to [inq]; any other
    is queued for the chip, a copy goes to [inq] for the snoopers, and the chip
    gets a prefix of what is queued. *)
Definition send_post (w : world) (qi qo : list can_packet) (p : can_packet)
    (v : Z) (w' : world) : Prop :=
  if IS_MYPACKET (can_nodeid w) p then
    if room qi then
      v = 1 /\ exists r, ring_rep r (qi ++ [p]) /\ w' = set_bh_queued true (set_inq r w)
    else v = 0 /\ w' = w
  else if room qo then
    v = 1 /\ exists ri ro n tr,
      ring_rep ri (if room qi then qi ++ [p] else qi) /\
      ring_rep ro (drop n (qo ++ [p])) /\
      tx_frames tr = tx_frames (io w) ++ map frame_of (take n (qo ++ [p])) /\
      w' = set_klog (if (0 <? n)%nat then WakeWriteq :: klog w else klog w)
             (set_bh_queued (room qi || bh_queued w)
               (set_inq ri (set_outq ro (set_io tr w))))
  else v = 0 /\ w' = w.

Lemma stamped_mine w id p : IS_MYPACKET id (stamped w p) = IS_MYPACKET id p.
Proof. done. Qed.

Lemma stamped_ok w p : pkt_ok p -> pkt_ok (stamped w p).
Proof. unfold stamped. auto with pkt. Qed.
Lemma fixed_up_ok w p : pkt_ok p -> pkt_ok (fixed_up w p).
Proof. unfold fixed_up. auto 7 with pkt. Qed.

Lemma send_pkt_no_out_fixup_spec pkt w qi qo :
  queues w qi qo -> pkt_ok pkt ->
  wp (send_pkt_no_out_fixup pkt) (fun r w' =>
    r.2 = stamped w pkt /\ send_post w qi qo (stamped w pkt) r.1 w') w.
Proof.
  intros (Hqi & Hqo & Oi & Oo) Hok. unfold send_pkt_no_out_fixup, incoming_fixup. wp_go.
  fold (stamped w pkt). unfold send_post.
  destruct (IS_MYPACKET (can_nodeid w) (stamped w pkt)) eqn:Em.
  - wp_go. wp_call pkt_to_ring_spec; [exact Hqi|]. intros v r. fold (room qi).
    destruct (room qi); intros [-> Hr]; wp_go; cbn [Z.eqb negb when orb]; wp_go.
    + split; [done|]. split; [done|]. by exists r.
    + subst r. split; [done|]. split; [done|]. world_eq.
  - wp_go. wp_call pkt_to_ring_spec; [exact Hqo|]. intros v ro. fold (room qo).
    destruct (room qo); intros [-> Hro]; wp_go; cbn [Z.eqb negb when orb]; wp_go; ws.
    + assert (Ho : Forall pkt_ok (qo ++ [stamped w pkt])).
      { apply Forall_app. split; [done|]. apply Forall_singleton. by apply stamped_ok. }
      wp_call pkt_to_ring_spec; [exact Hqi|]. intros vi ri. fold (room qi). intros Hi.
      destruct (room qi); destruct Hi as [-> Hri]; cbn [Z.eqb negb when]; wp_go;
        (eapply wp_mono; [apply try_xmit_queue; [exact Hro|exact Ho]|]);
        intros _ w' (r & n & tr & Hr & Htx & ->); wp_go; cbn [fst snd];
        (split; [done|]); (split; [done|]).
      * exists ri, r, n, tr. split_and!; try done.
      * subst ri. exists (inq w), r, n, tr. split_and!; try done.
    + subst ro. split; [done|]. split; [done|]. world_eq.
Qed.

Lemma send_pkt_spec pkt w qi qo :
  queues w qi qo -> pkt_ok pkt ->
  wp (send_pkt pkt) (fun r w' =>
    r.2 = stamped w (fixed_up w pkt) /\
    send_post w qi qo (stamped w (fixed_up w pkt)) r.1 w') w.
Proof.
  intros Hq Hok. unfold send_pkt, outgoing_fixup. wp_go. fold (fixed_up w pkt).
  apply send_pkt_no_out_fixup_spec; [done|]. by apply fixed_up_ok.
Qed.
End send_props.
