(* ===== verification/CanChip.v ===== *)
(** * The driver against the chip

    Properties of the functions of CanSend.v that talk to the 82C200: what
    sending does to the queues and to the wire, that received frames reach the
    packet queue byte for byte, and what the acceptance filter lets through.

    What the driver relies on of the chip is the class [ChipRx]: the receive
    buffer shows the oldest pending frame until it is released. *)

From stdpp Require Import prelude list numbers gmap strings.
From Stdlib Require Import ZArith Lia.
From S2P Require Import Prelude CanTypes Ring Obp World Demo CanSend.

(** ** Documented behaviour of the chip's receive side *)

Definition rx_regs : list creg := [rxdb1; rxdb2; rx0; rx1; rx2; rx3; rx4; rx5; rx6; rx7].
Definition tx_regs : list creg := [txdb1; txdb2; tx0; tx1; tx2; tx3; tx4; tx5; tx6; tx7].

(** The ten bytes of a frame, in register order. *)
Definition frame_bytes (f : frame) : list Z :=
  bytes_of 2 f.1.1 ++ bytes_of 4 f.1.2 ++ bytes_of 4 f.2.

Class ChipRx {H : CanHw} := {
  rx_pending : list ioev -> list frame;
  rx_pending_ok : forall tr, Forall frame_ok (rx_pending tr);
  rx_status : forall tr, has (u8 (hw_read tr status)) CAN_STATUS_RECV_AVAIL
                         = negb (bool_decide (rx_pending tr = []));
  rx_data : forall tr f fs, rx_pending tr = f :: fs ->
    map (fun r => u8 (hw_read tr r)) rx_regs = frame_bytes f;
  rx_read : forall tr r v, rx_pending (Rd r v :: tr) = rx_pending tr;
  rx_release : forall tr, rx_pending (Wr command CAN_COMMAND_CLR_RECV :: tr)
                          = tl (rx_pending tr)
}.

(** A chip of that kind: it has received [fs] and is always ready to send. *)
#[global] Instance ioev_eq_dec : EqDecision ioev.
Proof. solve_decision. Defined.

Definition is_release (e : ioev) : bool :=
  match e with Wr command v => v =? CAN_COMMAND_CLR_RECV | _ => false end.

Definition rx_index (r : creg) : option nat :=
  match r with
  | rxdb1 => Some 0%nat | rxdb2 => Some 1%nat | rx0 => Some 2%nat | rx1 => Some 3%nat
  | rx2 => Some 4%nat | rx3 => Some 5%nat | rx4 => Some 6%nat | rx5 => Some 7%nat
  | rx6 => Some 8%nat | rx7 => Some 9%nat | _ => None
  end.

Lemma tl_drop {A} n (l : list A) : tl (drop n l) = drop (S n) l.
Proof. revert l. induction n as [|n IH]; intros [|x l]; cbn; done. Qed.

Section fifo_chip.
Context (fs : list frame).

Definition fifo_pending (tr : list ioev) : list frame :=
  drop (length (List.filter is_release tr)) fs.

Definition chip_read (tr : list ioev) (r : creg) : Z :=
  match rx_index r with
  | Some k =>
      match fifo_pending tr with f :: _ => nth k (frame_bytes f) 0 | [] => 0 end
  | None =>
      if decide (r = status)
      then CAN_STATUS_XMIT_AVAIL + b2z (negb (bool_decide (fifo_pending tr = [])))
      else 0
  end.

Definition fifo_chip : CanHw := {| hw_read := chip_read |}.

Lemma frame_bytes_range f k : 0 <= nth k (frame_bytes f) 0 < 2 ^ 8.
Proof.
  do 10 (destruct k as [|k]; [cbn -[byte_of]; apply byte_of_range; lia|]).
  cbn. destruct k; done.
Qed.

Lemma fifo_chip_rx : Forall frame_ok fs -> @ChipRx fifo_chip.
Proof.
  intros Hfs. refine {| rx_pending := fifo_pending |}.
  - intros tr. by apply Forall_drop.
  - intros tr. cbn. unfold chip_read. cbn.
    by destruct (bool_decide (fifo_pending tr = [])).
  - intros tr f fs' E. cbn. unfold chip_read. cbn [rx_index]. rewrite E.
    by rewrite !u8_id by apply frame_bytes_range.
  - done.
  - intros tr. unfold fifo_pending. cbn. by rewrite tl_drop.
Defined.
End fifo_chip.

(** * Properties *)

Section chip_props.
Context {P : Prom} {H : CanHw} {K : Kernel}.
Implicit Types w : world.

(** ** Sending *)

(** C8. send_pkt() on queues that hold [qi] and [qo]. A packet to this node goes
    to the end of the input queue and never to the chip. Any other packet
    goes through the output queue: what has gone to the chip followed by what
    is still queued is exactly what it was before followed by the new packet,
    so nothing is lost, repeated or reordered. A packet that finds its queue
    full is refused (0) and the state is unchanged. *)
Theorem send_pkt_routes pkt w qi qo :
  queues w qi qo -> pkt_ok pkt ->
  let p := stamped w (fixed_up w pkt) in
  let mine := IS_MYPACKET (can_nodeid w) pkt in
  wp (send_pkt pkt) (fun r w' =>
    r.2 = p /\
    if negb (if mine then room qi else room qo) then r.1 = 0 /\ w' = w
    else exists qi' qo',
      r.1 = 1 /\ queues w' qi' qo' /\
      qi' = (if room qi then qi ++ [p] else qi) /\
      tx_frames (io w') ++ map frame_of qo' =
        tx_frames (io w) ++ map frame_of (if mine then qo else qo ++ [p]) /\
      (room qi = true -> bh_queued w' = true) /\
      w_con w' = w_con w /\ w_obj w' = w_obj w /\ openfd w' = openfd w /\
      heap w' = heap w /\ consobj_reserved w' = consobj_reserved w) w.
Proof.
  intros Hq Hok p mine. wp_call send_pkt_spec; [exact Hq|done|]. intros r w' [-> Hs].
  split; [done|]. unfold send_post in Hs. rewrite !stamped_mine in Hs.
  assert (Em : IS_MYPACKET (can_nodeid w) (fixed_up w pkt) = mine).
  { unfold IS_MYPACKET, mine, fixed_up, canf, set_canf. cbn. by fld. }
  rewrite Em in Hs. destruct Hq as (Hi & Ho & Oi & Oo).
  assert (Hp : pkt_ok p) by (apply stamped_ok, fixed_up_ok, Hok).
  assert (Op : forall q, Forall pkt_ok q -> Forall pkt_ok (q ++ [p])).
  { intros q Hq. apply Forall_app. split; [done|]. by apply Forall_singleton. }
  destruct mine.
  - destruct (room qi); cbn [negb]; [|done]. destruct Hs as (-> & r' & Hr & ->).
    exists (qi ++ [p]), qo. unfold queues. ws. split_and!; try done. by apply Op.
  - destruct (room qo); cbn [negb]; [|done].
    destruct Hs as (-> & ri & ro & n & tr & Hri & Hro & Htx & ->).
    eexists _, _. unfold queues. ws. split_and!; try done.
    + destruct (room qi); [by apply Op|done].
    + by apply Forall_drop, Op.
    + rewrite Htx, <- app_assoc, <- map_app, take_drop. done.
    + intros ->. done.
Qed.

(** The transmit loop terminates, whatever the chip answers: it hands the
    chip a prefix of the output queue, in order, leaves the rest queued, and
    stops only when the queue is empty or the chip has no free buffer. *)
Theorem try_xmit_fifo w q :
  ring_rep (outq w) q -> Forall pkt_ok q ->
  wp try_xmit (fun _ w' => exists n,
    ring_rep (outq w') (drop n q) /\
    tx_frames (io w') = tx_frames (io w) ++ map frame_of (take n q) /\
    (drop n q = [] \/
     exists s tr, io w' = Rd status s :: tr /\ has s CAN_STATUS_XMIT_AVAIL = false)) w.
Proof.
  intros Hq Hok. wp_call try_xmit_spec; [exact Hq|done|].
  intros _ w' (n & w1 & (tr & r & Hn & -> & Hr & Htx & Hend) & ->).
  exists n. destruct (0 <? n)%nat; ws; split_and!; done.
Qed.

(** ** Receiving *)

(** The packet can_copy_rx() and incoming_fixup() make of a frame. *)
Definition received (j : Z) (f : frame) : can_packet := CanPacket (u32 j) f.1.1 f.1.2 f.2.

Lemma received_ok j f : frame_ok f -> pkt_ok (received j f).
Proof. intros (? & ? & ?). split; [apply u32_range|]. done. Qed.

(** Reading one byte of the pending frame. *)
Lemma wp_rx_byte `{!ChipRx} k r b f fs (Q : Z -> world -> Prop) w tr :
  rx_regs !! k = Some r -> frame_bytes f !! k = Some b ->
  rx_pending tr = f :: fs ->
  (rx_pending (Rd r b :: tr) = f :: fs -> Q b (set_io (Rd r b :: tr) w)) ->
  wp (rd r) Q (set_io tr w).
Proof.
  intros Er Eb Hp HQ. rewrite wp_rd. ws.
  pose proof (rx_data tr f fs Hp) as Hm.
  rewrite <- Hm, list_lookup_fmap, Er in Eb. cbn in Eb. injection Eb as Eb.
  rewrite Eb. apply HQ. by rewrite rx_read.
Qed.

Lemma can_copy_rx_spec `{!ChipRx} pkt f fs w tr :
  pkt_ok pkt -> rx_pending tr = f :: fs ->
  wp (can_copy_rx pkt) (fun pkt' w' =>
    pkt' = CanPacket (timestamp pkt) f.1.1 f.1.2 f.2 /\
    exists tr', w' = set_io tr' w /\ rx_pending tr' = f :: fs /\
      tx_frames tr' = tx_frames tr) (set_io tr w).
Proof.
  intros (Ht & Hc & He & Hd) Hf.
  assert (Hfo : frame_ok f).
  { pose proof (rx_pending_ok tr) as Ho. rewrite Hf in Ho. by apply Forall_cons in Ho as [? _]. }
  destruct Hfo as (Hf1 & Hf2 & Hf3). unfold can_copy_rx.
  let rec go k := first
    [ rewrite wp_bind; eapply (wp_rx_byte k); [reflexivity|reflexivity|eassumption|];
      intros ?; cbn zeta; go (S k)
    | idtac ] in go 0%nat.
  rewrite wp_ret. split.
  - unfold set_can_b, set_ext_b, set_dat_b, set_can, set_ext, set_dat.
    cbn [timestamp can ext dat Z.of_nat].
    f_equal; [by apply set_bytes2|by apply set_bytes4..].
  - eexists. split; [reflexivity|]. done.
Qed.

(** One round of the receive loop appends the frame, if there is room. *)
Lemma take_room {A} (q : list A) p ps :
  Z.of_nat (length q) < MAXRING ->
  take (Z.to_nat (MAXRING - 1)) ((if room q then q ++ [p] else q) ++ ps) =
  take (Z.to_nat (MAXRING - 1)) (q ++ p :: ps).
Proof.
  intros Hq. unfold room. destruct (Z.ltb_spec (Z.of_nat (length q)) (MAXRING - 1)).
  - by rewrite <- app_assoc.
  - rewrite !take_app_ge by lia.
    replace (Z.to_nat (MAXRING - 1) - length q)%nat with 0%nat by lia. done.
Qed.

Lemma try_recv_loop_spec `{!ChipRx} fuel i pkt w tr q fs :
  pkt_ok pkt -> ring_rep (inq w) q -> rx_pending tr = fs -> (length fs < fuel)%nat ->
  wp (try_recv_loop fuel i pkt) (fun i' w' =>
    i' = i + Z.of_nat (length fs) /\ exists tr' r,
      w' = set_inq r (set_io tr' w) /\ rx_pending tr' = [] /\ tx_frames tr' = tx_frames tr /\
      ring_rep r (take (Z.to_nat (MAXRING - 1)) (q ++ map (received (jiffies w)) fs)))
    (set_io tr w).
Proof.
  revert i pkt w tr q fs. induction fuel as [|fuel IH]; intros i pkt w tr q fs Hok Hq Hp Hf; [lia|].
  cbn [try_recv_loop]. rewrite wp_bind, wp_rd. ws. rewrite rx_status, Hp.
  set (s := u8 (hw_read tr status)).
  assert (Hql : Z.of_nat (length q) < MAXRING) by apply Hq.
  destruct fs as [|f fs].
  - rewrite bool_decide_true by done. cbn [negb]. rewrite wp_ret. split; [cbn; lia|].
    exists (Rd status s :: tr), (inq w). split_and!; [world_eq|by rewrite rx_read|done|].
    cbn [map]. rewrite app_nil_r, take_ge by lia. done.
  - rewrite bool_decide_false by done. cbn [negb]. rewrite wp_bind.
    wp_call (can_copy_rx_spec pkt f fs w (Rd status s :: tr)); [done|by rewrite rx_read|].
    intros pkt' w' (-> & tr1 & -> & Hp1 & Htx1).
    pose proof (rx_pending_ok tr1) as Ho. rewrite Hp1 in Ho. apply Forall_cons in Ho as [Ho _].
    rewrite wp_bind, wp_wr. ws. change (u8 CAN_COMMAND_CLR_RECV) with CAN_COMMAND_CLR_RECV.
    unfold incoming_fixup. wp_go. ws. wp_call pkt_to_ring_spec; [exact Hq|].
    intros v r. fold (room q).
    change (set_timestamp _ _) with (received (jiffies w) f). intros Hr.
    eapply wp_mono; [apply (IH (i + 1) _ (set_inq r w)
      (Wr command CAN_COMMAND_CLR_RECV :: tr1) (if room q then q ++ [received (jiffies w) f] else q) fs)|].
    + by apply received_ok.
    + ws. destruct (room q); destruct Hr as [_ Hr]; [exact Hr|by subst r].
    + by rewrite rx_release, Hp1.
    + cbn in Hf. lia.
    + ws. intros i' w' [-> (tr' & r' & -> & Hp' & Htx & Hr')].
      split; [cbn [length]; lia|]. exists tr', r'. split_and!; [world_eq|done| |].
      * rewrite Htx. cbn. done.
      * rewrite take_room in Hr' by done. exact Hr'.
Qed.

(** C5. try_recv() empties the chip: with fuel for the frames that are pending,
    each of them, oldest first, is appended to the input queue with its bytes
    intact and the current time as timestamp; once the queue is full the rest
    is dropped. The bottom half is queued exactly when something arrived (or
    was queued before), and nothing is transmitted. *)
Theorem try_recv_drains `{!ChipRx} fuel w q :
  ring_rep (inq w) q -> pkt_ok (stack_pkt w) ->
  (length (rx_pending (io w)) < fuel)%nat ->
  wp (try_recv fuel) (fun _ w' =>
    rx_pending (io w') = [] /\
    ring_rep (inq w') (take (Z.to_nat (MAXRING - 1))
      (q ++ map (received (jiffies w)) (rx_pending (io w)))) /\
    bh_queued w' = (negb (bool_decide (rx_pending (io w) = [])) || bh_queued w) /\
    tx_frames (io w') = tx_frames (io w) /\ outq w' = outq w) w.
Proof.
  intros Hq Hok Hf. unfold try_recv. wp_go.
  pose proof (try_recv_loop_spec fuel 0 (stack_pkt w) w (io w) q (rx_pending (io w))
                Hok Hq eq_refl Hf) as Hl.
  assert (Ew : set_io (io w) w = w) by world_eq. rewrite Ew in Hl.
  eapply wp_mono; [exact Hl|]. cbn beta.
  intros i w' (-> & tr & r & -> & Hp & Htx & Hr). rewrite wp_when.
  destruct (rx_pending (io w)) as [|f fs]; cbn [length].
  - split; intros Hi; [discriminate Hi|]. ws. rewrite bool_decide_true by done. done.
  - split; intros Hi; [|discriminate Hi]. wp_go. ws. rewrite bool_decide_false by done. done.
Qed.

(** ** The wire *)

(** A chip that receives what it sends: the receive registers show what was
    last written to the transmit registers. *)
Definition loops_back : Prop :=
  forall tr, map (fun r => u8 (hw_read tr r)) rx_regs = map (fun r => u8 (last_wr r tr)) tx_regs.

Lemma wp_can_copy_tx p (Q : unit -> world -> Prop) w :
  Q tt (set_io (tl (xmit_trace p (io w))) w) -> wp (can_copy_tx p) Q w.
Proof.
  intros HQ. unfold can_copy_tx. repeat rewrite wp_bind, wp_wr. rewrite wp_wr. ws.
  unfold can_b, ext_b, dat_b. rewrite !pkt_byte_u8 by lia. exact HQ.
Qed.

Lemma wp_loop_byte k r b (p : can_packet) (Q : Z -> world -> Prop) w tr :
  loops_back -> rx_regs !! k = Some r ->
  frame_bytes (frame_of p) !! k = Some b ->
  map (fun r => last_wr r tr) tx_regs = frame_bytes (frame_of p) ->
  (map (fun r => last_wr r (Rd r b :: tr)) tx_regs = frame_bytes (frame_of p) ->
   Q b (set_io (Rd r b :: tr) w)) ->
  wp (rd r) Q (set_io tr w).
Proof.
  intros HL Er Eb Hm HQ. rewrite wp_rd. ws. pose proof (HL tr) as HLt.
  rewrite <- (map_map (fun r => last_wr r tr) u8), Hm in HLt.
  assert (Eu : u8 b = b).
  { apply u8_id. rewrite <- (nth_lookup_Some _ _ 0 _ Eb). apply frame_bytes_range. }
  assert (Ek : map u8 (frame_bytes (frame_of p)) !! k = Some b).
  { by rewrite list_lookup_fmap, Eb; cbn; rewrite Eu. }
  rewrite <- HLt, list_lookup_fmap, Er in Ek. cbn in Ek. injection Ek as Ek.
  rewrite Ek. apply HQ. done.
Qed.

(** What can_copy_tx() puts into the transmit registers of the chip,
    can_copy_rx() takes out of the receive registers unchanged: the headers
    and the data of a packet survive the trip byte for byte, whatever packet
    the buffer held before. *)
Theorem chip_wire_roundtrip p old w :
  loops_back -> pkt_ok p -> pkt_ok old ->
  wp (can_copy_tx p ;; can_copy_rx old) (fun p' w' =>
    p' = set_timestamp (timestamp old) p) w.
Proof.
  intros HL (Ht & Hc & He & Hd) (Ht' & Hc' & He' & Hd'). rewrite wp_bind.
  apply wp_can_copy_tx.
  assert (Hm : map (fun r => last_wr r (tl (xmit_trace p (io w)))) tx_regs =
               frame_bytes (frame_of p)) by reflexivity.
  revert Hm. generalize (tl (xmit_trace p (io w))). intros tr Hm. unfold can_copy_rx.
  let rec go k := first
    [ rewrite wp_bind; eapply (wp_loop_byte k); [exact HL|reflexivity|reflexivity|exact Hm|];
      clear Hm; intros Hm; cbn zeta; go (S k)
    | idtac ] in go 0%nat.
  rewrite wp_ret. unfold set_can_b, set_ext_b, set_dat_b, set_can, set_ext, set_dat.
  cbn [timestamp can ext dat Z.of_nat frame_of fst snd set_timestamp].
  destruct p as [pt pc pe pd]. unfold set_timestamp. cbn [timestamp can ext dat] in *.
  f_equal; [by apply set_bytes2|by apply set_bytes4..].
Qed.

(** ** The acceptance filter *)

(** Documented behaviour of the 82C200's filter: a frame is accepted when
    the eight top bits of its header agree with the acceptance code wherever
    the mask is zero. *)
Definition accepts (tr : list ioev) (f : frame) : bool :=
  Z.land (Z.lxor (byte_of 2 0 f.1.1) (last_wr accept_code tr))
         (Z.lxor (last_wr accept_mask tr) 0xff) =? 0.

Lemma filter_mask a c : 0 <= a < 2 ^ 8 -> 0 <= c < 2 ^ 5 ->
  Z.land (Z.lxor a (Z.shiftl c 2)) (Z.lxor 0x83 0xff) = 0 <-> Z.land (Z.shiftr a 2) 0x1f = c.
Proof.
  intros Ha Hc. change (Z.lxor 0x83 0xff) with (Z.shiftl (Z.ones 5) 2).
  change 0x1f with (Z.ones 5). split; intros E.
  - apply Z.bits_inj'. intros i Hi. rewrite Z.land_spec, Z.shiftr_spec, ones_testbit by lia.
    assert (Ei : Z.testbit (Z.land (Z.lxor a (Z.shiftl c 2)) (Z.shiftl (Z.ones 5) 2)) (i + 2)
                 = false) by (rewrite E; apply Z.bits_0).
    rewrite Z.land_spec, Z.lxor_spec, !Z.shiftl_spec in Ei by lia.
    replace (i + 2 - 2) with i in Ei by lia. rewrite ones_testbit in Ei by lia.
    destruct (Z.ltb_spec i 5).
    + rewrite andb_true_r in *. by destruct (Z.testbit a (i + 2)), (Z.testbit c i).
    + rewrite andb_false_r. rewrite <- (Z.mod_small c (2 ^ 5)) by lia.
      by rewrite Z.mod_pow2_bits_high by lia.
  - apply Z.bits_inj'. intros i Hi. rewrite Z.bits_0, Z.land_spec, Z.lxor_spec.
    rewrite !Z.shiftl_spec by lia. destruct (Z.lt_ge_cases i 2).
    { rewrite (Z.testbit_neg_r (Z.ones 5)) by lia. apply andb_false_r. }
    rewrite ones_testbit by lia. destruct (Z.ltb_spec (i - 2) 5); [|apply andb_false_r].
    rewrite <- E. rewrite Z.land_spec, Z.shiftr_spec, ones_testbit by lia.
    replace (i - 2 + 2) with i by lia. destruct (Z.ltb_spec (i - 2) 5); [|lia].
    rewrite !andb_true_r. by destruct (Z.testbit a i).
Qed.

Lemma dest_of_byte0 c : 0 <= c < 2 ^ 16 ->
  Z.land (Z.shiftr (byte_of 2 0 c) 2) 0x1f = fget Can.dest c.
Proof.
  intros Hc. unfold byte_of, fget, Can.dest, f_off, f_wid.
  change 0x1f with (Z.ones 5). change 0xff with (Z.ones 8). apply Z.bits_inj'. intros i Hi.
  rewrite !Z.land_spec, !Z.shiftr_spec, Z.land_spec, Z.shiftr_spec, !ones_testbit by lia.
  destruct (Z.ltb_spec i 5); [|by rewrite !andb_false_r].
  destruct (Z.ltb_spec (i + 2) 8); [|lia]. rewrite !andb_true_r. f_equal. lia.
Qed.

Lemma unpack_node_range id : 0 <= UNPACK_NODE id < 2 ^ 5.
Proof.
  unfold UNPACK_NODE. change 0x1f with (Z.ones 5). rewrite Z.land_ones by lia.
  apply Z.mod_pos_bound. lia.
Qed.

(** What the result [r] of an initialisation that ends with the trace [tr]
    says: without the interrupt it failed and the chip is held in reset;
    otherwise the reset was ended with all interrupts on, the control
    register read back, unless that shows the reset still on the status
    register too, and the result is 0 exactly when neither the reset nor the
    bus-off flag showed. *)
Definition init_report (no_irq : bool) (tr : list ioev) (r : Z) : Prop :=
  if no_irq then r = - EIO /\ last_wr control tr = CAN_CONTROL_RESET
  else exists tr0,
    let started := Wr control (u8 (Z.lor (Z.lor (Z.lor CAN_CONTROL_RIE CAN_CONTROL_EIE)
                                 CAN_CONTROL_OIE) CAN_CONTROL_TIE)) :: tr0 in
    let c := u8 (hw_read started control) in
    let s := u8 (hw_read (Rd control c :: started) status) in
    if has c CAN_CONTROL_RESET then tr = Rd control c :: started /\ r = - EIO
    else tr = Rd status s :: Rd control c :: started /\
      r = if has s CAN_STATUS_BUS_STAT then - EIO else 0.

(** The end of every path through can_init_82c200(). *)
Ltac fin t := wp_go; ws;
  split; [match goal with HA : forall tr, _ -> _ -> accepts _ _ = _ |- _ => by apply HA end|];
  split; [first [by left | by right]|];
  split; [first [done | intros _; split; [first [done | by t]|done]]|]; split; [done|];
  unfold init_report; cbn [negb andb]; cbv zeta;
  first [by split | eexists; match goal with E : has _ CAN_CONTROL_RESET = _ |- _ => rewrite E end;
    split; [reflexivity|]; first [reflexivity | match goal with E : has _ CAN_STATUS_BUS_STAT = _ |- _ =>
      exact (eq_sym (f_equal (fun b : bool => if b then - EIO else 0) E)) end]].

(** The filter, the result and the state of the chip after a reset. *)
Lemma can_init_filter promiscuous w f :
  frame_ok f -> (first_time w = 0 -> irq_installed w = true) ->
  wp (can_init_82c200 promiscuous) (fun r w' =>
    accepts (io w') f =
      (negb (promiscuous =? 0) || (fget Can.dest f.1.1 =? UNPACK_NODE (can_nodeid w))) /\
    (r = 0 \/ r = - EIO) /\
    (r = 0 -> irq_installed w' = true /\ first_time w' = 0 /\
       has (last_wr control (io w')) CAN_CONTROL_RESET = false) /\
    (first_time w <> 0 -> request_irq_ret <> 0 -> r = - EIO) /\
    init_report (negb (first_time w =? 0) && negb (request_irq_ret =? 0)) (io w') r) w.
Proof.
  intros (Hc & _ & _) Hirq.
  assert (HA : forall tr,
    last_wr accept_mask tr = u8 (if promiscuous =? 0 then 0x83 else 0xff) ->
    last_wr accept_code tr = u8 (Z.shiftl (UNPACK_NODE (can_nodeid w)) 2) ->
    accepts tr f =
      (negb (promiscuous =? 0) || (fget Can.dest f.1.1 =? UNPACK_NODE (can_nodeid w)))).
  { intros tr Em Ec. unfold accepts. rewrite Em, Ec.
    pose proof (unpack_node_range (can_nodeid w)).
    rewrite (u8_id (Z.shiftl _ _)) by (rewrite Z.shiftl_mul_pow2 by lia; lia).
    destruct (promiscuous =? 0); cbn [negb orb].
    - change (u8 0x83) with 0x83. apply Bool.eq_iff_eq_true. rewrite !Z.eqb_eq.
      rewrite <- dest_of_byte0 by done. apply filter_mask; [|done].
      by apply byte_of_range.
    - change (Z.lxor (u8 0xff) 0xff) with 0. by rewrite Z.land_0_r. }
  unfold can_init_82c200. rewrite wp_bind, wp_gets.
  repeat (rewrite wp_bind; first [rewrite wp_wr | rewrite wp_rd]).
  match goal with |- wp _ _ ?w1 => set (w2 := w1) end.
  assert (E2 : exists tr, w2 = set_io tr w /\
    last_wr accept_mask tr = u8 (if promiscuous =? 0 then 0x83 else 0xff) /\
    last_wr accept_code tr = u8 (Z.shiftl (UNPACK_NODE (can_nodeid w)) 2) /\
    last_wr control tr = CAN_CONTROL_RESET)
    by (eexists; split; [reflexivity|done]).
  destruct E2 as (tr & -> & Em & Ec & Ectl). rewrite wp_bind, wp_gets, wp_bind. ws.
  destruct (Z.eqb_spec (first_time w) 0) as [Ef|Ef]; cbn [negb].
  - wp_go. ws. rewrite wp_if. split; intros Hr; [|rewrite wp_bind, wp_rd, wp_if; split; intros Hr2].
    all: fin ltac:(apply Hirq).
  - destruct (Z.eqb_spec request_irq_ret 0) as [Er|Er]; wp_go; [|fin idtac]. ws.
    rewrite wp_if. split; intros Hr; [|rewrite wp_bind, wp_rd, wp_if; split; intros Hr2].
    all: fin idtac.
Qed.

(** C34. can_init_82c200() programs the acceptance filter so that, outside
    promiscuous mode, the chip accepts exactly the frames addressed to this
    node (its priority bit and everything after the destination are ignored),
    and every frame in promiscuous mode. It returns 0 exactly when the
    interrupt handler is installed and the registers it reads back after
    ending the reset show neither a reset nor the bus off, and -EIO otherwise,
    without reading the status when the reset is still on and with the chip
    held in reset when there is no interrupt. *)
Theorem acceptance_filter promiscuous w f :
  frame_ok f -> (first_time w = 0 -> irq_installed w = true) ->
  wp (can_init_82c200 promiscuous) (fun r w' =>
    accepts (io w') f =
      (negb (promiscuous =? 0) || (fget Can.dest f.1.1 =? UNPACK_NODE (can_nodeid w))) /\
    (r = 0 \/ r = - EIO) /\
    (r = 0 -> irq_installed w' = true /\ first_time w' = 0 /\
       has (last_wr control (io w')) CAN_CONTROL_RESET = false) /\
    (first_time w <> 0 -> request_irq_ret <> 0 -> r = - EIO) /\
    init_report (negb (first_time w =? 0) && negb (request_irq_ret =? 0)) (io w') r) w.
Proof. intros. by apply can_init_filter. Qed.
End chip_props.

(** * Examples *)

Lemma demo_queues : queues demo_world [] [].
Proof.
  unfold queues. split; [apply empty_ring_rep|]. split; [apply empty_ring_rep|]. done.
Qed.

Lemma demo_request_ok t o v : 0 <= v < 2 ^ 32 -> pkt_ok (demo_request t o v).
Proof. intros Hv. unfold demo_request. auto 9 using zero_packet_ok with pkt. Qed.

Lemma send_pkt_routes_witness :
  let pkt := demo_request CANTYPE_RO CANOBJ_TESTRW 7 in
  wp (send_pkt (P := demo_prom) (H := ready_chip) pkt) (fun r w' => r.1 = 1) demo_world.
Proof.
  intros pkt. eapply wp_mono.
  - apply (send_pkt_routes (P := demo_prom) (H := ready_chip) pkt demo_world [] []).
    + exact demo_queues.
    + apply demo_request_ok. lia.
  - intros r w' [_ Hr].
    rewrite (eq_refl : (if IS_MYPACKET (can_nodeid demo_world) pkt then room [] else room [])
                       = true) in Hr.
    by destruct Hr as (? & ? & ? & _).
Defined.

Lemma try_xmit_fifo_witness :
  wp (try_xmit (P := demo_prom) (H := ready_chip)) (fun _ w' =>
    tx_frames (io w') = []) demo_world.
Proof.
  eapply wp_mono.
  - apply (try_xmit_fifo (P := demo_prom) (H := ready_chip) demo_world []);
      [apply empty_ring_rep | done].
  - intros _ w' (n & _ & -> & _). cbn. by rewrite take_nil.
Defined.

Definition demo_frame : frame := frame_of (demo_request CANTYPE_WO CANOBJ_TESTRW 9).

Lemma demo_frame_ok : Forall frame_ok [demo_frame; demo_frame].
Proof.
  repeat constructor; vm_compute; discriminate || reflexivity.
Qed.

Lemma try_recv_drains_witness :
  wp (try_recv (P := demo_prom) (H := fifo_chip [demo_frame; demo_frame]) 3)
    (fun _ w' => ring_rep (inq w') [received 0 demo_frame; received 0 demo_frame] /\
                 bh_queued w' = true) demo_world.
Proof.
  eapply wp_mono.
  - apply (@try_recv_drains demo_prom (fifo_chip [demo_frame; demo_frame])
             (fifo_chip_rx _ demo_frame_ok) 3 demo_world []).
    + apply empty_ring_rep.
    + exact zero_packet_ok.
    + cbn. lia.
  - intros _ w' (_ & Hr & -> & _). split; [exact Hr|done].
Defined.

(** The chip that receives what it sends. *)
Definition loop_chip : CanHw := {| hw_read := fun tr r =>
  match rx_index r with
  | Some k => match tx_regs !! k with Some r' => u8 (last_wr r' tr) | None => 0 end
  | None => 0
  end |}.

Lemma chip_wire_roundtrip_witness :
  let p := demo_request CANTYPE_WO CANOBJ_TESTRW 0xdeadbeef in
  wp (can_copy_tx (P := demo_prom) p ;; can_copy_rx (H := loop_chip) zero_packet)
    (fun p' _ => frame_of p' = frame_of p) demo_world.
Proof.
  intros p. eapply wp_mono.
  - apply (chip_wire_roundtrip (P := demo_prom) (H := loop_chip) p zero_packet demo_world).
    + intros tr. cbn. unfold u8. by rewrite !Z.mod_mod by done.
    + apply demo_request_ok. lia.
    + exact zero_packet_ok.
  - by intros p' w' ->.
Defined.

Lemma acceptance_filter_witness :
  wp (can_init_82c200 (P := demo_prom) (H := quiet_chip) (K := demo_kernel) 0)
    (fun r w' => accepts (io w') demo_frame = true /\ (r = 0 \/ r = - EIO)) demo_world.
Proof.
  eapply wp_mono.
  - apply (acceptance_filter (P := demo_prom) (H := quiet_chip) (K := demo_kernel)
             0 demo_world demo_frame).
    + exact (Forall_inv demo_frame_ok).
    + done.
  - intros r w' (-> & Hr & _). by split.
Defined.
