(* ===== verification/Console.v ===== *)
(** * can_console.c: the console of the node over the CAN

    Characters to the remote cancon go through [cancon_outbuf] and leave four
    at a time in DAT packets, one unacknowledged packet at a time; characters
    from it go through [cancon_inbuf] to the tty layer. *)

From stdpp Require Import prelude list numbers gmap strings.
From Stdlib Require Import ZArith Lia.
From S2P Require Import Prelude CanTypes Ring Obp World CanSend.


Section console.
Context {P : Prom} {H : CanHw} {K : Kernel}.
Abbreviation M := (eff world).

(** ** Character rings *)

(** fail (return 0) if buffer is full *)
Definition char_to_ring (c : Z) : eff (ring Z) Z :=
  full ← gets RING_FULL;
  if (full : bool) then mret 0 else RING_IN c ;; mret 1.

(** fail (return 0, here [None]) if buffer is empty *)
Definition ring_to_char : eff (ring Z) (option Z) :=
  empty ← gets RING_EMPTY;
  if (empty : bool) then mret None else c ← RING_OUT; mret (Some c).

Definition clear_ring : eff (ring Z) unit := modify RING_CLEAR.

(** ** Sending *)

(** [None] is the NULL packet: no remote. *)
Definition cancon_setcon (pkt : option can_packet) : M unit :=
  match pkt with
  | None =>
      modify (fun w : world => set_cancon_rmt (fset Ext.cluster 0x3f (cancon_rmt w)) w) ;;
      modify (fun w : world => set_cancon_rmt (fset Ext.module 0x3f (cancon_rmt w)) w) ;;
      modify (fun w : world => set_cancon_rmt (fset Ext.node 0x3f (cancon_rmt w)) w) ;;
      modify (fun w : world => set_cancon_rmt (fset Ext.object 0x3f (cancon_rmt w)) w)
  | Some p => modify (set_cancon_rmt (dat p))
  end.

Definition IS_LOCAL (id x : Z) : bool :=
  (fget Ext.cluster x =? UNPACK_CLUSTER id) && (fget Ext.module x =? UNPACK_MODULE id).

(** The kernel's add_timer(): the timer must not be queued. *)
Definition add_ack_timer (expires data : Z) : M unit :=
  t ← gets (fun w : world => ack_timer w);
  match t with
  | Some _ => fail TimerAddedTwice
  | None => modify (set_ack_timer (Some (expires, data)))
  end.
Definition del_ack_timer : M unit := modify (set_ack_timer None).

Definition cantty_write_wakeup (tty : Z) : M unit :=
  tty ← (if tty =? 0 then gets (fun w : world => ttyp w) else mret tty);
  when (negb (tty =? 0))
    (log (TtyWakeWait tty) ;;
     t ← get_tty tty;
     when (do_write_wakeup t && ldisc_has_wakeup t) (log (LdiscWriteWakeup tty))).

(** The [for] loop of cancon_send_next(): up to [n] more characters into the
    data of [pkt], from index [count] on. *)
Fixpoint extract_chars (n : nat) (count : Z) (pkt : can_packet) : M (Z * can_packet) :=
  match n with
  | O => mret (count, pkt)
  | S n' =>
      o ← on_outbuf ring_to_char;
      match o with
      | None => mret (count, pkt)
      | Some c => extract_chars n' (count + 1) (set_dat_b count c pkt)
      end
  end.

(** send a packet and set cancon_ack_pending *)
Definition cancon_send_next : M unit :=
  rmt ← gets (fun w : world => cancon_rmt w);
  if CANCON_UNCONNECTED rmt then on_outbuf clear_ring
  else
    pending ← gets (fun w : world => cancon_ack_pending w);
    if negb (pending =? 0) then skip
    else
      pkt ← gets (fun w : world => stack_pkt w);
      '(count, pkt) ← extract_chars 4 0 pkt;
      if count =? 0 then skip
      else
        id ← gets (fun w : world => can_nodeid w);
        let pkt := set_canf Can.length (sizeof_can_header_ext + count) pkt in
        let pkt := set_ext rmt pkt in
        let pkt := set_canf Can.dest
                     (if IS_LOCAL id (ext pkt) then extf Ext.node pkt else CAN_MODULE_H8) pkt in
        let pkt := set_extf Ext.type CANTYPE_DAT pkt in
        '(sent, _) ← send_pkt pkt;
        if sent =? 0 then skip
        else
          modify (set_cancon_ack_pending 1) ;;
          j ← gets (fun w : world => jiffies w);
          add_ack_timer (u32 (j + CANCON_ACK_TIMEOUT)) 1 ;;
          cantty_write_wakeup 0.

(** ** printk output *)

Definition newline : Z := 10.
Definition carriage_return : Z := 13.

(** cancon_printk_write(): [str] is the string and its length. *)
Definition cancon_printk_write (str : list Z) : M unit :=
  rmt ← gets (fun w : world => cancon_rmt w);
  if CANCON_UNCONNECTED rmt || bool_decide (str = []) then skip
  else
    for_each str (fun c =>
      when (c =? newline) (on_outbuf (char_to_ring carriage_return) ;; skip) ;;
      on_outbuf (char_to_ring c) ;; skip) ;;
    cancon_send_next.

(** The kernel's printk(): the text goes to the console while it is
    registered. *)
Definition printk (fmt : string) (args : list parg) : M unit :=
  log (Printk fmt args) ;;
  r ← gets (fun w : world => con_registered w);
  when r (for_each (printk_text fmt args) cancon_printk_write).

(** Clear cancon_ack_pending and try to send the next packet, if any. *)
Definition cancon_recv_ack (timeout : Z) : M unit :=
  del_ack_timer ;;
  pending ← gets (fun w : world => cancon_ack_pending w);
  (if negb (pending =? 0)
   then modify (set_cancon_ack_pending 0) ;;
        when (negb (timeout =? 0)) (printk "can: consobj ACK timed out\n" [])
   else printk "can: unexpected ACK %s\n"
          [PStr (if negb (timeout =? 0) then "timeout" else "received")]) ;;
  cancon_send_next.

(** ** The tty side *)

Definition cantty_hangup : M unit :=
  on_outbuf clear_ring ;;
  on_inbuf clear_ring ;;
  p ← gets (fun w : world => ttyp w);
  when (negb (p =? 0)) (log (TtyHangup p)).

(** The loop of cantty_recv_push(): every iteration takes a character off
    [cancon_inbuf]. *)
Fixpoint recv_push_loop (fuel : nat) (p : Z) : M unit :=
  match fuel with
  | O => fail OutOfFuel
  | S fuel' =>
      t ← get_tty p;
      if flip_count t <? TTY_FLIPBUF_SIZE then
        o ← on_inbuf ring_to_char;
        match o with
        | None => skip
        | Some c =>
            put_tty p (Tty (tty_stopped t) (flip_ptr_null t) (flip_count t + 1)
                         (flip_chars t ++ [(c, 0)]) (do_write_wakeup t) (ldisc_has_wakeup t)) ;;
            recv_push_loop fuel' p
        end
      else skip
  end.

Definition cantty_recv_push : M unit :=
  p ← gets (fun w : world => ttyp w);
  if p =? 0 then skip
  else
    t ← get_tty p;
    if flip_ptr_null t then skip
    else recv_push_loop (Z.to_nat (MAXRING + 1)) p ;; log (FlipPush p).

(** cantty_recv_dat() on [&pkt->dat.dat_b[0]]: [n] characters from index [i];
    the array has four. *)
Fixpoint recv_dat_loop (n : nat) (i : Z) (pkt : can_packet) : M unit :=
  match n with
  | O => skip
  | S n' =>
      c ← (if i <? 4 then mret (dat_b i pkt) else fail OutOfBounds);
      on_inbuf (char_to_ring c) ;;
      recv_dat_loop n' (i + 1) pkt
  end.
Definition cantty_recv_dat (pkt : can_packet) (count : Z) : M unit :=
  recv_dat_loop (Z.to_nat count) 0 pkt ;; cantty_recv_push.

Definition cantty_open (tty : Z) : M Z :=
  modify (set_ttyp tty) ;;
  modify (fun w : world => set_cantty_myrefcount (cantty_myrefcount w + 1) w) ;;
  modify (fun w : world => set_mod_usecount (mod_usecount w + 1) w) ;;
  mret 0.

Definition cantty_close (tty : Z) : M unit :=
  modify (fun w : world => set_cantty_myrefcount (cantty_myrefcount w - 1) w) ;;
  n ← gets (fun w : world => cantty_myrefcount w);
  when (n =? 0) (modify (set_ttyp 0)) ;;
  modify (fun w : world => set_mod_usecount (mod_usecount w - 1) w).

(** The copy loop of cantty_write(); [None] is a byte that cannot be read. *)
Fixpoint cantty_write_loop (from_user : bool) (buf : list (option Z)) (i : Z) : M Z :=
  match buf with
  | [] => mret i
  | o :: buf' =>
      match o with
      | None => if from_user then mret (- EFAULT) else fail OutOfBounds
      | Some c =>
          v ← on_outbuf (char_to_ring c);
          if v =? 0 then mret i else cantty_write_loop from_user buf' (i + 1)
      end
  end.

(** [buf = None] is the NULL pointer; [count] is the length of the buffer. *)
Definition cantty_write (tty : Z) (from_user : bool) (b : option (list (option Z)))
    (count : Z) : M Z :=
  rmt ← gets (fun w : world => cancon_rmt w);
  if CANCON_UNCONNECTED rmt then mret count
  else
    t ← get_tty tty;
    match b with
    | None => mret 0
    | Some bytes =>
        if tty_stopped t then mret 0
        else
          i ← cantty_write_loop from_user (take (Z.to_nat count) bytes) 0;
          when (0 <? i) cancon_send_next ;;
          mret i
    end.

Definition cantty_write_room (tty : Z) : M Z :=
  t ← get_tty tty;
  if tty_stopped t then mret 0 else gets (fun w : world => RING_ROOM (cancon_outbuf w)).

Definition cantty_put_char (tty ch : Z) : M unit :=
  on_outbuf (char_to_ring ch) ;; cancon_send_next.

Definition cantty_flush_buffer (tty : Z) : M unit :=
  on_outbuf clear_ring ;; cantty_write_wakeup tty.

Definition cantty_chars_in_buffer (tty : Z) : M Z :=
  gets (fun w : world => RING_SIZE (cancon_outbuf w)).

(** ** Start and stop *)

Definition cantty_init : M unit :=
  if negb (tty_register_driver_ret =? 0) then printk "can: tty_register_driver failed\n" []
  else modify (set_cantty_registered 1).

Definition cantty_cleanup : M unit :=
  r ← gets (fun w : world => cantty_registered w);
  when (negb (r =? 0)) (log TtyUnregister).

Definition cancon_dump_debug : M unit :=
  ni ← gets (fun w : world => RING_SIZE (cancon_inbuf w));
  printk "can: cancon_inbuf contains %d chars\n" [PInt ni] ;;
  no ← gets (fun w : world => RING_SIZE (cancon_outbuf w));
  printk "can: cancon_outbuf contains %d chars\n" [PInt no] ;;
  a ← gets (fun w : world => cancon_ack_pending w);
  printk "can: cancon_ack_pending = %d\n" [PInt a].

Definition cancon_dump_info : M unit :=
  rmt ← gets (fun w : world => cancon_rmt w);
  if CANCON_UNCONNECTED rmt then printk "can: console not connected\n" []
  else printk "can: console is connected to %x,%x,%x\n"
         [PInt (fget Ext.cluster rmt); PInt (fget Ext.module rmt); PInt (fget Ext.node rmt)].

(** register_console(&can_console): the flag CON_PRINTBUFFER asks for the
    messages logged so far. *)
Definition register_console : M unit :=
  modify (set_con_registered true) ;; for_each console_backlog cancon_printk_write.

Definition cancon_init : M unit :=
  modify (fun w : world => set_cancon_outbuf (RING_INIT (cancon_outbuf w)) w) ;;
  modify (fun w : world => set_cancon_outbuf (RING_INIT_INLOCK (cancon_outbuf w)) w) ;;
  modify (fun w : world => set_cancon_inbuf (RING_INIT (cancon_inbuf w)) w) ;;
  cantty_init ;;
  register_console.

Definition cancon_cleanup : M unit :=
  modify (set_con_registered false) ;; cantty_cleanup.
End console.
