(* ===== verification/CanObj.v ===== *)
(** * can_obj.c: the CAN objects the kernel handles

    Every handler looks at the type of a packet addressed to this node,
    answers reads and writes with an ACK or a NAK, and reports whether the
    packet was its own.  The file also sends the heartbeat. *)

From stdpp Require Import prelude list numbers gmap strings.
From Stdlib Require Import ZArith Lia.
From S2P Require Import Prelude CanTypes Ring Obp World CanSend Console.

(** ** Decimal numbers, as sprintf("%lu") writes and simple_strtoul() reads
    them *)

Fixpoint udec (fuel : nat) (n : Z) (acc : list Z) : list Z :=
  match fuel with
  | O => acc
  | S fuel' =>
      let acc := (48 + n mod 10) :: acc in
      if n / 10 =? 0 then acc else udec fuel' (n / 10) acc
  end.
(** Ten digits are enough for an unsigned long. *)
Definition sprintf_lu (n : Z) : list Z := udec 10 n [].

Fixpoint strtoul_from (acc : Z) (s : list Z) : Z :=
  match s with
  | [] => acc
  | c :: s' =>
      if (48 <=? c) && (c <=? 57) then strtoul_from (u32 (acc * 10 + (c - 48))) s' else acc
  end.
Definition simple_strtoul (s : list Z) : Z := strtoul_from 0 s.

(** [n] bytes stored over the start of the big-endian word [old]. *)
Definition store_bytes (old : Z) (bs : list Z) : Z :=
  be_word (take 4 bs ++ drop (length bs) (bytes_of 4 old)).

Section can_obj.
Context {P : Prom} {H : CanHw} {K : Kernel}.
Abbreviation M := (eff world).

Definition canobj_sethbval (hb_val : Z) : M unit := modify (set_can_hb_val hb_val).
Definition canobj_gethbval : M Z := gets (fun w : world => can_hb_val w).

(** Send an ACK or NAK response.  [data = None] is the NULL pointer. *)
Definition canobj_acknak (type : Z) (inpkt : can_packet) (data : option Z) : M unit :=
  let pkt := inpkt in
  let pkt := set_canf Can.dest (canf Can.src inpkt) pkt in
  let pkt := set_extf Ext.type type pkt in
  let pkt := set_canf Can.length sizeof_can_header_ext pkt in
  let pkt := match data with
             | Some d =>
                 let pkt := set_dat d pkt in
                 set_canf Can.length (canf Can.length pkt + sizeof_can_dat) pkt
             | None => pkt
             end in
  send_pkt pkt ;; skip.

Inductive getset_t := GET | SET.

(** Get or set the PROM 'cancon-host' value. *)
Definition canobj_cancon_host (getset : getset_t) : M unit :=
  match getset with
  | GET =>
      o ← on_prom (obp_getprop OBP_CANCON_HOST 16);
      tmpstr ← the Uninit (o ≫= cstr);
      modify (set_cancon_rmt (simple_strtoul tmpstr))
  | SET =>
      tmplong ← gets (fun w : world => cancon_rmt w);
      let tmpstr := sprintf_lu tmplong in
      on_prom (obp_setprop OBP_CANCON_HOST (tmpstr ++ [0])) ;; skip
  end.

(** ** Handlers: 1 if the packet was handled, 0 if not *)

Definition canobj_connect (pkt : can_packet) : M Z :=
  let type := extf Ext.type pkt in
  if type =? CANTYPE_RO then
    rmt ← gets (fun w : world => cancon_rmt w);
    canobj_acknak CANTYPE_ACK pkt (Some rmt) ;; mret 1
  else if type =? CANTYPE_WO then
    rmt ← gets (fun w : world => cancon_rmt w);
    (if negb (CANCON_UNCONNECTED rmt) then canobj_acknak CANTYPE_NAK pkt None
     else
       cancon_setcon (Some pkt) ;;
       canobj_cancon_host SET ;;
       rmt ← gets (fun w : world => cancon_rmt w);
       canobj_acknak CANTYPE_ACK pkt (Some rmt)) ;;
    mret 1
  else mret 0.

Definition canobj_disconnect (pkt : can_packet) : M Z :=
  if extf Ext.type pkt =? CANTYPE_WO then
    rmt ← gets (fun w : world => cancon_rmt w);
    (if CANCON_UNCONNECTED rmt then canobj_acknak CANTYPE_NAK pkt None
     else
       cancon_setcon None ;;
       canobj_cancon_host SET ;;
       canobj_acknak CANTYPE_ACK pkt None ;;
       cantty_hangup) ;;
    mret 1
  else mret 0.

Definition canobj_dat (pkt : can_packet) : M Z :=
  rmt ← gets (fun w : world => cancon_rmt w);
  if CANCON_UNCONNECTED rmt then mret 0
  else if extf Ext.type pkt =? CANTYPE_DAT then
    let length := s32 (canf Can.length pkt - sizeof_can_header_ext) in
    canobj_acknak CANTYPE_ACK pkt None ;;
    cantty_recv_dat pkt length ;;
    mret 1
  else mret 0.

Definition canobj_consobj (pkt : can_packet) : M Z :=
  let type := extf Ext.type pkt in
  if type =? CANTYPE_ACK then cancon_recv_ack 0 ;; mret 1
  else if type =? CANTYPE_NAK then
    printk "can: consobj NAK - shouldn't happen\n" [] ;; mret 1
  else mret 0.

Definition canobj_break (pkt : can_packet) : M Z :=
  if extf Ext.type pkt =? CANTYPE_WO then
    canobj_acknak CANTYPE_ACK pkt None ;;
    printk "can: received BREAK, restarting machine\n" [] ;;
    log MachineHalt ;;
    mret 1
  else mret 0.

Definition canobj_testrw (pkt : can_packet) : M Z :=
  let type := extf Ext.type pkt in
  if type =? CANTYPE_WO then
    v ← gets (fun w : world => obj_val w);
    canobj_acknak CANTYPE_ACK pkt (Some v) ;;
    modify (set_obj_val (dat pkt)) ;; mret 1
  else if type =? CANTYPE_RO then
    v ← gets (fun w : world => obj_val w);
    canobj_acknak CANTYPE_ACK pkt (Some v) ;; mret 1
  else mret 0.

(** An uninitialised [uint32_t] on the stack. *)
Definition stack_word : M Z := gets (fun w : world => dat (stack_pkt w)).

Definition canobj_autoboot (pkt : can_packet) : M Z :=
  if extf Ext.type pkt =? CANTYPE_RO then
    o ← on_prom (obp_getcan OBP_AUTO_BOOT OBP_BOOLEAN);
    match o with
    | None => val ← stack_word; canobj_acknak CANTYPE_NAK pkt (Some val) ;; mret 1
    | Some val => canobj_acknak CANTYPE_ACK pkt (Some val) ;; mret 1
    end
  else mret 0.

(** Both devices are set through the table of the input device. *)
Definition canobj_reset_io (pkt : can_packet) : M Z :=
  let table := OBP_INPUT_DEVICE_VALUES in
  let type := extf Ext.type pkt in
  if type =? CANTYPE_RO then
    o ← on_prom (obp_getcan OBP_INPUT_DEVICE table);
    match o with
    | None => canobj_acknak CANTYPE_NAK pkt (Some 0) ;; mret 1
    | Some oldval => canobj_acknak CANTYPE_ACK pkt (Some oldval) ;; mret 1
    end
  else if type =? CANTYPE_WO then
    let newval := dat pkt in
    o ← on_prom (obp_getcan OBP_INPUT_DEVICE table);
    match o with
    | None => canobj_acknak CANTYPE_NAK pkt (Some 0) ;; mret 1
    | Some oldval =>
        r ← on_prom (obp_setcan OBP_INPUT_DEVICE table (s32 newval));
        if r <? 0 then canobj_acknak CANTYPE_NAK pkt (Some oldval) ;; mret 1
        else
          r ← on_prom (obp_setcan OBP_OUTPUT_DEVICE table (s32 newval));
          if r <? 0 then
            canobj_acknak CANTYPE_NAK pkt (Some oldval) ;;
            on_prom (obp_setcan OBP_INPUT_DEVICE table (s32 oldval)) ;;
            mret 1
          else canobj_acknak CANTYPE_ACK pkt (Some oldval) ;; mret 1
    end
  else mret 0.

Definition canobj_boot_dev (pkt : can_packet) : M Z :=
  if extf Ext.type pkt =? CANTYPE_RO then
    o ← on_prom (obp_getcan OBP_BOOT_DEVICE OBP_BOOT_DEVICE_VALUES);
    match o with
    | None => val ← stack_word; canobj_acknak CANTYPE_NAK pkt (Some val) ;; mret 1
    | Some val => canobj_acknak CANTYPE_ACK pkt (Some val) ;; mret 1
    end
  else mret 0.

Definition canobj_heartbeat (pkt : can_packet) : M Z :=
  if extf Ext.type pkt =? CANTYPE_RO then
    v ← gets (fun w : world => can_hb_val w);
    canobj_acknak CANTYPE_ACK pkt (Some v) ;; mret 1
  else mret 0.

(** ** Heartbeat *)

Definition add_hb_timer (expires : Z) : M unit :=
  t ← gets (fun w : world => hb_timer w);
  match t with
  | Some _ => fail TimerAddedTwice
  | None => modify (set_hb_timer (Some expires))
  end.
Definition del_hb_timer : M unit := modify (set_hb_timer None).

Definition canobj_send_heartbeat : M unit :=
  pkt ← gets (fun w : world => stack_pkt w);
  id ← gets (fun w : world => can_nodeid w);
  hb_val ← gets (fun w : world => can_hb_val w);
  let pkt := set_canf Can.dest (CAN_GET_BOARD_H8 (UNPACK_NODE id)) pkt in
  let pkt := set_canf Can.length (sizeof_can_header_ext + 4) pkt in
  let pkt := set_extf Ext.type CANTYPE_WNA pkt in
  let pkt := set_extf Ext.object CANOBJ_HEARTBEAT pkt in
  let pkt := set_extf Ext.cluster (UNPACK_CLUSTER id) pkt in
  let pkt := set_extf Ext.module (UNPACK_MODULE id) pkt in
  let pkt := set_extf Ext.node (canf Can.dest pkt) pkt in
  let pkt := set_dat hb_val pkt in
  '(_, pkt) ← send_pkt pkt;
  (* send IAM packet (from board H8, to module H8) *)
  n ← gets (fun w : world => hb_count w);
  modify (set_hb_count (u32 (n + 1))) ;;
  when (n mod HB_IAM_FACTOR =? 0)
    (boardtype ← gets (fun w : world => can_boardtype w);
     let pkt := set_canf Can.src (CAN_GET_BOARD_H8 (UNPACK_NODE id)) pkt in
     let pkt := set_canf Can.dest CAN_MODULE_H8 pkt in
     let pkt := set_canf Can.length (sizeof_can_header_ext + 4) pkt in
     let pkt := set_extf Ext.type CANTYPE_WNA pkt in
     let pkt := set_extf Ext.object CANOBJ_IAM pkt in
     let pkt := set_extf Ext.cluster (UNPACK_CLUSTER id) pkt in
     let pkt := set_extf Ext.module (UNPACK_MODULE id) pkt in
     let pkt := set_extf Ext.node (canf Can.dest pkt) pkt in
     let pkt := set_dat boardtype pkt in
     send_pkt_no_out_fixup pkt ;; skip) ;;
  (* reschedule *)
  del_hb_timer ;;
  j ← gets (fun w : world => jiffies w);
  add_hb_timer (u32 (j + HB_INTERVAL)).

(** ACK FORCE_DISCONN requests for a connection that is no longer active. *)
Definition canobj_force_disconn (pkt : can_packet) : M Z :=
  if extf Ext.type pkt =? CANTYPE_WO then
    let consobj := dat pkt in
    let object := fget Ext.object consobj in
    if negb (CAN_VALID_CONSOBJ object) then mret 0
    else
      inuse ← can_inuse_consobj object;
      if negb (inuse =? 0) then mret 0
      else canobj_acknak CANTYPE_ACK pkt None ;; mret 1
  else mret 0.

(** ** Dispatch *)
Definition canobj_packet (pkt : can_packet) : M Z :=
  let object := extf Ext.object pkt in
  handled ←
    (if object =? CANOBJ_CONSOLE_CONNECT then canobj_connect pkt
     else if object =? CANOBJ_CONSOLE_DISCONN then canobj_disconnect pkt
     else if object =? CANOBJ_BREAK then canobj_break pkt
     else if object =? CANOBJ_FORCE_DISCONN then canobj_force_disconn pkt
     else if object =? CANOBJ_TESTRW then canobj_testrw pkt
     else if object =? CANOBJ_HEARTBEAT then canobj_heartbeat pkt
     else if object =? CANOBJ_AUTOBOOT then canobj_autoboot pkt
     else if object =? CANOBJ_RESET_IO then canobj_reset_io pkt
     else if object =? CANOBJ_BOOT_DEV then canobj_boot_dev pkt
     else if object =? 0 then canobj_dat pkt
     else mret 0);
  rmt ← gets (fun w : world => cancon_rmt w);
  if negb (CANCON_UNCONNECTED rmt) && (object =? fget Ext.object rmt)
  then canobj_consobj pkt
  else mret handled.

Definition canobj_init : M unit :=
  canobj_cancon_host GET ;;
  o ← on_prom (obp_getprop OBP_CAN_MEIKO_BOARD_TYPE 4);
  match o with
  | None => printk "can: obp_getprop failed: %s\n" [PStr "/obio/can/can-meiko-board-type"]
  | Some bs => modify (fun w : world => set_can_boardtype (store_bytes (can_boardtype w) bs) w)
  end ;;
  modify (set_hb_timer None) ;;                      (* init_timer() *)
  j ← gets (fun w : world => jiffies w);
  add_hb_timer (u32 (j + HB_INTERVAL)).

Definition canobj_cleanup : M unit := del_hb_timer.
End can_obj.
