(* ===== verification/CanMain.v ===== *)
(** * can_main.c, second part: interrupt, bottom half, file operations

    The entry points of the driver: the interrupt handler, the bottom half
    that hands every received packet to the kernel's objects and to the open
    files, the five file operations, and module start and stop. *)

From stdpp Require Import prelude list numbers gmap strings.
From Stdlib Require Import ZArith Lia.
From S2P Require Import Prelude CanTypes Ring Obp World CanSend Console CanObj.


(** The first index from [i] on that holds [v], or the index after the end:
    a [for] loop that breaks on a match. *)
Fixpoint find_from (v : Z) (l : list Z) (i : Z) : Z :=
  match l with
  | [] => i
  | x :: l' => if x =? v then i else find_from v l' (i + 1)
  end.

Section can_main.
Context {P : Prom} {H : CanHw} {K : Kernel}.
Abbreviation M := (eff world).

(** ** Interrupt handler; [fuel] bounds the packets taken off the chip *)
Definition can_intr (fuel : nat) : M unit :=
  s ← rd status;
  when (has s CAN_STATUS_OVERRUN)
    (wr command CAN_COMMAND_CLR_OVERRUN ;; printk "can: overrun cleared\n" []) ;;
  s ← rd status;
  when (has s CAN_STATUS_ERROR_STAT) (printk "can: error detected\n" []) ;;
  c ← rd control;
  when (has c CAN_CONTROL_RESET) (printk "can: reset is active\n" []) ;;
  s ← rd status;
  when (has s CAN_STATUS_BUS_STAT) (printk "can: bus stat\n" []) ;;
  try_recv fuel ;;
  try_xmit ;;
  rd interrupt ;; skip.

(** ** Open files *)

Definition openfd_get (i : Z) : M Z :=
  l ← gets (fun w : world => openfd w);
  if 0 <=? i then the OutOfBounds (l !! Z.to_nat i) else fail OutOfBounds.
Definition openfd_set (i v : Z) : M unit :=
  l ← gets (fun w : world => openfd w);
  if (0 <=? i) && (i <? Z.of_nat (length l))
  then modify (set_openfd (<[Z.to_nat i := v]> l)) else fail OutOfBounds.

Definition can_init_openfd : M unit :=
  modify (set_openfd (replicate (Z.to_nat CAN_MAX_USECOUNT) 0)).

(** [p] is the address kmalloc() returns (0 on failure), [mem] what that
    memory holds. *)
Definition can_alloc_openfd (p : Z) (mem : file_state) : M Z :=
  l ← gets (fun w : world => openfd w);
  let i := find_from 0 l 0 in
  if i =? CAN_MAX_USECOUNT then mret 0
  else
    openfd_set i p ;;
    (if p =? 0 then fail NullDeref else skip) ;;
    put_fs p (FileState (RING_INIT (fs_inq mem)) 0 0 (-1)) ;;
    mret p.

Definition can_release_openfd (myopenfd : Z) : M unit :=
  l ← gets (fun w : world => openfd w);
  let i := find_from myopenfd l 0 in
  if i =? CAN_MAX_USECOUNT then printk "can: can_release_openfd internal error\n" []
  else
    p ← openfd_get i;
    fs ← get_fs p;
    when (negb (consobj fs =? -1)) (can_free_consobj (consobj fs)) ;;
    when (negb (promiscuous fs =? 0))
      (n ← gets (fun w : world => promiscuous_usecount w);
       modify (set_promiscuous_usecount (n - 1)) ;;
       when (n - 1 =? 0) (can_init_82c200 0 ;; skip)) ;;
    modify (fun w : world => set_heap (delete p (heap w)) w) ;;     (* kfree() *)
    openfd_set i 0.

(** Open: the result and [file->private_data]. *)
Definition can_open (p : Z) (mem : file_state) : M (Z * Z) :=
  private_data ← can_alloc_openfd p mem;
  if private_data =? 0 then mret (- EBUSY, 0)
  else
    modify (fun w : world => set_can_usecount (can_usecount w + 1) w) ;;
    modify (fun w : world => set_mod_usecount (mod_usecount w + 1) w) ;;
    mret (0, private_data).

Definition can_release (private_data : Z) : M Z :=
  can_release_openfd private_data ;;
  modify (fun w : world => set_can_usecount (can_usecount w - 1) w) ;;
  modify (fun w : world => set_mod_usecount (mod_usecount w - 1) w) ;;
  mret 0.

(** ** ioctl *)

Definition can_dump_info : M unit :=
  d ← gets (fun w : world => can_debug w);
  when (negb (d =? 0))
    (cancon_dump_info ;;
     printk "can: debugging ON\n" [] ;;
     ni ← gets (fun w : world => RING_SIZE (inq w));
     printk "can: inq contains %d packets\n" [PInt ni] ;;
     no ← gets (fun w : world => RING_SIZE (outq w));
     printk "can: outq contains %d packets\n" [PInt no] ;;
     l ← gets (fun w : world => openfd w);
     printk "can: there are %d fd's open\n"
       [PInt (Z.of_nat (length (filter (fun p => p <> 0) (take 256 l))))] ;;
     cancon_dump_debug).

(** [arg]: the word at the user address, [None] for a bad address.  The
    result comes with the word stored there, if one is. *)
Definition can_ioctl (fstate : Z) (cmd : can_cmd) (arg : option Z) : M (Z * option Z) :=
  match cmd with
  | CAN_SET_PROMISCUOUS =>
      fs ← get_fs fstate;
      put_fs fstate (set_promiscuous 1 fs) ;;
      n ← gets (fun w : world => promiscuous_usecount w);
      modify (set_promiscuous_usecount (n + 1)) ;;
      when (n =? 0) (can_init_82c200 1 ;; skip) ;;
      mret (0, None)
  | CAN_CLR_PROMISCUOUS =>
      fs ← get_fs fstate;
      put_fs fstate (set_promiscuous 0 fs) ;;
      n ← gets (fun w : world => promiscuous_usecount w);
      modify (set_promiscuous_usecount (n - 1)) ;;
      when (n - 1 =? 0) (can_init_82c200 0 ;; skip) ;;
      mret (0, None)
  | CAN_SET_SNOOPY =>
      fs ← get_fs fstate; put_fs fstate (set_snoopy 1 fs) ;; mret (0, None)
  | CAN_CLR_SNOOPY =>
      fs ← get_fs fstate; put_fs fstate (set_snoopy 0 fs) ;; mret (0, None)
  | CAN_GET_HEARTBEAT =>
      hb_val ← canobj_gethbval;
      match arg with
      | None => mret (- EFAULT, None)
      | Some _ => mret (0, Some hb_val)
      end
  | CAN_SET_HEARTBEAT =>
      match arg with
      | None => mret (- EFAULT, None)
      | Some hb_val => canobj_sethbval (u32 hb_val) ;; mret (0, None)
      end
  | CAN_GET_ADDR =>
      id ← gets (fun w : world => can_nodeid w);
      match arg with
      | None => mret (- EFAULT, None)
      | Some _ => mret (0, Some id)
      end
  | CAN_GET_CONSOBJ =>
      fs ← get_fs fstate;
      when (negb (consobj fs =? -1)) (can_free_consobj (consobj fs)) ;;
      c ← can_alloc_consobj;
      put_fs fstate (set_consobj c fs) ;;
      if c =? -1 then mret (- EBUSY, None)
      else match arg with
           | None => mret (- EFAULT, None)
           | Some _ => mret (0, Some c)
           end
  | CAN_SET_RESET => can_init_82c200 0 ;; mret (0, None)
  | CAN_SET_DEBUG => modify (set_can_debug 1) ;; can_dump_info ;; mret (0, None)
  | CAN_CLR_DEBUG =>
      modify (set_can_debug 0) ;; printk "can: debugging OFF\n" [] ;; mret (0, None)
  | CAN_OTHER _ => mret (- EINVAL, None)
  end.

(** ** read and write

    Sleeping gives the processor to the rest of the kernel: a list of
    wake-ups says what happened meanwhile and whether a signal is pending.  The
    result is [None] while the caller sleeps. *)
Definition wakeup : Type := (world -> world) * bool.

(** Copy up to [count] packets from the ring of an open file to user space;
    [ok i] says whether the [i]-th packet of the user buffer is writable.  The
    result is the return value and the packets stored. *)
Fixpoint ring_to_user (fstate : Z) (ok : nat -> bool) (count i : nat) : M (Z * list can_packet) :=
  match count with
  | O => mret (Z.of_nat i, [])
  | S count' =>
      o ← on_fs_inq fstate ring_to_pkt;
      match o with
      | None => mret (Z.of_nat i, [])
      | Some pkt =>
          if ok i then
            '(n, pkts) ← ring_to_user fstate ok count' (S i);
            mret (n, pkt :: pkts)
          else mret (- EFAULT, [])
      end
  end.

(** Send [count] packets from user space; [buf i] is the [i]-th packet of the
    user buffer, [None] when it cannot be read. *)
Fixpoint user_to_outq (buf : nat -> option can_packet) (count i : nat) : M Z :=
  match count with
  | O => mret (Z.of_nat i)
  | S count' =>
      match buf i with
      | None => mret (- EFAULT)
      | Some pkt =>
          '(sent, _) ← send_pkt pkt;
          if sent =? 0 then mret (Z.of_nat i) else user_to_outq buf count' (S i)
      end
  end.

Fixpoint can_read_loop (fstate : Z) (nonblock : bool) (ok : nat -> bool) (count : nat)
    (wakes : list wakeup) : M (option Z * list can_packet) :=
  '(got, pkts) ← ring_to_user fstate ok count 0;
  if got <? 0 then mret (Some (- EFAULT), pkts)
  else if 0 <? got then mret (Some (got * PKTSIZE), pkts)
  else if nonblock then mret (Some (- EAGAIN), [])
  else
    match wakes with
    | [] => mret (None, [])
    | (others, sigpending) :: wakes' =>
        modify others ;;
        if (sigpending : bool) then mret (Some (- EINTR), [])
        else can_read_loop fstate nonblock ok count wakes'
    end.

Definition can_read (fstate : Z) (nonblock : bool) (ok : nat -> bool) (count : Z)
    (wakes : list wakeup) : M (option Z * list can_packet) :=
  if count <? PKTSIZE then mret (Some (- EIO), [])
  else can_read_loop fstate nonblock ok (Z.to_nat (count / PKTSIZE)) wakes.

Fixpoint can_write_loop (nonblock : bool) (buf : nat -> option can_packet) (count : nat)
    (wakes : list wakeup) : M (option Z) :=
  i ← user_to_outq buf count 0;
  if i <? 0 then mret (Some (- EFAULT))
  else if 0 <? i then mret (Some (i * PKTSIZE))
  else if nonblock then mret (Some (- EAGAIN))
  else
    match wakes with
    | [] => mret None
    | (others, sigpending) :: wakes' =>
        modify others ;;
        if (sigpending : bool) then mret (Some (- EINTR))
        else can_write_loop nonblock buf count wakes'
    end.

Definition can_write (nonblock : bool) (buf : nat -> option can_packet) (count : Z)
    (wakes : list wakeup) : M (option Z) :=
  if negb (count mod PKTSIZE =? 0) then mret (Some (- EIO))
  else can_write_loop nonblock buf (Z.to_nat (count / PKTSIZE)) wakes.

(** ** Bottom half *)

(** The [for] loop over the open files in deliver_pkt(). *)
Definition deliver_one (pkt : can_packet) (i : Z) : M unit :=
  p ← openfd_get i;
  if p =? 0 then skip
  else
    fs ← get_fs p;
    id ← gets (fun w : world => can_nodeid w);
    if negb (IS_MYPACKET id pkt) && (promiscuous fs =? 0) && (snoopy fs =? 0) then skip
    else
      v ← on_fs_inq p (pkt_to_ring pkt);
      when (0 <? v) (log (WakeReadq p)).

Definition deliver_pkt (pkt : can_packet) : M unit :=
  id ← gets (fun w : world => can_nodeid w);
  when (IS_MYPACKET id pkt) (canobj_packet pkt ;; skip) ;;
  for_each (seqZ 0 CAN_MAX_USECOUNT) (deliver_one pkt).

Fixpoint can_bh (fuel : nat) : M unit :=
  match fuel with
  | O => fail OutOfFuel
  | S fuel' =>
      o ← on_inq ring_to_pkt;
      match o with
      | None => skip
      | Some pkt => deliver_pkt pkt ;; can_bh fuel'
      end
  end.

(** The kernel takes the task off its queue, then calls it. *)
Definition run_bh (fuel : nat) : M unit :=
  modify (set_bh_queued false) ;; can_bh fuel.

(** ** Start and stop *)

(** size / sizeof(promregs[0]) is computed on unsigned integers. *)
Definition can_map_82c200 : M Z :=
  o ← on_prom (obp_getprop OBP_CAN_REG (PROMREG_MAX * sizeof_prom_reg));
  let size := match o with Some bs => Z.of_nat (length bs) | None => -1 end in
  let bs := match o with Some bs => bs | None => [] end in
  let regcount := u32 size / sizeof_prom_reg in
  if PROMREG_MAX <? regcount then fail OutOfBounds
  else
    match prom_apply_obio_ranges (parse_prom_regs (Z.to_nat regcount) bs) with
    | [] => fail Uninit
    | r :: _ => mret (sparc_alloc_io (phys_addr r) (which_io r))
    end.

Definition can_unmap_82c200 : M unit := log UnmapRegs.

Definition init_module : M Z :=
  if can_checkalign can_packet_offsets <? 0 then
    printk "can: struct align/padding problem\n" [] ;; mret (-1)
  else
    reg ← can_map_82c200;
    if reg =? 0 then mret (-1)
    else
      o ← on_prom (obp_getprop OBP_CAN_NODEID 4);
      match o with
      | None =>
          printk "can: obp_getprop failed: %s\n" [PStr "/obio/can/can-nodeid"] ;;
          can_unmap_82c200 ;;
          mret (-1)
      | Some bs =>
          modify (fun w : world => set_can_nodeid (store_bytes (can_nodeid w) bs) w) ;;
          let error := misc_register_ret in
          if negb (error =? 0) then
            printk "can: misc_register failed\n" [] ;; can_unmap_82c200 ;; mret error
          else
            modify (set_misc_registered true) ;;
            can_init_queues ;;
            modify (set_bh_queued false) ;;        (* can_init_bh() *)
            r ← can_init_82c200 0;
            if r =? -1 then
              printk "can: can't allocate can interrupt\n" [] ;;
              modify (set_misc_registered false) ;;
              can_unmap_82c200 ;;
              mret (-1)
            else
              can_init_consobj ;;
              can_init_openfd ;;
              canobj_init ;;
              cancon_init ;;
              mret 0
      end.

Definition cleanup_module : M unit :=
  cancon_cleanup ;;
  canobj_cleanup ;;
  modify (set_misc_registered false) ;;
  can_fini_82c200 ;;
  can_unmap_82c200.
End can_main.
