(* ===== verification/DriverInv.v ===== *)
(** * The invariant of the driver

    [drv_ok] is what holds of the driver's state between two calls: the rings
    represent queues of well-formed packets, the acknowledgement timer runs
    exactly while an acknowledgement is pending, every open file's state is
    allocated; a bound on the lengths of packets is a parameter, the class
    [Lengths].  The functions of the driver are shown to keep it and not to
    fault; the measures [mA] and [mB] bound the packets they add to the input
    queue, from which the termination of the bottom half follows. *)

From stdpp Require Import prelude list numbers gmap strings.
From Stdlib Require Import ZArith Lia.
From S2P Require Import Prelude CanTypes Ring Obp World Demo CanSend Console CanObj CanMain.

(** ** The contents of a ring, as a function *)
Section ring_list.
Context {A : Type}.

Definition ring_list (r : ring A) : list A :=
  omap (fun i => buf r !! Z.to_nat ((Ring.tail r + Z.of_nat i) mod MAXRING))
    (seq 0 (Z.to_nat (RING_SIZE r))).

Lemma omap_seq_lookup (f : nat -> option A) (q : list A) k :
  (forall i x, q !! i = Some x -> f (k + i)%nat = Some x) ->
  omap f (seq k (length q)) = q.
Proof.
  revert k. induction q as [|x q IH]; intros k Hf; cbn; [done|].
  rewrite <- (Nat.add_0_r k) at 1. rewrite (Hf 0%nat x eq_refl). f_equal. apply IH.
  intros i y Hi. rewrite <- (Hf (S i) y Hi). f_equal. lia.
Qed.

Lemma ring_rep_list (r : ring A) q : ring_rep r q -> ring_list r = q.
Proof.
  intros Hr. unfold ring_list. rewrite (ring_size_rep _ _ Hr), Nat2Z.id.
  apply omap_seq_lookup. cbn. apply Hr.
Qed.
End ring_list.

(** ** String options of the PROM *)

(** Documented behaviour of OpenBoot: the options read as strings are
    NUL-terminated, and storing a NUL-terminated string keeps that. *)
Class PromStrings (P : Prom) := {
  prom_wf : prom_st -> Prop;
  prom_wf_string : forall st st' path b,
    prom_wf st -> path ∈ [OBP_AUTO_BOOT; OBP_INPUT_DEVICE; OBP_BOOT_DEVICE] ->
    obp_getprop path OBP_MAXSTR st = Done (Some b) st' -> is_Some (cstr b);
  prom_wf_set : forall st n nm s, prom_wf st -> prom_wf (prom_setprop n nm (s ++ [0]) st).2
}.

Lemma cstr_is_Some s : is_Some (cstr (s ++ [0])).
Proof.
  induction s as [|c s IH]; cbn; [done|].
  destruct (c =? 0); [done|]. destruct IH as [t ->]. done.
Qed.

(** The PROM of the examples is of that kind. *)
Definition demo_prom_wf (st : props) : Prop :=
  forall k v, prop_find k st = Some v ->
    k.2 ∈ map str ["auto-boot?"; "input-device"; "boot-device"]%string -> is_Some (cstr v).

#[refine] Instance demo_prom_strings : PromStrings demo_prom := {|
  prom_wf := demo_prom_wf : @prom_st demo_prom -> Prop
|}.
Proof.
  - intros st st' path b Hwf Hp. unfold obp_getprop. rewrite !elem_of_cons in Hp.
    assert (path_fits path = true /\
      basename path ∈ map str ["auto-boot?"; "input-device"; "boot-device"]%string) as [Hfit Hb].
    { destruct Hp as [->|[->|[->|Hn]]]; [..|by apply elem_of_nil in Hn].
      all: split; [reflexivity|]; apply (bool_decide_unpack _); vm_compute; exact I. }
    unfold path_fits in Hfit. unfold mbind, eff_bind, obp_lookup. cbn zeta. rewrite Hfit.
    cbn beta iota. unfold mret, eff_ret. set (node := __obp_lookup _ _ _).
    clearbody node. destruct (node =? -1); [done|]. unfold gets. intros [= Hg _].
    revert Hg. cbn [prom_getproperty demo_prom mem_prom].
    destruct (prop_find (node, basename path) st) as [v|] eqn:Ef; [|done].
    destruct (Z.of_nat (length v) <=? OBP_MAXSTR); [|done]. intros [= <-].
    by apply (Hwf _ _ Ef).
  - intros st n nm s Hwf k v. cbn. case_decide; [|apply Hwf].
    intros [= <-] _. apply cstr_is_Some.
Defined.

(** ** The invariant *)

(** A data length the 8-byte payload of a CAN frame can have. *)
Definition short (p : can_packet) : Prop := canf Can.length p <= 8.

(** Neither can_write() nor the chip keeps packets that announce more out of
    the input queue. The invariant is therefore stated for any bound on what
    the queue holds (by data length and extended header) that all proper
    packets meet; [short_only] is the bound that excludes the others. *)
Class Lengths := {
  len_ok : Z -> Z -> Prop;
  len_ok_short : forall n x, n <= 8 -> len_ok n x
}.
Definition fits {L : Lengths} (p : can_packet) : Prop := len_ok (canf Can.length p) (ext p).

#[export, refine] Instance short_only : Lengths | 100 := {| len_ok n _ := n <= 8 |}.
Proof. done. Defined.
Definition any_length : Lengths := {| len_ok _ _ := True; len_ok_short _ _ _ := I |}.

Lemma short_fits {L : Lengths} p : short p -> fits p.
Proof. apply len_ok_short. Qed.

(** Console object identifiers and the open files that hold them: an
    identifier is reserved exactly while an open file holds it, and no two
    open files hold the same one. *)
Definition is_open (fds : list Z) (p : Z) : Prop := p ∈ fds /\ p <> 0.

Record owners_ok (fds : list Z) (h : gmap Z file_state) (res : list Z) : Prop := OwnersOk {
  own_nodup : forall i j p, fds !! i = Some p -> fds !! j = Some p -> p <> 0 -> i = j;
  own_range : forall p fs, is_open fds p -> h !! p = Some fs ->
    consobj fs = -1 \/ CAN_VALID_CONSOBJ (consobj fs) = true;
  own_reserved : forall k v, res !! k = Some v -> v = 0 \/ v = 1;
  own_held : forall k, res !! k = Some 1 <->
    exists p fs, is_open fds p /\ h !! p = Some fs /\ consobj fs = CANOBJ_CONSMIN + Z.of_nat k;
  own_excl : forall p p' fs fs', is_open fds p -> is_open fds p' ->
    h !! p = Some fs -> h !! p' = Some fs' -> consobj fs = consobj fs' -> consobj fs <> -1 -> p = p'
}.

(** Only the identifiers held matter. *)
Lemma owners_ok_ext fds h h' res :
  (forall p, consobj <$> h' !! p = consobj <$> h !! p) ->
  owners_ok fds h res -> owners_ok fds h' res.
Proof.
  intros Eh [Hn Hr Hv Hh He].
  assert (Hf : forall p fs, h' !! p = Some fs ->
            exists fs0, h !! p = Some fs0 /\ consobj fs0 = consobj fs).
  { intros p fs E. specialize (Eh p). rewrite E in Eh. cbn in Eh.
    destruct (h !! p) as [fs0|]; [|done]. injection Eh as Eh. by exists fs0. }
  assert (Hb : forall p fs, h !! p = Some fs ->
            exists fs0, h' !! p = Some fs0 /\ consobj fs0 = consobj fs).
  { intros p fs E. specialize (Eh p). rewrite E in Eh. cbn in Eh.
    destruct (h' !! p) as [fs0|]; [|done]. injection Eh as Eh. by exists fs0. }
  split; [done| |done| |].
  - intros p fs Ho E. destruct (Hf _ _ E) as (fs0 & E0 & <-). by eapply Hr.
  - intros k. rewrite Hh. split; intros (p & fs & Ho & E & Ec).
    + destruct (Hb _ _ E) as (fs0 & E0 & Ec0). exists p, fs0. split_and!; (done || congruence).
    + destruct (Hf _ _ E) as (fs0 & E0 & Ec0). exists p, fs0. split_and!; (done || congruence).
  - intros p p' fs fs' Ho Ho' E E' Ec Hne.
    destruct (Hf _ _ E) as (g & Eg & Ecg), (Hf _ _ E') as (g' & Eg' & Ecg').
    apply (He p p' g g'); try done; congruence.
Qed.

Section invariant.
Context {P : Prom} {PS : PromStrings P} {L : Lengths} {H : CanHw} {K : Kernel}.
Implicit Types w : world.

(** A ring that represents a queue of packets with words of their width. *)
Definition pkt_ring (r : ring can_packet) : Prop := exists q, ring_rep r q /\ Forall pkt_ok q.

Record drv_ok w : Prop := DrvOk {
  ok_queues : exists qi qo, queues w qi qo /\ Forall fits qi;
  ok_outbuf : ring_ok (cancon_outbuf w);
  ok_inbuf : ring_ok (cancon_inbuf w);
  ok_ack : ack_timer w = None <-> cancon_ack_pending w = 0;
  ok_rmt : 0 <= cancon_rmt w < 2 ^ 32;
  ok_words : 0 <= can_hb_val w < 2 ^ 32 /\ 0 <= can_boardtype w < 2 ^ 32 /\
             0 <= obj_val w < 2 ^ 32;
  ok_stack : pkt_ok (stack_pkt w);
  ok_tty : ttyp w <> 0 -> is_Some (ttys w !! ttyp w);
  ok_prom : prom_wf (prom w);
  ok_openfd : length (openfd w) = Z.to_nat CAN_MAX_USECOUNT /\
    forall p, p ∈ openfd w -> p <> 0 ->
      exists fs, heap w !! p = Some fs /\ pkt_ring (fs_inq fs);
  ok_reserved : length (consobj_reserved w) = Z.to_nat COSIZE;
  ok_owners : owners_ok (openfd w) (heap w) (consobj_reserved w)
}.

(** Nothing [drv_ok] looks at changes with the log, the chip's trace, the
    flags of the bottom half and the like. *)
Ltac ok_irrel := intros []; split; ws; assumption.

Lemma drv_ok_klog v w : drv_ok w -> drv_ok (set_klog v w).
Proof. ok_irrel. Qed.
Lemma drv_ok_io v w : drv_ok w -> drv_ok (set_io v w).
Proof. ok_irrel. Qed.
Lemma drv_ok_bh_queued v w : drv_ok w -> drv_ok (set_bh_queued v w).
Proof. ok_irrel. Qed.
Lemma drv_ok_outbuf r w : ring_ok r -> drv_ok w -> drv_ok (set_cancon_outbuf r w).
Proof. intros ?. ok_irrel. Qed.
Lemma drv_ok_inbuf r w : ring_ok r -> drv_ok w -> drv_ok (set_cancon_inbuf r w).
Proof. intros ?. ok_irrel. Qed.
Lemma drv_ok_rmt v w : 0 <= v < 2 ^ 32 -> drv_ok w -> drv_ok (set_cancon_rmt v w).
Proof. intros ?. ok_irrel. Qed.
Lemma drv_ok_prom st w : prom_wf st -> drv_ok w -> drv_ok (set_prom st w).
Proof. intros ?. ok_irrel. Qed.
Lemma drv_ok_obj_val v w : 0 <= v < 2 ^ 32 -> drv_ok w -> drv_ok (set_obj_val v w).
Proof. intros Hv []. split; ws; try assumption. intuition. Qed.
Lemma drv_ok_hb_val v w : 0 <= v < 2 ^ 32 -> drv_ok w -> drv_ok (set_can_hb_val v w).
Proof. intros Hv []. split; ws; try assumption. intuition. Qed.
Lemma drv_ok_hb_count v w : drv_ok w -> drv_ok (set_hb_count v w).
Proof. ok_irrel. Qed.
Lemma drv_ok_hb_timer v w : drv_ok w -> drv_ok (set_hb_timer v w).
Proof. ok_irrel. Qed.
Lemma drv_ok_jiffies v w : drv_ok w -> drv_ok (set_jiffies v w).
Proof. ok_irrel. Qed.
Lemma drv_ok_unacked w : drv_ok w -> drv_ok (set_cancon_ack_pending 0 (set_ack_timer None w)).
Proof. intros []. split; ws; try assumption. done. Qed.
Lemma drv_ok_awaiting v w : drv_ok w ->
  drv_ok (set_ack_timer (Some v) (set_cancon_ack_pending 1 w)).
Proof. intros []. split; ws; try assumption. done. Qed.
Lemma drv_ok_ttys p t w : drv_ok w -> drv_ok (set_ttys (<[p := t]> (ttys w)) w).
Proof.
  intros []. split; ws; try assumption. intros Ht. rewrite lookup_insert_is_Some'.
  right. auto.
Qed.
Lemma drv_ok_fs p fs fs0 w :
  heap w !! p = Some fs0 -> consobj fs = consobj fs0 ->
  pkt_ring (fs_inq fs) -> drv_ok w -> drv_ok (set_heap (<[p := fs]> (heap w)) w).
Proof.
  intros E0 Ec Hfs []. split; ws; try assumption.
  - destruct ok_openfd0 as [Hl Ho]. split; [done|]. intros p' Hp' Hnz.
    destruct (decide (p = p')) as [->|Hne].
    + rewrite lookup_insert_eq. by exists fs.
    + rewrite lookup_insert_ne by done. by apply Ho.
  - eapply owners_ok_ext; [|exact ok_owners0]. intros p'.
    destruct (decide (p = p')) as [->|Hne].
    + rewrite lookup_insert_eq, E0. cbn. by rewrite Ec.
    + by rewrite lookup_insert_ne.
Qed.

(** ** Work that is still to do

    A request addressed to this node may produce an answer and printk()
    output; an acknowledgement, or a DAT packet, less.  [mA] weighs the queued
    packets by that and adds the acknowledgement the driver may still start to
    wait for; [mB] counts packets and the console characters not yet sent. *)
Definition wA (id : Z) (p : can_packet) : Z :=
  if IS_MYPACKET id p then
    let t := extf Ext.type p in
    if (t =? CANTYPE_RO) || (t =? CANTYPE_WO) then 2
    else if (t =? CANTYPE_ACK) || (t =? CANTYPE_NAK) || (t =? CANTYPE_DAT) then 1
    else 0
  else 0.
Definition wB (id : Z) (p : can_packet) : Z :=
  if IS_MYPACKET id p && (extf Ext.type p =? CANTYPE_DAT) then 2 else 1.
Fixpoint sumw (f : can_packet -> Z) (q : list can_packet) : Z :=
  match q with [] => 0 | p :: q' => f p + sumw f q' end.

Definition mA w : Z :=
  sumw (wA (can_nodeid w)) (ring_list (inq w)) + b2z (cancon_ack_pending w =? 0).
Definition mB w : Z :=
  3 * RING_SIZE (cancon_outbuf w) + sumw (wB (can_nodeid w)) (ring_list (inq w)).

Lemma sumw_app f q1 q2 : sumw f (q1 ++ q2) = sumw f q1 + sumw f q2.
Proof. induction q1 as [|p q1 IH]; cbn; [done|]. rewrite IH. lia. Qed.
Lemma wA_range id p : 0 <= wA id p <= 2.
Proof. unfold wA. repeat case_match; lia. Qed.
Lemma wB_range id p : 1 <= wB id p <= 2.
Proof. unfold wB. case_match; lia. Qed.
Lemma sumw_bound f q n : (forall p, 0 <= f p <= n) -> 0 <= sumw f q <= n * Z.of_nat (length q).
Proof.
  intros Hf. induction q as [|p q IH]; cbn -[Z.of_nat]; [lia|].
  specialize (Hf p). rewrite Nat2Z.inj_succ. lia.
Qed.

Lemma mA_nonneg w : 0 <= mA w.
Proof.
  unfold mA. pose proof (sumw_bound (wA (can_nodeid w)) (ring_list (inq w)) 2) as Hs.
  destruct Hs; [intros; apply wA_range|]. destruct (_ =? 0); cbn; lia.
Qed.

Lemma mB_bound w : drv_ok w -> 0 <= mB w <= 5 * (MAXRING - 1).
Proof.
  intros []. unfold mB. destruct ok_outbuf0 as [qo Ho].
  rewrite (ring_size_rep _ _ Ho). destruct ok_queues0 as (qi & _ & (Hi & _) & _).
  rewrite (ring_rep_list _ _ Hi).
  pose proof (sumw_bound (wB (can_nodeid w)) qi 2) as Hs.
  destruct Hs; [intros p; pose proof (wB_range (can_nodeid w) p); lia|].
  destruct Ho as (_ & _ & ? & _), Hi as (_ & _ & ? & _). lia.
Qed.

(** [costs a b w w']: from [w] to [w'] the invariant was kept, this node's
    address did not change, and the work grew by at most [a] and [b] (without
    bound, where [b] is [None]). *)
Definition costs (a : Z) (b : option Z) w w' : Prop :=
  drv_ok w' /\ can_nodeid w' = can_nodeid w /\ mA w' <= mA w + a /\
  match b with Some n => mB w' <= mB w + n | None => True end.

Definition oplus (b1 b2 : option Z) : option Z :=
  match b1, b2 with Some x, Some y => Some (x + y) | _, _ => None end.
Definition ole (b1 b2 : option Z) : Prop :=
  match b1, b2 with Some x, Some y => x <= y | _, None => True | None, Some _ => False end.

Lemma costs_refl w : drv_ok w -> costs 0 (Some 0) w w.
Proof. intros ?. unfold costs. split_and!; (done || lia). Qed.
Lemma costs_trans a1 b1 a2 b2 w1 w2 w3 :
  costs a1 b1 w1 w2 -> costs a2 b2 w2 w3 -> costs (a1 + a2) (oplus b1 b2) w1 w3.
Proof.
  intros (_ & E1 & A1 & B1) (O2 & E2 & A2 & B2). unfold costs.
  split_and!; [done|congruence|lia|]. destruct b1, b2; cbn in *; (done || lia).
Qed.
Lemma costs_weaken a b a' b' w w' :
  costs a b w w' -> a <= a' -> ole b b' -> costs a' b' w w'.
Proof.
  intros (O & E & A & B) Ha Hb. unfold costs.
  split_and!; [done|done|lia|]. destruct b, b'; cbn in *; (done || lia).
Qed.

(** [spends a b m]: the computation [m] does not fault on a good state and
    costs at most [a] and [b]. *)
Definition spends {A} (a : Z) (b : option Z) (m : eff world A) : Prop :=
  forall w, drv_ok w -> wp m (fun _ w' => costs a b w w') w.

Lemma spends_ret {A} (x : A) : spends 0 (Some 0) (mret x).
Proof. intros w Hw. apply costs_refl, Hw. Qed.
Lemma spends_skip : spends 0 (Some 0) skip.
Proof. intros w Hw. apply costs_refl, Hw. Qed.
Lemma spends_bind {A B} a1 b1 a2 b2 (m : eff world A) (f : A -> eff world B) :
  spends a1 b1 m -> (forall x, spends a2 b2 (f x)) ->
  spends (a1 + a2) (oplus b1 b2) (m ≫= f).
Proof.
  intros Hm Hf w Hw. apply wp_bind. eapply wp_mono; [by apply Hm|].
  intros x w1 H1. eapply wp_mono; [apply Hf, H1|].
  intros y w2 H2. exact (costs_trans _ _ _ _ _ _ _ H1 H2).
Qed.
Lemma spends_weaken {A} a b a' b' (m : eff world A) :
  spends a b m -> a <= a' -> ole b b' -> spends a' b' m.
Proof.
  intros Hm Ha Hb w Hw. eapply wp_mono; [by apply Hm|].
  intros x w' Hc. exact (costs_weaken _ _ _ _ _ _ Hc Ha Hb).
Qed.
(** Code that only reads the state. *)
Lemma spends_gets {A B} a b (g : world -> A) (f : A -> eff world B) :
  (forall x, spends a b (f x)) -> spends a b (gets g ≫= f).
Proof. intros Hf w Hw. apply wp_bind. cbn. by apply Hf. Qed.
Lemma spends_for_each {X} b (l : list X) body :
  ole (Some 0) b -> oplus b b = b -> (forall x, spends 0 b (body x)) ->
  spends 0 b (for_each l body).
Proof.
  intros Hb0 Hb Hbody. induction l as [|x l IH]; cbn.
  - eapply spends_weaken; [apply spends_skip|lia|done].
  - rewrite <- Hb. change 0 with (0 + 0) at 1. by apply spends_bind.
Qed.

(** Steps that leave the work alone. *)
Lemma spends_free {A} (m : eff world A) :
  (forall w, drv_ok w -> wp m (fun _ w' => drv_ok w' /\ can_nodeid w' = can_nodeid w /\
     cancon_ack_pending w' = cancon_ack_pending w /\ inq w' = inq w /\
     cancon_outbuf w' = cancon_outbuf w) w) ->
  spends 0 (Some 0) m.
Proof.
  intros Hm w Hw. eapply wp_mono; [by apply Hm|].
  intros x w' (O & E1 & E2 & E3 & E4). unfold costs, mA, mB.
  rewrite E1, E2, E3, E4. split_and!; (done || lia).
Qed.
End invariant.

Create HintDb drv.
#[export] Hint Resolve drv_ok_klog drv_ok_io drv_ok_bh_queued drv_ok_outbuf drv_ok_inbuf
  drv_ok_rmt drv_ok_prom drv_ok_obj_val drv_ok_hb_val drv_ok_hb_count drv_ok_hb_timer
  drv_ok_jiffies drv_ok_unacked drv_ok_awaiting drv_ok_ttys : drv.

(** ** Sending keeps the invariant *)
Section sending.
Context {P : Prom} {PS : PromStrings P} {L : Lengths} {H : CanHw} {K : Kernel}.
Implicit Types w : world.

Lemma drv_ok_queues w ri ro qi qo :
  drv_ok w -> ring_rep ri qi -> ring_rep ro qo -> Forall pkt_ok qi -> Forall pkt_ok qo ->
  Forall fits qi -> drv_ok (set_inq ri (set_outq ro w)).
Proof.
  intros [] Hi Ho Oi Oo Si. split; ws; try assumption. exists qi, qo. by split.
Qed.

(** What adding one packet to the input queue costs. *)
Lemma mA_push w qi r p :
  ring_rep (inq w) qi -> ring_rep r (qi ++ [p]) ->
  mA (set_inq r w) = mA w + wA (can_nodeid w) p /\
  mB (set_inq r w) = mB w + wB (can_nodeid w) p.
Proof.
  intros Hi Hr. unfold mA, mB. ws. rewrite (ring_rep_list _ _ Hi), (ring_rep_list _ _ Hr).
  rewrite !sumw_app. cbn. lia.
Qed.

(** ... and what taking one off saves. *)
Lemma mA_pop w p qi r :
  ring_rep (inq w) (p :: qi) -> ring_rep r qi ->
  mA w = mA (set_inq r w) + wA (can_nodeid w) p /\
  mB w = mB (set_inq r w) + wB (can_nodeid w) p.
Proof.
  intros Hi Hr. unfold mA, mB. ws. rewrite (ring_rep_list _ _ Hi), (ring_rep_list _ _ Hr).
  cbn. lia.
Qed.

Definition same_rest w w' : Prop :=
  w_con w' = w_con w /\ w_obj w' = w_obj w /\ openfd w' = openfd w /\ heap w' = heap w /\
  consobj_reserved w' = consobj_reserved w /\ can_nodeid w' = can_nodeid w /\
  prom w' = prom w /\ jiffies w' = jiffies w /\ stack_pkt w' = stack_pkt w /\
  can_usecount w' = can_usecount w /\ promiscuous_usecount w' = promiscuous_usecount w /\
  ttys w' = ttys w.

Lemma send_post_costs w qi qo p v w' :
  drv_ok w -> queues w qi qo -> Forall fits qi -> pkt_ok p -> fits p ->
  send_post w qi qo p v w' ->
  costs (wA (can_nodeid w) p) (Some (wB (can_nodeid w) p)) w w' /\
  same_rest w w' /\ (v = 0 -> w' = w).
Proof.
  intros Hw (Hi & Ho & Oi & Oo) Si Hp Sp Hs.
  pose proof (wA_range (can_nodeid w) p). pose proof (wB_range (can_nodeid w) p).
  assert (Hnone : costs (wA (can_nodeid w) p) (Some (wB (can_nodeid w) p)) w w /\
                  same_rest w w /\ (v = 0 -> w = w)).
  { split; [|done]. apply (costs_weaken 0 (Some 0)); [by apply costs_refl|lia|cbn; lia]. }
  assert (Oi' : Forall pkt_ok (qi ++ [p])) by (apply Forall_app; by rewrite Forall_singleton).
  assert (Si' : Forall fits (qi ++ [p])) by (apply Forall_app; by rewrite Forall_singleton).
  assert (Oo' : Forall pkt_ok (qo ++ [p])) by (apply Forall_app; by rewrite Forall_singleton).
  unfold send_post in Hs. destruct (IS_MYPACKET (can_nodeid w) p).
  - destruct (room qi); [|by destruct Hs as [_ ->]].
    destruct Hs as (-> & r & Hr & ->).
    destruct (mA_push w qi r p Hi Hr) as [EA EB]. split; [|done].
    unfold costs. change (mA (set_bh_queued true (set_inq r w))) with (mA (set_inq r w)).
    change (mB (set_bh_queued true (set_inq r w))) with (mB (set_inq r w)).
    split_and!; [|done|lia|lia]. apply drv_ok_bh_queued.
    assert (E : set_inq r w = set_inq r (set_outq (outq w) w)) by world_eq.
    rewrite E. eapply drv_ok_queues; [exact Hw|exact Hr|exact Ho|done..].
  - destruct (room qo); [|by destruct Hs as [_ ->]].
    destruct Hs as (-> & ri & ro & n & tr & Hri & Hro & _ & ->). split; [|done].
    set (w2 := set_inq ri (set_outq ro (set_io tr w))).
    assert (HO : drv_ok w2).
    { destruct (room qi); (eapply drv_ok_queues;
        [by apply drv_ok_io|exact Hri|exact Hro|done|by apply Forall_drop|done]). }
    assert (Hc : mA w2 <= mA w + wA (can_nodeid w) p /\ mB w2 <= mB w + wB (can_nodeid w) p).
    { destruct (room qi).
      - destruct (mA_push w qi ri p Hi Hri) as [EA EB].
        change (mA w2) with (mA (set_inq ri w)). change (mB w2) with (mB (set_inq ri w)). lia.
      - unfold mA, mB, w2. ws.
        rewrite (ring_rep_list _ _ Hi), (ring_rep_list _ _ Hri). lia. }
    unfold costs. split_and!; [|done|exact (proj1 Hc)|exact (proj2 Hc)].
    apply drv_ok_klog, drv_ok_bh_queued, HO.
Qed.

Lemma wA_fixed w p : wA (can_nodeid w) (stamped w (fixed_up w p)) = wA (can_nodeid w) p.
Proof.
  unfold wA, IS_MYPACKET, stamped, fixed_up, canf, set_canf. cbn. by fld.
Qed.
Lemma wB_fixed w p : wB (can_nodeid w) (stamped w (fixed_up w p)) = wB (can_nodeid w) p.
Proof.
  unfold wB, IS_MYPACKET, stamped, fixed_up, canf, set_canf. cbn. by fld.
Qed.
Lemma fits_fixed w p : fits p -> fits (stamped w (fixed_up w p)).
Proof. unfold fits, stamped, fixed_up, canf, set_canf. cbn. by fld. Qed.

Lemma send_pkt_costs p w :
  drv_ok w -> pkt_ok p -> fits p ->
  wp (send_pkt p) (fun r w' =>
    costs (wA (can_nodeid w) p) (Some (wB (can_nodeid w) p)) w w' /\
    same_rest w w' /\ (r.1 = 0 -> w' = w) /\ r.2 = stamped w (fixed_up w p)) w.
Proof.
  intros Hw Hp Sp. destruct (ok_queues _ Hw) as (qi & qo & Hq & Sq).
  wp_call send_pkt_spec; [exact Hq|done|]. intros r w' [E Hs].
  rewrite <- wA_fixed, <- wB_fixed.
  eapply send_post_costs in Hs; [|done..|by apply stamped_ok, fixed_up_ok|by apply fits_fixed].
  destruct Hs as (? & ? & ?). by split_and!.
Qed.

Lemma send_pkt_no_out_fixup_costs p w :
  drv_ok w -> pkt_ok p -> fits p ->
  wp (send_pkt_no_out_fixup p) (fun r w' =>
    costs (wA (can_nodeid w) p) (Some (wB (can_nodeid w) p)) w w' /\
    same_rest w w' /\ (r.1 = 0 -> w' = w)) w.
Proof.
  intros Hw Hp Sp. destruct (ok_queues _ Hw) as (qi & qo & Hq & Sq).
  wp_call send_pkt_no_out_fixup_spec; [exact Hq|done|]. intros r w' [E Hs].
  eapply send_post_costs in Hs; [|done..|by apply stamped_ok|done].
  destruct Hs as (? & ? & ?). by split_and!.
Qed.
End sending.

(** ** The console *)
Section console_inv.
Context {P : Prom} {PS : PromStrings P} {L : Lengths} {H : CanHw} {K : Kernel}.
Implicit Types w : world.

Lemma char_to_ring_spec c (r : ring Z) q : ring_rep r q ->
  wp (char_to_ring c) (fun v r' =>
    if Z.of_nat (length q) <? MAXRING - 1
    then v = 1 /\ ring_rep r' (q ++ [c]) else v = 0 /\ r' = r) r.
Proof. exact (fifo_put_spec (BoundedFifo := ring_fifo Z) c r q). Qed.

Lemma ring_to_char_spec (r : ring Z) q : ring_rep r q ->
  wp ring_to_char (fun o r' =>
    match q with
    | [] => o = None /\ r' = r
    | x :: q' => o = Some x /\ ring_rep r' q'
    end) r.
Proof. exact (fifo_get_spec (BoundedFifo := ring_fifo Z) r q). Qed.

(** The characters [cs] in the data bytes of a packet, from byte [i] on. *)
Fixpoint put_chars (i : Z) (cs : list Z) (pkt : can_packet) : can_packet :=
  match cs with [] => pkt | c :: cs' => put_chars (i + 1) cs' (set_dat_b i c pkt) end.

Lemma put_chars_keeps i cs pkt :
  can (put_chars i cs pkt) = can pkt /\ ext (put_chars i cs pkt) = ext pkt /\
  timestamp (put_chars i cs pkt) = timestamp pkt.
Proof.
  revert i pkt. induction cs as [|c cs IH]; intros i pkt; cbn; [done|].
  destruct (IH (i + 1) (set_dat_b i c pkt)) as (-> & -> & ->). done.
Qed.

Lemma put_chars_ok i cs pkt :
  0 <= i -> i + Z.of_nat (length cs) <= 4 -> pkt_ok pkt -> pkt_ok (put_chars i cs pkt).
Proof.
  revert i pkt. induction cs as [|c cs IH]; intros i pkt Hi Hl Hp; cbn -[Z.of_nat] in *; [done|].
  apply IH; [lia|lia|]. unfold set_dat_b. apply set_dat_ok; [|done].
  apply (set_byte_range 4); [lia|lia|apply Hp].
Qed.

Lemma extract_chars_spec n count pkt w q :
  ring_rep (cancon_outbuf w) q ->
  wp (extract_chars n count pkt) (fun r w' =>
    r.1 = count + Z.of_nat (length (take n q)) /\ r.2 = put_chars count (take n q) pkt /\
    exists rb, ring_rep rb (drop n q) /\ w' = set_cancon_outbuf rb w /\
      (q = [] -> rb = cancon_outbuf w)) w.
Proof.
  revert count pkt w q. induction n as [|n IH]; intros count pkt w q Hq; cbn.
  { wp_go. cbn. rewrite Z.add_0_r. split_and!; try done.
    exists (cancon_outbuf w). split_and!; try done. world_eq. }
  wp_go. wp_call ring_to_char_spec; [exact Hq|]. intros o r. destruct q as [|c q].
  - intros [-> ->]. wp_go. cbn. rewrite Z.add_0_r. split_and!; try done.
    exists (cancon_outbuf w). split_and!; try done.
  - intros [-> Hr]. wp_call IH; [exact Hr|].
    intros [cnt pk] w' (-> & -> & rb & Hrb & -> & _). cbn -[Z.of_nat].
    split; [lia|]. split; [done|]. exists rb. split_and!; try done.
Qed.

(** The DAT packet that carries [count] characters to the remote console. *)
Definition dat_packet (id rmt count : Z) (pkt : can_packet) : can_packet :=
  let pkt := set_canf Can.length (sizeof_can_header_ext + count) pkt in
  let pkt := set_ext rmt pkt in
  let pkt := set_canf Can.dest
               (if IS_LOCAL id (ext pkt) then extf Ext.node pkt else CAN_MODULE_H8) pkt in
  set_extf Ext.type CANTYPE_DAT pkt.

Lemma dat_packet_ok id rmt count pkt :
  0 <= rmt < 2 ^ 32 -> pkt_ok pkt -> pkt_ok (dat_packet id rmt count pkt).
Proof. intros. unfold dat_packet. auto 9 with pkt. Qed.

Lemma dat_packet_fields id rmt count pkt : 0 <= count <= 4 ->
  canf Can.length (dat_packet id rmt count pkt) = 4 + count /\
  extf Ext.type (dat_packet id rmt count pkt) = CANTYPE_DAT /\
  extf Ext.object (dat_packet id rmt count pkt) = fget Ext.object rmt /\
  dat (dat_packet id rmt count pkt) = dat pkt.
Proof.
  intros Hc. unfold dat_packet, canf, extf, set_canf, set_extf. cbn -[fget fset]. fld.
  split_and!; try done. cbn. rewrite Z.mod_small by (unfold sizeof_can_header_ext; lia). done.
Qed.

(** The state after a DAT packet was sent: it must be acknowledged. *)
Definition awaiting_ack w : world :=
  set_ack_timer (Some (u32 (jiffies w + CANCON_ACK_TIMEOUT), 1))
    (set_cancon_ack_pending 1 w).

Lemma cantty_write_wakeup_spec w : drv_ok w ->
  wp (cantty_write_wakeup 0) (fun _ w' => exists k, w' = set_klog k w) w.
Proof.
  intros Hw. unfold cantty_write_wakeup. cbn [Z.eqb]. wp_go.
  rewrite wp_when. split; intros Ht.
  - wp_go. ws. destruct (ok_tty _ Hw) as [t Et]; [by apply negb_true_iff, Z.eqb_neq in Ht|].
    exists t. split; [exact Et|]. rewrite wp_when. split; intros _; wp_go; eexists; reflexivity.
  - exists (klog w). world_eq.
Qed.

Definition send_next_post w (q : list Z) w' : Prop :=
  if CANCON_UNCONNECTED (cancon_rmt w) then w' = set_cancon_outbuf (RING_CLEAR (cancon_outbuf w)) w
  else if negb (cancon_ack_pending w =? 0) || bool_decide (q = []) then w' = w
  else
    let p := dat_packet (can_nodeid w) (cancon_rmt w) (Z.of_nat (length (take 4 q)))
               (put_chars 0 (take 4 q) (stack_pkt w)) in
    exists rb, ring_rep rb (drop 4 q) /\
      let w0 := set_cancon_outbuf rb w in
      exists qi qo v w1,
        queues w qi qo /\ send_post w0 qi qo (stamped w0 (fixed_up w0 p)) v w1 /\
        if v =? 0 then w' = w0
        else exists k, w' = set_klog k (awaiting_ack w1).

Lemma cancon_send_next_spec w q :
  drv_ok w -> ring_rep (cancon_outbuf w) q ->
  wp cancon_send_next (fun _ w' => send_next_post w q w') w.
Proof.
  intros Hw Hq. unfold cancon_send_next, send_next_post. wp_go.
  destruct (CANCON_UNCONNECTED (cancon_rmt w)); [by wp_go|]. wp_go.
  destruct (Z.eqb_spec (cancon_ack_pending w) 0) as [Ep|Ep]; cbn [negb orb]; [|by wp_go].
  wp_go. wp_call extract_chars_spec; [exact Hq|].
  intros [count pk] w0 (E1 & E2 & rb & Hrb & -> & Hnil). cbn [fst snd] in E1, E2. subst.
  set (n := 0 + Z.of_nat (length (take 4 q))).
  assert (Hn : n = Z.of_nat (length (take 4 q))) by lia. clearbody n. subst n.
  destruct (Z.eqb_spec (Z.of_nat (length (take 4 q))) 0) as [Ez|Ez].
  { wp_go. rewrite bool_decide_true by (destruct q; done).
    rewrite Hnil by (destruct q; done). world_eq. }
  rewrite bool_decide_false by (intros ->; done).
  assert (Hlt : (length (take 4 q) <= 4)%nat) by (rewrite length_take; lia).
  set (cs := take 4 q) in *. set (p0 := put_chars 0 cs (stack_pkt w)).
  wp_go. ws. fold (dat_packet (can_nodeid w) (cancon_rmt w) (Z.of_nat (length cs)) p0).
  set (p := dat_packet _ _ _ p0).
  set (w0 := set_cancon_outbuf rb w).
  assert (Hw0 : drv_ok w0) by (apply drv_ok_outbuf; [by eexists|done]).
  assert (Hp0 : pkt_ok p0) by (apply put_chars_ok; [lia|lia|apply Hw]).
  assert (Hp : pkt_ok p) by (apply dat_packet_ok; [apply Hw|done]).
  destruct (ok_queues _ Hw) as (qi & qo & Hqs & Si).
  wp_call (send_pkt_spec p w0 qi qo); [exact Hqs|done|].
  intros [v pk] w1 [Epk Hs]. cbn [fst snd] in Hs.
  assert (Hsc : costs (wA (can_nodeid w0) (stamped w0 (fixed_up w0 p)))
                 (Some (wB (can_nodeid w0) (stamped w0 (fixed_up w0 p)))) w0 w1 /\
                same_rest w0 w1 /\ (v = 0 -> w1 = w0)).
  { apply (send_post_costs w0 qi qo); [done|exact Hqs|done| | |done].
    - by apply stamped_ok, fixed_up_ok.
    - apply fits_fixed, short_fits. unfold short, p. rewrite (proj1 (dat_packet_fields (can_nodeid w) (cancon_rmt w)
        (Z.of_nat (length cs)) p0 ltac:(lia))). lia. }
  destruct Hsc as (Hcost & Hsame & Hv0). pose proof (proj1 Hcost) as HO1.
  eapply (wp_mono _ (fun _ w' => if v =? 0 then w' = w0
                                 else exists k, w' = set_klog k (awaiting_ack w1))).
  2:{ intros _ w' Hend. exists rb. split; [done|]. exists qi, qo, v, w1. split; [exact Hqs|]. split; [exact Hs|exact Hend]. }
  destruct (Z.eqb_spec v 0) as [Ev|Ev]; wp_go; [by apply Hv0|].
  unfold add_ack_timer. wp_go. ws.
  destruct Hsame as (Ec & _ & _ & _ & _ & _ & _ & Ej & _).
  rewrite (proj2 (ok_ack _ HO1)) by (rewrite Ec; exact Ep). wp_go.
  change (set_ack_timer _ _) with (awaiting_ack w1).
  assert (HO2 : drv_ok (awaiting_ack w1)) by (apply drv_ok_awaiting; exact HO1).
  eapply wp_mono; [exact (cantty_write_wakeup_spec _ HO2)|]. intros ? w2 Hk. exact Hk.
Qed.

(** ** What the console functions cost *)

Lemma ring_ok_clear {A} (r : ring A) : ring_ok r -> ring_ok (RING_CLEAR r).
Proof. intros [q Hq]. exists []. by eapply ring_rep_clear. Qed.

Lemma mB_outbuf w r q : ring_rep r q ->
  mB (set_cancon_outbuf r w) =
  3 * Z.of_nat (length q) + sumw (wB (can_nodeid w)) (ring_list (inq w)).
Proof. intros Hr. unfold mB. ws. by rewrite (ring_size_rep _ _ Hr). Qed.

Lemma wA_dat w p : extf Ext.type p = CANTYPE_DAT -> wA (can_nodeid w) p <= 1.
Proof. intros E. unfold wA. rewrite E. case_match; cbn; lia. Qed.

(** Characters nobody is connected to receive are dropped. *)
Lemma clear_outbuf_costs w q : drv_ok w -> ring_rep (cancon_outbuf w) q ->
  costs 0 (Some 0) w (set_cancon_outbuf (RING_CLEAR (cancon_outbuf w)) w).
Proof.
  intros Hw Hq. split_and!; [|done|unfold mA; ws; lia|].
  - apply drv_ok_outbuf; [|done]. apply ring_ok_clear, Hw.
  - rewrite (mB_outbuf _ _ _ (ring_rep_clear _ _ Hq)). unfold mB.
    rewrite (ring_size_rep _ _ Hq). cbn [length]. lia.
Qed.

Lemma send_next_post_costs w q w' :
  drv_ok w -> ring_rep (cancon_outbuf w) q -> send_next_post w q w' ->
  costs 0 (Some 0) w w'.
Proof.
  intros Hw Hq. unfold send_next_post.
  destruct (CANCON_UNCONNECTED (cancon_rmt w)).
  { intros ->. by apply (clear_outbuf_costs w q). }
  destruct (Z.eqb_spec (cancon_ack_pending w) 0) as [Ep|Ep]; cbn [negb orb];
    [|intros ->; by apply costs_refl].
  destruct (bool_decide (q = [])) eqn:Eq; [intros ->; by apply costs_refl|].
  apply bool_decide_eq_false in Eq. set (cs := take 4 q).
  assert (Hcs : (1 <= length cs <= 4)%nat).
  { unfold cs. rewrite length_take. destruct q; [done|]. cbn [length]. lia. }
  cbv zeta. set (p := dat_packet _ _ _ _).
  intros (rb & Hrb & qi & qo & v & w1 & Hqs & Hs & Hend).
  set (w0 := set_cancon_outbuf rb w) in *.
  assert (Hw0 : drv_ok w0) by (apply drv_ok_outbuf; [by eexists|done]).
  assert (Hp : pkt_ok p).
  { apply dat_packet_ok; [apply Hw|]. apply put_chars_ok; [lia|lia|apply Hw]. }
  destruct (dat_packet_fields (can_nodeid w) (cancon_rmt w) (Z.of_nat (length cs))
             (put_chars 0 cs (stack_pkt w)) ltac:(lia)) as (Elen & Etype & _).
  fold p in Elen, Etype.
  assert (Sp : fits p) by (apply short_fits; unfold short; lia).
  destruct (ok_queues _ Hw) as (qi' & qo' & Hqs' & Si').
  assert (Eqi : qi = qi') by (eapply ring_rep_functional; [apply Hqs|apply Hqs']). subst qi'.
  eapply send_post_costs in Hs; [|done|done|done|by apply stamped_ok, fixed_up_ok
                                 |by apply fits_fixed].
  rewrite wA_fixed, wB_fixed in Hs. destruct Hs as ((HO1 & Eid & HA & HB) & Hsame & Hv).
  pose proof (wA_dat w0 p Etype) as HAd. pose proof (wB_range (can_nodeid w0) p) as HBd.
  assert (HB0 : mB w0 + 3 * Z.of_nat (length cs) = mB w).
  { unfold w0. rewrite (mB_outbuf _ _ _ Hrb). unfold mB. rewrite (ring_size_rep _ _ Hq).
    rewrite <- (take_drop 4 q) at 2. rewrite length_app. fold cs. lia. }
  destruct (Z.eqb_spec v 0) as [Ev|Ev].
  - subst w'. split_and!; [done|done|unfold mA, w0; ws; lia|lia].
  - destruct Hend as [k ->].
    destruct Hsame as (Ec & _ & _ & _ & _ & _ & _ & Ej & _).
    assert (HA1 : mA w1 = mA (awaiting_ack w1) + 1).
    { unfold mA, awaiting_ack. ws. rewrite Ec. change (w_con w0) with (w_con w0).
      unfold w0. ws. rewrite Ep. cbn. lia. }
    split_and!; [|exact Eid| |].
    + apply drv_ok_klog, drv_ok_awaiting, HO1.
    + change (mA (set_klog k (awaiting_ack w1))) with (mA (awaiting_ack w1)).
      change (mA w0) with (mA w) in HA. lia.
    + change (mB (set_klog k (awaiting_ack w1))) with (mB w1). lia.
Qed.

Lemma spends_send_next : spends 0 (Some 0) cancon_send_next.
Proof.
  intros w Hw. destruct (ok_outbuf _ Hw) as [q Hq].
  eapply wp_mono; [by apply (cancon_send_next_spec w q)|].
  intros ? w' Hs. by eapply send_next_post_costs.
Qed.

Lemma spends_char_to_outbuf c : spends 0 None (on_outbuf (char_to_ring c)).
Proof.
  intros w Hw. destruct (ok_outbuf _ Hw) as [q Hq]. rewrite wp_on_outbuf.
  wp_call char_to_ring_spec; [exact Hq|]. intros v r Hr.
  assert (Hok : ring_ok r).
  { destruct (_ <? _); [exists (q ++ [c])|exists q]; [apply Hr|by destruct Hr as [_ ->]]. }
  split_and!; [by apply drv_ok_outbuf|done|unfold mA; ws; lia|done].
Qed.

Lemma spends_log e : spends 0 (Some 0) (log e).
Proof. apply spends_free. intros w Hw. rewrite wp_log. split_and!; try done. by apply drv_ok_klog. Qed.

Lemma spends_seq {A} a b (m : eff world A) : spends a b m -> spends a b (m ;; skip).
Proof.
  intros Hm. eapply spends_weaken.
  - apply spends_bind; [exact Hm|intros; apply spends_skip].
  - lia.
  - destruct b; cbn; [lia|done].
Qed.

Lemma spends_when {b0 : bool} a b (m : eff world unit) :
  0 <= a -> ole (Some 0) b -> spends a b m -> spends a b (when b0 m).
Proof.
  intros Ha Hb Hm. destruct b0; [done|]. by eapply spends_weaken; [apply spends_skip|..].
Qed.

Lemma spends_printk_write s : spends 0 None (cancon_printk_write s).
Proof.
  unfold cancon_printk_write. apply spends_gets. intros rmt.
  destruct (_ || _); [by eapply spends_weaken; [apply spends_skip|..]|].
  apply (spends_bind 0 None 0 (Some 0)); [|intros; apply spends_send_next].
  apply spends_for_each; [done..|]. intros c.
  apply (spends_bind 0 None 0 None).
  - apply spends_when; [done..|]. apply spends_seq, spends_char_to_outbuf.
  - intros _. apply spends_seq, spends_char_to_outbuf.
Qed.

Lemma spends_printk fmt args : spends 0 None (printk fmt args).
Proof.
  unfold printk. apply (spends_bind 0 (Some 0) 0 None); [apply spends_log|].
  intros _. apply spends_gets. intros r. apply spends_when; [done..|].
  apply spends_for_each; [done..|]. apply spends_printk_write.
Qed.

(** An expected acknowledgement lets the driver wait for another one; an
    unexpected one is reported. Whether the timer still runs does not matter. *)
Lemma recv_ack_costs timeout t w :
  drv_ok w ->
  wp (cancon_recv_ack timeout) (fun _ w' =>
    if cancon_ack_pending w =? 0 then costs 0 None w w'
    else costs 1 (if timeout =? 0 then Some 0 else None) w w') (set_ack_timer t w).
Proof.
  intros Hw. unfold cancon_recv_ack, del_ack_timer. wp_go. ws.
  destruct (Z.eqb_spec (cancon_ack_pending w) 0) as [Ep|Ep]; cbn [negb].
  - assert (E : set_ack_timer None (set_ack_timer t w) = w).
    { pose proof (proj2 (ok_ack _ Hw) Ep) as Et. destruct w as [[] [] [] []].
      cbn in Et. subst. done. }
    rewrite E. rewrite <- wp_bind.
    apply (spends_bind 0 None 0 (Some 0)); [apply spends_printk|intros; apply spends_send_next|done].
  - set (w0 := set_cancon_ack_pending 0 (set_ack_timer None (set_ack_timer t w))).
    assert (E : w0 = set_cancon_ack_pending 0 (set_ack_timer None w)) by reflexivity.
    assert (Hw0 : drv_ok w0) by (rewrite E; by apply drv_ok_unacked).
    assert (Hc : costs 1 (Some 0) w w0).
    { split_and!; [done|rewrite E; done| |rewrite E; unfold mB; ws; lia].
      rewrite E. unfold mA. ws. rewrite (proj2 (Z.eqb_neq _ _) Ep). cbn. lia. }
    wp_go. fold w0. rewrite <- wp_bind.
    assert (Hrest : forall b, spends 0 b (when (negb (timeout =? 0))
                      (printk "can: consobj ACK timed out\n" [])) ->
              wp (when (negb (timeout =? 0)) (printk "can: consobj ACK timed out\n" []) ;;
                  cancon_send_next)
                (fun _ w' => costs 1 (oplus (Some 0) (oplus b (Some 0))) w w') w0).
    { intros b Hb.
      pose proof (spends_bind 0 b 0 (Some 0) _ (fun _ => cancon_send_next) Hb
                    (fun _ => spends_send_next) w0 Hw0) as Hs.
      eapply wp_mono; [exact Hs|]. intros ? w' Hc2. exact (costs_trans _ _ _ _ _ _ _ Hc Hc2). }
    destruct (timeout =? 0).
    + apply (Hrest (Some 0)). cbn [negb when]. apply spends_skip.
    + apply (Hrest None). cbn [negb when]. apply spends_printk.
Qed.
End console_inv.
