(* ===== verification/DriverTotal.v ===== *)
(** * The bottom half terminates

    Every object handler, the dispatch and the delivery to the open files keep
    the invariant of DriverInv.v and fault at most on a DAT packet that is too
    long; what they add to the input queue is paid for by the packet they
    consume. *)

From stdpp Require Import prelude list numbers gmap strings.
From Stdlib Require Import ZArith Lia.
From S2P Require Import Prelude CanTypes Ring Obp World Demo CanSend Console CanObj CanMain CanChip DriverInv.

Section handlers.
Context {P : Prom} {PS : PromStrings P} {L : Lengths} {H : CanHw} {K : Kernel}.
Implicit Types w : world.

(** ** Answers *)

(** The packet canobj_acknak() sends. *)
Definition reply (type : Z) (inpkt : can_packet) (data : option Z) : can_packet :=
  let pkt := set_canf Can.dest (canf Can.src inpkt) inpkt in
  let pkt := set_extf Ext.type type pkt in
  let pkt := set_canf Can.length sizeof_can_header_ext pkt in
  match data with
  | Some d => set_canf Can.length (canf Can.length (set_dat d pkt) + sizeof_can_dat) (set_dat d pkt)
  | None => pkt
  end.

Lemma canobj_acknak_reply type pkt data :
  canobj_acknak type pkt data = (send_pkt (reply type pkt data) ;; skip).
Proof. by destruct data. Qed.

Definition word (v : Z) : Prop := 0 <= v < 2 ^ 32.
Definition answer (t : Z) : Prop := t = CANTYPE_ACK \/ t = CANTYPE_NAK.

Lemma reply_fields type pkt data : answer type ->
  canf Can.dest (reply type pkt data) = canf Can.src pkt /\
  extf Ext.type (reply type pkt data) = type /\
  extf Ext.object (reply type pkt data) = extf Ext.object pkt /\
  canf Can.length (reply type pkt data) = (if data is Some _ then 8 else 4) /\
  dat (reply type pkt data) = default (dat pkt) data.
Proof.
  intros Ht. unfold reply, canf, extf, set_canf, set_extf.
  assert (Hm : type mod 2 ^ 3 = type) by (destruct Ht as [-> | ->]; reflexivity).
  assert (Hs : fget Can.src (can pkt) mod 2 ^ 5 = fget Can.src (can pkt)).
  { apply Z.mod_small. apply (fget_range Can.src). fld_side. }
  destruct data; cbn -[fget fset]; fld; cbn [f_wid Ext.type Can.dest Can.length];
    rewrite Hm, Hs; done.
Qed.

Lemma reply_ok type pkt data :
  pkt_ok pkt -> (forall d, data = Some d -> word d) -> pkt_ok (reply type pkt data).
Proof.
  intros Hp Hd. unfold reply. destruct data as [d|]; [|by auto 9 with pkt].
  specialize (Hd d eq_refl). auto 9 with pkt.
Qed.

Lemma reply_weight id type pkt data : answer type ->
  wA id (reply type pkt data) <= 1 /\ wB id (reply type pkt data) <= 1.
Proof.
  intros Ht. destruct (reply_fields type pkt data Ht) as (_ & E & _).
  unfold wA, wB. rewrite E.
  destruct (IS_MYPACKET id _), Ht as [-> | ->]; cbn; lia.
Qed.

Lemma spends_acknak type pkt data :
  answer type -> pkt_ok pkt -> (forall d, data = Some d -> word d) ->
  spends 1 (Some 1) (canobj_acknak type pkt data).
Proof.
  intros Ht Hp Hd w Hw. rewrite canobj_acknak_reply, wp_bind.
  eapply wp_mono.
  - apply (send_pkt_costs (reply type pkt data)); [done|by apply reply_ok|].
    apply short_fits. unfold short. destruct (reply_fields type pkt data Ht) as (_ & _ & _ & -> & _).
    destruct data; lia.
  - intros r w' (Hc & _). rewrite wp_skip.
    destruct (reply_weight (can_nodeid w) type pkt data Ht).
    eapply costs_weaken; [exact Hc|done|done].
Qed.

(** ** Rules for what the handlers do besides *)

Lemma spends_gets_word {B} a b (g : world -> Z) (f : Z -> eff world B) :
  (forall w, drv_ok w -> word (g w)) ->
  (forall x, word x -> spends a b (f x)) -> spends a b (gets g ≫= f).
Proof. intros Hg Hf w Hw. apply wp_bind. cbn. apply Hf; auto. Qed.

Lemma obp_lookup_done path st : path_fits path = true ->
  exists node, obp_lookup path st = Done node st.
Proof. unfold obp_lookup, path_fits. cbn zeta. intros ->. by eexists. Qed.

(** obp_getcan() on a string option: a word, or -1. *)
Lemma obp_getcan_done path table st :
  prom_wf st -> path_fits path = true ->
  path ∈ [OBP_AUTO_BOOT; OBP_INPUT_DEVICE; OBP_BOOT_DEVICE] ->
  exists o, obp_getcan path table st = Done o st /\ forall v, o = Some v -> word v.
Proof.
  intros Hwf Hfit Hin. unfold obp_getcan.
  destruct (obp_lookup_done path st Hfit) as [node En].
  assert (Hg : exists o, obp_getprop path OBP_MAXSTR st = Done o st).
  { unfold obp_getprop, mbind, eff_bind. rewrite En. destruct (node =? -1); by eexists. }
  destruct Hg as [o Eo]. unfold mbind, eff_bind. rewrite Eo. destruct o as [b|].
  - destruct (prom_wf_string _ _ _ _ Hwf Hin Eo) as [s Es]. rewrite Es. cbn.
    eexists. split; [done|]. intros v [= <-]. apply u32_range.
  - by eexists.
Qed.

Lemma spends_getcan {B} path table a b (f : option Z -> eff world B) :
  path_fits path = true -> path ∈ [OBP_AUTO_BOOT; OBP_INPUT_DEVICE; OBP_BOOT_DEVICE] ->
  (forall o, (forall v, o = Some v -> word v) -> spends a b (f o)) ->
  spends a b (on_prom (obp_getcan path table) ≫= f).
Proof.
  intros Hfit Hin Hf w Hw. rewrite wp_bind, wp_on_prom.
  destruct (obp_getcan_done path table (prom w) (ok_prom _ Hw) Hfit Hin) as (o & Eo & Ho).
  unfold wp. rewrite Eo. cbn beta iota.
  assert (E : set_prom (prom w) w = w) by world_eq. rewrite E. by apply Hf.
Qed.

Lemma spends_prom {A} (m : eff prom_st A) :
  (forall st, prom_wf st -> wp m (fun _ st' => prom_wf st') st) ->
  spends 0 (Some 0) (on_prom m).
Proof.
  intros Hm. apply spends_free. intros w Hw. rewrite wp_on_prom.
  eapply wp_mono; [apply Hm, Hw|]. intros x st Hst. split_and!; try done.
  by apply drv_ok_prom.
Qed.

Lemma wp_setprop path s st : path_fits path = true -> prom_wf st ->
  wp (obp_setprop path (s ++ [0])) (fun _ st' => prom_wf st') st.
Proof.
  intros Hfit Hwf. unfold obp_setprop. rewrite wp_bind.
  destruct (obp_lookup_done path st Hfit) as [node En]. unfold wp at 1. rewrite En.
  destruct (node =? -1); [done|]. rewrite wp_run. by apply prom_wf_set.
Qed.

Lemma spends_setcan path table v : path_fits path = true ->
  spends 0 (Some 0) (on_prom (obp_setcan path table v)).
Proof.
  intros Hfit. apply spends_prom. intros st Hst. unfold obp_setcan.
  destruct (obp_numtostr v table); [by apply wp_setprop|done].
Qed.

Lemma spends_cancon_host_set : spends 0 (Some 0) (canobj_cancon_host SET).
Proof.
  unfold canobj_cancon_host. apply spends_gets. intros v.
  apply spends_seq, spends_prom. intros st Hst. by apply wp_setprop.
Qed.

Lemma spends_setcon o : (forall p, o = Some p -> pkt_ok p) -> spends 0 (Some 0) (cancon_setcon o).
Proof.
  intros Ho. apply spends_free. intros w Hw. destruct o as [p|]; cbn [cancon_setcon].
  - wp_go. split_and!; try done. apply drv_ok_rmt; [|done]. by apply Ho.
  - wp_go. split_and!; try done.
    repeat (apply drv_ok_rmt; [ws; repeat (apply fset_range; [fld_side|cbn; lia|]); apply Hw|]).
    done.
Qed.

Lemma spends_hangup : spends 0 (Some 0) cantty_hangup.
Proof.
  intros w Hw. unfold cantty_hangup, clear_ring. wp_go. ws.
  destruct (ok_outbuf _ Hw) as [qo Ho].
  set (w1 := set_cancon_inbuf (RING_CLEAR (cancon_inbuf w))
               (set_cancon_outbuf (RING_CLEAR (cancon_outbuf w)) w)).
  assert (Hc : costs 0 (Some 0) w w1).
  { split_and!; [|done|unfold mA, w1; ws; lia|].
    - apply drv_ok_inbuf; [apply ring_ok_clear, Hw|].
      apply drv_ok_outbuf; [apply ring_ok_clear, Hw|done].
    - change (mB w1) with (mB (set_cancon_outbuf (RING_CLEAR (cancon_outbuf w)) w)).
      rewrite (mB_outbuf _ _ _ (ring_rep_clear _ _ Ho)). unfold mB.
      rewrite (ring_size_rep _ _ Ho). cbn [length]. lia. }
  rewrite wp_when. split; intros _; [|exact Hc]. rewrite wp_log.
  destruct Hc as (HO & E & HA & HB). split_and!; try done. by apply drv_ok_klog.
Qed.

(** ** Characters from the remote console *)

Lemma recv_push_loop_spec fuel p w q :
  drv_ok w -> ring_rep (cancon_inbuf w) q -> is_Some (ttys w !! p) -> (length q < fuel)%nat ->
  wp (recv_push_loop fuel p) (fun _ w' =>
    drv_ok w' /\ exists r ts, w' = set_cancon_inbuf r (set_ttys ts w)) w.
Proof.
  revert w q. induction fuel as [|fuel IH]; intros w q Hw Hq [t Et] Hf; [lia|].
  cbn [recv_push_loop]. rewrite wp_bind, wp_get_tty. exists t. split; [done|].
  destruct (flip_count t <? TTY_FLIPBUF_SIZE).
  2:{ rewrite wp_skip. split; [done|]. exists (cancon_inbuf w), (ttys w). world_eq. }
  wp_go. wp_call ring_to_char_spec; [exact Hq|]. intros o r. destruct q as [|c q].
  - intros [-> ->]. rewrite wp_skip. split.
    + apply drv_ok_inbuf; [apply Hw|done].
    + exists (cancon_inbuf w), (ttys w). world_eq.
  - intros [-> Hr]. wp_go. ws. set (t' := Tty _ _ _ _ _ _).
    eapply wp_mono; [apply (IH _ q)|].
    + apply (drv_ok_ttys p t' (set_cancon_inbuf r w)).
      apply drv_ok_inbuf; [by eexists|done].
    + exact Hr.
    + ws. rewrite lookup_insert_eq. by eexists.
    + cbn in Hf. lia.
    + intros _ w' (HO & r' & ts & ->). split; [done|]. exists r', ts. reflexivity.
Qed.

Lemma recv_push_spec w : drv_ok w ->
  wp cantty_recv_push (fun _ w' =>
    drv_ok w' /\ exists r ts k, w' = set_klog k (set_cancon_inbuf r (set_ttys ts w))) w.
Proof.
  intros Hw. unfold cantty_recv_push. wp_go.
  assert (Hsame : drv_ok w /\ exists r ts k,
            w = set_klog k (set_cancon_inbuf r (set_ttys ts w))).
  { split; [done|]. exists (cancon_inbuf w), (ttys w), (klog w). world_eq. }
  destruct (Z.eqb_spec (ttyp w) 0) as [|Ht]; [exact Hsame|].
  rewrite wp_bind, wp_get_tty. destruct (ok_tty _ Hw Ht) as [t Et]. exists t. split; [done|].
  destruct (flip_ptr_null t); [exact Hsame|]. rewrite wp_bind.
  destruct (ok_inbuf _ Hw) as [q Hq].
  eapply wp_mono; [apply (recv_push_loop_spec _ _ w q Hw Hq); [by eexists|]|].
  - destruct Hq as (_ & _ & ? & _). unfold MAXRING in *. lia.
  - intros _ w' (HO & r & ts & ->). rewrite wp_log. split; [by apply drv_ok_klog|].
    exists r, ts. by eexists.
Qed.

Lemma recv_dat_loop_spec n i pkt w :
  drv_ok w -> 0 <= i -> i + Z.of_nat n <= 4 ->
  wp (recv_dat_loop n i pkt) (fun _ w' => drv_ok w' /\ exists r, w' = set_cancon_inbuf r w) w.
Proof.
  revert i w. induction n as [|n IH]; intros i w Hw Hi Hn; cbn [recv_dat_loop].
  { rewrite wp_skip. split; [done|]. exists (cancon_inbuf w). world_eq. }
  rewrite (proj2 (Z.ltb_lt i 4)) by lia. wp_go.
  destruct (ok_inbuf _ Hw) as [q Hq]. wp_call char_to_ring_spec; [exact Hq|]. intros v r Hr.
  assert (Hok : ring_ok r).
  { destruct (_ <? _); [exists (q ++ [dat_b i pkt])|exists q]; [apply Hr|by destruct Hr as [_ ->]]. }
  eapply wp_mono; [apply (IH (i + 1) (set_cancon_inbuf r w)); [by apply drv_ok_inbuf|lia|lia]|].
  intros _ w' (HO & r' & ->). split; [done|]. by exists r'.
Qed.

Lemma dat_count pkt : 0 <= canf Can.length pkt < 2 ^ 4 /\
  s32 (canf Can.length pkt - sizeof_can_header_ext) = canf Can.length pkt - 4.
Proof.
  assert (Hlen : 0 <= canf Can.length pkt < 2 ^ 4) by (apply (fget_range Can.length); fld_side).
  split; [done|]. unfold s32, sizeof_can_header_ext in *. rewrite Z.mod_small by lia. lia.
Qed.

Lemma spends_recv_dat pkt : short pkt ->
  spends 0 (Some 0) (cantty_recv_dat pkt (s32 (canf Can.length pkt - sizeof_can_header_ext))).
Proof.
  destruct (dat_count pkt) as [Hlen ->].
  unfold short. intros Hs. apply spends_free. intros w Hw. unfold cantty_recv_dat.
  rewrite wp_bind. eapply wp_mono; [apply recv_dat_loop_spec; [done|lia|lia]|].
  intros _ w' (HO & r & ->). eapply wp_mono; [by apply recv_push_spec|].
  intros _ w' (HO' & r' & ts & k & ->). done.
Qed.

(** *** Packets that announce more than the data they have

    Of a DAT packet the driver takes as many characters as the length in its
    header says; the array has four. *)
Definition overlong_dat (pkt : can_packet) : Prop :=
  extf Ext.type pkt = CANTYPE_DAT /\ 8 < canf Can.length pkt.

Lemma recv_dat_loop_overruns n i pkt w :
  ring_ok (cancon_inbuf w) -> 0 <= i <= 4 -> 4 < i + Z.of_nat n ->
  recv_dat_loop n i pkt w = Fault OutOfBounds.
Proof.
  revert i w. induction n as [|n IH]; intros i w [q Hq] Hi Hn; cbn [recv_dat_loop]; [lia|].
  unfold mbind, eff_bind at 1. destruct (Z.ltb_spec i 4) as [Hlt|Hge]; [|done]. cbn [mret eff_ret].
  assert (Hc : wp (on_inbuf (char_to_ring (dat_b i pkt))) (fun _ w' => ring_ok (cancon_inbuf w')) w).
  { rewrite wp_on_inbuf. wp_call char_to_ring_spec; [exact Hq|]. intros v r Hr.
    destruct (_ <? _); [exists (q ++ [dat_b i pkt])|exists q]; [apply Hr|by destruct Hr as [_ ->]]. }
  unfold wp in Hc. unfold mret, eff_ret, eff_bind. destruct (on_inbuf _ w) as [v w'|]; [|done].
  apply IH; [done|lia|lia].
Qed.

Lemma recv_dat_overruns pkt w : drv_ok w -> 8 < canf Can.length pkt ->
  cantty_recv_dat pkt (s32 (canf Can.length pkt - sizeof_can_header_ext)) w = Fault OutOfBounds.
Proof.
  intros Hw Hl. destruct (dat_count pkt) as [Hlen ->]. unfold cantty_recv_dat, mbind, eff_bind.
  rewrite recv_dat_loop_overruns; [done|apply Hw|lia|lia].
Qed.

(** [ends_or_overruns O m Q w]: [m] runs to its end with [Q], or there is an
    overlong packet ([O]) and [m] reads beyond the data of one. *)
Definition ends_or_overruns {A} (O : Prop) (m : eff world A) (Q : A -> world -> Prop) w : Prop :=
  wp m Q w \/ O /\ m w = Fault OutOfBounds.

Lemma eoo_wp {A} O (m : eff world A) Q w : wp m Q w -> ends_or_overruns O m Q w.
Proof. by left. Qed.

Lemma eoo_mono {A} (O O' : Prop) (m : eff world A) (Q Q' : A -> world -> Prop) w :
  ends_or_overruns O m Q w -> (O -> O') -> (forall a w', Q a w' -> Q' a w') ->
  ends_or_overruns O' m Q' w.
Proof. intros [Hm|[? ?]] HO HQ; [left|right; auto]. by eapply wp_mono. Qed.

Lemma eoo_bind {A B} O (m : eff world A) (f : A -> eff world B) (R : A -> world -> Prop) Q w :
  ends_or_overruns O m R w ->
  (forall a w', R a w' -> ends_or_overruns O (f a) Q w') ->
  ends_or_overruns O (m ≫= f) Q w.
Proof.
  intros [Hm|[Ho Em]] Hf.
  - apply wp_done in Hm as (a & w' & Em & HR). destruct (Hf a w' HR) as [Hw|[Ho Ef]].
    + left. unfold wp, mbind, eff_bind in *. by rewrite Em.
    + right. split; [done|]. unfold mbind, eff_bind. by rewrite Em.
  - right. split; [done|]. unfold mbind, eff_bind. by rewrite Em.
Qed.

(** ** The handlers *)

(** What a packet of type [t] allows its handler to cost. *)
Definition tcost (t : Z) : Z :=
  if (t =? CANTYPE_RO) || (t =? CANTYPE_WO) || (t =? CANTYPE_DAT) then 1 else 0.
Definition tcostB (t : Z) : option Z :=
  if (t =? CANTYPE_RO) || (t =? CANTYPE_WO) then None
  else if t =? CANTYPE_DAT then Some 1 else Some 0.

Lemma tcost_ret {A} t (x : A) : spends (tcost t) (tcostB t) (mret x).
Proof.
  eapply spends_weaken; [apply spends_ret|unfold tcost; case_match; lia|].
  unfold tcostB. by repeat case_match.
Qed.

(** An answer to a request, then a result. *)
Lemma spends_answer {A} type pkt data (x : A) :
  answer type -> pkt_ok pkt -> (forall d, data = Some d -> word d) ->
  spends 1 (Some 1) (canobj_acknak type pkt data ;; mret x).
Proof.
  intros. apply (spends_bind 1 (Some 1) 0 (Some 0)); [by apply spends_acknak|].
  intros. apply spends_ret.
Qed.

Lemma tcost_request {A} t (m : eff world A) b :
  t = CANTYPE_RO \/ t = CANTYPE_WO -> spends 1 b m -> spends (tcost t) (tcostB t) m.
Proof. intros Ht Hm. eapply spends_weaken; [exact Hm| |]; destruct Ht as [-> | ->]; try done; by destruct b. Qed.

Lemma word_stack w : drv_ok w -> word (dat (stack_pkt w)).
Proof. intros Hw. apply Hw. Qed.

Lemma reserved_get_spec i w : drv_ok w -> 0 <= i < COSIZE ->
  wp (reserved_get i) (fun v w' => w' = w /\ consobj_reserved w !! Z.to_nat i = Some v) w.
Proof.
  intros Hw Hi. unfold reserved_get. wp_go. rewrite (proj2 (Z.leb_le 0 i)) by lia.
  rewrite wp_the. destruct (list_lookup_total_Z (consobj_reserved w) i) as [v Ev].
  { rewrite (ok_reserved _ Hw). unfold COSIZE in *. cbn in *. lia. }
  by exists v.
Qed.

Context (pkt : can_packet) (Hpkt : pkt_ok pkt).
#[local] Set Default Proof Using "All".

Lemma word_dat : word (dat pkt).
Proof. apply Hpkt. Qed.

Definition within (h : eff world Z) : Prop :=
  spends (tcost (extf Ext.type pkt)) (tcostB (extf Ext.type pkt)) h.

Ltac ack := by left.
Ltac nak := by right.
Ltac some_word := let E := fresh in intros ? E; injection E as <-; first [assumption | done].

(** Handlers that answer reads of one word. *)
Lemma within_read type val :
  answer type -> word val -> spends 1 (Some 1) (canobj_acknak type pkt (Some val) ;; mret 1).
Proof. intros. apply spends_answer; [done|done|some_word]. Qed.

Lemma within_connect : within (canobj_connect pkt).
Proof.
  unfold within, canobj_connect. cbv zeta.
  destruct (Z.eqb_spec (extf Ext.type pkt) CANTYPE_RO) as [E|E].
  { eapply tcost_request; [by left|]. apply spends_gets_word; [apply ok_rmt|].
    intros v Hv. by apply within_read; [ack|]. }
  destruct (Z.eqb_spec (extf Ext.type pkt) CANTYPE_WO) as [E2|E2]; [|apply tcost_ret].
  eapply tcost_request; [by right|]. apply spends_gets. intros rmt.
  apply (spends_bind 1 (Some 1) 0 (Some 0)); [|intros; apply spends_ret].
  destruct (negb _); [by apply spends_acknak; [nak|..]|].
  apply (spends_bind 0 (Some 0) 1 (Some 1)); [apply spends_setcon; by intros ? [= <-]|intros _].
  apply (spends_bind 0 (Some 0) 1 (Some 1)); [apply spends_cancon_host_set|intros _].
  apply spends_gets_word; [apply ok_rmt|]. intros v Hv.
  apply spends_acknak; [ack|done|some_word].
Qed.

Lemma within_disconnect : within (canobj_disconnect pkt).
Proof.
  unfold within, canobj_disconnect.
  destruct (Z.eqb_spec (extf Ext.type pkt) CANTYPE_WO) as [E|E]; [|apply tcost_ret].
  eapply tcost_request; [by right|]. apply spends_gets. intros rmt.
  apply (spends_bind 1 (Some 1) 0 (Some 0)); [|intros; apply spends_ret].
  destruct (CANCON_UNCONNECTED _); [by apply spends_acknak; [nak|..]|].
  apply (spends_bind 0 (Some 0) 1 (Some 1)); [by apply spends_setcon|intros _].
  apply (spends_bind 0 (Some 0) 1 (Some 1)); [apply spends_cancon_host_set|intros _].
  apply (spends_bind 1 (Some 1) 0 (Some 0)); [by apply spends_acknak; [ack|..]|intros _].
  apply spends_hangup.
Qed.

Lemma dat_outcome w : drv_ok w ->
  ends_or_overruns (overlong_dat pkt) (canobj_dat pkt)
    (fun _ w' => costs (tcost (extf Ext.type pkt)) (tcostB (extf Ext.type pkt)) w w') w.
Proof.
  intros Hw. unfold canobj_dat.
  apply (eoo_bind _ _ _ (fun v w' => v = cancon_rmt w /\ w' = w)); [by left|]. intros rmt ? [_ ->].
  destruct (CANCON_UNCONNECTED _); [left; by apply tcost_ret|].
  destruct (Z.eqb_spec (extf Ext.type pkt) CANTYPE_DAT) as [E|E]; [|left; by apply tcost_ret].
  rewrite E. cbv zeta.
  eapply eoo_bind; [apply eoo_wp; by apply (spends_acknak CANTYPE_ACK pkt None); [ack|..]|].
  intros u w1 Hc1. destruct (Z.le_gt_cases (canf Can.length pkt) 8) as [Hs|Hl].
  - apply eoo_wp. rewrite wp_bind. eapply wp_mono; [apply (spends_recv_dat _ Hs), Hc1|].
    intros u2 w2 Hc2. rewrite wp_ret. exact (costs_trans _ _ _ _ _ _ _ Hc1 Hc2).
  - right. split; [done|]. unfold mbind, eff_bind. rewrite recv_dat_overruns; [done|apply Hc1|lia].
Qed.

Lemma within_break : within (canobj_break pkt).
Proof.
  unfold within, canobj_break.
  destruct (Z.eqb_spec (extf Ext.type pkt) CANTYPE_WO) as [E|E]; [|apply tcost_ret].
  eapply tcost_request; [by right|].
  apply (spends_bind 1 (Some 1) 0 None); [by apply spends_acknak; [ack|..]|intros _].
  apply (spends_bind 0 None 0 (Some 0)); [apply spends_printk|intros _].
  apply (spends_bind 0 (Some 0) 0 (Some 0)); [apply spends_log|intros; apply spends_ret].
Qed.

Lemma spends_set_obj_val v : word v -> spends 0 (Some 0) (modify (set_obj_val v)).
Proof.
  intros Hv. apply spends_free. intros w Hw. rewrite wp_modify. split_and!; try done.
  by apply drv_ok_obj_val.
Qed.

Lemma within_testrw : within (canobj_testrw pkt).
Proof.
  unfold within, canobj_testrw. cbv zeta.
  assert (Hval : forall w, drv_ok w -> word (obj_val w)) by (intros w Hw; apply Hw).
  destruct (Z.eqb_spec (extf Ext.type pkt) CANTYPE_WO) as [E|E].
  { eapply tcost_request; [by right|]. apply spends_gets_word; [done|]. intros v Hv.
    apply (spends_bind 1 (Some 1) 0 (Some 0)); [apply spends_acknak; [ack|done|some_word]|].
    intros _. apply (spends_bind 0 (Some 0) 0 (Some 0)); [|intros; apply spends_ret].
    apply spends_set_obj_val, word_dat. }
  destruct (Z.eqb_spec (extf Ext.type pkt) CANTYPE_RO) as [E2|E2]; [|apply tcost_ret].
  eapply tcost_request; [by left|]. apply spends_gets_word; [done|]. intros v Hv.
  by apply within_read; [ack|].
Qed.

Lemma within_heartbeat : within (canobj_heartbeat pkt).
Proof.
  unfold within, canobj_heartbeat.
  destruct (Z.eqb_spec (extf Ext.type pkt) CANTYPE_RO) as [E|E]; [|apply tcost_ret].
  eapply tcost_request; [by left|]. apply spends_gets_word; [intros w Hw; apply Hw|].
  intros v Hv. by apply within_read; [ack|].
Qed.

(** AUTOBOOT and BOOT_DEV: a string option read through its table. *)
Lemma within_option path table :
  path_fits path = true -> path ∈ [OBP_AUTO_BOOT; OBP_INPUT_DEVICE; OBP_BOOT_DEVICE] ->
  within (if extf Ext.type pkt =? CANTYPE_RO then
    o ← on_prom (obp_getcan path table);
    match o with
    | None => val ← stack_word; canobj_acknak CANTYPE_NAK pkt (Some val) ;; mret 1
    | Some val => canobj_acknak CANTYPE_ACK pkt (Some val) ;; mret 1
    end
  else mret 0).
Proof.
  intros Hfit Hin. unfold within.
  destruct (Z.eqb_spec (extf Ext.type pkt) CANTYPE_RO) as [E|E]; [|apply tcost_ret].
  eapply tcost_request; [by left|]. apply spends_getcan; [done..|]. intros [v|] Hv.
  - apply within_read; [ack|by apply Hv].
  - apply spends_gets_word; [apply word_stack|]. intros v' Hv'. by apply within_read; [nak|].
Qed.

Lemma within_reset_io : within (canobj_reset_io pkt).
Proof.
  unfold within, canobj_reset_io. cbv zeta.
  assert (Hin : OBP_INPUT_DEVICE ∈ [OBP_AUTO_BOOT; OBP_INPUT_DEVICE; OBP_BOOT_DEVICE])
    by (right; left).
  assert (H0 : word 0) by (unfold word; lia).
  destruct (Z.eqb_spec (extf Ext.type pkt) CANTYPE_RO) as [E|E].
  { eapply tcost_request; [by left|]. apply spends_getcan; [done..|]. intros [v|] Hv.
    - apply within_read; [ack|by apply Hv].
    - by apply within_read; [nak|]. }
  destruct (Z.eqb_spec (extf Ext.type pkt) CANTYPE_WO) as [E2|E2]; [|apply tcost_ret].
  eapply tcost_request; [by right|]. apply spends_getcan; [done..|].
  intros [v|] Hv; [|by apply within_read; [nak|]].
  specialize (Hv v eq_refl).
  apply (spends_bind 0 (Some 0) 1 (Some 1)); [by apply spends_setcan|]. intros r.
  destruct (r <? 0); [by apply within_read; [nak|]|].
  apply (spends_bind 0 (Some 0) 1 (Some 1)); [by apply spends_setcan|]. intros r'.
  destruct (r' <? 0); [|by apply within_read; [ack|]].
  apply (spends_bind 1 (Some 1) 0 (Some 0)); [apply spends_acknak; [nak|done|some_word]|].
  intros _. apply (spends_bind 0 (Some 0) 0 (Some 0)); [by apply spends_setcan|].
  intros. apply spends_ret.
Qed.

Lemma within_force_disconn : within (canobj_force_disconn pkt).
Proof.
  unfold within, canobj_force_disconn. cbv zeta.
  destruct (Z.eqb_spec (extf Ext.type pkt) CANTYPE_WO) as [E|E]; [|apply tcost_ret].
  apply (tcost_request _ _ (Some 1)); [by right|].
  destruct (CAN_VALID_CONSOBJ _) eqn:Ev; cbn [negb];
    [|by eapply spends_weaken; [apply spends_ret|lia|cbn; lia]].
  apply (spends_bind 0 (Some 0) 1 (Some 1)).
  - apply spends_free. intros w Hw. unfold can_inuse_consobj.
    eapply wp_mono; [apply reserved_get_spec; [done|]|].
    + unfold CAN_VALID_CONSOBJ, COSIZE in *. apply andb_true_iff in Ev. lia.
    + by intros v w' [-> _].
  - intros v. destruct (negb _); [by eapply spends_weaken; [apply spends_ret|lia|cbn; lia]|].
    by apply spends_answer; [ack|..].
Qed.
End handlers.

(** ** Dispatch, delivery, the bottom half *)
Section bottom_half.
Context {P : Prom} {PS : PromStrings P} {L : Lengths} {H : CanHw} {K : Kernel}.
Implicit Types w : world.

(** Less work than with [a] and [b] more: in the lexicographic order. *)
Definition lexlt (a b : Z) w w' : Prop :=
  drv_ok w' /\ can_nodeid w' = can_nodeid w /\
  (mA w' < mA w + a \/ (mA w' <= mA w + a /\ mB w' < mB w + b)).

Lemma dispatch_outcome pkt w : pkt_ok pkt -> drv_ok w ->
  ends_or_overruns (overlong_dat pkt)
    (let object := extf Ext.object pkt in
     if object =? CANOBJ_CONSOLE_CONNECT then canobj_connect pkt
     else if object =? CANOBJ_CONSOLE_DISCONN then canobj_disconnect pkt
     else if object =? CANOBJ_BREAK then canobj_break pkt
     else if object =? CANOBJ_FORCE_DISCONN then canobj_force_disconn pkt
     else if object =? CANOBJ_TESTRW then canobj_testrw pkt
     else if object =? CANOBJ_HEARTBEAT then canobj_heartbeat pkt
     else if object =? CANOBJ_AUTOBOOT then canobj_autoboot pkt
     else if object =? CANOBJ_RESET_IO then canobj_reset_io pkt
     else if object =? CANOBJ_BOOT_DEV then canobj_boot_dev pkt
     else if object =? 0 then canobj_dat pkt
     else mret 0)
    (fun _ w' => costs (tcost (extf Ext.type pkt)) (tcostB (extf Ext.type pkt)) w w') w.
Proof.
  intros Hp Hw. cbv zeta. repeat case_match; [apply eoo_wp..|by apply dat_outcome|apply eoo_wp].
  - by apply within_connect.
  - by apply within_disconnect.
  - by apply within_break.
  - by apply within_force_disconn.
  - by apply within_testrw.
  - by apply within_heartbeat.
  - apply within_option; [done..|by left|done].
  - by apply within_reset_io.
  - apply within_option; [done..|by right; right; left|done].
  - by apply tcost_ret.
Qed.

Lemma consobj_lexlt pkt w w1 :
  IS_MYPACKET (can_nodeid w) pkt = true ->
  costs (tcost (extf Ext.type pkt)) (tcostB (extf Ext.type pkt)) w w1 ->
  wp (canobj_consobj pkt) (fun _ w' =>
    lexlt (wA (can_nodeid w) pkt) (wB (can_nodeid w) pkt) w w') w1.
Proof.
  intros Hm Hc. pose proof Hc as (HO & Eid & HA & HB).
  unfold canobj_consobj, wA, wB in *. rewrite Hm. cbv zeta.
  destruct (Z.eqb_spec (extf Ext.type pkt) CANTYPE_ACK) as [E|E].
  { rewrite E in *. rewrite wp_bind.
    assert (Ew : set_ack_timer (ack_timer w1) w1 = w1) by world_eq.
    pose proof (recv_ack_costs 0 (ack_timer w1) w1 HO) as Hr. rewrite Ew in Hr.
    eapply wp_mono; [exact Hr|]. intros u w' Hc'. rewrite wp_ret. cbn in HA, HB, Hc' |- *.
    unfold lexlt. destruct (cancon_ack_pending w1 =? 0);
      destruct Hc' as (HO' & Eid' & HA' & HB'); split_and!; try done; try congruence; lia. }
  destruct (Z.eqb_spec (extf Ext.type pkt) CANTYPE_NAK) as [E2|E2].
  { rewrite E2 in *. rewrite wp_bind. eapply wp_mono; [by apply spends_printk|].
    intros u w' Hc'. rewrite wp_ret. destruct Hc' as (HO' & Eid' & HA' & _). cbn in HA |- *.
    unfold lexlt. split_and!; [done|congruence|]. lia. }
  rewrite wp_ret. unfold lexlt. split_and!; [done|congruence|].
  unfold tcost, tcostB in *. cbn [orb].
  destruct (_ =? CANTYPE_RO); cbn in *; [lia|].
  destruct (_ =? CANTYPE_WO); cbn in *; [lia|].
  destruct (_ =? CANTYPE_DAT); cbn in *; lia.
Qed.

Lemma handled_lexlt pkt w w1 :
  IS_MYPACKET (can_nodeid w) pkt = true ->
  costs (tcost (extf Ext.type pkt)) (tcostB (extf Ext.type pkt)) w w1 ->
  lexlt (wA (can_nodeid w) pkt) (wB (can_nodeid w) pkt) w w1.
Proof.
  intros Hm (HO & Eid & HA & HB). unfold lexlt, wA, wB, tcost, tcostB in *. rewrite Hm.
  split_and!; [done|congruence|]. cbv zeta.
  destruct (_ =? CANTYPE_RO); cbn in *; [lia|].
  destruct (_ =? CANTYPE_WO); cbn in *; [lia|].
  destruct (_ =? CANTYPE_DAT); cbn in *; [rewrite orb_true_r; lia|].
  destruct (_ || _); cbn; lia.
Qed.

Lemma canobj_packet_outcome pkt w :
  drv_ok w -> pkt_ok pkt -> IS_MYPACKET (can_nodeid w) pkt = true ->
  ends_or_overruns (overlong_dat pkt) (canobj_packet pkt) (fun _ w' =>
    lexlt (wA (can_nodeid w) pkt) (wB (can_nodeid w) pkt) w w') w.
Proof.
  intros Hw Hp Hm. unfold canobj_packet. cbv zeta.
  eapply eoo_bind; [by apply (dispatch_outcome pkt w)|]. intros v w1 Hc. apply eoo_wp.
  rewrite wp_bind, wp_gets. destruct (_ && _).
  - by apply consobj_lexlt.
  - rewrite wp_ret. by apply handled_lexlt.
Qed.

(** ** Delivery to the open files *)

Lemma deliver_one_free pkt i : pkt_ok pkt -> 0 <= i < CAN_MAX_USECOUNT ->
  spends 0 (Some 0) (deliver_one pkt i).
Proof.
  intros Hp Hi. apply spends_free. intros w Hw. unfold deliver_one, openfd_get.
  rewrite !wp_bind, wp_gets, (proj2 (Z.leb_le 0 i)) by lia.
  destruct (ok_openfd _ Hw) as [Hlen Hfd]. rewrite wp_the.
  destruct (list_lookup_total_Z (openfd w) i) as [p Ep]; [rewrite Hlen; lia|].
  exists p. split; [done|]. destruct (Z.eqb_spec p 0) as [|Hp0]; [done|].
  destruct (Hfd p) as (fs & Efs & q & Hq & Hqp); [by eapply list_elem_of_lookup_2|done|].
  wp_go. exists fs. split; [done|]. wp_go. destruct (_ && _); [done|]. wp_go.
  exists fs. split; [done|]. wp_call pkt_to_ring_spec; [exact Hq|]. intros v r Hr.
  assert (Hok : pkt_ring r).
  { destruct (_ <? _); [exists (q ++ [pkt])|exists q].
    - split; [apply Hr|]. apply list.Forall_app. by rewrite Forall_singleton.
    - by destruct Hr as [_ ->]. }
  set (fs' := FileState r _ _ _).
  assert (HO : drv_ok (set_heap (<[p := fs']> (heap w)) w)) by by eapply (drv_ok_fs p fs' fs).
  rewrite wp_when. split; intros _; [|done]. rewrite wp_log. split_and!; try done.
  by apply drv_ok_klog.
Qed.

Lemma spends_for_each_in {X} (l : list X) (body : X -> eff world unit) :
  (forall x, x ∈ l -> spends 0 (Some 0) (body x)) -> spends 0 (Some 0) (for_each l body).
Proof.
  induction l as [|x l IH]; intros Hb; cbn; [apply spends_skip|].
  apply (spends_bind 0 (Some 0) 0 (Some 0)); [apply Hb; by left|].
  intros _. apply IH. intros y Hy. apply Hb. by right.
Qed.

Lemma deliver_pkt_outcome pkt w :
  drv_ok w -> pkt_ok pkt ->
  ends_or_overruns (overlong_dat pkt) (deliver_pkt pkt) (fun _ w' =>
    lexlt (wA (can_nodeid w) pkt) (wB (can_nodeid w) pkt) w w') w.
Proof.
  intros Hw Hp. unfold deliver_pkt.
  apply (eoo_bind _ _ _ (fun v w' => v = can_nodeid w /\ w' = w)); [by left|]. intros ? ? [-> ->].
  eapply (eoo_bind _ _ _ (fun _ w' => lexlt (wA (can_nodeid w) pkt) (wB (can_nodeid w) pkt) w w')).
  - destruct (IS_MYPACKET (can_nodeid w) pkt) eqn:Em; cbn [when].
    + eapply eoo_bind; [by apply canobj_packet_outcome|]. intros v w1 Hl. by apply eoo_wp.
    + apply eoo_wp. rewrite wp_skip. unfold lexlt, wA, wB. rewrite Em.
      split_and!; [done|done|]. cbn. lia.
  - intros _ w1 (HO & Eid & HL). apply eoo_wp. eapply wp_mono.
    + apply (spends_for_each_in _ _); [|exact HO]. intros i Hi. apply elem_of_seqZ in Hi.
      apply deliver_one_free; [done|lia].
    + intros u w' (HO' & Eid' & HA & HB). unfold lexlt. split_and!; [done|congruence|lia].
Qed.

(** ** Termination *)

(** Both measures in one number; [mB] stays below its factor. *)
Definition BFACTOR : Z := 5 * (MAXRING - 1) + 1.
Definition work w : Z := mA w * BFACTOR + mB w.
(** The fuel the bottom half needs: more than the work there is. *)
Definition bh_fuel w : nat := S (Z.to_nat (work w)).

Lemma lexlt_work a b w w' : drv_ok w -> 0 <= b ->
  lexlt a b w w' -> work w' < (mA w + a) * BFACTOR + (mB w + b).
Proof.
  intros Hw Hb (HO & _ & HL). pose proof (mB_bound _ HO). pose proof (mB_bound _ Hw).
  unfold work, BFACTOR, MAXRING in *. nia.
Qed.

(** Either the queue is worked off, or one of the packets it may hold
    announces more characters than it has. *)
Lemma can_bh_outcome fuel w :
  drv_ok w -> work w < Z.of_nat fuel ->
  ends_or_overruns (exists pkt, fits pkt /\ overlong_dat pkt) (can_bh fuel)
    (fun _ w' => drv_ok w' /\ ring_rep (inq w') []) w.
Proof.
  revert w. induction fuel as [|fuel IH]; intros w Hw Hf.
  { pose proof (mA_nonneg w). pose proof (mB_bound _ Hw). unfold work, BFACTOR, MAXRING in *. lia. }
  cbn [can_bh]. destruct (ok_queues _ Hw) as (qi & qo & (Hi & Ho & Oi & Oo) & Si).
  assert (Hget : wp (on_inq ring_to_pkt) (fun o w1 => exists r, w1 = set_inq r w /\
    match qi with [] => o = None /\ r = inq w | x :: q' => o = Some x /\ ring_rep r q' end) w).
  { rewrite wp_on_inq. wp_call ring_to_pkt_spec; [exact Hi|]. intros o r Hr. by exists r. }
  eapply eoo_bind; [by apply eoo_wp|]. intros o w1 (r & -> & Hr). destruct qi as [|pkt qi].
  - destruct Hr as [-> ->]. apply eoo_wp. rewrite wp_skip.
    assert (E : set_inq (inq w) w = w) by world_eq. by rewrite E.
  - destruct Hr as [-> Hr]. apply Forall_cons in Oi as [Op Oi]. apply Forall_cons in Si as [Sp Si].
    set (w1 := set_inq r w).
    assert (Hw1 : drv_ok w1).
    { assert (E : w1 = set_inq r (set_outq (outq w) w)) by (unfold w1; world_eq).
      rewrite E. by eapply drv_ok_queues. }
    destruct (mA_pop w pkt qi r Hi Hr) as [EA EB]. fold w1 in EA, EB.
    eapply eoo_bind; [eapply eoo_mono; [by apply (deliver_pkt_outcome pkt w1)|by exists pkt|]|].
    { intros u w' Hl. exact Hl. }
    intros u w' Hl. cbn beta in Hl. change (can_nodeid w1) with (can_nodeid w) in Hl.
    pose proof (wB_range (can_nodeid w) pkt).
    eapply lexlt_work in Hl as Hlt; [|done|lia]. apply IH; [apply Hl|].
    unfold work in Hf. rewrite EA, EB in Hf. lia.
Qed.

Lemma run_bh_outcome w : drv_ok w ->
  ends_or_overruns (exists pkt, fits pkt /\ overlong_dat pkt) (run_bh (bh_fuel w))
    (fun _ w' => drv_ok w' /\ ring_rep (inq w') []) w.
Proof.
  intros Hw. unfold run_bh.
  eapply (eoo_bind _ _ _ (fun _ w' => w' = set_bh_queued false w)); [by apply eoo_wp|].
  intros _ ? ->. pose proof (mA_nonneg w). pose proof (mB_bound _ Hw).
  apply can_bh_outcome; [by apply drv_ok_bh_queued|].
  change (work (set_bh_queued false w)) with (work w). unfold bh_fuel.
  unfold work, BFACTOR, MAXRING in *. lia.
Qed.
End bottom_half.

(** ** Without overlong packets *)
Section short.
Context {P : Prom} {PS : PromStrings P} {H : CanHw} {K : Kernel}.
Implicit Types w : world.

Lemma eoo_short {A} (O : Prop) (m : eff world A) Q w : (O -> False) -> ends_or_overruns O m Q w -> wp m Q w.
Proof. intros HO [Hm|[Ho _]]; [done|by destruct HO]. Qed.

Lemma canobj_packet_lexlt pkt w :
  drv_ok w -> pkt_ok pkt -> short pkt -> IS_MYPACKET (can_nodeid w) pkt = true ->
  wp (canobj_packet pkt) (fun _ w' =>
    lexlt (wA (can_nodeid w) pkt) (wB (can_nodeid w) pkt) w w') w.
Proof.
  intros Hw Hp Hs Hm. eapply eoo_short; [|by apply canobj_packet_outcome].
  intros [_ Hl]. unfold short in Hs. lia.
Qed.

(** C2. The bottom half always finishes: in any good state, with the fuel
    [bh_fuel] computes from the packets and characters that are queued, it
    neither faults nor runs out; it leaves the input queue empty and the state
    good. This holds although handling a packet may queue new ones (answers to
    a loopback request, the next console packet, the report of an unexpected
    acknowledgement). *)
Theorem bottom_half_terminates w :
  drv_ok w ->
  wp (run_bh (bh_fuel w)) (fun _ w' =>
    drv_ok w' /\ ring_rep (inq w') []) w.
Proof.
  intros Hw. eapply eoo_short; [|by apply run_bh_outcome].
  intros (pkt & Hf & _ & Hl). change (canf Can.length pkt <= 8) in Hf. lia.
Qed.
End short.

(** * Examples *)

Lemma prop_find_in k ps v : prop_find k ps = Some v -> (k, v) ∈ ps.
Proof.
  induction ps as [|[k' v'] ps IH]; cbn; [done|]. case_decide as Ek.
  - intros [= ->]. subst. by left.
  - intros E. right. by apply IH.
Qed.

Lemma demo_props_wf : demo_prom_wf demo_props.
Proof.
  intros k v E%prop_find_in _. unfold demo_props in E.
  repeat (apply elem_of_cons in E as [E|E]; [injection E as -> ->; vm_compute; by eexists|]).
  by apply elem_of_nil in E.
Qed.

Lemma no_owners : owners_ok (replicate 256 0) ∅ (replicate 256 0).
Proof.
  assert (Hno : forall p, ~ is_open (replicate 256 0) p).
  { intros p [Hp%elem_of_replicate_inv Hnz]. done. }
  split.
  - intros i j p Hi%list_elem_of_lookup_2 _ Hp. by apply elem_of_replicate_inv in Hi.
  - intros p fs _. by rewrite lookup_empty.
  - intros k v Hk%list_elem_of_lookup_2. left. by apply elem_of_replicate_inv in Hk.
  - intros k. split.
    + intros Hk%list_elem_of_lookup_2. by apply elem_of_replicate_inv in Hk.
    + intros (p & fs & Ho & _). by apply Hno in Ho.
  - intros p p' fs fs' Ho. by apply Hno in Ho.
Qed.

Lemma demo_ok : @drv_ok demo_prom demo_prom_strings short_only demo_world.
Proof.
  split.
  - exists [], []. split; [exact demo_queues|done].
  - exists []. apply empty_ring_rep.
  - exists []. apply empty_ring_rep.
  - done.
  - change (0 <= 2 ^ 32 - 1 < 2 ^ 32). lia.
  - change (0 <= 28 < 2 ^ 32 /\ 0 <= 3 < 2 ^ 32 /\ 0 <= 0 < 2 ^ 32). lia.
  - exact zero_packet_ok.
  - done.
  - exact demo_props_wf.
  - split; [done|]. intros p Hp Hnz. change (p ∈ replicate 256 0) in Hp. by apply elem_of_replicate_inv in Hp.
  - done.
  - exact no_owners.
Qed.

(** The demo node with packets in its input queue. *)
Definition demo_with (ps : list can_packet) : @world demo_prom :=
  match put_all (H := ring_fifo can_packet) ps (inq demo_world) with
  | Done _ r => set_inq r demo_world
  | Fault _ => demo_world
  end.

Lemma demo_with_ok ps :
  Forall pkt_ok ps -> Forall short ps -> (length ps <= 1000)%nat ->
  @drv_ok demo_prom demo_prom_strings short_only (demo_with ps) /\ ring_rep (inq (demo_with ps)) ps.
Proof.
  intros Hp Hs Hl. unfold demo_with.
  pose proof (put_all_fits (H := ring_fifo can_packet) ps (inq demo_world) []) as Hput.
  unfold wp in Hput.
  destruct (put_all ps (inq demo_world)) as [n r|].
  2:{ exfalso. apply Hput; [apply empty_ring_rep|]. cbn [length fifo_cap ring_fifo].
      unfold MAXRING. lia. }
  destruct Hput as [_ Hr]; [apply empty_ring_rep|cbn [length fifo_cap ring_fifo]; unfold MAXRING; lia|].
  split; [|exact Hr].
  assert (E : set_inq r demo_world = set_inq r (set_outq (outq demo_world) demo_world)) by done.
  rewrite E. eapply drv_ok_queues; [exact demo_ok|exact Hr|apply empty_ring_rep|done..].
Qed.

Lemma demo_request_short t o v : short (demo_request t o v).
Proof.
  unfold short, demo_request, canf, set_canf, set_extf, set_dat. cbn -[fget fset]. fld.
  vm_compute. discriminate.
Qed.

(** A loopback request: the answer is queued while the bottom half runs. *)
Definition demo_loopback : can_packet :=
  set_canf Can.src 5 (demo_request CANTYPE_WO CANOBJ_TESTRW 9).

Lemma bottom_half_terminates_witness :
  let w := demo_with [demo_request CANTYPE_RO CANOBJ_TESTRW 0; demo_request CANTYPE_ACK 7 0] in
  wp (run_bh (P := demo_prom) (H := ready_chip) (K := demo_kernel) (bh_fuel w))
    (fun _ w' => ring_rep (inq w') []) w.
Proof.
  intros w. eapply wp_mono.
  - apply (@bottom_half_terminates demo_prom demo_prom_strings ready_chip demo_kernel).
    apply demo_with_ok.
    + rewrite !Forall_cons. split_and!; [apply demo_request_ok; lia..|done].
    + rewrite !Forall_cons. split_and!; [apply demo_request_short..|done].
    + cbn. lia.
  - intros u w' [_ Hr]. exact Hr.
Defined.
