(* ===== verification/DriverFiles.v ===== *)
(** * Open files and console objects keep the invariant

    The table of open files, the console object identifiers they hold, and
    the five file operations. *)

From stdpp Require Import prelude list numbers gmap strings.
From Stdlib Require Import ZArith Lia.
From S2P Require Import Prelude CanTypes Ring Obp World Demo CanSend Console CanObj CanMain CanChip DriverInv DriverTotal.

(** ** Who holds which identifier *)
Section owners.
Implicit Types (fds : list Z) (h : gmap Z file_state) (res : list Z).

Lemma owners_free fds h res p fs k :
  owners_ok fds h res -> is_open fds p -> h !! p = Some fs ->
  consobj fs = CANOBJ_CONSMIN + Z.of_nat k ->
  owners_ok fds (<[p := set_consobj (-1) fs]> h) (<[k := 0]> res).
Proof.
  intros [Hn Hr Hv Hh He] Ho E Ec. unfold CANOBJ_CONSMIN in *.
  assert (Hk : res !! k = Some 1) by (apply Hh; exists p, fs; done).
  split; [done| | | |].
  - intros p' fs' Ho'. rewrite lookup_insert_Some. intros [[-> <-]|[_ E']]; [by left|].
    by eapply Hr.
  - intros j v. rewrite list_lookup_insert_Some. intros [(-> & <- & _)|[_ Ej]]; [by left|].
    by eapply Hv.
  - intros j. rewrite list_lookup_insert_Some. split.
    + intros [(_ & ? & _)|[Hne Ej]]; [done|]. apply Hh in Ej as (p' & fs' & Ho' & E' & Ec').
      exists p', fs'. split; [done|]. split; [|done]. rewrite lookup_insert_ne; [done|].
      intros ->. assert (fs = fs') by congruence. subst. lia.
    + intros (p' & fs' & Ho' & E' & Ec'). apply lookup_insert_Some in E' as [[_ <-]|[Hne E']].
      { unfold CANOBJ_CONSMIN in Ec'. cbn in Ec'. lia. }
      right. split; [|apply Hh; by exists p', fs'].
      intros ->. apply Hne. unfold CANOBJ_CONSMIN in *. apply (He p p' fs fs'); try done; lia.
  - intros p1 p2 f1 f2 Ho1 Ho2. rewrite !lookup_insert_Some.
    intros [[-> <-]|[Hne1 E1]] [[-> <-]|[Hne2 E2]] Ec12 Hne; try done.
    by eapply (He p1 p2 f1 f2).
Qed.

Lemma owners_alloc fds h res p fs k v :
  owners_ok fds h res -> is_open fds p -> h !! p = Some fs -> consobj fs = -1 ->
  res !! k = Some v -> v <> 1 -> Z.of_nat k < COSIZE ->
  owners_ok fds (<[p := set_consobj (CANOBJ_CONSMIN + Z.of_nat k) fs]> h) (<[k := 1]> res).
Proof.
  intros [Hn Hr Hv Hh He] Ho E Ec Ek Hv1 Hk.
  assert (Hlt : (k < length res)%nat) by (by eapply lookup_lt_Some).
  assert (Hfree : forall p' fs', is_open fds p' -> h !! p' = Some fs' ->
            consobj fs' <> CANOBJ_CONSMIN + Z.of_nat k).
  { intros p' fs' Ho' E' Ec'. assert (Hk1 : res !! k = Some 1) by (apply Hh; by exists p', fs').
    congruence. }
  split; [done| | | |].
  - intros p' fs' Ho'. rewrite lookup_insert_Some. intros [[-> <-]|[_ E']]; [|by eapply Hr].
    right. cbn. unfold CAN_VALID_CONSOBJ, COSIZE, CANOBJ_CONSMIN, CANOBJ_CONSMAX in *.
    apply andb_true_iff. lia.
  - intros j u. rewrite list_lookup_insert_Some. intros [(-> & <- & _)|[_ Ej]]; [by right|].
    by eapply Hv.
  - intros j. rewrite list_lookup_insert_Some. split.
    + intros [(-> & _ & _)|[Hne Ej]].
      { exists p, (set_consobj (CANOBJ_CONSMIN + Z.of_nat j) fs). rewrite lookup_insert_eq. done. }
      apply Hh in Ej as (p' & fs' & Ho' & E' & Ec').
      exists p', fs'. split; [done|]. split; [|done]. rewrite lookup_insert_ne; [done|].
      intros ->. assert (fs = fs') by congruence. subst.
      unfold CANOBJ_CONSMIN in *. lia.
    + intros (p' & fs' & Ho' & E' & Ec'). apply lookup_insert_Some in E' as [[-> <-]|[Hne E']].
      { left. cbn in Ec'. split_and!; [lia|done|lia]. }
      right. split; [|apply Hh; by exists p', fs']. intros <-. by apply (Hfree p' fs').
  - intros p1 p2 f1 f2 Ho1 Ho2. rewrite !lookup_insert_Some.
    intros [[-> <-]|[Hne1 E1]] [[-> <-]|[Hne2 E2]] Ec12 Hne; try done.
    + cbn in Ec12. by destruct (Hfree p2 f2).
    + cbn in Ec12. by destruct (Hfree p1 f1).
    + by eapply (He p1 p2 f1 f2).
Qed.

Lemma is_open_insert fds i p p' :
  (i < length fds)%nat -> is_open (<[i := p]> fds) p' ->
  (p' = p /\ p <> 0) \/ is_open fds p'.
Proof.
  intros Hi [Hin Hnz]. apply list_elem_of_lookup_1 in Hin as [j Hj].
  apply list_lookup_insert_Some in Hj as [(_ & -> & _)|[_ Hj]]; [by left|].
  right. split; [by eapply list_elem_of_lookup_2|done].
Qed.

Lemma is_open_insert_old fds i p p' :
  fds !! i = Some 0 -> is_open fds p' -> is_open (<[i := p]> fds) p'.
Proof.
  intros Ei [Hin Hnz]. split; [|done]. apply list_elem_of_lookup_1 in Hin as [j Hj].
  apply (list_elem_of_lookup_2 _ j). rewrite list_lookup_insert_ne; [done|congruence].
Qed.

Lemma owners_open fds h res i p fs :
  owners_ok fds h res -> fds !! i = Some 0 -> p <> 0 -> h !! p = None ->
  (forall p', is_open fds p' -> is_Some (h !! p')) -> consobj fs = -1 ->
  owners_ok (<[i := p]> fds) (<[p := fs]> h) res.
Proof.
  intros [Hn Hr Hv Hh He] Ei Hp Eh Hall Ec.
  assert (Hi : (i < length fds)%nat) by (by eapply lookup_lt_Some).
  assert (Hp' : ~ is_open fds p) by (intros Ho; destruct (Hall _ Ho); congruence).
  assert (Hold : forall p' fs', is_open (<[i := p]> fds) p' -> <[p := fs]> h !! p' = Some fs' ->
            consobj fs' <> -1 -> is_open fds p' /\ h !! p' = Some fs').
  { intros p' fs' Ho' E' Hc. apply lookup_insert_Some in E' as [[-> <-]|[Hne E']]; [done|].
    apply is_open_insert in Ho' as [[-> _]|Ho']; done. }
  assert (Hin : forall j, fds !! j <> Some p).
  { intros j Ej. apply Hp'. split; [by eapply list_elem_of_lookup_2|done]. }
  split; [| |done| |].
  - intros j1 j2 p' E1 E2 Hnz. apply list_lookup_insert_Some in E1, E2.
    destruct E1 as [(-> & -> & _)|[Hne1 E1]], E2 as [(-> & E2 & _)|[Hne2 E2]]; try done.
    + by apply Hin in E2.
    + subst. by apply Hin in E1.
    + by eapply (Hn j1 j2 p').
  - intros p' fs' Ho' E'. destruct (decide (consobj fs' = -1)) as [|Hc]; [by left|].
    destruct (Hold _ _ Ho' E' Hc) as [Ho'' E'']. by eapply Hr.
  - intros k. rewrite Hh. split; intros (p' & fs' & Ho' & E' & Ec').
    + exists p', fs'. split; [by apply is_open_insert_old|]. split; [|done].
      rewrite lookup_insert_ne; [done|]. by intros ->.
    + exists p', fs'. destruct (Hold _ _ Ho' E') as [Ho'' E''];
        [unfold CANOBJ_CONSMIN in *; lia|done].
  - intros p1 p2 f1 f2 Ho1 Ho2 E1 E2 Ec12 Hne.
    destruct (Hold _ _ Ho1 E1 Hne), (Hold _ _ Ho2 E2); [congruence|]. by eapply (He p1 p2 f1 f2).
Qed.

Lemma owners_close fds h res i p fs :
  owners_ok fds h res -> fds !! i = Some p -> p <> 0 -> h !! p = Some fs -> consobj fs = -1 ->
  owners_ok (<[i := 0]> fds) (delete p h) res.
Proof.
  intros [Hn Hr Hv Hh He] Ei Hp Eh Ec.
  assert (Hi : (i < length fds)%nat) by (by eapply lookup_lt_Some).
  assert (Hold : forall p' fs', is_open (<[i := 0]> fds) p' -> delete p h !! p' = Some fs' ->
            is_open fds p' /\ h !! p' = Some fs').
  { intros p' fs' Ho' E'. apply lookup_delete_Some in E' as [Hne E'].
    apply is_open_insert in Ho' as [[_ ?]|Ho']; done. }
  split; [| |done| |].
  - intros j1 j2 p' E1 E2 Hnz. apply list_lookup_insert_Some in E1, E2.
    destruct E1 as [(_ & E1 & _)|[_ E1]]; [congruence|].
    destruct E2 as [(_ & E2 & _)|[_ E2]]; [congruence|]. by eapply (Hn j1 j2 p').
  - intros p' fs' Ho' E'. destruct (Hold _ _ Ho' E'). by eapply Hr.
  - intros k. rewrite Hh. split; intros (p' & fs' & Ho' & E' & Ec').
    + assert (Hne : p' <> p).
      { intros ->. assert (fs = fs') by congruence. subst. unfold CANOBJ_CONSMIN in *. lia. }
      exists p', fs'. split; [|by rewrite lookup_delete_ne].
      destruct Ho' as [Hin Hnz]. split; [|done]. apply list_elem_of_lookup_1 in Hin as [j Hj].
      apply (list_elem_of_lookup_2 _ j). rewrite list_lookup_insert_ne; [done|congruence].
    + exists p', fs'. by destruct (Hold _ _ Ho' E').
  - intros p1 p2 f1 f2 Ho1 Ho2 E1 E2 Ec12 Hne.
    destruct (Hold _ _ Ho1 E1), (Hold _ _ Ho2 E2). by eapply (He p1 p2 f1 f2).
Qed.
End owners.

(** ** Console object identifiers *)
Section consobj.
Context {P : Prom} {PS : PromStrings P} {L : Lengths} {H : CanHw} {K : Kernel}.
Implicit Types w : world.

Definition all_reserved w : Prop :=
  forall k, 0 <= k < COSIZE -> consobj_reserved w !! Z.to_nat k = Some 1.

Lemma cosize_mod x : 0 <= x mod COSIZE < COSIZE.
Proof. apply Z.mod_pos_bound. reflexivity. Qed.

(** The search runs over [count] to [COSIZE - 1] positions from [try] on. *)
Lemma alloc_loop_spec fuel try count w :
  length (consobj_reserved w) = Z.to_nat COSIZE -> 0 <= try < COSIZE -> 0 <= count <= COSIZE ->
  COSIZE - count < Z.of_nat fuel ->
  wp (can_alloc_consobj_loop fuel try count) (fun r w' =>
    w' = w /\
    ((r.2 = COSIZE /\ forall i, 0 <= i < COSIZE - count ->
        consobj_reserved w !! Z.to_nat ((try + i) mod COSIZE) = Some 1) \/
     (r.2 < COSIZE /\ 0 <= r.1 < COSIZE /\
      exists v, consobj_reserved w !! Z.to_nat r.1 = Some v /\ v <> 1))) w.
Proof.
  intros Hlen. revert try count. induction fuel as [|fuel IH]; intros try count Ht Hc Hf; [lia|].
  cbn [can_alloc_consobj_loop]. destruct (Z.ltb_spec count COSIZE) as [Hlt|Hge].
  2:{ rewrite wp_ret. split; [done|]. left. cbn. split; [lia|]. intros i Hi. lia. }
  rewrite wp_bind. unfold reserved_get. rewrite wp_bind, wp_gets.
  rewrite (proj2 (Z.leb_le 0 try)), wp_the by lia.
  destruct (list_lookup_total_Z (consobj_reserved w) try) as [v Ev]; [rewrite Hlen; lia|].
  exists v. split; [done|]. destruct (Z.eqb_spec v 1) as [->|Hv].
  - pose proof (cosize_mod (try + 1)) as Hm.
    eapply wp_mono; [apply IH; [done|lia|lia]|]. intros [t c] w' [-> Hr]. cbn [fst snd] in *.
    split; [done|]. destruct Hr as [[-> Hall]|Hfound]; [left|by right].
    split; [done|]. intros i Hi. destruct (Z.eq_dec i 0) as [->|Hi0].
    + by rewrite Z.add_0_r, Z.mod_small.
    + rewrite <- (Hall (i - 1)) by lia. do 2 f_equal.
      rewrite Zplus_mod_idemp_l. f_equal. lia.
  - rewrite wp_ret. split; [done|]. right. cbn. split_and!; try lia. by exists v.
Qed.

Lemma can_alloc_consobj_spec w :
  length (consobj_reserved w) = Z.to_nat COSIZE ->
  wp can_alloc_consobj (fun c w' =>
    (c = -1 /\ all_reserved w /\ w' = w) \/
    (exists k v, c = CANOBJ_CONSMIN + Z.of_nat k /\ Z.of_nat k < COSIZE /\
       consobj_reserved w !! k = Some v /\ v <> 1 /\
       w' = set_consobj_reserved (<[k := 1]> (consobj_reserved w)) w)) w.
Proof.
  intros Hlen. unfold can_alloc_consobj. rewrite wp_bind, wp_gets, wp_bind.
  eapply wp_mono; [apply alloc_loop_spec; [done|apply cosize_mod|done|done]|].
  intros [try count] w' [-> Hr]. cbn [fst snd] in Hr.
  destruct Hr as [[-> Hall]|(Hlt & Ht & v & Ev & Hv)].
  - rewrite Z.ltb_irrefl, wp_ret. left. split; [done|]. split; [|done]. intros k Hk.
    pose proof (cosize_mod (jiffies w)) as Hj.
    rewrite <- (Hall ((k - jiffies w mod COSIZE) mod COSIZE)).
    + do 2 f_equal. rewrite Zplus_mod_idemp_r.
      replace (jiffies w mod COSIZE + (k - jiffies w mod COSIZE)) with k by lia.
      by rewrite Z.mod_small.
    + rewrite Z.sub_0_r. apply cosize_mod.
  - rewrite (proj2 (Z.ltb_lt _ _) Hlt). unfold reserved_set. rewrite !wp_bind, wp_gets, Hlen.
    rewrite (proj2 (Z.leb_le 0 try)), (proj2 (Z.ltb_lt try _)) by lia. cbn [andb].
    rewrite wp_modify, wp_ret. right. exists (Z.to_nat try), v.
    split_and!; try done; lia.
Qed.

Lemma can_free_consobj_spec w k :
  length (consobj_reserved w) = Z.to_nat COSIZE -> Z.of_nat k < COSIZE ->
  wp (can_free_consobj (CANOBJ_CONSMIN + Z.of_nat k)) (fun _ w' =>
    w' = set_consobj_reserved (<[k := 0]> (consobj_reserved w)) w) w.
Proof.
  intros Hlen Hk. unfold can_free_consobj. cbv zeta.
  replace (CANOBJ_CONSMIN + Z.of_nat k - CANOBJ_CONSMIN) with (Z.of_nat k) by lia.
  rewrite (proj2 (Z.leb_le 0 _)), (proj2 (Z.ltb_lt (Z.of_nat k) COSIZE)) by lia. cbn [andb when].
  unfold reserved_set. rewrite wp_bind, wp_gets, Hlen.
  rewrite (proj2 (Z.leb_le 0 _)), (proj2 (Z.ltb_lt (Z.of_nat k) _)) by lia. cbn [andb].
  rewrite wp_modify. by rewrite Nat2Z.id.
Qed.

(** What a valid identifier is an offset of. *)
Lemma valid_consobj_index c : CAN_VALID_CONSOBJ c = true ->
  exists k, c = CANOBJ_CONSMIN + Z.of_nat k /\ Z.of_nat k < COSIZE.
Proof.
  unfold CAN_VALID_CONSOBJ, COSIZE, CANOBJ_CONSMIN, CANOBJ_CONSMAX. rewrite andb_true_iff.
  intros Hc. exists (Z.to_nat (c - 0x100)). lia.
Qed.

(** ** A search loop that breaks on a match *)
Lemma find_from_spec v l i :
  (find_from v l i = i + Z.of_nat (length l) /\ v ∉ l) \/
  (exists k, find_from v l i = i + Z.of_nat k /\ l !! k = Some v).
Proof.
  revert i. induction l as [|x l IH]; intros i; cbn -[Z.of_nat].
  { left. split; [lia|apply not_elem_of_nil]. }
  destruct (Z.eqb_spec x v) as [->|Hne].
  - right. exists 0%nat. split; [lia|done].
  - destruct (IH (i + 1)) as [[-> Hn]|(k & -> & Hk)].
    + left. split; [lia|]. rewrite not_elem_of_cons. split; congruence.
    + right. exists (S k). split; [lia|done].
Qed.

(** ** Chip resets keep everything but the trace and the interrupt *)
Lemma can_init_82c200_ends pr w :
  wp (can_init_82c200 pr) (fun r w' => (r = 0 \/ r = - EIO) /\
    (irq_installed w = true -> irq_installed w' = true) /\
    exists tr i f, w' = set_io tr (set_irq_installed i (set_first_time f w))) w.
Proof.
  assert (Hend : forall tr i f, exists tr' i' f',
    set_io tr (set_irq_installed i (set_first_time f w)) =
    set_io tr' (set_irq_installed i' (set_first_time f' w))) by (intros; by eexists _, _, _).
  unfold can_init_82c200. rewrite wp_bind, wp_gets.
  repeat (rewrite wp_bind; first [rewrite wp_wr | rewrite wp_rd]).
  match goal with |- wp _ _ ?w1 => set (w2 := w1) end.
  assert (E2 : exists tr, w2 = set_io tr w) by (eexists; reflexivity).
  destruct E2 as (tr & ->). rewrite wp_bind, wp_gets, wp_bind. ws.
  destruct (negb (first_time w =? 0)); [destruct (request_irq_ret =? 0)|].
  all: rewrite ?wp_bind, ?wp_modify, ?wp_ret.
  2:{ split; [by right|]. split; [done|]. exists tr, (irq_installed w), (first_time w). world_eq. }
  all: cbn beta iota; rewrite wp_bind, wp_modify, wp_bind, wp_wr, wp_bind, wp_rd, wp_if;
    split; intros _;
    [|rewrite wp_bind, wp_rd, wp_if; split; intros _]; rewrite wp_ret; ws.
  all: split; [first [by left|by right]|]; split; [done|].
  all: first [ eexists _, true, 0; reflexivity
             | eexists _, (irq_installed w), 0; world_eq ].
Qed.

Lemma can_init_82c200_frame pr w :
  wp (can_init_82c200 pr) (fun _ w' =>
    exists tr i f, w' = set_io tr (set_irq_installed i (set_first_time f w))) w.
Proof. eapply wp_mono; [apply can_init_82c200_ends|]. by intros r w' (_ & _ & Hw'). Qed.

Lemma spends_can_init pr : spends 0 (Some 0) (can_init_82c200 pr ;; skip).
Proof.
  apply spends_free. intros w Hw. rewrite wp_bind.
  eapply wp_mono; [apply can_init_82c200_frame|].
  intros v w' (tr & i & f & ->). rewrite wp_skip. split_and!; try done.
  apply drv_ok_io. destruct Hw. split; ws; assumption.
Qed.
End consobj.

(** ** The file operations *)
Section fileops.
Context {P : Prom} {PS : PromStrings P} {L : Lengths} {H : CanHw} {K : Kernel}.
Implicit Types w : world.

(** The state kmalloc'ed memory is given when a file is opened. *)
Definition fresh_fs (mem : file_state) : file_state :=
  FileState (RING_INIT (fs_inq mem)) 0 0 (-1).

(** [struct file_state] holds a ring of MAXRING packets, whatever they are. *)
Definition mem_ok (mem : file_state) : Prop := length (buf (fs_inq mem)) = Z.to_nat MAXRING.

Definition opened i p mem w : world :=
  set_mod_usecount (mod_usecount w + 1) (set_can_usecount (can_usecount w + 1)
    (set_heap (<[p := fresh_fs mem]> (heap w)) (set_openfd (<[i := p]> (openfd w)) w))).

Lemma can_open_spec p mem w :
  drv_ok w -> p <> 0 ->
  wp (can_open p mem) (fun r w' =>
    (r = (- EBUSY, 0) /\ w' = w /\ 0 ∉ openfd w) \/
    (r = (0, p) /\ exists i, openfd w !! i = Some 0 /\ w' = opened i p mem w)) w.
Proof.
  intros Hw Hp. destruct (ok_openfd _ Hw) as [Hlen _]. unfold can_open, can_alloc_openfd.
  rewrite !wp_bind, wp_gets. cbv zeta.
  destruct (find_from_spec 0 (openfd w) 0) as [[-> Hn]|(i & -> & Hi)].
  - rewrite Hlen. rewrite Z.eqb_refl, wp_ret. cbn [Z.eqb]. rewrite wp_ret. by left.
  - assert (Hlt : (i < length (openfd w))%nat) by (by eapply lookup_lt_Some).
    destruct (Z.eqb_spec (0 + Z.of_nat i) CAN_MAX_USECOUNT) as [Ec|_]; [lia|].
    unfold openfd_set. rewrite !wp_bind, wp_gets.
    rewrite (proj2 (Z.leb_le 0 _)), (proj2 (Z.ltb_lt (0 + Z.of_nat i) _)) by lia. cbn [andb].
    rewrite wp_modify. rewrite (proj2 (Z.eqb_neq p 0) Hp). rewrite wp_bind, wp_skip, wp_bind, wp_put_fs, wp_ret.
    rewrite (proj2 (Z.eqb_neq p 0) Hp), !wp_bind, wp_modify, wp_bind, wp_modify, wp_ret.
    right. split; [done|]. exists i. split; [done|]. by replace (Z.to_nat (0 + Z.of_nat i)) with i by lia.
Qed.

Lemma is_open_heap w p : drv_ok w -> is_open (openfd w) p ->
  exists fs, heap w !! p = Some fs /\ pkt_ring (fs_inq fs).
Proof. intros Hw [Hin Hnz]. by apply (proj2 (ok_openfd _ Hw)). Qed.

Lemma opened_ok i p mem w :
  drv_ok w -> p <> 0 -> heap w !! p = None -> mem_ok mem -> openfd w !! i = Some 0 ->
  drv_ok (opened i p mem w).
Proof.
  intros Hw Hp Hh Hm Hi. pose proof (is_open_heap w) as Hall.
  destruct Hw. split; unfold opened; ws; try assumption.
  - destruct ok_openfd as [Hlen Hfd]. rewrite length_insert. split; [done|].
    intros p' Hin Hnz. destruct (decide (p = p')) as [->|Hne].
    + rewrite lookup_insert_eq. exists (fresh_fs mem). split; [done|].
      exists []. split; [by apply ring_rep_init|done].
    + rewrite lookup_insert_ne by done. apply list_elem_of_lookup_1 in Hin as [j Hj].
      apply list_lookup_insert_Some in Hj as [(_ & ? & _)|[_ Hj]]; [done|].
      apply Hfd; [by eapply list_elem_of_lookup_2|done].
  - apply owners_open; try done. intros p' [Hin Hnz].
    destruct (proj2 ok_openfd p' Hin Hnz) as (fs & -> & _). done.
Qed.

(** The file state at [p] goes, with everything it held. *)
Lemma drv_ok_closed i p fs k res w :
  drv_ok w -> openfd w !! i = Some p -> p <> 0 -> heap w !! p = Some fs ->
  (consobj fs = -1 /\ res = consobj_reserved w \/
   consobj fs = CANOBJ_CONSMIN + Z.of_nat k /\ res = <[k := 0]> (consobj_reserved w)) ->
  drv_ok (set_openfd (<[i := 0]> (openfd w))
    (set_heap (delete p (heap w)) (set_consobj_reserved res w))).
Proof.
  intros [] Hi Hp Hh Hc. assert (Ho : is_open (openfd w) p).
  { split; [by eapply list_elem_of_lookup_2|done]. }
  split; ws; try assumption.
  - destruct ok_openfd as [Hlen Hfd]. rewrite length_insert. split; [done|].
    intros p' Hin Hnz. apply list_elem_of_lookup_1 in Hin as [j Hj].
    apply list_lookup_insert_Some in Hj as [(_ & ? & _)|[Hne Hj]]; [done|].
    assert (p' <> p).
    { intros ->. apply Hne. by eapply (own_nodup _ _ _ ok_owners i j p). }
    rewrite lookup_delete_ne by done. apply Hfd; [by eapply list_elem_of_lookup_2|done].
  - destruct Hc as [[_ ->]|[_ ->]]; [done|by rewrite length_insert].
  - destruct Hc as [[Hc ->]|[Hc ->]]; [by eapply owners_close|].
    rewrite <- (delete_insert_eq (heap w) p (set_consobj (-1) fs)).
    eapply owners_close; [by eapply owners_free|exact Hi|done|apply lookup_insert_eq|done].
Qed.

(** What drv_ok does not look at. *)
Definition rechip tr i f n w : world :=
  set_io tr (set_irq_installed i (set_first_time f (set_promiscuous_usecount n w))).

Lemma drv_ok_rechip tr i f n w : drv_ok w -> drv_ok (rechip tr i f n w).
Proof. intros []. split; unfold rechip; ws; assumption. Qed.

Lemma rechip_same w : exists tr i f n, w = rechip tr i f n w.
Proof.
  exists (io w), (irq_installed w), (first_time w), (promiscuous_usecount w). world_eq.
Qed.

(** Dropping one use of promiscuous mode. *)
Lemma drop_promiscuous_spec w n :
  wp (modify (set_promiscuous_usecount (n - 1)) ;;
      when (n - 1 =? 0) (can_init_82c200 0 ;; skip))
    (fun _ w' => exists tr i f n', w' = rechip tr i f n' w) w.
Proof.
  rewrite wp_bind, wp_modify, wp_when. split; intros _.
  - rewrite wp_bind. eapply wp_mono; [apply can_init_82c200_frame|].
    intros v w' (tr & i & f & ->). rewrite wp_skip. by exists tr, i, f, (n - 1).
  - exists (io w), (irq_installed w), (first_time w), (n - 1). world_eq.
Qed.

(** Giving back the console object a file holds, if it does. *)
Lemma free_held_spec w p fs :
  drv_ok w -> is_open (openfd w) p -> heap w !! p = Some fs ->
  wp (when (negb (consobj fs =? -1)) (can_free_consobj (consobj fs))) (fun _ w' =>
    exists k res, w' = set_consobj_reserved res w /\
      (consobj fs = -1 /\ res = consobj_reserved w \/
       consobj fs = CANOBJ_CONSMIN + Z.of_nat k /\ Z.of_nat k < COSIZE /\
       res = <[k := 0]> (consobj_reserved w))) w.
Proof.
  intros Hw Ho Hh. rewrite wp_when. split; intros Hc.
  - apply negb_true_iff, Z.eqb_neq in Hc.
    destruct (own_range _ _ _ (ok_owners _ Hw) p fs Ho Hh) as [|Hv]; [done|].
    apply valid_consobj_index in Hv as (k & Ek & Hk). rewrite Ek.
    eapply wp_mono; [by apply can_free_consobj_spec; [apply ok_reserved|]|].
    intros _ w' ->. exists k. eexists. split; [reflexivity|]. by right.
  - apply negb_false_iff, Z.eqb_eq in Hc. exists 0%nat, (consobj_reserved w).
    split; [world_eq|by left].
Qed.

Lemma can_release_spec p w :
  drv_ok w -> is_open (openfd w) p ->
  wp (can_release p) (fun r w' =>
    r = 0 /\ drv_ok w' /\ heap w' = delete p (heap w) /\
    exists i, openfd w !! i = Some p /\ openfd w' = <[i := 0]> (openfd w)) w.
Proof.
  intros Hw Ho. destruct (is_open_heap w p Hw Ho) as (fs & Hh & _).
  destruct (ok_openfd _ Hw) as [Hlen _]. unfold can_release, can_release_openfd.
  rewrite wp_bind, wp_bind, wp_gets. cbv zeta.
  destruct (find_from_spec p (openfd w) 0) as [[_ Hn]|(i & -> & Hi)];
    [by destruct Hn; apply Ho|].
  assert (Hlt : (i < length (openfd w))%nat) by (by eapply lookup_lt_Some).
  destruct (Z.eqb_spec (0 + Z.of_nat i) CAN_MAX_USECOUNT) as [Ec|_]; [lia|].
  unfold openfd_get. rewrite !wp_bind, wp_gets, (proj2 (Z.leb_le 0 _)), wp_the by lia.
  replace (Z.to_nat (0 + Z.of_nat i)) with i by lia. exists p. split; [done|].
  rewrite wp_bind, wp_get_fs. exists fs. split; [done|]. rewrite wp_bind.
  eapply wp_mono; [by apply (free_held_spec w p fs)|]. intros _ w1 (k & res & -> & Hres).
  set (w1 := set_consobj_reserved res w).
  rewrite wp_bind. apply (wp_mono _ (fun _ w' => exists tr i f n, w' = rechip tr i f n w1)).
  { rewrite wp_when. split; intros _; [|apply rechip_same].
    rewrite wp_bind, wp_gets. apply drop_promiscuous_spec. }
  intros _ w2 (tr & ir & f & n & ->). rewrite wp_bind, wp_modify.
  unfold openfd_set. rewrite wp_bind, wp_gets. ws.
  change (openfd (rechip tr ir f n w1)) with (openfd w). change (heap (rechip tr ir f n w1)) with (heap w).
  rewrite (proj2 (Z.leb_le 0 _)), (proj2 (Z.ltb_lt (0 + Z.of_nat i) _)) by lia. cbn [andb].
  rewrite wp_modify, wp_bind, wp_modify, wp_bind, wp_modify, wp_ret.
  replace (Z.to_nat (0 + Z.of_nat i)) with i by lia.
  split; [done|]. split; [|split; [done|by exists i]].
  pose proof (drv_ok_closed i p fs k res (rechip tr ir f n w)
                (drv_ok_rechip _ _ _ _ _ Hw) Hi (proj2 Ho) Hh) as Hcl.
  destruct Hcl; [by destruct Hres as [?|(? & _ & ?)]; [left|right]|].
  split; assumption.
Qed.

(** ** ioctl *)

Lemma drv_ok_files h res w :
  drv_ok w ->
  (forall p, is_open (openfd w) p -> exists fs, h !! p = Some fs /\ pkt_ring (fs_inq fs)) ->
  length res = Z.to_nat COSIZE -> owners_ok (openfd w) h res ->
  drv_ok (set_heap h (set_consobj_reserved res w)).
Proof.
  intros [] Hh Hr Hown. split; ws; try assumption.
  split; [apply ok_openfd|]. intros p Hp Hnz. by apply Hh.
Qed.

(** CAN_GET_CONSOBJ: the identifier held before is given back, then a free one
    is taken; without a free one the file holds none. *)
Lemma get_consobj_spec p arg w :
  drv_ok w -> is_open (openfd w) p ->
  wp (can_ioctl p CAN_GET_CONSOBJ arg) (fun r w' =>
    drv_ok w' /\ openfd w' = openfd w /\
    exists fs c, heap w !! p = Some fs /\ heap w' = <[p := set_consobj c fs]> (heap w) /\
      ((c = -1 /\ r = (- EBUSY, None)) \/
       (CAN_VALID_CONSOBJ c = true /\ r = match arg with None => (- EFAULT, None)
                                          | Some _ => (0, Some c) end))) w.
Proof.
  intros Hw Ho. destruct (is_open_heap w p Hw Ho) as (fs & Hh & Hring). cbn [can_ioctl].
  rewrite wp_bind, wp_get_fs. exists fs. split; [done|]. rewrite wp_bind.
  eapply wp_mono; [by apply (free_held_spec w p fs)|]. intros _ w1 (k & res & -> & Hres).
  assert (Hlen : length res = Z.to_nat COSIZE).
  { destruct Hres as [[_ ->]|(_ & _ & ->)]; [|rewrite length_insert]; apply Hw. }
  assert (Hown : owners_ok (openfd w) (<[p := set_consobj (-1) fs]> (heap w)) res).
  { destruct Hres as [[Ec ->]|(Ec & _ & ->)]; [|by eapply owners_free; [apply Hw|..]].
    rewrite insert_id; [apply Hw|]. rewrite Hh. destruct fs. cbn in Ec. by subst. }
  assert (Hfs : forall fs', pkt_ring (fs_inq fs') -> forall p', is_open (openfd w) p' ->
            exists fs0, <[p := fs']> (heap w) !! p' = Some fs0 /\ pkt_ring (fs_inq fs0)).
  { intros fs' Hr p' Ho'. destruct (decide (p = p')) as [->|Hne].
    - rewrite lookup_insert_eq. by exists fs'.
    - rewrite lookup_insert_ne by done. by apply is_open_heap. }
  rewrite wp_bind. eapply wp_mono; [apply can_alloc_consobj_spec; exact Hlen|].
  intros c w2 Hc. rewrite wp_bind, wp_put_fs.
  destruct Hc as [(-> & _ & ->)|(j & v & -> & Hj & Ej & Hv & ->)].
  - rewrite Z.eqb_refl, wp_ret. split; [|split; [done|]].
    + apply (drv_ok_files (<[p := set_consobj (-1) fs]> (heap w)) res w); try done. by apply Hfs.
    + exists fs, (-1). split_and!; try done. by left.
  - set (c := CANOBJ_CONSMIN + Z.of_nat j).
    assert (Hvalid : CAN_VALID_CONSOBJ c = true).
    { unfold CAN_VALID_CONSOBJ, c, COSIZE, CANOBJ_CONSMIN, CANOBJ_CONSMAX in *.
      apply andb_true_iff. lia. }
    destruct (Z.eqb_spec c (-1)) as [Ec|_]; [unfold c, CANOBJ_CONSMIN in Ec; lia|].
    assert (HO : drv_ok (set_heap (<[p := set_consobj c fs]> (heap w))
                          (set_consobj_reserved (<[j := 1]> res) w))).
    { apply drv_ok_files; [done|by apply Hfs|by rewrite length_insert|].
      rewrite <- (insert_insert_eq (heap w) p (set_consobj c (set_consobj (-1) fs))
                    (set_consobj (-1) fs)).
      change (set_consobj c fs) with (set_consobj c (set_consobj (-1) fs)).
      eapply owners_alloc; [exact Hown|done|apply lookup_insert_eq|done|exact Ej|done|done]. }
    destruct arg as [a|]; rewrite wp_ret; (split; [exact HO|]); (split; [done|]);
      exists fs, c; (split; [done|]); (split; [done|]); by right.
Qed.

Lemma spends_none {A} b (m : eff world A) : spends 0 b m -> spends 0 None m.
Proof. intros Hm. eapply spends_weaken; [exact Hm|lia|by destruct b]. Qed.

Lemma spends_seq_none {A B} (m : eff world A) (m' : eff world B) :
  spends 0 None m -> spends 0 None m' -> spends 0 None (m ;; m').
Proof. intros Hm Hm'. by apply (spends_bind 0 None 0 None). Qed.

Lemma spends_dump_info : spends 0 None can_dump_info.
Proof.
  unfold can_dump_info, cancon_dump_info, cancon_dump_debug.
  repeat first
    [ apply spends_gets; intros ? | apply spends_when; [done|done|] | apply spends_printk
    | apply spends_seq_none | case_match ].
Qed.

Lemma spends_modify_irrel (g : world -> world) :
  (forall w, drv_ok w -> drv_ok (g w) /\ can_nodeid (g w) = can_nodeid w /\
     cancon_ack_pending (g w) = cancon_ack_pending w /\ inq (g w) = inq w /\
     cancon_outbuf (g w) = cancon_outbuf w) ->
  spends 0 None (modify g).
Proof. intros Hg. apply (spends_none (Some 0)), spends_free. intros w Hw. by apply Hg. Qed.

Lemma drv_ok_debug v w : drv_ok w -> drv_ok (set_can_debug v w).
Proof. intros []. split; ws; assumption. Qed.

Lemma can_ioctl_ok p cmd arg w :
  drv_ok w -> is_open (openfd w) p ->
  wp (can_ioctl p cmd arg) (fun _ w' => drv_ok w') w.
Proof.
  intros Hw Ho. destruct (is_open_heap w p Hw Ho) as (fs & Hh & Hring).
  assert (Hput : forall fs' w1, consobj fs' = consobj fs -> fs_inq fs' = fs_inq fs ->
            drv_ok w1 -> heap w1 = heap w -> drv_ok (set_heap (<[p := fs']> (heap w1)) w1)).
  { intros fs' w1 Ec Ei Hw1 Eh. eapply drv_ok_fs; [by rewrite Eh|done|by rewrite Ei|done]. }
  assert (Hsp : forall A b (m : eff world A), spends 0 b m -> forall w1, drv_ok w1 ->
            wp m (fun _ w' => drv_ok w') w1).
  { intros A b m Hm w1 Hw1. eapply wp_mono; [by apply Hm|]. by intros u w' [HO _]. }
  destruct cmd; cbn [can_ioctl].
  - eapply wp_mono; [by apply (get_consobj_spec p arg w)|]. by intros r w' [HO _].
  - rewrite wp_bind, wp_gets. by destruct arg.
  - rewrite wp_bind, wp_get_fs. exists fs. split; [done|].
    rewrite wp_bind, wp_put_fs, wp_bind, wp_gets, wp_bind, wp_modify, wp_bind, wp_when.
    set (w1 := set_promiscuous_usecount _ _).
    assert (Hw1 : drv_ok w1).
    { unfold w1. pose proof (Hput (set_promiscuous 1 fs) w eq_refl eq_refl Hw eq_refl) as [].
      split; ws; assumption. }
    split; intros _; [|done]. by apply (Hsp unit (Some 0) _ (spends_can_init 1)).
  - rewrite wp_bind, wp_get_fs. exists fs. split; [done|].
    rewrite wp_bind, wp_put_fs, wp_bind, wp_gets, wp_bind, wp_modify, wp_bind, wp_when.
    set (w1 := set_promiscuous_usecount _ _).
    assert (Hw1 : drv_ok w1).
    { unfold w1. pose proof (Hput (set_promiscuous 0 fs) w eq_refl eq_refl Hw eq_refl) as [].
      split; ws; assumption. }
    split; intros _; [|done]. by apply (Hsp unit (Some 0) _ (spends_can_init 0)).
  - unfold canobj_gethbval. rewrite wp_bind, wp_gets. by destruct arg.
  - destruct arg as [v|]; [|done]. unfold canobj_sethbval. rewrite wp_bind, wp_modify, wp_ret.
    apply drv_ok_hb_val; [apply u32_range|done].
  - rewrite wp_bind. eapply wp_mono; [apply can_init_82c200_frame|].
    intros v w' (tr & i & f & ->). rewrite wp_ret.
    pose proof (drv_ok_rechip tr i f (promiscuous_usecount w) w Hw) as [].
    split; ws; assumption.
  - rewrite wp_bind, wp_modify, wp_bind.
    eapply wp_mono; [apply spends_dump_info; by apply drv_ok_debug|]. by intros u w' [HO _].
  - rewrite wp_bind, wp_modify, wp_bind.
    eapply wp_mono; [apply spends_printk; by apply drv_ok_debug|]. by intros u w' [HO _].
  - rewrite wp_bind, wp_get_fs. exists fs. split; [done|]. rewrite wp_bind, wp_put_fs, wp_ret.
    by apply Hput.
  - rewrite wp_bind, wp_get_fs. exists fs. split; [done|]. rewrite wp_bind, wp_put_fs, wp_ret.
    by apply Hput.
  - done.
Qed.

(** ** read and write *)

(** Reading takes a prefix of what the file's ring holds; the packet after a
    bad user address is lost. *)
Lemma ring_to_user_spec p ok count i w fs q :
  heap w !! p = Some fs -> ring_rep (fs_inq fs) q ->
  wp (ring_to_user p ok count i) (fun r w' =>
    exists n rb, ring_rep rb (drop n q) /\
      w' = set_heap (<[p := FileState rb (promiscuous fs) (snoopy fs) (consobj fs)]> (heap w)) w /\
      ((r = (Z.of_nat (i + n), take n q) /\ n = min count (length q) /\
        forall k, (k < n)%nat -> ok (i + k)%nat = true) \/
       (r.1 = - EFAULT /\ (n <= length q)%nat /\ exists k, n = S k /\ ok (i + k)%nat = false /\
        forall j, (j < k)%nat -> ok (i + j)%nat = true))) w.
Proof.
  revert i w fs q. induction count as [|count IH]; intros i w fs q Hh Hq; cbn [ring_to_user].
  { rewrite wp_ret. exists 0%nat, (fs_inq fs). split; [done|]. split.
    - rewrite insert_id; [world_eq|]. rewrite Hh. by destruct fs.
    - left. rewrite Nat.add_0_r, take_0. split_and!; try done. lia. }
  rewrite wp_bind, wp_on_fs_inq. exists fs. split; [done|].
  wp_call ring_to_pkt_spec; [exact Hq|]. intros o r. destruct q as [|pkt q].
  - intros [-> ->]. rewrite wp_ret. exists 0%nat, (fs_inq fs). split; [done|]. split; [done|].
    left. rewrite Nat.add_0_r. split_and!; try done. lia.
  - intros [-> Hr]. destruct (ok i) eqn:Eok.
    + rewrite wp_bind. set (fs1 := FileState r _ _ _).
      eapply wp_mono; [apply (IH (S i) _ fs1 q); [ws; apply lookup_insert_eq|exact Hr]|].
      intros [v pkts] w' (n & rb & Hrb & -> & Hres). rewrite wp_ret.
      exists (S n), rb. split; [done|]. split; [by ws; rewrite insert_insert_eq|].
      destruct Hres as [(E & -> & Hall)|(E & Hn & k & -> & Hbad & Hall)].
      * injection E as -> ->. left. split_and!; [|done|].
        -- f_equal. lia.
        -- intros [|k] Hk; [by rewrite Nat.add_0_r|]. replace (i + S k)%nat with (S i + k)%nat by lia.
           apply Hall. lia.
      * right. split; [done|]. split; [cbn; lia|]. exists (S k). split; [done|].
        replace (i + S k)%nat with (S i + k)%nat by lia. split; [done|].
        intros [|j] Hj; [by rewrite Nat.add_0_r|]. replace (i + S j)%nat with (S i + j)%nat by lia.
        apply Hall. lia.
    + rewrite wp_ret. exists 1%nat, r. split; [exact Hr|]. split; [done|].
      right. split; [done|]. split; [cbn; lia|]. exists 0%nat. rewrite Nat.add_0_r.
      split; [done|]. split; [done|]. intros j Hj. lia.
Qed.

Lemma user_to_outq_ok buf count i w :
  drv_ok w -> (forall k p, buf k = Some p -> pkt_ok p /\ fits p) ->
  wp (user_to_outq buf count i) (fun r w' => drv_ok w' /\
    (r = - EFAULT \/ Z.of_nat i <= r <= Z.of_nat (i + count))) w.
Proof.
  intros Hw Hb. revert i w Hw. induction count as [|count IH]; intros i w Hw; cbn [user_to_outq].
  { rewrite wp_ret. split; [done|]. right. lia. }
  destruct (buf i) as [pkt|] eqn:Eb; [|rewrite wp_ret; split; [done|by left]].
  destruct (Hb _ _ Eb) as [Hp Hs]. rewrite wp_bind.
  eapply wp_mono; [by apply send_pkt_costs|]. intros [sent pk] w1 ((HO & _) & _).
  destruct (sent =? 0).
  - rewrite wp_ret. split; [done|]. right. lia.
  - eapply wp_mono; [by apply IH|]. intros r w' [HO' Hr]. split; [done|]. lia.
Qed.
End fileops.
