(* ===== verification/DriverSteps.v ===== *)
(** * The driver as a whole

    The ways the kernel enters the driver (interrupt, bottom half, timers, the
    file operations, the tty operations, printk) are the events of a
    transition system on the state; the invariant of DriverInv.v holds in
    every reachable state, and the events that can fault there are named. *)

From stdpp Require Import prelude list numbers gmap strings.
From Stdlib Require Import ZArith Lia Relations.
From S2P Require Import Prelude CanTypes Ring Obp World Demo CanSend Console CanObj CanMain CanChip DriverInv DriverTotal DriverFiles.

Section entries.
Context {P : Prom} {PS : PromStrings P} {L : Lengths} {H : CanHw} {K : Kernel}.
Implicit Types w : world.

Lemma spends_preserves {A} a b (m : eff world A) : spends a b m -> preserves drv_ok m.
Proof. intros Hm w Hw. eapply wp_mono; [by apply Hm|]. by intros x w' [HO _]. Qed.

Lemma preserves_gets_bind {A B} (g : world -> A) (f : A -> eff world B) :
  (forall x, preserves drv_ok (f x)) -> preserves drv_ok (gets g ≫= f).
Proof. intros Hf. apply preserves_bind; [apply preserves_gets|done]. Qed.

Lemma preserves_printk fmt args : preserves drv_ok (printk fmt args).
Proof. eapply spends_preserves, spends_printk. Qed.

(** ** Interrupts *)

(** The chip reports a data length of at most eight bytes, as the CAN
    protocol allows. *)
Definition dlc_ok : Prop := forall tr, Z.land (u8 (hw_read tr rxdb2)) 0xf <= 8.

(** The frames that arrive stay within the bound on the queue. *)
Definition rx_ok : Prop := dlc_ok \/ forall p, fits p.

Lemma length_of_byte1 v c : 0 <= v ->
  fget Can.length (set_byte 2 1 v c) = Z.land v 0xf.
Proof.
  intros Hv. unfold set_byte. change (8 * (2 - 1 - 1)) with 0. apply Z.bits_inj'. intros i Hi.
  rewrite fget_testbit by (fld_side || done). cbn [f_off f_wid Can.length].
  rewrite fset_testbit by (fld_side || lia). cbn [f_off f_wid].
  change 0xf with (Z.ones 4). rewrite Z.land_spec, ones_testbit by lia.
  destruct (Z.ltb_spec i 4); [|by rewrite !andb_false_r].
  destruct (Z.leb_spec 0 (i + 0)), (Z.ltb_spec (i + 0) (0 + 8)); try lia. cbn.
  by replace (i + 0 - 0) with i by lia.
Qed.

Lemma wp_rd_any r (Q : Z -> world -> Prop) w tr :
  (forall v, v = u8 (hw_read tr r) -> Q v (set_io (Rd r v :: tr) w)) ->
  wp (rd r) Q (set_io tr w).
Proof. intros HQ. rewrite wp_rd. ws. by apply HQ. Qed.

Lemma set_can_b_ok i v p : 0 <= i < 2 -> pkt_ok p -> pkt_ok (set_can_b i v p).
Proof.
  intros Hi (Ht & Hc & He & Hd). unfold set_can_b, pkt_ok. cbn. split_and!; try lia;
    apply (set_byte_range 2); lia.
Qed.
Lemma set_ext_b_ok i v p : 0 <= i < 4 -> pkt_ok p -> pkt_ok (set_ext_b i v p).
Proof.
  intros Hi (Ht & Hc & He & Hd). unfold set_ext_b, pkt_ok. cbn. split_and!; try lia;
    apply (set_byte_range 4); lia.
Qed.
Lemma set_dat_b_ok i v p : 0 <= i < 4 -> pkt_ok p -> pkt_ok (set_dat_b i v p).
Proof.
  intros Hi (Ht & Hc & He & Hd). unfold set_dat_b, pkt_ok. cbn. split_and!; try lia;
    apply (set_byte_range 4); lia.
Qed.

(** Whatever the chip answers, what is copied from it is a packet. *)
Lemma can_copy_rx_any pkt w tr : rx_ok -> pkt_ok pkt ->
  wp (can_copy_rx pkt) (fun p w' => pkt_ok p /\ fits p /\ exists tr', w' = set_io tr' w)
    (set_io tr w).
Proof.
  intros HD Hp. unfold can_copy_rx.
  do 10 (rewrite wp_bind; apply wp_rd_any; intros ? ?; cbv zeta).
  rewrite wp_ret. split; [|split; [|by eexists]].
  - repeat first [apply set_dat_b_ok; [lia|] | apply set_ext_b_ok; [lia|]
                 | apply set_can_b_ok; [lia|]]. done.
  - destruct HD as [HD|HD]; [|apply HD]. apply short_fits.
    unfold short, canf, set_dat_b, set_ext_b, set_can_b. cbn [can set_can set_ext set_dat].
    subst. rewrite length_of_byte1 by apply u8_range. apply HD.
Qed.

Lemma pkt_to_ring_ok w p : drv_ok w -> pkt_ok p -> fits p ->
  wp (on_inq (pkt_to_ring p)) (fun _ w' => drv_ok w') w.
Proof.
  intros Hw Hp Hs. destruct (ok_queues _ Hw) as (qi & qo & (Hi & Ho & Oi & Oo) & Si).
  rewrite wp_on_inq. wp_call pkt_to_ring_spec; [exact Hi|]. intros v r Hr.
  assert (E : set_inq r w = set_inq r (set_outq (outq w) w)) by world_eq. rewrite E.
  destruct (_ <? _); destruct Hr as [_ Hr].
  - eapply drv_ok_queues; [done|exact Hr|exact Ho|..]; try done;
      apply Forall_app; by rewrite Forall_singleton.
  - subst r. by eapply drv_ok_queues.
Qed.

Lemma try_recv_loop_ok fuel i pkt w : rx_ok -> drv_ok w -> pkt_ok pkt ->
  wpl (try_recv_loop fuel i pkt) (fun _ w' => drv_ok w') w.
Proof.
  intros HD. revert i pkt w. induction fuel as [|fuel IH]; intros i pkt w Hw Hp; [done|].
  cbn [try_recv_loop]. apply wpl_bind, wp_wpl. rewrite wp_rd.
  destruct (has _ _); [|by apply drv_ok_io].
  apply wpl_bind, wp_wpl. eapply wp_mono; [by apply (can_copy_rx_any pkt w)|].
  intros p w1 (Op & Sp & tr & ->). apply wpl_bind, wp_wpl. rewrite wp_wr. ws.
  apply wpl_bind, wp_wpl. unfold incoming_fixup. rewrite wp_bind, wp_gets, wp_ret.
  apply wpl_bind, wp_wpl. set (p' := set_timestamp _ p).
  assert (Op' : pkt_ok p') by by apply set_timestamp_ok.
  eapply wp_mono; [apply (pkt_to_ring_ok _ p'); [do 2 apply drv_ok_io; exact Hw|done|exact Sp]|].
  intros v w2 HO. by apply IH.
Qed.

Lemma try_xmit_preserves : preserves drv_ok try_xmit.
Proof.
  intros w Hw. destruct (ok_queues _ Hw) as (qi & qo & (Hi & Ho & Oi & Oo) & Si).
  eapply wp_mono; [by apply (try_xmit_queue w qo)|].
  intros u w' (r & n & tr & Hr & _ & ->). apply drv_ok_klog.
  assert (E : set_outq r (set_io tr w) = set_inq (inq w) (set_outq r (set_io tr w))) by world_eq.
  rewrite E. eapply drv_ok_queues; [by apply drv_ok_io|exact Hi|exact Hr|done|by apply Forall_drop|done].
Qed.

Lemma preserves_rd r : preserves drv_ok (rd r).
Proof. intros w Hw. rewrite wp_rd. by apply drv_ok_io. Qed.
Lemma preserves_wr r v : preserves drv_ok (wr r v).
Proof. intros w Hw. rewrite wp_wr. by apply drv_ok_io. Qed.

Lemma wpl_preserves {A B} (m : eff world A) (f : A -> eff world B) Q w :
  preserves drv_ok m -> drv_ok w -> (forall x w', drv_ok w' -> wpl (f x) Q w') ->
  wpl (m ≫= f) Q w.
Proof.
  intros Hm Hw Hf. apply wpl_bind, wp_wpl. eapply wp_mono; [by apply Hm|].
  intros x w' HO. by apply Hf.
Qed.

Lemma can_intr_ok fuel w : rx_ok -> drv_ok w -> wpl (can_intr fuel) (fun _ w' => drv_ok w') w.
Proof.
  intros HD Hw. unfold can_intr.
  pose proof preserves_printk as Hpk.
  assert (Hov : forall b, preserves drv_ok (when b (wr command CAN_COMMAND_CLR_OVERRUN ;;
                  printk "can: overrun cleared\n" []))).
  { intros b. apply preserves_when, preserves_bind; [apply preserves_wr|done]. }
  repeat (apply wpl_preserves; [first [apply preserves_rd | apply Hov
    | apply preserves_when, Hpk]|assumption|clear w Hw; intros ? w Hw]).
  apply wpl_bind. unfold try_recv. apply wpl_bind, wp_wpl. rewrite wp_gets.
  apply wpl_bind. eapply wpl_mono; [apply try_recv_loop_ok; [done|done|apply Hw]|].
  intros i w1 Hw1. apply wp_wpl. rewrite wp_when.
  assert (Hend : forall w2, drv_ok w2 -> wpl (try_xmit ;; rd interrupt ;; skip) (fun _ w' => drv_ok w') w2).
  { intros w2 Hw2. apply wpl_preserves; [apply try_xmit_preserves|done|].
    intros u w3 Hw3. apply wpl_preserves; [apply preserves_rd|done|]. done. }
  split; intros _; [rewrite wp_queue_bh; by apply Hend, drv_ok_bh_queued|by apply Hend].
Qed.

(** ** Timers *)

Lemma ack_timer_ok w : drv_ok w ->
  wp (cancon_recv_ack 1) (fun _ w' => drv_ok w') (set_ack_timer None w).
Proof.
  intros Hw. eapply wp_mono; [by apply (recv_ack_costs 1 None w)|].
  intros u w'. destruct (_ =? 0); by intros [HO _].
Qed.

Lemma send_heartbeat_preserves : preserves drv_ok canobj_send_heartbeat.
Proof.
  intros w Hw. unfold canobj_send_heartbeat. rewrite wp_bind, wp_gets, wp_bind, wp_gets, wp_bind, wp_gets.
  cbv zeta. set (pkt := set_dat (can_hb_val w) _).
  assert (Hp : pkt_ok pkt).
  { unfold pkt. apply set_dat_ok; [apply Hw|]. pose proof (ok_stack _ Hw). auto 12 with pkt. }
  assert (Hs : short pkt).
  { unfold pkt, short, canf, set_canf, set_extf, set_dat. cbn -[fget fset]. fld. done. }
  clearbody pkt. rewrite wp_bind. eapply wp_mono; [by apply send_pkt_costs; [..|apply short_fits]|].
  intros [v p1] w1 ((HO1 & _) & _ & _ & E1). cbn [snd] in E1.
  assert (Hp1 : pkt_ok p1) by (subst; by apply stamped_ok, fixed_up_ok). clear E1.
  rewrite wp_bind, wp_gets, wp_bind, wp_modify, wp_bind.
  set (w2 := set_hb_count _ w1). assert (Hw2 : drv_ok w2) by by apply drv_ok_hb_count.
  apply (wp_mono _ (fun _ w' => drv_ok w')).
  - rewrite wp_when. split; intros _; [|done]. rewrite wp_bind, wp_gets. cbv zeta.
    set (iam := set_dat _ _).
    assert (Hi : pkt_ok iam).
    { unfold iam. apply set_dat_ok; [apply Hw2|]. auto 12 with pkt. }
    assert (Hsi : short iam).
    { unfold iam, short, canf, set_canf, set_extf, set_dat. cbn -[fget fset]. fld. done. }
    rewrite wp_bind. eapply wp_mono; [by apply send_pkt_no_out_fixup_costs; [..|apply short_fits]|].
    intros r w3 ((HO3 & _) & _). done.
  - intros _ w3 Hw3. unfold del_hb_timer, add_hb_timer.
    rewrite wp_bind, wp_modify, wp_bind, wp_gets, wp_bind, wp_gets. ws. rewrite wp_modify.
    by apply drv_ok_hb_timer, drv_ok_hb_timer.
Qed.
End entries.

(** ** The tty operations *)
Section tty.
Context {P : Prom} {PS : PromStrings P} {L : Lengths} {H : CanHw} {K : Kernel}.
Implicit Types w : world.

Lemma preserves_char_to_outbuf c : preserves drv_ok (on_outbuf (char_to_ring c)).
Proof. eapply spends_preserves, spends_char_to_outbuf. Qed.
Lemma preserves_send_next : preserves drv_ok cancon_send_next.
Proof. eapply spends_preserves, spends_send_next. Qed.

Lemma drv_ok_mod w n : drv_ok w -> drv_ok (set_mod_usecount n w).
Proof. intros []. split; ws; assumption. Qed.
Lemma drv_ok_ttyp w t n : drv_ok w -> (t <> 0 -> is_Some (ttys w !! t)) ->
  drv_ok (set_ttyp t (set_cantty_myrefcount n w)).
Proof. intros [] Ht. split; ws; assumption. Qed.

Lemma cantty_open_ok tty w : drv_ok w -> is_Some (ttys w !! tty) ->
  wp (cantty_open tty) (fun _ w' => drv_ok w') w.
Proof.
  intros Hw Ht. unfold cantty_open. wp_go. apply drv_ok_mod. ws.
  change (drv_ok (set_ttyp tty (set_cantty_myrefcount (cantty_myrefcount w + 1) w))).
  by apply drv_ok_ttyp.
Qed.

Lemma cantty_close_ok tty w : drv_ok w -> wp (cantty_close tty) (fun _ w' => drv_ok w') w.
Proof.
  intros Hw. unfold cantty_close. rewrite wp_bind, wp_modify, wp_bind, wp_gets, wp_bind, wp_when.
  split; intros _; rewrite ?wp_modify; apply drv_ok_mod.
  - by apply drv_ok_ttyp.
  - set (w1 := set_cantty_myrefcount _ w).
    assert (E : w1 = set_ttyp (ttyp w) (set_cantty_myrefcount (cantty_myrefcount w - 1) w))
      by (unfold w1; world_eq). rewrite E. apply drv_ok_ttyp; [done|apply Hw].
Qed.

(** Bytes the caller has: all readable, unless they come from user space. *)
Definition readable (from_user : bool) (b : list (option Z)) : Prop :=
  from_user = true \/ Forall is_Some b.

Lemma cantty_write_loop_ok fu b i w : drv_ok w -> readable fu b ->
  wp (cantty_write_loop fu b i) (fun _ w' => drv_ok w' /\ can_nodeid w' = can_nodeid w) w.
Proof.
  revert i w. induction b as [|o b IH]; intros i w Hw Hr; cbn [cantty_write_loop]; [done|].
  destruct o as [c|].
  - rewrite wp_bind. eapply wp_mono; [by apply spends_char_to_outbuf|].
    intros v w1 (HO & E & _). destruct (v =? 0); [by rewrite wp_ret|].
    eapply wp_mono; [apply IH; [done|]|].
    + destruct Hr as [|Hr]; [by left|right]. by apply Forall_cons in Hr as [_ ?].
    + intros x w2 [? ?]. split; [done|congruence].
  - destruct Hr as [->|Hr]; [done|]. apply Forall_cons in Hr as [[? ?] _]. done.
Qed.

Lemma cantty_write_ok tty fu b n w : drv_ok w -> is_Some (ttys w !! tty) ->
  (forall l, b = Some l -> readable fu l) ->
  wp (cantty_write tty fu b n) (fun _ w' => drv_ok w') w.
Proof.
  intros Hw [t Ht] Hr. unfold cantty_write. rewrite wp_bind, wp_gets.
  destruct (CANCON_UNCONNECTED _); [done|]. rewrite wp_bind, wp_get_tty. exists t.
  split; [done|]. destruct b as [l|]; [|done]. destruct (tty_stopped t); [done|].
  rewrite wp_bind. eapply wp_mono; [apply cantty_write_loop_ok; [done|]|].
  - destruct (Hr l eq_refl) as [|Hl]; [by left|right]. by apply Forall_take.
  - intros i w1 [HO _]. rewrite wp_bind, wp_when. split; intros _; [|done].
    eapply wp_mono; [by apply preserves_send_next|]. done.
Qed.

Lemma preserves_put_char tty ch : preserves drv_ok (cantty_put_char tty ch).
Proof. apply preserves_bind; [apply preserves_char_to_outbuf|intros; apply preserves_send_next]. Qed.

Lemma cantty_flush_ok tty w : drv_ok w -> is_Some (ttys w !! tty) -> tty <> 0 ->
  wp (cantty_flush_buffer tty) (fun _ w' => drv_ok w') w.
Proof.
  intros Hw [t Ht] Hnz. unfold cantty_flush_buffer, clear_ring. rewrite wp_bind, wp_on_outbuf, wp_modify.
  set (w1 := set_cancon_outbuf _ w).
  assert (Hw1 : drv_ok w1) by (apply drv_ok_outbuf; [apply ring_ok_clear, Hw|done]).
  unfold cantty_write_wakeup. rewrite (proj2 (Z.eqb_neq _ _) Hnz). rewrite wp_bind, wp_ret.
  rewrite (proj2 (Z.eqb_neq _ _) Hnz). cbn [negb when]. rewrite wp_bind, wp_log, wp_bind, wp_get_tty.
  exists t. split; [done|]. rewrite wp_when. split; intros _; rewrite ?wp_log;
    repeat apply drv_ok_klog; done.
Qed.
End tty.

(** ** The transition system *)

Inductive event :=
  | EvIntr (fuel : nat)
  | EvBottomHalf
  | EvAckTimer
  | EvHeartbeat
  | EvTick
  | EvPrintk (fmt : string) (args : list parg)
  | EvOpen (p : Z) (mem : file_state)
  | EvRelease (p : Z)
  | EvIoctl (p : Z) (cmd : can_cmd) (arg : option Z)
  | EvRead (p : Z) (nonblock : bool) (ok : nat -> bool) (count : Z)
  | EvWrite (p : Z) (nonblock : bool) (buf : nat -> option can_packet) (count : Z)
  | EvTtyOpen (tty : Z)
  | EvTtyClose (tty : Z)
  | EvTtyWrite (tty : Z) (from_user : bool) (b : option (list (option Z))) (count : Z)
  | EvTtyPutChar (tty ch : Z)
  | EvTtyFlush (tty : Z)
  | EvTtyLayer (tty : Z) (t : tty_struct).   (* the tty layer updates its struct *)

Section system.
Context {P : Prom} {PS : PromStrings P} {L : Lengths} {H : CanHw} {K : Kernel}.
Implicit Types w : world.
Abbreviation M := (eff world).

(** The function of the driver each event runs; a timer is off the kernel's
    list when its function is called, and a read or write that would sleep
    ends (to be tried again). *)
Definition handle (e : event) : M unit :=
  match e with
  | EvIntr fuel => can_intr fuel
  | EvBottomHalf => w ← gets (fun w : world => w); run_bh (bh_fuel w)
  | EvAckTimer => modify (set_ack_timer None) ;; cancon_recv_ack 1
  | EvHeartbeat => modify (set_hb_timer None) ;; canobj_send_heartbeat
  | EvTick => modify (fun w : world => set_jiffies (u32 (jiffies w + 1)) w)
  | EvPrintk fmt args => printk fmt args
  | EvOpen p mem => can_open p mem ;; skip
  | EvRelease p => can_release p ;; skip
  | EvIoctl p cmd arg => can_ioctl p cmd arg ;; skip
  | EvRead p nonblock ok count => can_read p nonblock ok count [] ;; skip
  | EvWrite p nonblock buf count => can_write nonblock buf count [] ;; skip
  | EvTtyOpen tty => cantty_open tty ;; skip
  | EvTtyClose tty => cantty_close tty
  | EvTtyWrite tty fu b n => cantty_write tty fu b n ;; skip
  | EvTtyPutChar tty ch => cantty_put_char tty ch
  | EvTtyFlush tty => cantty_flush_buffer tty
  | EvTtyLayer tty t => put_tty tty t
  end.

(** When the kernel generates the event, and with which arguments: kmalloc()
    may fail (0), else the memory is not in use; a file is used while it is
    open; the words of a packet have their width, and its length is within the
    bound on the queue, if there is one; the tty layer passes its own structs
    and kernel buffers that exist. *)
Definition enabled (e : event) (w : world) : Prop :=
  match e with
  | EvBottomHalf => bh_queued w = true
  | EvAckTimer => is_Some (ack_timer w)
  | EvHeartbeat => is_Some (hb_timer w)
  | EvOpen p mem => p <> 0 -> heap w !! p = None /\ mem_ok mem
  | EvRelease p | EvIoctl p _ _ | EvRead p _ _ _ => is_open (openfd w) p
  | EvWrite p _ buf _ =>
      is_open (openfd w) p /\ forall k pkt, buf k = Some pkt -> pkt_ok pkt /\ fits pkt
  | EvTtyOpen tty => is_Some (ttys w !! tty)
  | EvTtyWrite tty fu b _ =>
      is_Some (ttys w !! tty) /\ forall l, b = Some l -> readable fu l
  | EvTtyFlush tty => is_Some (ttys w !! tty) /\ tty <> 0
  | _ => True
  end.

Definition step w w' : Prop := exists e, enabled e w /\ handle e w = Done tt w'.

Lemma can_read_ok p nb ok count w : drv_ok w -> is_open (openfd w) p ->
  wp (can_read p nb ok count []) (fun _ w' => drv_ok w') w.
Proof.
  intros Hw Ho. unfold can_read. destruct (count <? PKTSIZE); [done|].
  cbn [can_read_loop]. destruct (is_open_heap w p Hw Ho) as (fs & Hh & q & Hq & Hqp).
  rewrite wp_bind. eapply wp_mono; [by apply (ring_to_user_spec p ok _ 0 w fs q)|].
  intros [got pkts] w' (n & rb & Hrb & -> & _).
  assert (HO : drv_ok (set_heap (<[p := FileState rb (promiscuous fs) (snoopy fs) (consobj fs)]>
                        (heap w)) w)).
  { eapply drv_ok_fs; [done|done|exists (drop n q); split; [done|by apply Forall_drop]|done]. }
  destruct (got <? 0); [done|]. destruct (0 <? got); [done|]. by destruct nb.
Qed.

Lemma can_write_ok nb buf count w :
  drv_ok w -> (forall k pkt, buf k = Some pkt -> pkt_ok pkt /\ fits pkt) ->
  wp (can_write nb buf count []) (fun _ w' => drv_ok w') w.
Proof.
  intros Hw Hb. unfold can_write. destruct (negb _); [done|]. cbn [can_write_loop].
  rewrite wp_bind. eapply wp_mono; [by apply user_to_outq_ok|].
  intros i w' [HO _]. destruct (i <? 0); [done|]. destruct (0 <? i); [done|]. by destruct nb.
Qed.

Lemma wp_then_skip {A} (m : M A) w :
  wp m (fun _ w' => drv_ok w') w -> wp (m ;; skip) (fun _ w' => drv_ok w') w.
Proof. intros Hm. rewrite wp_bind. eapply wp_mono; [exact Hm|]. done. Qed.

Lemma can_open_fails mem w : drv_ok w ->
  can_open 0 mem w = (if bool_decide (0 ∈ openfd w) then Fault NullDeref else Done (- EBUSY, 0) w).
Proof.
  intros Hw. destruct (ok_openfd _ Hw) as [Hlen _].
  unfold can_open, can_alloc_openfd, mbind, eff_bind, gets. cbv zeta.
  destruct (find_from_spec 0 (openfd w) 0) as [[-> Hn]|(i & -> & Hi)].
  - rewrite Hlen, bool_decide_false by done. done.
  - assert (Hlt : (i < length (openfd w))%nat) by (by eapply lookup_lt_Some).
    rewrite bool_decide_true by (by eapply list_elem_of_lookup_2).
    destruct (Z.eqb_spec (0 + Z.of_nat i) CAN_MAX_USECOUNT) as [Ec|_]; [lia|].
    unfold openfd_set, mbind, eff_bind, gets.
    by rewrite (proj2 (Z.leb_le 0 _)), (proj2 (Z.ltb_lt (0 + Z.of_nat i) _)) by lia.
Qed.

(** The faults of an entry: an interrupt may run out of the fuel that bounds
    how many frames the chip delivers; an open dereferences the pointer
    kmalloc() returned, if a slot is free; the bottom half may read beyond the
    data of an overlong packet, if there is one ([O]). *)
Definition fault_of (e : event) (O : Prop) (f : fault) w : Prop :=
  match e with
  | EvIntr _ => f = OutOfFuel
  | EvOpen p _ => f = NullDeref /\ p = 0 /\ 0 ∈ openfd w
  | EvBottomHalf => f = OutOfBounds /\ O
  | _ => False
  end.

Definition handled (e : event) (O : Prop) w : Prop :=
  match handle e w with Done _ w' => drv_ok w' | Fault f => fault_of e O f w end.

Lemma wp_handled e O w : wp (handle e) (fun _ w' => drv_ok w') w -> handled e O w.
Proof. unfold wp, handled. by destruct (handle e w). Qed.

Lemma handle_ok e w : rx_ok -> drv_ok w -> enabled e w ->
  handled e (exists pkt, fits pkt /\ overlong_dat pkt) w.
Proof.
  intros HD Hw He. destruct e; cbn [enabled] in *.
  - pose proof (can_intr_ok fuel w HD Hw) as Hi. unfold handled, wpl in *. cbn [handle].
    by destruct (can_intr fuel w).
  - unfold handled. cbn [handle]. unfold mbind, eff_bind, gets.
    destruct (run_bh_outcome w Hw) as [Hr|[HO ->]]; [|done]. unfold wp in Hr.
    destruct (run_bh _ w); [apply Hr|done].
  - apply wp_handled. cbn [handle]. rewrite wp_bind, wp_modify. by apply ack_timer_ok.
  - apply wp_handled. cbn [handle]. rewrite wp_bind, wp_modify. by apply send_heartbeat_preserves, drv_ok_hb_timer.
  - apply wp_handled. by apply drv_ok_jiffies.
  - apply wp_handled. by apply preserves_printk.
  - destruct (decide (p = 0)) as [->|Hp].
    + unfold handled. cbn [handle]. unfold mbind, eff_bind. rewrite can_open_fails by done.
      by destruct (bool_decide_reflect (0 ∈ openfd w)).
    + destruct (He Hp) as [Hh Hm]. apply wp_handled, wp_then_skip.
      eapply wp_mono; [by apply can_open_spec|].
      intros r w' [(_ & -> & _)|(_ & i & Hi & ->)]; [done|]. by apply opened_ok.
  - apply wp_handled, wp_then_skip. eapply wp_mono; [by apply can_release_spec|]. by intros r w' (_ & ? & _).
  - by apply wp_handled, wp_then_skip, can_ioctl_ok.
  - by apply wp_handled, wp_then_skip, can_read_ok.
  - by apply wp_handled, wp_then_skip, can_write_ok; [|apply He].
  - by apply wp_handled, wp_then_skip, cantty_open_ok.
  - by apply wp_handled, cantty_close_ok.
  - apply wp_handled, wp_then_skip, cantty_write_ok; [done|apply He..].
  - by apply wp_handled, preserves_put_char.
  - apply wp_handled, cantty_flush_ok; [done|apply He..].
  - apply wp_handled. cbn [handle]. rewrite wp_put_tty. by apply drv_ok_ttys.
Qed.

Lemma step_ok w w' : rx_ok -> drv_ok w -> step w w' -> drv_ok w'.
Proof.
  intros HD Hw (e & He & Hs). pose proof (handle_ok e w HD Hw He) as Hok.
  unfold handled in Hok. by rewrite Hs in Hok.
Qed.

Definition reachable (w0 w : world) : Prop := rtc step w0 w.

Lemma reachable_ok w0 w : rx_ok -> drv_ok w0 -> reachable w0 w -> drv_ok w.
Proof. intros HD Hw Hr. induction Hr as [|w1 w2 w3 Hs _ IH]; [done|]. by eapply IH, step_ok. Qed.
(** ** Running a list of events

    [run_events] checks before each event that the kernel may generate it; it
    covers the events of the examples. *)

Definition enabledb (e : event) (w : world) : bool :=
  match e with
  | EvBottomHalf => bh_queued w
  | EvTick => true
  | EvOpen p mem =>
      bool_decide (heap w !! p = None) &&
      (length (buf (fs_inq mem)) =? Z.to_nat MAXRING)%nat
  | EvIoctl p _ _ | EvRelease p => bool_decide (is_open (openfd w) p)
  | _ => false
  end.

Lemma enabledb_sound e w : enabledb e w = true -> enabled e w.
Proof.
  destruct e; cbn; try done.
  - rewrite !andb_true_iff, bool_decide_eq_true, Nat.eqb_eq. done.
  - by rewrite bool_decide_eq_true.
  - by rewrite bool_decide_eq_true.
Qed.

Fixpoint run_events (es : list event) (w : world) : option world :=
  match es with
  | [] => Some w
  | e :: es' =>
      if enabledb e w then
        match handle e w with Done _ w' => run_events es' w' | Fault _ => None end
      else None
  end.

Lemma run_events_reachable es w w' : run_events es w = Some w' -> reachable w w'.
Proof.
  revert w. induction es as [|e es IH]; intros w Hr; cbn in *.
  { injection Hr as ->. apply rtc_refl. }
  destruct (enabledb e w) eqn:He; [|done]. apply enabledb_sound in He.
  destruct (handle e w) as [[] w1|] eqn:Eh; [|done].
  eapply rtc_l; [by exists e|]. by apply IH.
Qed.
End system.

(** * Properties

    Whatever lengths packets announce, whether from user space or off the bus. *)
Section properties.
Context {P : Prom} {PS : PromStrings P} {H : CanHw} {K : Kernel}.
Implicit Types w : world.
#[local] Existing Instance any_length.

(** A state with only proper packets in its input queue is a good state under
    the bound its own queue gives. *)
Definition held_lengths w : Lengths := {|
  len_ok n x := n <= 8 \/ exists pkt, pkt ∈ ring_list (inq w) /\ canf Can.length pkt = n /\ ext pkt = x;
  len_ok_short n x Hn := or_introl Hn
|}.

Lemma drv_ok_lengths (L1 L2 : Lengths) w : drv_ok (L := L1) w ->
  Forall (fits (L := L2)) (ring_list (inq w)) -> drv_ok (L := L2) w.
Proof.
  intros [] Hf. split; try assumption. destruct ok_queues as (qi & qo & Hq & _).
  exists qi, qo. split; [done|]. by rewrite <- (ring_rep_list _ _ (proj1 Hq)).
Qed.

Lemma drv_ok_any (L : Lengths) w : drv_ok (L := L) w -> drv_ok (L := any_length) w.
Proof. intros Hw. eapply drv_ok_lengths; [exact Hw|]. by apply Forall_true. Qed.

Lemma drv_ok_held w : drv_ok w -> drv_ok (L := held_lengths w) w.
Proof.
  intros Hw. eapply drv_ok_lengths; [exact Hw|]. apply list.Forall_forall. intros p Hp. right. by exists p.
Qed.

Lemma any_rx : rx_ok.
Proof. by right. Qed.

(** The input queue holds a DAT packet that announces more than eight bytes. *)
Definition holds_overlong w : Prop := exists pkt, pkt ∈ ring_list (inq w) /\ overlong_dat pkt.

(** C1. The faults of the driver. From a good state, whatever the kernel, the
    processes and the bus do (kmalloc() may fail; packets from user space and
    frames from the chip may announce any length), every entry into the driver
    leaves a good state behind and does not dereference a NULL or dangling
    pointer, access an array out of bounds, add a timer twice, use an
    uninitialised value or fail to end, but for three cases: open, exactly
    when there is a free slot and kmalloc() fails; the bottom half, only when
    the input queue holds a DAT packet that announces more than eight bytes;
    and an interrupt lasts as long as the chip delivers frames. *)
Theorem driver_safe w0 w e :
  drv_ok w0 -> reachable w0 w -> enabled e w ->
  match handle e w with
  | Done _ w' => drv_ok w'
  | Fault f => fault_of e (holds_overlong w) f w
  end /\
  forall mem, handle (EvOpen 0 mem) w = Fault NullDeref <-> 0 ∈ openfd w.
Proof.
  intros Hw0 Hr He. pose proof (reachable_ok w0 w any_rx Hw0 Hr) as Hw. split.
  - pose proof (handle_ok e w any_rx Hw He) as Hh. unfold handled in Hh.
    destruct (handle e w) as [[] w'|f] eqn:Eh; [done|]. destruct e; try done. split; [apply Hh|].
    destruct (run_bh_outcome (L := held_lengths w) w (drv_ok_held w Hw)) as [Hd|[(pkt & Hf & Ht & Hl) _]].
    { unfold wp in Hd. cbn [handle] in Eh. unfold mbind, eff_bind, gets in Eh. by rewrite Eh in Hd. }
    destruct Hf as [Hf|(p & Hp & El & Ee)]; [lia|]. exists p. split; [done|].
    unfold overlong_dat, extf in *. by rewrite Ee, El.
  - intros mem. cbn [handle]. unfold mbind, eff_bind. rewrite can_open_fails by done.
    by destruct (bool_decide_reflect (0 ∈ openfd w)).
Qed.

(** C4. Console objects are exclusive: in every reachable state no two open
    files hold the same console object, and can_inuse_consobj() on a valid
    identifier answers 1 when some open file holds it and 0 otherwise. *)
Theorem consobj_exclusive w0 w :
  drv_ok w0 -> reachable w0 w ->
  let holds p c := is_open (openfd w) p /\ exists fs, heap w !! p = Some fs /\ consobj fs = c in
  (forall p p' c, c <> -1 -> holds p c -> holds p' c -> p = p') /\
  forall c, CAN_VALID_CONSOBJ c = true ->
    (forall p, holds p c -> can_inuse_consobj c w = Done 1 w) /\
    ((forall p, ~ holds p c) -> can_inuse_consobj c w = Done 0 w).
Proof.
  intros Hw0 Hr holds. pose proof (reachable_ok w0 w any_rx Hw0 Hr) as Hw.
  pose proof (ok_owners _ Hw) as Hown. pose proof (ok_reserved _ Hw) as Hlen.
  assert (Hget : forall k v, consobj_reserved w !! k = Some v ->
            can_inuse_consobj (CANOBJ_CONSMIN + Z.of_nat k) w = Done v w).
  { intros k v Hk. unfold can_inuse_consobj, reserved_get, mbind, eff_bind, gets.
    replace (CANOBJ_CONSMIN + Z.of_nat k - CANOBJ_CONSMIN) with (Z.of_nat k) by lia.
    rewrite (proj2 (Z.leb_le 0 _)) by lia. by rewrite Nat2Z.id, Hk. }
  split.
  - intros p p' c Hne (Ho & fs & Hh & Ec) (Ho' & fs' & Hh' & Ec').
    eapply (own_excl _ _ _ Hown p p' fs fs'); congruence || done.
  - intros c Hc. apply valid_consobj_index in Hc as (k & -> & Hk). split.
    + intros p (Ho & fs & Hh & Ec). apply Hget, (own_held _ _ _ Hown). by exists p, fs.
    + intros Hfree. apply Hget.
      destruct (lookup_lt_is_Some_2 (consobj_reserved w) k) as [v Hv]; [rewrite Hlen; lia|].
      destruct (own_reserved _ _ _ Hown k v Hv) as [->| ->]; [done|].
      apply (own_held _ _ _ Hown) in Hv as (q & gs & Hq & Hgs & Ec). destruct (Hfree q).
      split; [done|]. by exists gs.
Qed.

(** C6. The acknowledgement timer runs exactly while a DAT packet is
    unacknowledged, in every reachable state; so an expected ACK or the timer,
    whichever comes first, always lets the console continue. *)
Theorem ack_timer_iff_pending w0 w :
  drv_ok w0 -> reachable w0 w ->
  (cancon_ack_pending w <> 0 <-> is_Some (ack_timer w)).
Proof.
  intros Hw0 Hr. pose proof (ok_ack _ (reachable_ok w0 w any_rx Hw0 Hr)) as Ha.
  rewrite <- not_eq_None_Some, Ha. done.
Qed.
End properties.

(** * Examples *)

Lemma ready_dlc : @dlc_ok ready_chip.
Proof. intros tr. vm_compute. discriminate. Qed.
Lemma ready_rx : @rx_ok short_only ready_chip.
Proof. left. exact ready_dlc. Qed.

Definition demo_mem : file_state := FileState (empty_ring zero_packet) 7 7 7.

(** Two files are opened, each takes a console object. *)
Definition demo_run : option (@world demo_prom) :=
  @run_events demo_prom ready_chip demo_kernel
    [EvOpen 4096 demo_mem; EvOpen 8192 demo_mem;
     EvIoctl 4096 CAN_GET_CONSOBJ (Some 0); EvIoctl 8192 CAN_GET_CONSOBJ (Some 0)] demo_world.
Definition demo_two : @world demo_prom := default demo_world demo_run.

Lemma demo_two_reachable {L : Lengths} : @reachable demo_prom L ready_chip demo_kernel demo_world demo_two.
Proof.
  assert (Hs : bool_decide (is_Some demo_run) = true) by (vm_compute; reflexivity).
  apply bool_decide_eq_true in Hs as [w Ew]. unfold demo_two. rewrite Ew.
  exact (run_events_reachable _ _ _ Ew).
Qed.

Lemma demo_held p c : (consobj <$> heap demo_two !! p) = Some c ->
  exists fs, heap demo_two !! p = Some fs /\ consobj fs = c.
Proof. destruct (heap demo_two !! p) as [fs|]; [|done]. intros [= <-]. by exists fs. Qed.

Lemma demo_two_open : is_open (openfd demo_two) 4096 /\ is_open (openfd demo_two) 8192.
Proof.
  split; apply (bool_decide_eq_true_1 _); vm_compute; reflexivity.
Qed.

(** kmalloc() fails. *)
Lemma driver_safe_witness :
  handle (P := demo_prom) (H := ready_chip) (K := demo_kernel) (EvOpen 0 demo_mem) demo_two = Fault NullDeref.
Proof.
  apply (driver_safe (P := demo_prom) (H := ready_chip) (K := demo_kernel) demo_world demo_two (EvOpen 0 demo_mem)).
  - exact (drv_ok_any short_only demo_world demo_ok).
  - exact demo_two_reachable.
  - intros Hp. by destruct Hp.
  - apply (bool_decide_eq_true_1 _). vm_compute. reflexivity.
Defined.

Lemma consobj_exclusive_witness :
  can_inuse_consobj 256 demo_two = Done 1 demo_two /\ can_inuse_consobj 258 demo_two = Done 0 demo_two.
Proof.
  destruct (consobj_exclusive (H := ready_chip) (K := demo_kernel) demo_world demo_two
    (drv_ok_any short_only demo_world demo_ok) demo_two_reachable) as [Hx Hin]. split.
  - apply (Hin 256 eq_refl) with (p := 4096). split; [exact (proj1 demo_two_open)|].
    apply demo_held. vm_compute. reflexivity.
  - apply (Hin 258 eq_refl). intros p (_ & fs & Hh & Ec). revert p fs Hh Ec.
    apply (proj1 (map_Forall_lookup (fun _ fs => consobj fs <> 258) (heap demo_two))).
    apply (bool_decide_eq_true_1 _). vm_compute. reflexivity.
Defined.

Lemma ack_timer_iff_pending_witness :
  cancon_ack_pending demo_two <> 0 <-> is_Some (ack_timer demo_two).
Proof.
  apply (ack_timer_iff_pending (H := ready_chip) (K := demo_kernel) demo_world demo_two).
  - exact (drv_ok_any short_only demo_world demo_ok).
  - exact demo_two_reachable.
Defined.
