(* ===== verification/DriverInit.v ===== *)
(** * Loading the driver

    init_module() on every branch: what it undoes and reports when something
    is missing, and that, when it succeeds, the driver is in a good state
    ([drv_ok]), so that everything proved of reachable states applies from
    the moment the module is loaded. *)

From stdpp Require Import prelude list numbers gmap strings.
From Stdlib Require Import ZArith Lia.
From S2P Require Import Prelude CanTypes Ring Obp World Demo CanSend CanChip Console CanObj CanMain DriverInv DriverTotal DriverFiles DriverSteps.

Lemma be_word_range bs : Forall (fun b => 0 <= b < 256) bs ->
  0 <= be_word bs < 2 ^ (8 * Z.of_nat (length bs)).
Proof.
  induction bs as [|b bs IH] using rev_ind; intros Hb; [cbn; lia|].
  apply Forall_app in Hb as [Hbs Hb]. rewrite Forall_singleton in Hb. specialize (IH Hbs).
  unfold be_word in *. rewrite fold_left_app, length_app. cbn [fold_left length].
  rewrite Nat2Z.inj_add, Z.mul_add_distr_l, Z.pow_add_r by lia.
  change (2 ^ (8 * Z.of_nat 1)) with 256. nia.
Qed.

Lemma store_bytes_range old bs : Forall (fun b => 0 <= b < 256) bs ->
  0 <= store_bytes old bs < 2 ^ 32.
Proof.
  intros Hb. unfold store_bytes.
  set (l := take 4 bs ++ drop (length bs) (bytes_of 4 old)).
  assert (Hl : (length l = 4)%nat).
  { unfold l. rewrite length_app, length_take, length_drop.
    change (length (bytes_of 4 old)) with 4%nat. lia. }
  assert (Hr : Forall (fun b => 0 <= b < 256) l).
  { apply Forall_app. split; [by apply Forall_take|]. apply Forall_drop.
    apply Forall_forall. intros b Hin. unfold bytes_of in Hin.
    apply list_elem_of_fmap in Hin as (i & -> & Hi). apply elem_of_seq in Hi.
    apply byte_of_range. change (Z.to_nat 4) with 4%nat in Hi. lia. }
  apply be_word_range in Hr. rewrite Hl in Hr. exact Hr.
Qed.

Lemma strtoul_from_range s acc : 0 <= acc < 2 ^ 32 -> 0 <= strtoul_from acc s < 2 ^ 32.
Proof.
  revert acc. induction s as [|c s IH]; intros acc Hacc; cbn; [done|].
  destruct (_ && _); [|done]. apply IH. unfold u32. apply Z.mod_pos_bound. lia.
Qed.

Lemma owners_init n m h : owners_ok (replicate n 0) h (replicate m 0).
Proof.
  assert (Hno : forall p, ~ is_open (replicate n 0) p).
  { intros p [Hin Hp]. by apply elem_of_replicate in Hin as [-> _]. }
  split.
  - intros i j p Hi _ Hp. apply lookup_replicate in Hi as [-> _]. done.
  - intros p fs Ho. by apply Hno in Ho.
  - intros k v Hk. apply lookup_replicate in Hk as [-> _]. by left.
  - intros k. split.
    + intros Hk. by apply lookup_replicate in Hk as [? _].
    + intros (p & fs & Ho & _). by apply Hno in Ho.
  - intros p p' fs fs' Ho. by apply Hno in Ho.
Qed.

Section init.
Context {P : Prom} {PS : PromStrings P} {H : CanHw} {K : Kernel}.
Implicit Types w : world.

(** The driver as it is loaded: the static variables have their initial
    values, and no part of the kernel knows the driver yet. *)
Record loaded w : Prop := Loaded {
  ld_inq : length (buf (inq w)) = Z.to_nat MAXRING;
  ld_outq : length (buf (outq w)) = Z.to_nat MAXRING;
  ld_outbuf : length (buf (cancon_outbuf w)) = Z.to_nat MAXRING;
  ld_inbuf : length (buf (cancon_inbuf w)) = Z.to_nat MAXRING;
  ld_ack : cancon_ack_pending w = 0 /\ ack_timer w = None;
  ld_ttyp : ttyp w = 0;
  ld_words : can_hb_val w = Z.shiftl HB_CAN_RUNNING 2 /\ can_boardtype w = 0 /\ obj_val w = 0;
  ld_unknown : con_registered w = false /\ misc_registered w = false;
  ld_stack : pkt_ok (stack_pkt w);
  ld_prom : prom_wf (prom w)
}.

(** What the driver reads from the PROM: its address, if it is there, and the
    recorded console connection; the board type consists of bytes. *)
Record prom_reads w (regs : Z) (nodeid : option (list Z)) (host : cstring)
    (board : option (list Z)) : Prop := PromReads {
  pr_regs : can_map_82c200 w = Done regs w;
  pr_nodeid : obp_getprop OBP_CAN_NODEID 4 (prom w) = Done nodeid (prom w);
  pr_host : exists b, obp_getprop OBP_CANCON_HOST 16 (prom w) = Done (Some b) (prom w) /\
                      cstr b = Some host;
  pr_board : obp_getprop OBP_CAN_MEIKO_BOARD_TYPE 4 (prom w) = Done board (prom w) /\
             (forall b, board = Some b -> Forall (fun x => 0 <= x < 256) b)
}.

(** A message before the console is registered only reaches the log. *)
Lemma printk_unregistered fmt args w : con_registered w = false ->
  printk fmt args w = Done tt (set_klog (Printk fmt args :: klog w) w).
Proof.
  intros Hc. unfold printk, log, mbind, eff_bind, modify, gets. ws.
  rewrite Hc. reflexivity.
Qed.

(** The state the initialisation has built before the console is registered. *)
Lemma init_state_ok w w1 :
  loaded w ->
  (exists tr i f n m t,
     w1 = set_io tr (set_irq_installed i (set_first_time f (set_can_nodeid n
            (set_misc_registered m (set_hb_timer t w)))))) ->
  forall rmt board l bh, 0 <= rmt < 2 ^ 32 -> 0 <= board < 2 ^ 32 ->
  drv_ok (set_klog l (set_bh_queued bh
    (set_inq (RING_INIT (inq w1)) (set_outq (RING_INIT (outq w1))
    (set_consobj_reserved (replicate (Z.to_nat COSIZE) 0)
    (set_openfd (replicate (Z.to_nat CAN_MAX_USECOUNT) 0)
    (set_cancon_rmt rmt (set_can_boardtype board
    (set_cancon_outbuf (RING_INIT_INLOCK (RING_INIT (cancon_outbuf w1)))
    (set_cancon_inbuf (RING_INIT (cancon_inbuf w1)) w1)))))))))).
Proof.
  intros [] (tr & i & f & n & m & t & ->) rmt board l bh Hr Hb.
  destruct ld_ack0 as [Ea Et], ld_words0 as (Eh & Ebt & Eo). split; ws; try assumption.
  - exists [], []. split; [|done]. split; ws; [by apply ring_rep_init|].
    split; [by apply ring_rep_init|done].
  - exists []. by apply ring_rep_inlock, ring_rep_init.
  - exists []. by apply ring_rep_init.
  - by rewrite Ea, Et.
  - rewrite Eh, Eo. split; [|split]; [vm_compute; split; [discriminate|reflexivity]|done|lia].
  - by rewrite ld_ttyp0.
  - split; [by rewrite length_replicate|]. intros p Hp Hnz.
    by apply elem_of_replicate in Hp as [-> _].
  - by rewrite length_replicate.
  - apply owners_init.
Qed.

(** What registering the console leaves alone, whatever it prints. *)
Definition setup w : Z * obj_state * list Z * list Z * Z :=
  (cancon_rmt w, w_obj w, openfd w, consobj_reserved w, can_nodeid w).
Lemma setup_eq w w' : setup w' = setup w ->
  cancon_rmt w' = cancon_rmt w /\ w_obj w' = w_obj w /\ openfd w' = openfd w /\
  consobj_reserved w' = consobj_reserved w /\ can_nodeid w' = can_nodeid w.
Proof. unfold setup. by intros [= -> -> -> -> ->]. Qed.
Definition set_up (s : Z * obj_state * list Z * list Z * Z) w : Prop :=
  drv_ok w /\ setup w = s.

Lemma send_post_setup w qi qo p v w' : send_post w qi qo p v w' -> setup w' = setup w.
Proof.
  unfold send_post, setup. destruct (IS_MYPACKET _ _).
  - destruct (room qi); [intros (_ & r & _ & ->)|intros [_ ->]]; ws; reflexivity.
  - destruct (room qo); [intros (_ & ri & ro & n & tr & _ & _ & _ & ->)|intros [_ ->]];
      ws; reflexivity.
Qed.

Lemma send_next_setup s : preserves (set_up s) cancon_send_next.
Proof.
  intros w [Hw <-]. destruct (ok_outbuf _ Hw) as [q Hq].
  eapply wp_mono; [by apply (cancon_send_next_spec w q)|]. intros ? w' Hs.
  split; [by eapply send_next_post_costs|]. unfold send_next_post in Hs.
  destruct (CANCON_UNCONNECTED (cancon_rmt w)); [by subst w'|].
  destruct (negb _ || _); [by subst w'|]. cbv zeta in Hs.
  destruct Hs as (rb & _ & qi & qo & v & w1 & (Hi & Ho & _) & Hs & Hend).
  pose proof (send_post_setup _ _ _ _ _ _ Hs) as Hset.
  assert (Hrb : setup (set_cancon_outbuf rb w) = setup w) by (unfold setup; ws; reflexivity).
  destruct (v =? 0); [by subst w'|]. destruct Hend as [k ->]. rewrite <- Hrb, <- Hset.
  unfold setup, awaiting_ack. ws. reflexivity.
Qed.

Lemma char_to_outbuf_setup s c : preserves (set_up s) (on_outbuf (char_to_ring c) ;; skip).
Proof.
  intros w [Hw <-]. destruct (ok_outbuf _ Hw) as [q Hq]. rewrite wp_bind, wp_on_outbuf.
  wp_call char_to_ring_spec; [exact Hq|]. intros v r Hr. rewrite wp_skip.
  split; [|done]. apply drv_ok_outbuf; [|done].
  destruct (_ <? _); [exists (q ++ [c])|exists q]; [apply Hr|by destruct Hr as [_ ->]].
Qed.

Lemma printk_write_setup s str : preserves (set_up s) (cancon_printk_write str).
Proof.
  intros w Hw. unfold cancon_printk_write. rewrite wp_bind, wp_gets.
  destruct (_ || _); [exact Hw|]. revert w Hw.
  apply (preserves_bind (set_up s)); [|intros _; apply send_next_setup].
  apply preserves_for_each. intros c. apply preserves_bind.
  - destruct (c =? newline); [apply char_to_outbuf_setup|intros w Hw; exact Hw].
  - intros _. apply char_to_outbuf_setup.
Qed.

(** register_console() starts with the state the initialisation has built and
    ends with a good one that differs only in queues, buffers and logs. *)
Lemma register_console_setup w :
  drv_ok w -> wp register_console (fun _ w' => drv_ok w' /\ setup w' = setup w) w.
Proof.
  intros Hw. unfold register_console. rewrite wp_bind, wp_modify.
  apply (preserves_for_each (set_up (setup w))); [intros; apply printk_write_setup|].
  split; [|done]. destruct Hw; split; ws; assumption.
Qed.

(** canobj_init() before the console is registered. *)
Lemma canobj_init_spec w hb host board :
  con_registered w = false -> 0 <= can_boardtype w < 2 ^ 32 ->
  obp_getprop OBP_CANCON_HOST 16 (prom w) = Done (Some hb) (prom w) -> cstr hb = Some host ->
  obp_getprop OBP_CAN_MEIKO_BOARD_TYPE 4 (prom w) = Done board (prom w) ->
  (forall b, board = Some b -> Forall (fun x => 0 <= x < 256) b) ->
  wp canobj_init (fun _ w' => exists l bt, 0 <= bt < 2 ^ 32 /\
    w' = set_klog l (set_hb_timer (Some (u32 (jiffies w + HB_INTERVAL)))
           (set_cancon_rmt (simple_strtoul host) (set_can_boardtype bt w)))) w.
Proof.
  intros Hcon Hbt Hhost Hhs Hboard Hbytes. unfold canobj_init, canobj_cancon_host.
  rewrite wp_bind, wp_bind, wp_on_prom. unfold wp at 1. rewrite Hhost. cbv beta iota.
  rewrite wp_bind, wp_the. exists host. cbn [mbind option_bind]. split; [exact Hhs|].
  rewrite wp_modify, wp_bind, wp_on_prom. ws. unfold wp at 1. rewrite Hboard. cbv beta iota.
  rewrite wp_bind. unfold add_hb_timer.
  destruct board as [b|].
  - rewrite wp_modify, wp_bind, wp_modify, wp_bind, wp_gets, wp_bind, wp_gets. ws.
    rewrite wp_modify. exists (klog w), (store_bytes (can_boardtype w) b).
    split; [by apply store_bytes_range, Hbytes|]. world_eq.
  - unfold wp at 1. rewrite printk_unregistered by exact Hcon.
    rewrite wp_bind, wp_modify, wp_bind, wp_gets, wp_bind, wp_gets. ws.
    rewrite wp_modify. eexists _, (can_boardtype w). split; [exact Hbt|]. world_eq.
Qed.

(** cancon_init() on buffers of the right size. *)
Definition cleared w : world :=
  set_cancon_inbuf (RING_INIT (cancon_inbuf w))
    (set_cancon_outbuf (RING_INIT_INLOCK (RING_INIT (cancon_outbuf w))) w).

Lemma cancon_init_spec w :
  con_registered w = false -> drv_ok (cleared w) ->
  wp cancon_init (fun _ w' => drv_ok w' /\ setup w' = setup w) w.
Proof.
  intros Hcon Hw. unfold cancon_init.
  rewrite wp_bind, wp_modify, wp_bind, wp_modify, wp_bind, wp_modify. ws.
  change (set_cancon_inbuf _ _) with (cleared w). rewrite wp_bind. unfold cantty_init.
  destruct (tty_register_driver_ret =? 0); cbn [negb].
  - rewrite wp_modify.
    eapply wp_mono; [apply register_console_setup|by intros ? w' [? ->]].
    destruct Hw; split; ws; assumption.
  - unfold wp at 1. rewrite printk_unregistered by exact Hcon.
    eapply wp_mono; [apply register_console_setup|by intros ? w' [? ->]].
    by apply drv_ok_klog.
Qed.

(** C3. Loading the module.  Without a CAN controller it gives up quietly; if
    the PROM does not know the node's address, or the device cannot be
    registered, it says so and gives the register mapping back; otherwise it
    returns 0 and leaves the driver in a good state: the node's address and
    the recorded console connection are those of the PROM, the heartbeat is
    due HB_INTERVAL from now, no file is open and no console object taken. *)
Theorem init_module_spec w regs nodeid host board :
  loaded w -> prom_reads w regs nodeid host board ->
  wp init_module (fun r w' =>
    if regs =? 0 then r = -1 /\ w' = w
    else match nodeid with
    | None => r = -1 /\ exists fmt args,
        w' = set_klog (UnmapRegs :: Printk fmt args :: klog w) w
    | Some id =>
        let node := store_bytes (can_nodeid w) id in
        if negb (misc_register_ret =? 0) then
          r = misc_register_ret /\ exists fmt args,
            w' = set_klog (UnmapRegs :: Printk fmt args :: klog w) (set_can_nodeid node w)
        else
          r = 0 /\ drv_ok w' /\
          can_nodeid w' = node /\ cancon_rmt w' = simple_strtoul host /\
          hb_timer w' = Some (u32 (jiffies w + HB_INTERVAL)) /\
          (forall p, p ∈ openfd w' -> p = 0) /\ (forall v, v ∈ consobj_reserved w' -> v = 0)
    end) w.
Proof.
  intros Hld [Hregs Hid (hb & Hhost & Hhs) [Hboard Hbytes]]. unfold init_module.
  change (can_checkalign can_packet_offsets <? 0) with false. cbv iota.
  rewrite wp_bind. unfold wp at 1. rewrite Hregs.
  destruct (regs =? 0); [by rewrite wp_ret|]. rewrite wp_bind, wp_on_prom.
  unfold wp at 1. rewrite Hid. replace (set_prom (prom w) w) with w by world_eq.
  destruct (ld_unknown _ Hld) as [Hcon Hmisc].
  destruct nodeid as [id|].
  2:{ rewrite wp_bind. unfold wp at 1. rewrite printk_unregistered by done.
      unfold can_unmap_82c200. rewrite wp_bind, wp_log, wp_ret. split; [done|].
      eexists _, _. reflexivity. }
  rewrite wp_bind, wp_modify. cbv zeta. set (w1 := set_can_nodeid _ w).
  destruct (negb (misc_register_ret =? 0)).
  { rewrite wp_bind. unfold wp at 1. rewrite printk_unregistered by done.
    unfold can_unmap_82c200. rewrite wp_bind, wp_log, wp_ret. split; [done|].
    eexists _, _. reflexivity. }
  rewrite wp_bind, wp_modify, wp_bind. unfold can_init_queues. rewrite wp_bind, !wp_modify.
  rewrite wp_bind, wp_modify, wp_bind. ws.
  eapply wp_mono; [apply can_init_82c200_ends|].
  intros r w2 (Hr & _ & tr & i & f & ->).
  rewrite (proj2 (Z.eqb_neq r (-1))) by (destruct Hr as [->| ->]; done).
  unfold can_init_consobj, can_init_openfd. rewrite wp_bind, wp_modify, wp_bind, wp_modify.
  rewrite wp_bind. ws.
  eapply wp_mono.
  { eapply (canobj_init_spec _ hb host board); try done. cbn.
    destruct (ld_words _ Hld) as (_ & Ebt & _). unfold w1. ws. rewrite Ebt. lia. }
  intros ? w3 (l & bt & Hbt & ->). rewrite wp_bind.
  eapply wp_mono; [apply cancon_init_spec; [done|]|].
  { pose (w0 := set_can_nodeid (can_nodeid w1) (set_misc_registered true
        (set_hb_timer (Some (u32 (jiffies w + HB_INTERVAL))) w))).
    pose proof (init_state_ok w (set_io tr (set_irq_installed i (set_first_time f w0))) Hld
      ltac:(by eexists _, _, _, _, _, _) (simple_strtoul host) bt l false) as Hok.
    apply Hok; [|done]. apply strtoul_from_range. lia. }
  intros ? w4 [Hok Hset]. rewrite wp_ret. apply setup_eq in Hset as (E1 & E2 & E3 & E4 & E5).
  split; [done|]. split; [exact Hok|]. rewrite E1, E3, E4, E5. split; [done|]. split; [done|].
  split; [by rewrite E2|]. split; [intros p Hp|intros v Hv];
    [by apply elem_of_replicate in Hp as [-> _]|by apply elem_of_replicate in Hv as [-> _]].
Qed.
End init.

(** * Example *)

(** The kernel and the PROM of [demo_world] before the module is loaded. *)
Definition demo_loading : @world demo_prom :=
  set_con_registered false (set_misc_registered false (set_can_boardtype 0 demo_world)).

Lemma demo_loading_loaded : loaded demo_loading.
Proof.
  split; try reflexivity; try (split; reflexivity); try (split; [|split]; reflexivity).
  - exact zero_packet_ok.
  - exact (ok_prom _ demo_ok).
Qed.

Lemma init_module_spec_witness :
  wp (init_module (P := demo_prom) (H := ready_chip) (K := demo_kernel)) (fun r w' =>
    r = 0 /\ @drv_ok demo_prom demo_prom_strings short_only w' /\ can_nodeid w' = 5) demo_loading.
Proof.
  assert (Hp : @prom_reads demo_prom demo_kernel demo_loading 4096
                 (Some [0; 0; 0; 5]) (str "4294967295") (Some [0; 0; 0; 3])).
  { split; [vm_compute; reflexivity|vm_compute; reflexivity| |].
    - exists (str "4294967295" ++ [0]). split; vm_compute; reflexivity.
    - split; [vm_compute; reflexivity|]. intros b [= <-]. repeat constructor; lia. }
  pose proof (init_module_spec (PS := demo_prom_strings) (H := ready_chip) (K := demo_kernel)
    demo_loading 4096 (Some [0; 0; 0; 5]) (str "4294967295") (Some [0; 0; 0; 3])
    demo_loading_loaded Hp) as Hi.
  eapply wp_mono; [exact Hi|]. intros r w' (Hr & Hok & Hid & _).
  split; [exact Hr|]. split; [exact Hok|]. exact Hid.
Defined.
