(* ===== verification/ObjProps.v ===== *)
(** * What the object handlers do

    Functional specifications of the handlers of CanObj.v: which answer goes
    out for which request, and what else changes. *)

From stdpp Require Import prelude list numbers gmap strings.
From Stdlib Require Import ZArith Lia.
From S2P Require Import Prelude CanTypes Ring Obp World Demo CanSend Console CanObj CanMain CanChip DriverInv DriverTotal DriverFiles DriverSteps.

Section obj_props.
Context {P : Prom} {PS : PromStrings P} {L : Lengths} {H : CanHw} {K : Kernel}.
Implicit Types w : world.

(** [w'] is [w] after send_pkt() of [p] (queued, or dropped on a full queue). *)
Definition sends w (p : can_packet) w' : Prop :=
  exists qi qo v, queues w qi qo /\ send_post w qi qo (stamped w (fixed_up w p)) v w'.

Lemma sends_ok w p w' : drv_ok w -> pkt_ok p -> fits p -> sends w p w' ->
  drv_ok w' /\ same_rest w w'.
Proof.
  intros Hw Hp Hs (qi & qo & v & Hq & Hpost).
  destruct (ok_queues _ Hw) as (qi' & qo' & Hq' & Si').
  assert (Eqi : qi = qi') by (eapply ring_rep_functional; [apply Hq|apply Hq']). subst.
  eapply send_post_costs in Hpost; [|done..|by apply stamped_ok, fixed_up_ok|by apply fits_fixed].
  destruct Hpost as ((HO & _) & Hsame & _). done.
Qed.

Lemma canobj_acknak_sends type pkt data w :
  drv_ok w -> answer type -> pkt_ok pkt -> (forall d, data = Some d -> word d) ->
  wp (canobj_acknak type pkt data) (fun _ w' =>
    sends w (reply type pkt data) w' /\ drv_ok w' /\ same_rest w w') w.
Proof.
  intros Hw Ht Hp Hd. rewrite canobj_acknak_reply, wp_bind.
  destruct (ok_queues _ Hw) as (qi & qo & Hq & Si).
  assert (Hr : pkt_ok (reply type pkt data)) by by apply reply_ok.
  eapply wp_mono; [by apply (send_pkt_spec _ w qi qo)|].
  intros [v p'] w' [_ Hs]. rewrite wp_skip.
  assert (Hsend : sends w (reply type pkt data) w') by by exists qi, qo, v.
  split; [done|]. apply (sends_ok w (reply type pkt data)); [done|done| |done].
  apply short_fits. unfold short. destruct (reply_fields type pkt data Ht) as (_ & _ & _ & -> & _).
  destruct data; lia.
Qed.

Lemma some_word v : word v -> forall d, Some v = Some d -> word d.
Proof. by intros Hv d [= <-]. Qed.
Lemma none_word : forall d : Z, None = Some d -> word d.
Proof. done. Qed.

(** The TESTRW object: a read answers the stored word; a write answers the
    word stored before, then stores the new one; nothing else of the handlers'
    state changes. Any other operation is refused and changes nothing. *)
Theorem testrw_returns_old pkt w :
  drv_ok w -> pkt_ok pkt ->
  wp (canobj_testrw pkt) (fun handled w' =>
    let t := extf Ext.type pkt in
    if (t =? CANTYPE_WO) || (t =? CANTYPE_RO) then
      handled = 1 /\
      obj_val w' = (if t =? CANTYPE_WO then dat pkt else obj_val w) /\
      w_con w' = w_con w /\
      exists w1, sends w (reply CANTYPE_ACK pkt (Some (obj_val w))) w1 /\
                 w' = set_obj_val (obj_val w') w1
    else handled = 0 /\ w' = w) w.
Proof.
  intros Hw Hp. unfold canobj_testrw. cbv zeta.
  assert (Hv : word (obj_val w)) by apply Hw.
  destruct (Z.eqb_spec (extf Ext.type pkt) CANTYPE_WO) as [E|E]; cbn [orb].
  - rewrite wp_bind, wp_gets, wp_bind.
    eapply wp_mono; [apply canobj_acknak_sends; [done|by left|done|by apply some_word]|].
    intros _ w1 (Hs & _ & Hsame). rewrite wp_bind, wp_modify, wp_ret. ws.
    destruct Hsame as (Ec & _). split_and!; try done. by exists w1.
  - destruct (Z.eqb_spec (extf Ext.type pkt) CANTYPE_RO) as [E2|E2]; [|done].
    rewrite wp_bind, wp_gets, wp_bind.
    eapply wp_mono; [apply canobj_acknak_sends; [done|by left|done|by apply some_word]|].
    intros _ w1 (Hs & _ & Hsame). rewrite wp_ret. destruct Hsame as (Ec & Eo & _).
    split_and!; try done; [by rewrite Eo|]. exists w1. split; [done|].
    world_eq.
Qed.

(** ** The connection *)

Lemma canobj_cancon_host_set_frame w :
  drv_ok w ->
  wp (canobj_cancon_host SET) (fun _ w' => exists st, w' = set_prom st w /\ prom_wf st) w.
Proof.
  intros Hw. unfold canobj_cancon_host. rewrite wp_bind, wp_gets. cbv zeta.
  rewrite wp_bind, wp_on_prom. eapply wp_mono; [apply wp_setprop; [done|apply Hw]|].
  intros r st Hst. rewrite wp_skip. by exists st.
Qed.

(** The CONSOLE_CONNECT object: a read answers the current connection. A
    write is refused (NAK) while a console is connected and changes nothing;
    otherwise the sender's word becomes the connection, is recorded in the
    PROM, and is returned in the ACK. *)
Lemma connect_spec pkt w :
  drv_ok w -> pkt_ok pkt ->
  wp (canobj_connect pkt) (fun handled w' =>
    let t := extf Ext.type pkt in
    if t =? CANTYPE_RO then
      handled = 1 /\ sends w (reply CANTYPE_ACK pkt (Some (cancon_rmt w))) w' /\
      cancon_rmt w' = cancon_rmt w
    else if t =? CANTYPE_WO then
      handled = 1 /\
      if CANCON_UNCONNECTED (cancon_rmt w) then
        cancon_rmt w' = dat pkt /\
        exists st, sends (set_prom st (set_cancon_rmt (dat pkt) w))
                     (reply CANTYPE_ACK pkt (Some (dat pkt))) w'
      else sends w (reply CANTYPE_NAK pkt None) w' /\ cancon_rmt w' = cancon_rmt w
    else handled = 0 /\ w' = w) w.
Proof.
  intros Hw Hp. unfold canobj_connect. cbv zeta.
  assert (Hv : word (cancon_rmt w)) by apply Hw.
  destruct (Z.eqb_spec (extf Ext.type pkt) CANTYPE_RO) as [E|E].
  - rewrite wp_bind, wp_gets, wp_bind.
    eapply wp_mono; [apply canobj_acknak_sends; [done|by left|done|by apply some_word]|].
    intros _ w1 (Hs & _ & Ec & _). rewrite wp_ret. by rewrite Ec.
  - destruct (Z.eqb_spec (extf Ext.type pkt) CANTYPE_WO) as [E2|E2]; [|done].
    rewrite wp_bind, wp_gets, wp_bind.
    destruct (CANCON_UNCONNECTED (cancon_rmt w)); cbn [negb].
    + rewrite wp_bind. cbn [cancon_setcon]. rewrite wp_modify, wp_bind.
      set (w1 := set_cancon_rmt (dat pkt) w).
      assert (Hw1 : drv_ok w1) by (apply drv_ok_rmt; [apply Hp|done]).
      eapply wp_mono; [by apply canobj_cancon_host_set_frame|].
      intros _ w2 (st & -> & Hst). rewrite wp_bind, wp_gets.
      assert (Hw2 : drv_ok (set_prom st w1)) by by apply drv_ok_prom.
      eapply wp_mono; [apply canobj_acknak_sends; [done|by left|done|]|].
      { apply some_word. apply Hp. }
      intros _ w3 (Hs & _ & Ec & _). rewrite wp_ret. split; [done|].
      split; [by rewrite Ec|]. by exists st.
    + eapply wp_mono; [apply canobj_acknak_sends; [done|by right|done|apply none_word]|].
      intros _ w1 (Hs & _ & Ec & _). rewrite wp_ret. by rewrite Ec.
Qed.

Lemma unconnected_word x : word x ->
  CANCON_UNCONNECTED (fset Ext.object 0x3f (fset Ext.node 0x3f (fset Ext.module 0x3f
    (fset Ext.cluster 0x3f x)))) = true.
Proof. intros Hx. unfold CANCON_UNCONNECTED. fld. done. Qed.

(** The CONSOLE_DISCONN object: a write disconnects a connected console (the
    connection becomes the unconnected value, in the PROM too), sends an ACK,
    throws away the characters buffered in both directions and hangs up the
    tty; without a connection it is refused (NAK). *)
Lemma disconnect_spec pkt w :
  drv_ok w -> pkt_ok pkt -> extf Ext.type pkt = CANTYPE_WO ->
  wp (canobj_disconnect pkt) (fun handled w' =>
    handled = 1 /\
    if CANCON_UNCONNECTED (cancon_rmt w) then
      sends w (reply CANTYPE_NAK pkt None) w' /\ w_con w' = w_con w
    else
      cancon_rmt w' = disconnected (cancon_rmt w) /\
      CANCON_UNCONNECTED (cancon_rmt w') = true /\
      ring_rep (cancon_outbuf w') [] /\ ring_rep (cancon_inbuf w') [] /\
      (ttyp w <> 0 -> exists l, klog w' = TtyHangup (ttyp w) :: l) /\
      exists st rmt w1, sends (set_prom st (set_cancon_rmt rmt w)) (reply CANTYPE_ACK pkt None) w1 /\
        rmt = cancon_rmt w' /\ inq w' = inq w1 /\ outq w' = outq w1 /\ io w' = io w1) w.
Proof.
  intros Hw Hp E. unfold canobj_disconnect. rewrite E. cbn [Z.eqb Pos.eqb CANTYPE_WO].
  rewrite wp_bind, wp_gets, wp_bind.
  destruct (CANCON_UNCONNECTED (cancon_rmt w)).
  - eapply wp_mono; [apply canobj_acknak_sends; [done|by right|done|apply none_word]|].
    intros _ w1 (Hs & _ & Ec & _). by rewrite wp_ret.
  - rewrite wp_bind. cbn [cancon_setcon]. wp_go. ws. set (w1 := set_cancon_rmt _ _).
    set (rmt := fset Ext.object _ _) in w1.
    assert (Ew1 : w1 = set_cancon_rmt rmt w) by done. clearbody w1. subst w1.
    assert (Hun : CANCON_UNCONNECTED rmt = true) by (apply unconnected_word, Hw).
    assert (Hwr : word rmt).
    { unfold rmt, word. repeat (apply fset_range; [fld_side|cbn; lia|]). apply Hw. }
    assert (Edis : rmt = disconnected (cancon_rmt w)) by done. clearbody rmt. set (w1 := set_cancon_rmt rmt w).
    assert (Hw1 : drv_ok w1) by by apply drv_ok_rmt.
    eapply wp_mono; [by apply canobj_cancon_host_set_frame|].
    intros _ w2 (st & -> & Hst). rewrite wp_bind.
    assert (Hw2 : drv_ok (set_prom st w1)) by by apply drv_ok_prom.
    eapply wp_mono; [apply canobj_acknak_sends; [done|by left|done|apply none_word]|].
    intros _ w3 (Hs & Hw3 & Ec & _).
    destruct (ok_outbuf _ Hw3) as [qo Hqo], (ok_inbuf _ Hw3) as [qi Hqi].
    assert (Et : ttyp w3 = ttyp w) by by rewrite Ec.
    assert (Er : cancon_rmt w3 = rmt) by by rewrite Ec.
    unfold cantty_hangup, clear_ring. rewrite wp_bind, wp_on_outbuf, wp_modify, wp_bind,
      wp_on_inbuf, wp_modify, wp_bind, wp_gets, wp_when. ws.
    pose proof (ring_rep_clear _ _ Hqo). pose proof (ring_rep_clear _ _ Hqi).
    split; intros Ht; [rewrite wp_log|]; rewrite wp_ret; ws; rewrite Er, Et in *.
    + split_and!; try done; [by eexists|]. by exists st, rmt, w3.
    + split_and!; try done; [|by exists st, rmt, w3].
      intros Hnz. apply negb_false_iff, Z.eqb_eq in Ht. done.
Qed.

(** ** The connection across a reboot *)

Lemma strtoul_udec fuel n acc : 0 <= n < 10 ^ Z.of_nat fuel -> n < 2 ^ 32 -> (0 < fuel)%nat ->
  strtoul_from 0 (udec fuel n acc) = strtoul_from n acc.
Proof.
  revert n acc. induction fuel as [|fuel IH]; intros n acc Hn Hn32 Hf; [lia|].
  cbn [udec]. pose proof (Z.mod_pos_bound n 10 ltac:(lia)).
  pose proof (Z.div_mod n 10 ltac:(lia)).
  assert (Hd : forall a, strtoul_from a ((48 + n mod 10) :: acc) =
                         strtoul_from (u32 (a * 10 + n mod 10)) acc).
  { intros a. cbn [strtoul_from]. destruct (Z.leb_spec 48 (48 + n mod 10)); [|lia].
    destruct (Z.leb_spec (48 + n mod 10) 57); [|lia]. cbn [andb]. do 2 f_equal. lia. }
  destruct (Z.eqb_spec (n / 10) 0) as [Ez|Ez].
  - rewrite Hd. f_equal. rewrite u32_id by lia. lia.
  - assert (0 <= n / 10) by (apply Z.div_pos; lia).
    assert (Hlt : n / 10 < 10 ^ Z.of_nat fuel).
    { apply Z.div_lt_upper_bound; [lia|]. rewrite Nat2Z.inj_succ, Z.pow_succ_r in Hn by lia. lia. }
    destruct fuel as [|fuel]; [cbn in Hlt; lia|].
    rewrite IH by lia. rewrite Hd. f_equal. rewrite u32_id by lia. lia.
Qed.

Lemma udec_digits fuel n acc : 0 <= n -> Forall (fun c => 48 <= c) acc ->
  Forall (fun c => 48 <= c) (udec fuel n acc) /\
  (length (udec fuel n acc) <= fuel + length acc)%nat.
Proof.
  revert n acc. induction fuel as [|fuel IH]; intros n acc Hn Hacc; cbn [udec]; [done|].
  pose proof (Z.mod_pos_bound n 10 ltac:(lia)).
  assert (Hacc' : Forall (fun c => 48 <= c) ((48 + n mod 10) :: acc)).
  { apply Forall_cons. split; [lia|done]. }
  destruct (n / 10 =? 0).
  - split; [done|]. cbn. lia.
  - destruct (IH (n / 10) _ ltac:(apply Z.div_pos; lia) Hacc') as [? Hl].
    split; [done|]. cbn [length] in Hl. lia.
Qed.

Lemma strtoul_sprintf n : word n -> simple_strtoul (sprintf_lu n) = n.
Proof.
  intros Hn. unfold simple_strtoul, sprintf_lu. unfold word in Hn.
  rewrite strtoul_udec; [done|change (10 ^ Z.of_nat 10) with 10000000000; lia|lia|lia].
Qed.

(** The tree of the PROM does not depend on its properties. *)
Lemma obp_lookup_any path n st0 st :
  obp_lookup path st0 = Done n st0 -> obp_lookup path st = Done n st.
Proof.
  unfold obp_lookup. cbv zeta. destruct (_ <=? _); [|done].
  unfold mret, eff_ret. set (x := __obp_lookup _ _ _). clearbody x. by intros [= ->].
Qed.

(** C36. What canobj_cancon_host(SET) records in the PROM, canobj_cancon_host(GET)
    reads back, so that a console connection survives a reboot whatever the
    variable held in between: for every 32-bit connection word the decimal
    text fits the 16-byte buffer and is parsed to the same word. *)
Theorem cancon_host_persists `{!PromLaws P} node junk w :
  drv_ok w -> obp_lookup OBP_CANCON_HOST (prom w) = Done node (prom w) -> node <> -1 ->
  (forall v st, (prom_setprop node (basename OBP_CANCON_HOST) v st).1 <> -1) ->
  wp (canobj_cancon_host SET ;; modify (set_cancon_rmt junk) ;; canobj_cancon_host GET)
    (fun _ w' => cancon_rmt w' = cancon_rmt w) w.
Proof.
  intros Hw Hnode Hn Hset. pose proof (ok_rmt _ Hw) as Hr.
  destruct (udec_digits 10 (cancon_rmt w) [] (proj1 Hr) (Forall_nil_2 _)) as [Hdig Hlen].
  fold (sprintf_lu (cancon_rmt w)) in Hdig, Hlen.
  assert (Hnul : 0 ∉ sprintf_lu (cancon_rmt w)).
  { intros Hin. rewrite Forall_forall in Hdig. specialize (Hdig 0 Hin). lia. }
  assert (Hany : forall st, obp_lookup OBP_CANCON_HOST st = Done node st)
    by (intros st; by eapply obp_lookup_any).
  rewrite wp_bind. unfold canobj_cancon_host at 1. rewrite wp_bind, wp_gets. cbv zeta.
  rewrite wp_bind, wp_on_prom. unfold obp_setprop. rewrite wp_bind.
  unfold wp at 1. rewrite Hany, (proj2 (Z.eqb_neq _ _) Hn), wp_run, wp_skip.
  destruct (prom_setprop node _ _ (prom w)) as [r st] eqn:Es. cbn [fst snd].
  rewrite wp_bind, wp_modify. unfold canobj_cancon_host. rewrite wp_bind, wp_on_prom. ws.
  unfold obp_getprop. rewrite wp_bind. unfold wp at 1. rewrite Hany, (proj2 (Z.eqb_neq _ _) Hn).
  rewrite wp_gets, (prom_get_set _ _ _ _ _ _ 16 Es).
  - cbn [mbind option_bind]. rewrite cstr_app by done. rewrite wp_bind, wp_the.
    eexists. split; [reflexivity|]. rewrite wp_modify. ws. by apply strtoul_sprintf.
  - specialize (Hset (sprintf_lu (cancon_rmt w) ++ [0]) (prom w)). rewrite Es in Hset. exact Hset.
  - rewrite length_app. cbn [length] in *. lia.
Qed.

(** The FORCE_DISCONN object: the kernel answers exactly the requests for a
    valid console object that no open file holds; all others are left, with
    the state unchanged, to the cancon program that holds the object. *)
Theorem force_disconn_spec pkt w :
  drv_ok w -> pkt_ok pkt -> extf Ext.type pkt = CANTYPE_WO ->
  let c := fget Ext.object (dat pkt) in
  wp (canobj_force_disconn pkt) (fun handled w' =>
    (handled = 1 <-> CAN_VALID_CONSOBJ c = true /\
       forall p fs, is_open (openfd w) p -> heap w !! p = Some fs -> consobj fs <> c) /\
    (handled = 1 -> sends w (reply CANTYPE_ACK pkt None) w') /\
    (handled <> 1 -> handled = 0 /\ w' = w)) w.
Proof.
  intros Hw Hp E c. unfold canobj_force_disconn. rewrite E. cbn [Z.eqb Pos.eqb CANTYPE_WO].
  cbv zeta. fold c. pose proof (ok_owners _ Hw) as Hown.
  destruct (CAN_VALID_CONSOBJ c) eqn:Ev; cbn [negb].
  2:{ rewrite wp_ret. split_and!; [|lia|done]. split; [lia|by intros [? _]]. }
  apply valid_consobj_index in Ev as (k & Ek & Hk). rewrite wp_bind. unfold can_inuse_consobj.
  eapply wp_mono; [apply reserved_get_spec; [done|lia]|]. intros v w' [-> Hv].
  replace (Z.to_nat (c - CANOBJ_CONSMIN)) with k in Hv by lia.
  destruct (own_reserved _ _ _ Hown k v Hv) as [->| ->]; cbn [Z.eqb negb].
  - rewrite wp_bind.
    eapply wp_mono; [apply canobj_acknak_sends; [done|by left|done|apply none_word]|].
    intros _ w1 (Hs & _). rewrite wp_ret. split_and!; [|done|done].
    split; [|done]. intros _. split; [done|]. intros p fs Ho Hh Ec.
    assert (Hk1 : consobj_reserved w !! k = Some 1).
    { apply (own_held _ _ _ Hown). exists p, fs. split_and!; (done || congruence). }
    congruence.
  - rewrite wp_ret. split_and!; [|lia|done]. split; [lia|]. intros [_ Hfree].
    apply (own_held _ _ _ Hown) in Hv as (p & fs & Ho & Hh & Ec).
    destruct (Hfree p fs Ho Hh). congruence.
Qed.

(** The RESET_IO object sets the output device through the table of input
    devices: an acknowledged write of [v] leaves the output device set to the
    [v]-th input device, "keyboard" for 0, which is no output device. *)
Theorem reset_io_sets_input_name `{!PromLaws P} pkt w node1 node2 old name :
  drv_ok w -> pkt_ok pkt -> extf Ext.type pkt = CANTYPE_WO ->
  obp_lookup OBP_INPUT_DEVICE (prom w) = Done node1 (prom w) -> node1 <> -1 ->
  obp_lookup OBP_OUTPUT_DEVICE (prom w) = Done node2 (prom w) -> node2 <> -1 ->
  (forall n nm v st, 0 <= (prom_setprop n nm v st).1) ->
  obp_getcan OBP_INPUT_DEVICE OBP_INPUT_DEVICE_VALUES (prom w) = Done (Some old) (prom w) ->
  0 <= dat pkt -> OBP_INPUT_DEVICE_VALUES !! Z.to_nat (dat pkt) = Some name ->
  wp (canobj_reset_io pkt) (fun handled w' =>
    handled = 1 /\
    prom_getproperty (prom w') node2 (basename OBP_OUTPUT_DEVICE) OBP_MAXSTR = Some (name ++ [0]) /\
    exists st, sends (set_prom st w) (reply CANTYPE_ACK pkt (Some old)) w') w.
Proof.
  intros Hw Hp E Hl1 Hn1 Hl2 Hn2 Hset Hget H0 Hname.
  assert (Hlt : (Z.to_nat (dat pkt) < 4)%nat) by (apply lookup_lt_Some in Hname; exact Hname).
  assert (Es : s32 (dat pkt) = dat pkt) by (unfold s32; rewrite Z.mod_small; lia).
  assert (Hnum : obp_numtostr (dat pkt) OBP_INPUT_DEVICE_VALUES = Some name).
  { unfold obp_numtostr. rewrite (proj2 (Z.leb_le 0 _)) by lia.
    rewrite (proj2 (Z.ltb_lt (dat pkt) _)) by (change (Z.of_nat _) with 4; lia). done. }
  assert (Hold : word old).
  { destruct (obp_getcan_done OBP_INPUT_DEVICE OBP_INPUT_DEVICE_VALUES (prom w)) as (o & Eo & Ho);
      [apply Hw|done|by right; left|]. rewrite Hget in Eo. injection Eo as <-. by apply Ho. }
  unfold canobj_reset_io. rewrite E. cbn [Z.eqb Pos.eqb CANTYPE_WO CANTYPE_RO]. cbv zeta.
  rewrite wp_bind, wp_on_prom. unfold wp at 1. rewrite Hget, Es.
  assert (Hsc : forall path n st, obp_lookup path st = Done n st -> n <> -1 ->
            obp_setcan path OBP_INPUT_DEVICE_VALUES (dat pkt) st =
            Done (prom_setprop n (basename path) (name ++ [0]) st).1
                 (prom_setprop n (basename path) (name ++ [0]) st).2).
  { intros path n st Hl Hn. unfold obp_setcan. rewrite Hnum. unfold obp_setprop, mbind, eff_bind.
    by rewrite Hl, (proj2 (Z.eqb_neq _ _) Hn). }
  rewrite wp_bind, wp_on_prom. unfold wp at 1. ws. rewrite (Hsc _ node1) by (done || by eapply obp_lookup_any).
  pose proof (Hset node1 (basename OBP_INPUT_DEVICE) (name ++ [0]) (prom w)) as Hp1.
  set (st1 := (prom_setprop node1 _ _ (prom w)).2).
  rewrite (proj2 (Z.ltb_ge _ _)) by done.
  rewrite wp_bind, wp_on_prom. unfold wp at 1. ws. rewrite (Hsc _ node2) by (done || by eapply obp_lookup_any).
  destruct (prom_setprop node2 (basename OBP_OUTPUT_DEVICE) (name ++ [0]) st1) as [r2 st2] eqn:E2.
  assert (Hr2 : 0 <= r2).
  { pose proof (Hset node2 (basename OBP_OUTPUT_DEVICE) (name ++ [0]) st1) as Hr. by rewrite E2 in Hr. }
  cbn [fst snd]. rewrite (proj2 (Z.ltb_ge _ _)) by done. rewrite wp_bind.
  assert (Hwf : prom_wf st2).
  { change st2 with ((r2, st2).2). rewrite <- E2. apply prom_wf_set. unfold st1.
    apply prom_wf_set, Hw. }
  change (set_prom st2 _) with (set_prom st2 w).
  eapply wp_mono; [apply (canobj_acknak_sends CANTYPE_ACK pkt (Some old) (set_prom st2 w));
    [by apply drv_ok_prom|by left|done|by apply some_word]|].
  intros _ w' (Hs & _ & Hsame). rewrite wp_ret. split; [done|].
  destruct Hsame as (_ & _ & _ & _ & _ & _ & Epr & _). rewrite Epr. ws.
  split; [|by exists st2]. apply (prom_get_set _ _ _ _ _ _ _ E2); [lia|].
  rewrite length_app. apply list_elem_of_lookup_2 in Hname.
  unfold OBP_INPUT_DEVICE_VALUES in Hname. cbn [map] in Hname. rewrite !elem_of_cons in Hname.
  destruct Hname as [->|[->|[->|[->|Hn]]]]; [vm_compute; discriminate..|by apply elem_of_nil in Hn].
Qed.

(** ** The heartbeat *)

(** [w'] is [w] after send_pkt_no_out_fixup() of [p]. *)
Definition sends_as_is w (p : can_packet) w' : Prop :=
  exists qi qo v, queues w qi qo /\ send_post w qi qo (stamped w p) v w'.

(** A report to one of the board controllers. *)
Definition report_to (dest obj val id : Z) (p : can_packet) : Prop :=
  canf Can.dest p = dest /\ canf Can.length p = 8 /\ extf Ext.type p = CANTYPE_WNA /\
  extf Ext.object p = obj /\ extf Ext.cluster p = UNPACK_CLUSTER id /\
  extf Ext.module p = UNPACK_MODULE id /\ extf Ext.node p = dest /\ dat p = val.

Definition report_pkt (dest obj val id : Z) (p : can_packet) : can_packet :=
  let p := set_canf Can.dest dest p in
  let p := set_canf Can.length (sizeof_can_header_ext + 4) p in
  let p := set_extf Ext.type CANTYPE_WNA p in
  let p := set_extf Ext.object obj p in
  let p := set_extf Ext.cluster (UNPACK_CLUSTER id) p in
  let p := set_extf Ext.module (UNPACK_MODULE id) p in
  let p := set_extf Ext.node (canf Can.dest p) p in
  set_dat val p.

Lemma unpack_small id :
  UNPACK_CLUSTER id mod 2 ^ 6 = UNPACK_CLUSTER id /\ UNPACK_MODULE id mod 2 ^ 6 = UNPACK_MODULE id.
Proof.
  unfold UNPACK_CLUSTER, UNPACK_MODULE. change 0x1f with (Z.ones 5). rewrite !Z.land_ones by lia.
  split; apply Z.mod_small;
    match goal with |- _ <= ?x mod _ < _ => pose proof (Z.mod_pos_bound x (2 ^ 5) ltac:(lia)) end;
    lia.
Qed.

Lemma report_pkt_fields dest obj val id p :
  0 <= dest < 2 ^ 5 -> 0 <= obj < 2 ^ 10 -> report_to dest obj val id (report_pkt dest obj val id p).
Proof.
  intros Hd Ho. destruct (unpack_small id) as [Ec Em].
  unfold report_to, report_pkt, canf, extf, set_canf, set_extf, set_dat. cbn -[fget fset].
  fld. cbn [f_wid Can.dest Can.length Ext.type Ext.object Ext.cluster Ext.module Ext.node].
  rewrite Ec, Em, (Z.mod_small dest (2 ^ 5)), (Z.mod_small dest (2 ^ 6)), (Z.mod_small obj) by lia. done.
Qed.

Lemma report_pkt_ok dest obj val id p : pkt_ok p -> word val -> pkt_ok (report_pkt dest obj val id p).
Proof. intros Hp Hv. unfold report_pkt. auto 12 with pkt. Qed.

Lemma board_h8_range id : 0 <= CAN_GET_BOARD_H8 (UNPACK_NODE id) < 2 ^ 5.
Proof.
  unfold CAN_GET_BOARD_H8. pose proof (unpack_node_range id) as Hn.
  rewrite Z.shiftr_div_pow2 by lia. change (2 ^ 2) with 4. change (2 ^ 5) with 32 in *.
  Z.to_euclidean_division_equations. lia.
Qed.

(** The timer is armed for the next report. *)
Lemma hb_rearm w w1 w2 : jiffies w1 = jiffies w -> same_rest w1 w2 ->
  wp (del_hb_timer ;; j ← gets (fun w : world => jiffies w); add_hb_timer (u32 (j + HB_INTERVAL)))
    (fun _ w' => hb_timer w' = Some (u32 (jiffies w + HB_INTERVAL)) /\
      hb_count w' = hb_count w1 /\ w' = set_hb_timer (hb_timer w') w2) w2.
Proof.
  intros Ej (_ & Eo2 & _ & _ & _ & _ & _ & Ej2 & _). unfold del_hb_timer, add_hb_timer.
  rewrite wp_bind, wp_modify, wp_bind, wp_gets, wp_bind, wp_gets. ws. rewrite wp_modify. ws.
  by rewrite Ej2, Eo2, Ej.
Qed.

(** Every run of the heartbeat timer sends one HEARTBEAT report with the
    current value to the board's controller, every 0x77-th run also an IAM
    report with the board type to the module's controller, in the name of the
    board's; then the timer is set again, HB_INTERVAL from now. *)
Theorem heartbeat_reports w :
  drv_ok w ->
  let id := can_nodeid w in
  let h8 := CAN_GET_BOARD_H8 (UNPACK_NODE id) in
  wp canobj_send_heartbeat (fun _ w' =>
    hb_timer w' = Some (u32 (jiffies w + HB_INTERVAL)) /\
    hb_count w' = u32 (hb_count w + 1) /\
    exists hb w1, report_to h8 CANOBJ_HEARTBEAT (can_hb_val w) id hb /\ sends w hb w1 /\
      if hb_count w mod HB_IAM_FACTOR =? 0 then
        exists iam w2, report_to CAN_MODULE_H8 CANOBJ_IAM (can_boardtype w) id iam /\
          canf Can.src iam = h8 /\
          sends_as_is (set_hb_count (u32 (hb_count w + 1)) w1) iam w2 /\
          w' = set_hb_timer (hb_timer w') w2
      else w' = set_hb_timer (hb_timer w') (set_hb_count (u32 (hb_count w + 1)) w1)) w.
Proof.
  intros Hw id h8. unfold canobj_send_heartbeat.
  rewrite wp_bind, wp_gets, wp_bind, wp_gets, wp_bind, wp_gets. cbv zeta. fold id h8.
  change (set_dat (can_hb_val w) _) with
    (report_pkt h8 CANOBJ_HEARTBEAT (can_hb_val w) id (stack_pkt w)).
  set (hb := report_pkt _ _ _ _ _).
  assert (Hhb : pkt_ok hb) by (apply report_pkt_ok; apply Hw).
  assert (Rhb : report_to h8 CANOBJ_HEARTBEAT (can_hb_val w) id hb).
  { apply report_pkt_fields; [apply board_h8_range|unfold CANOBJ_HEARTBEAT; lia]. }
  assert (Shb : fits hb) by (apply short_fits; unfold short; destruct Rhb as (_ & -> & _); lia).
  clearbody hb. rewrite wp_bind. destruct (ok_queues _ Hw) as (qi & qo & Hq & Si).
  eapply wp_mono; [by apply (send_pkt_spec hb w qi qo)|]. intros [v p1] w1 [E1 Hs]. cbn [fst snd] in *.
  assert (Hsend : sends w hb w1) by by exists qi, qo, v.
  destruct (sends_ok w hb w1 Hw Hhb Shb Hsend) as (Hw1 & _ & Eo & _ & _ & _ & Eid & _ & Ej & _).
  assert (Hp1 : pkt_ok p1) by (subst; by apply stamped_ok, fixed_up_ok). clear E1 Hs.
  rewrite wp_bind, wp_gets, wp_bind, wp_modify, wp_bind, Eo.
  set (w1' := set_hb_count _ w1).
  pose proof (fun w2 => hb_rearm w w1' w2 Ej) as Hend.
  rewrite wp_when. split; intros Hc; rewrite Hc.
  - rewrite wp_bind, wp_gets. cbv zeta. fold id h8.
    change (set_dat (can_boardtype w1') _) with
      (report_pkt CAN_MODULE_H8 CANOBJ_IAM (can_boardtype w1') id (set_canf Can.src h8 p1)).
    set (iam := report_pkt _ _ _ _ _).
    assert (Ebt : can_boardtype w1' = can_boardtype w) by (unfold w1'; ws; by rewrite Eo).
    assert (Hiam : pkt_ok iam).
    { apply report_pkt_ok; [auto with pkt|]. rewrite Ebt. apply Hw. }
    assert (Riam : report_to CAN_MODULE_H8 CANOBJ_IAM (can_boardtype w1') id iam).
    { apply report_pkt_fields; unfold CAN_MODULE_H8, CANOBJ_IAM; lia. }
    assert (Esrc : canf Can.src iam = h8).
    { unfold iam, report_pkt, canf, set_canf, set_extf, set_dat. cbn -[fget fset]. fld.
      apply Z.mod_small, board_h8_range. }
    assert (Siam : fits iam) by (apply short_fits; unfold short; destruct Riam as (_ & -> & _); lia).
    clearbody iam. rewrite wp_bind.
    assert (Hw1' : drv_ok w1') by by apply drv_ok_hb_count.
    destruct (ok_queues _ Hw1') as (qi1 & qo1 & Hq1 & Si1).
    eapply wp_mono; [by apply (send_pkt_no_out_fixup_spec iam w1' qi1 qo1)|].
    intros [v2 p2] w2 [_ Hs2]. rewrite wp_skip. cbn [fst] in Hs2.
    assert (Hsame : same_rest w1' w2).
    { eapply (send_post_costs w1' qi1 qo1); [done..|by apply stamped_ok|done|exact Hs2]. }
    eapply wp_mono; [by apply Hend|]. intros u w' (Et & En & Ew). split; [done|]. split; [done|].
    exists hb, w1. split; [done|]. split; [done|]. exists iam, w2. rewrite <- Ebt.
    split; [done|]. split; [done|]. split; [by exists qi1, qo1, v2|done].
  - eapply wp_mono; [by apply Hend|]. intros u w' (Et & En & Ew). split; [done|]. split; [done|].
    exists hb, w1. done.
Qed.
End obj_props.

(** * Examples *)

#[local] Existing Instance demo_prom_strings.

(** The demo node with a console connection. *)
Definition demo_connected : @world demo_prom := set_cancon_rmt 0x00010105 demo_world.
Lemma demo_connected_ok : drv_ok demo_connected.
Proof. apply drv_ok_rmt; [lia|exact demo_ok]. Qed.

Lemma testrw_returns_old_witness :
  wp (canobj_testrw (P := demo_prom) (H := ready_chip) (demo_request CANTYPE_WO CANOBJ_TESTRW 9))
    (fun handled w' => handled = 1 /\ obj_val w' = 9) demo_world.
Proof.
  eapply wp_mono.
  - apply (testrw_returns_old (H := ready_chip) (demo_request CANTYPE_WO CANOBJ_TESTRW 9) demo_world).
    + exact demo_ok.
    + apply demo_request_ok. lia.
  - intros h w' (Hh & Ho & _). exact (conj Hh Ho).
Defined.

Lemma cancon_host_persists_witness :
  wp (canobj_cancon_host (P := demo_prom) SET ;; modify (set_cancon_rmt 0) ;;
      canobj_cancon_host GET)
    (fun _ w' => cancon_rmt w' = 0x00010105) demo_connected.
Proof.
  apply (cancon_host_persists (P := demo_prom) 2 0 demo_connected).
  - exact demo_connected_ok.
  - vm_compute. reflexivity.
  - discriminate.
  - intros v st. cbn. lia.
Defined.

Lemma force_disconn_spec_witness :
  wp (canobj_force_disconn (P := demo_prom) (H := ready_chip)
        (demo_request CANTYPE_WO CANOBJ_FORCE_DISCONN 0x105))
    (fun handled _ => handled = 1) demo_world.
Proof.
  eapply wp_mono.
  - apply (force_disconn_spec (H := ready_chip)
             (demo_request CANTYPE_WO CANOBJ_FORCE_DISCONN 0x105) demo_world).
    + exact demo_ok.
    + apply demo_request_ok. lia.
    + vm_compute. reflexivity.
  - intros h w' (Hh & _ & _). apply Hh. split; [vm_compute; reflexivity|].
    intros p fs [Hp Hnz] _. change (p ∈ replicate 256 0) in Hp.
    by apply elem_of_replicate_inv in Hp.
Defined.

Lemma reset_io_sets_input_name_witness :
  wp (canobj_reset_io (P := demo_prom) (H := ready_chip)
        (demo_request CANTYPE_WO CANOBJ_RESET_IO 0))
    (fun handled w' => handled = 1 /\
       prom_getproperty (prom w') 2 (str "output-device") OBP_MAXSTR = Some (str "keyboard" ++ [0]) /\
       str "keyboard" ∉ OBP_OUTPUT_DEVICE_VALUES) demo_world.
Proof.
  eapply wp_mono.
  - apply (reset_io_sets_input_name (P := demo_prom) (H := ready_chip)
             (demo_request CANTYPE_WO CANOBJ_RESET_IO 0) demo_world 2 2 1 (str "keyboard")).
    + exact demo_ok.
    + apply demo_request_ok. lia.
    + vm_compute. reflexivity.
    + vm_compute. reflexivity.
    + discriminate.
    + vm_compute. reflexivity.
    + discriminate.
    + intros n nm v st. cbn. lia.
    + vm_compute. reflexivity.
    + vm_compute. discriminate.
    + vm_compute. reflexivity.
  - intros h w' (Hh & Hg & _). split; [exact Hh|]. split; [exact Hg|].
    apply (bool_decide_unpack _). vm_compute. exact I.
Defined.

Lemma heartbeat_reports_witness :
  wp (canobj_send_heartbeat (P := demo_prom) (H := ready_chip))
    (fun _ w' => hb_timer w' = Some 25 /\ hb_count w' = 1) demo_world.
Proof.
  eapply wp_mono.
  - apply (heartbeat_reports (H := ready_chip) demo_world). exact demo_ok.
  - intros u w' (Ht & Hc & _). exact (conj Ht Hc).
Defined.
