(* ===== verification/ConsoleProps.v ===== *)
(** * What the console does

    Characters leave in order, four to a packet and one packet at a time;
    characters received reach the tty in order. *)

From stdpp Require Import prelude list numbers gmap strings.
From Stdlib Require Import ZArith Lia.
From S2P Require Import Prelude CanTypes Ring Obp World Demo CanSend Console CanObj CanMain CanChip DriverInv DriverTotal DriverFiles DriverSteps ObjProps.

Section console_props.
Context {P : Prom} {PS : PromStrings P} {L : Lengths} {H : CanHw} {K : Kernel}.
Implicit Types w : world.

(** The data bytes of a packet filled by put_chars(). *)
Lemma byte_of_set_byte_mod n i v x : 0 <= n - 1 - i -> byte_of n i (set_byte n i v x) = u8 v.
Proof. intros. rewrite byte_of_fget. unfold set_byte. by rewrite fget_fset_eq by (unfold fld_ok; cbn; lia). Qed.

Lemma dat_b_put_chars cs i j pkt :
  0 <= i -> i + Z.of_nat (length cs) <= 4 -> 0 <= j < 4 ->
  dat_b j (put_chars i cs pkt) =
    if (i <=? j) && (j <? i + Z.of_nat (length cs))
    then u8 (nth (Z.to_nat (j - i)) cs 0) else dat_b j pkt.
Proof.
  revert i pkt. induction cs as [|c cs IH]; intros i pkt Hi Hl Hj; cbn [put_chars length] in *.
  { destruct (Z.leb_spec i j), (Z.ltb_spec j (i + Z.of_nat 0)); try lia; done. }
  rewrite IH by lia. rewrite Nat2Z.inj_succ in *.
  destruct (Z.eq_dec i j) as [->|Hne].
  - destruct (Z.leb_spec (j + 1) j); [lia|]. cbn [andb].
    destruct (Z.leb_spec j j), (Z.ltb_spec j (j + Z.succ (Z.of_nat (length cs)))); try lia. cbn [andb].
    rewrite Z.sub_diag. cbn [nth Z.to_nat]. unfold dat_b, set_dat_b, set_dat. cbn [dat].
    apply byte_of_set_byte_mod. lia.
  - assert (Ed : dat_b j (set_dat_b i c pkt) = dat_b j pkt).
    { unfold dat_b, set_dat_b, set_dat. cbn [dat]. apply byte_of_set_byte_ne; lia. }
    rewrite Ed.
    destruct (Z.leb_spec (i + 1) j), (Z.ltb_spec j (i + 1 + Z.of_nat (length cs))),
      (Z.leb_spec i j), (Z.ltb_spec j (i + Z.succ (Z.of_nat (length cs)))); try lia; cbn [andb]; try done.
    replace (Z.to_nat (j - i)) with (S (Z.to_nat (j - (i + 1)))) by lia. done.
Qed.

(** A DAT packet for the remote console that carries the characters [cs]. *)
Definition carries (rmt : Z) (cs : list Z) (p : can_packet) : Prop :=
  extf Ext.type p = CANTYPE_DAT /\ extf Ext.object p = fget Ext.object rmt /\
  canf Can.length p = 4 + Z.of_nat (length cs) /\
  forall i c, cs !! i = Some c -> dat_b (Z.of_nat i) p = u8 c.

(** It is typed, and its header is the connection word with the type DAT. *)
Definition dat_of_console (rmt : Z) (p : can_packet) : Prop :=
  pkt_ok p /\ ext p = fset Ext.type CANTYPE_DAT rmt.

(** Where the node with the address [id] sends what is for the console [rmt]:
    the destination on its bus is its own. *)
Definition own_console (id rmt : Z) : bool :=
  (if IS_LOCAL id rmt then fget Ext.node rmt else CAN_MODULE_H8) mod 2 ^ 5 =? UNPACK_NODE id.

Lemma dat_packet_own id rmt n p : IS_MYPACKET id (dat_packet id rmt n p) = own_console id rmt.
Proof. unfold IS_MYPACKET, own_console, dat_packet, canf, extf, set_canf, set_extf, set_ext. cbn -[fget fset IS_LOCAL Z.pow Z.modulo]. by fld. Qed.

(** Whether the queue it goes to has room. *)
Definition takes_console w : bool :=
  room (ring_list (if own_console (can_nodeid w) (cancon_rmt w) then inq w else outq w)).

Lemma send_post_taken w qi qo p v w' : queues w qi qo ->
  IS_MYPACKET (can_nodeid w) p = own_console (can_nodeid w) (cancon_rmt w) ->
  send_post w qi qo p v w' -> takes_console w = negb (v =? 0).
Proof.
  intros (Hi & Ho & _) E Hs. unfold send_post, takes_console in *. rewrite E in Hs.
  destruct (own_console _ _); rewrite ?(ring_rep_list _ _ Hi), ?(ring_rep_list _ _ Ho).
  - destruct (room qi); by destruct Hs as [-> _].
  - destruct (room qo); by destruct Hs as [-> _].
Qed.

Lemma stamped_fixed_mine id v w p : IS_MYPACKET id (stamped v (fixed_up w p)) = IS_MYPACKET id p.
Proof. unfold IS_MYPACKET, stamped, fixed_up, canf, set_canf. cbn. by fld. Qed.

Lemma send_next_carries w q :
  drv_ok w -> ring_rep (cancon_outbuf w) q -> CANCON_UNCONNECTED (cancon_rmt w) = false ->
  wp cancon_send_next (fun _ w' =>
    if negb (cancon_ack_pending w =? 0) || bool_decide (q = []) then w' = w
    else
      ring_rep (cancon_outbuf w') (drop 4 q) /\
      exists p w0 w1, carries (cancon_rmt w) (take 4 q) p /\ dat_of_console (cancon_rmt w) p /\ sends w0 p w1 /\
        IS_MYPACKET (can_nodeid w) p = own_console (can_nodeid w) (cancon_rmt w) /\
        w0 = set_cancon_outbuf (cancon_outbuf w') w /\
        ((takes_console w = true /\ cancon_ack_pending w' = 1 /\ cancon_rmt w' = cancon_rmt w /\ inq w' = inq w1 /\ outq w' = outq w1 /\ io w' = io w1 /\
          ack_timer w' = Some (u32 (jiffies w + CANCON_ACK_TIMEOUT), 1)) \/
         (takes_console w = false /\ w1 = w0 /\ w' = w0))) w.
Proof.
  intros Hw Hq Hcon. eapply wp_mono; [by apply (cancon_send_next_spec w q)|].
  intros u w'. cbn beta. unfold send_next_post. rewrite Hcon. destruct (_ || _) eqn:Eb; [done|].
  apply orb_false_iff in Eb as [_ Eq]. apply bool_decide_eq_false in Eq.
  set (cs := take 4 q). assert (Hcs : (length cs <= 4)%nat) by (unfold cs; rewrite length_take; lia).
  cbv zeta. set (p := dat_packet _ _ _ _).
  intros (rb & Hrb & qi & qo & v & w1 & Hqs & Hs & Hend). set (w0 := set_cancon_outbuf rb w) in *.
  assert (Hcar : carries (cancon_rmt w) cs p).
  { destruct (dat_packet_fields (can_nodeid w) (cancon_rmt w) (Z.of_nat (length cs))
               (put_chars 0 cs (stack_pkt w)) ltac:(lia)) as (El & Et & Eo & Ed).
    split; [done|]. split; [done|]. split; [done|]. intros i c Hi.
    pose proof (lookup_lt_Some _ _ _ Hi) as Hlt.
    unfold dat_b at 1, p. rewrite Ed. fold (dat_b (Z.of_nat i) (put_chars 0 cs (stack_pkt w))).
    rewrite dat_b_put_chars by lia.
    destruct (Z.leb_spec 0 (Z.of_nat i)), (Z.ltb_spec (Z.of_nat i) (0 + Z.of_nat (length cs))); try lia.
    cbn [andb]. rewrite Z.sub_0_r, Nat2Z.id. by rewrite (nth_lookup_Some cs i 0 c Hi). }
  assert (Hsend : sends w0 p w1) by (exists qi, qo, v; split; [exact Hqs|exact Hs]).
  assert (Hp : pkt_ok p).
  { apply dat_packet_ok; [apply Hw|]. apply put_chars_ok; [lia|lia|apply Hw]. }
  assert (Hdc : dat_of_console (cancon_rmt w) p) by by split.
  assert (Sp : short p) by (unfold short; destruct Hcar as (_ & _ & -> & _); lia).
  assert (Hw0 : drv_ok w0) by (apply drv_ok_outbuf; [by eexists|done]).
  destruct (sends_ok w0 p w1 Hw0 Hp (short_fits p Sp) Hsend) as (_ & Ec & _ & _ & _ & _ & _ & _ & Ej & _).
  assert (Htakes : takes_console w = negb (v =? 0)).
  { change (takes_console w) with (takes_console w0). eapply send_post_taken; [exact Hqs| |exact Hs].
    rewrite stamped_fixed_mine. apply dat_packet_own. }
  destruct (Z.eqb_spec v 0) as [Ev|Ev].
  - subst w'. split; [done|]. exists p, w0, w1. do 3 (split; [done|]). split; [apply dat_packet_own|]. split; [done|].
    right. split; [done|]. split; [|done].
    destruct (ok_queues _ Hw) as (qi' & qo' & Hq' & Si').
    assert (Eqi : qi = qi') by (eapply ring_rep_functional; [apply Hqs|apply Hq']). subst qi'.
    eapply send_post_costs in Hs; [|done..|by apply stamped_ok, fixed_up_ok|by apply fits_fixed, short_fits].
    by apply Hs.
  - destruct Hend as [k ->]. unfold awaiting_ack. ws. rewrite Ec, Ej. unfold w0. ws.
    split; [done|]. exists p, w0, w1. do 3 (split; [done|]). split; [apply dat_packet_own|]. split; [done|].
    left. refine (conj _ (conj _ (conj _ (conj _ (conj _ (conj _ _)))))); [exact Htakes|reflexivity..].
Qed.

(** C15. cancon_send_next() while a console is connected. While a packet is
    unacknowledged, or with nothing buffered, it does nothing. Otherwise the
    first four characters (or as many as there are) leave the output buffer,
    in order, in one DAT packet for the remote console; if the queue the packet
    goes to has room, it is now the unacknowledged one and the timer runs for
    CANCON_ACK_TIMEOUT; if not, the characters are lost. *)
Theorem console_sends_in_order w q :
  drv_ok w -> ring_rep (cancon_outbuf w) q -> CANCON_UNCONNECTED (cancon_rmt w) = false ->
  wp cancon_send_next (fun _ w' =>
    if negb (cancon_ack_pending w =? 0) || bool_decide (q = []) then w' = w
    else
      ring_rep (cancon_outbuf w') (drop 4 q) /\
      exists p w0 w1, carries (cancon_rmt w) (take 4 q) p /\ sends w0 p w1 /\
        w0 = set_cancon_outbuf (cancon_outbuf w') w /\
        ((takes_console w = true /\ cancon_ack_pending w' = 1 /\ inq w' = inq w1 /\ outq w' = outq w1 /\ io w' = io w1 /\
          ack_timer w' = Some (u32 (jiffies w + CANCON_ACK_TIMEOUT), 1)) \/
         (takes_console w = false /\ w1 = w0 /\ w' = w0))) w.
Proof.
  intros Hw Hq Hcon. eapply wp_mono; [by apply send_next_carries|]. intros u w'. cbn beta.
  destruct (_ || _); [done|]. intros [Hr (p & w0 & w1 & Hc & _ & Hs & _ & E & Hend)].
  split; [done|]. exists p, w0, w1. do 3 (split; [done|]).
  destruct Hend as [(? & ? & _ & ?)|?]; [by left|by right].
Qed.

(** The tty layer may always write to an unconnected console: the driver
    accepts all characters and throws them away; its state does not change. *)
Theorem unconnected_discards tty fu b n w :
  CANCON_UNCONNECTED (cancon_rmt w) = true ->
  cantty_write tty fu b n w = Done n w /\ forall s, cancon_printk_write s w = Done tt w.
Proof.
  intros Hun. unfold cantty_write, cancon_printk_write. split; [|intros s];
    unfold mbind, eff_bind, gets; by rewrite Hun.
Qed.

(** ** Receiving *)

(** The characters of a DAT packet that carries [n]. *)
Definition chars_of (n : nat) (pkt : can_packet) : list Z :=
  map (fun i => dat_b (Z.of_nat i) pkt) (seq 0 n).

Lemma recv_dat_loop_fifo n i pkt w q :
  ring_rep (cancon_inbuf w) q -> (i + n <= 4)%nat ->
  wp (recv_dat_loop n (Z.of_nat i) pkt) (fun _ w' => exists r,
    w' = set_cancon_inbuf r w /\
    ring_rep r (take (Z.to_nat (MAXRING - 1)) (q ++ map (fun i => dat_b (Z.of_nat i) pkt) (seq i n)))) w.
Proof.
  revert i w q. induction n as [|n IH]; intros i w q Hq Hn; cbn [recv_dat_loop].
  { rewrite wp_skip. exists (cancon_inbuf w). split; [world_eq|]. cbn. rewrite app_nil_r.
    rewrite take_ge; [done|]. destruct Hq as (_ & _ & ? & _). lia. }
  rewrite (proj2 (Z.ltb_lt (Z.of_nat i) 4)) by lia. rewrite wp_bind, wp_ret, wp_bind, wp_on_inbuf.
  wp_call char_to_ring_spec; [exact Hq|]. intros v r Hr. fold (room q) in Hr.
  replace (Z.of_nat i + 1) with (Z.of_nat (S i)) by lia.
  set (c := dat_b (Z.of_nat i) pkt) in *.
  eapply wp_mono; [apply (IH (S i) _ (if room q then q ++ [c] else q)); [|lia]|].
  - ws. destruct (room q); [apply Hr|]. by destruct Hr as [_ ->].
  - intros u w' (r' & -> & Hr'). exists r'. split; [done|].
    rewrite take_room in Hr' by apply Hq. exact Hr'.
Qed.

Lemma recv_push_loop_fifo fuel p t w q :
  ring_rep (cancon_inbuf w) q -> ttys w !! p = Some t -> (length q < fuel)%nat ->
  let k := min (length q) (Z.to_nat (TTY_FLIPBUF_SIZE - flip_count t)) in
  wp (recv_push_loop fuel p) (fun _ w' => exists r t',
    w' = set_cancon_inbuf r (set_ttys (<[p := t']> (ttys w)) w) /\ ring_rep r (drop k q) /\
    flip_chars t' = flip_chars t ++ map (fun c => (c, 0)) (take k q) /\
    flip_count t' = flip_count t + Z.of_nat k /\ flip_ptr_null t' = flip_ptr_null t) w.
Proof.
  revert t w q. induction fuel as [|fuel IH]; intros t w q Hq Et Hf; [lia|]. cbv zeta.
  cbn [recv_push_loop]. rewrite wp_bind, wp_get_tty. exists t. split; [done|].
  assert (Hstop : forall k, k = 0%nat -> exists r t',
    w = set_cancon_inbuf r (set_ttys (<[p := t']> (ttys w)) w) /\ ring_rep r (drop k q) /\
    flip_chars t' = flip_chars t ++ map (fun c => (c, 0)) (take k q) /\
    flip_count t' = flip_count t + Z.of_nat k /\ flip_ptr_null t' = flip_ptr_null t).
  { intros k ->. exists (cancon_inbuf w), t. rewrite insert_id by done. split; [world_eq|].
    split; [done|]. cbn. rewrite app_nil_r. split; [done|split; [lia|done]]. }
  destruct (Z.ltb_spec (flip_count t) TTY_FLIPBUF_SIZE) as [Hlt|Hge].
  2:{ rewrite wp_skip. apply Hstop. lia. }
  rewrite wp_bind, wp_on_inbuf. wp_call ring_to_char_spec; [exact Hq|]. intros o r.
  destruct q as [|c q].
  - intros [-> ->]. rewrite wp_skip. assert (E : set_cancon_inbuf (cancon_inbuf w) w = w) by world_eq.
    rewrite E. by apply Hstop.
  - intros [-> Hr]. rewrite wp_bind, wp_put_tty. set (t1 := Tty _ _ _ _ _ _).
    eapply wp_mono; [apply (IH t1 _ q); [exact Hr|ws; apply lookup_insert_eq|cbn in Hf; lia]|].
    cbv zeta. change (flip_count t1) with (flip_count t + 1).
    change (flip_chars t1) with (flip_chars t ++ [(c, 0)]).
    intros u w' (r' & t' & -> & Hr' & Ec & En & Ep). exists r', t'. ws. rewrite insert_insert_eq.
    cbn [length] in *.
    replace (min (S (length q)) (Z.to_nat (TTY_FLIPBUF_SIZE - flip_count t)))
      with (S (min (length q) (Z.to_nat (TTY_FLIPBUF_SIZE - (flip_count t + 1))))) by lia.
    split; [done|]. split; [done|]. cbn [take map]. split; [by rewrite Ec, <- app_assoc|]. split; [lia|exact Ep].
Qed.

Lemma recv_dat_fifo n pkt w t q :
  ring_rep (cancon_inbuf w) q -> (n <= 4)%nat ->
  ttyp w <> 0 -> ttys w !! ttyp w = Some t -> flip_ptr_null t = false ->
  let all := take (Z.to_nat (MAXRING - 1)) (q ++ chars_of n pkt) in
  let k := min (length all) (Z.to_nat (TTY_FLIPBUF_SIZE - flip_count t)) in
  wp (cantty_recv_dat pkt (Z.of_nat n)) (fun _ w' => exists r t',
    w' = set_klog (FlipPush (ttyp w) :: klog w)
           (set_cancon_inbuf r (set_ttys (<[ttyp w := t']> (ttys w)) w)) /\
    ring_rep r (drop k all) /\ flip_chars t' = flip_chars t ++ map (fun c => (c, 0)) (take k all) /\
    flip_ptr_null t' = false) w.
Proof.
  intros Hq Hn Hnz Et Hptr all k. unfold cantty_recv_dat. rewrite Nat2Z.id, wp_bind.
  change 0 with (Z.of_nat 0) at 1.
  eapply wp_mono; [by apply (recv_dat_loop_fifo n 0 pkt w q)|]. intros u w1 (r & -> & Hr).
  fold (chars_of n pkt) in Hr. fold all in Hr. unfold cantty_recv_push. rewrite wp_bind, wp_gets. ws.
  rewrite (proj2 (Z.eqb_neq _ _) Hnz), wp_bind, wp_get_tty. exists t. split; [done|].
  rewrite Hptr, wp_bind.
  eapply wp_mono; [apply (recv_push_loop_fifo _ (ttyp w) t (set_cancon_inbuf r w) all Hr Et)|].
  - destruct Hr as (_ & _ & ? & _). unfold MAXRING in *. lia.
  - cbv zeta. fold k. intros u' w' (r' & t' & -> & Hr' & Ec & En & Ep). rewrite wp_log. ws.
    exists r', t'. split; [world_eq|]. by rewrite Ep.
Qed.

(** cantty_recv_dat(): the characters of a DAT packet go to the end of the
    input buffer (those that find it full are dropped), and the tty gets as
    many as its flip buffer has room for from the front of the buffer, in
    order, each with flag 0, and a push. *)
Theorem received_chars_reach_tty n pkt w t q :
  drv_ok w -> ring_rep (cancon_inbuf w) q -> (n <= 4)%nat ->
  ttyp w <> 0 -> ttys w !! ttyp w = Some t -> flip_ptr_null t = false ->
  let all := take (Z.to_nat (MAXRING - 1)) (q ++ chars_of n pkt) in
  let k := min (length all) (Z.to_nat (TTY_FLIPBUF_SIZE - flip_count t)) in
  wp (cantty_recv_dat pkt (Z.of_nat n)) (fun _ w' => exists t',
    ttys w' !! ttyp w = Some t' /\
    flip_chars t' = flip_chars t ++ map (fun c => (c, 0)) (take k all) /\
    ring_rep (cancon_inbuf w') (drop k all) /\
    klog w' = FlipPush (ttyp w) :: klog w) w.
Proof.
  intros _ Hq Hn Hnz Et Hptr all k. eapply wp_mono; [by apply recv_dat_fifo|].
  intros _ w' (r & t' & -> & Hr & Ec & _). exists t'. ws. rewrite lookup_insert_eq. done.
Qed.

(** cantty_recv_dat() trusts the length in the packet header: a DAT packet
    that announces more than eight bytes makes it read past the four data
    bytes of the packet. *)
Theorem recv_dat_overrun pkt w :
  drv_ok w -> pkt_ok pkt -> extf Ext.type pkt = CANTYPE_DAT ->
  CANCON_UNCONNECTED (cancon_rmt w) = false -> 8 < canf Can.length pkt ->
  canobj_dat pkt w = Fault OutOfBounds.
Proof.
  intros Hw Hp Et Hcon Hlen.
  assert (Hl : canf Can.length pkt < 2 ^ 4) by (apply (fget_range Can.length); fld_side).
  assert (Hack : wp (canobj_acknak CANTYPE_ACK pkt None) (fun _ w' => drv_ok w') w).
  { eapply wp_mono; [apply canobj_acknak_sends; [done|by left|done|apply none_word]|].
    by intros u w' (_ & ? & _). }
  unfold canobj_dat, mbind, eff_bind, gets. rewrite Hcon, Et. cbn [Z.eqb Pos.eqb CANTYPE_DAT].
  cbv zeta. unfold wp in Hack. destruct (canobj_acknak _ _ _ w) as [u w1|]; [|done].
  unfold cantty_recv_dat, mbind, eff_bind.
  assert (Hloop : forall n i w2, drv_ok w2 -> (5 <= i + n)%nat -> (i <= 4)%nat ->
            recv_dat_loop n (Z.of_nat i) pkt w2 = Fault OutOfBounds).
  { induction n as [|n IH]; intros i w2 Hw2 Hin Hi; [lia|]. cbn [recv_dat_loop].
    unfold mbind, eff_bind. destruct (Z.ltb_spec (Z.of_nat i) 4); [|done].
    destruct (ok_inbuf _ Hw2) as [q Hq].
    assert (Hput : wp (on_inbuf (char_to_ring (dat_b (Z.of_nat i) pkt))) (fun _ w' => drv_ok w') w2).
    { rewrite wp_on_inbuf. wp_call char_to_ring_spec; [exact Hq|]. intros v r Hr.
      apply drv_ok_inbuf; [|done].
      destruct (_ <? _); [eexists; apply Hr|exists q; by destruct Hr as [_ ->]]. }
    unfold wp in Hput. cbn [mret eff_ret]. unfold mret, eff_ret.
    destruct (on_inbuf _ w2) as [v w3|]; [|done].
    replace (Z.of_nat i + 1) with (Z.of_nat (S i)) by lia. apply IH; [done|lia|lia]. }
  change 0 with (Z.of_nat 0) at 1. rewrite Hloop; [done|done| |lia].
  unfold s32, sizeof_can_header_ext. rewrite Z.mod_small by lia. lia.
Qed.
End console_props.

(** * Examples *)

#[local] Existing Instance demo_prom_strings.

(** A connected console with two characters to send and a tty. *)
Definition demo_outbuf : ring Z := Ring ([104; 105] ++ replicate 1022 0) 2 0 0 0.
Lemma demo_outbuf_rep : ring_rep demo_outbuf [104; 105].
Proof.
  unfold ring_rep. refine (conj eq_refl (conj _ (conj _ (conj eq_refl _)))).
  - cbn. unfold MAXRING. lia.
  - cbn. unfold MAXRING. lia.
  - intros [|[|i]] x Hi; cbn in Hi; [injection Hi as <-; reflexivity..|done].
Qed.
Definition demo_tty : tty_struct := Tty false false 0 [] false false.
Definition demo_console : @world demo_prom :=
  set_ttyp 1 (set_ttys {[1 := demo_tty]} (set_cancon_outbuf demo_outbuf demo_connected)).

Lemma demo_console_ok : drv_ok demo_console.
Proof.
  assert (Hw : drv_ok (set_cancon_outbuf demo_outbuf demo_connected)).
  { apply drv_ok_outbuf; [|exact demo_connected_ok]. eexists. exact demo_outbuf_rep. }
  destruct Hw. unfold demo_console. split; ws; try assumption.
  intros _. by exists demo_tty.
Qed.

Lemma console_sends_in_order_witness :
  wp (cancon_send_next (P := demo_prom) (H := ready_chip))
    (fun _ w' => ring_rep (cancon_outbuf w') []) demo_console.
Proof.
  eapply wp_mono.
  - apply (console_sends_in_order (H := ready_chip) demo_console [104; 105]).
    + exact demo_console_ok.
    + exact demo_outbuf_rep.
    + vm_compute. reflexivity.
  - intros u w' Hs. cbn beta in Hs. rewrite (bool_decide_false ([104; 105] = [])) in Hs by done.
    exact (proj1 Hs).
Defined.

Lemma unconnected_discards_witness :
  cantty_write (P := demo_prom) (H := ready_chip) 1 false None 7 demo_world = Done 7 demo_world /\
  forall s, cancon_printk_write (P := demo_prom) (H := ready_chip) s demo_world = Done tt demo_world.
Proof.
  apply (unconnected_discards (H := ready_chip) 1 false None 7 demo_world).
  vm_compute. reflexivity.
Defined.

Lemma received_chars_reach_tty_witness :
  wp (cantty_recv_dat (P := demo_prom) (K := demo_kernel) (demo_request CANTYPE_DAT 0 0x68690000) (Z.of_nat 2))
    (fun _ w' => exists t', ttys w' !! 1 = Some t' /\ flip_chars t' = [(0x68, 0); (0x69, 0)])
    demo_console.
Proof.
  eapply wp_mono.
  - apply (received_chars_reach_tty (K := demo_kernel) 2
             (demo_request CANTYPE_DAT 0 0x68690000) demo_console demo_tty []).
    + exact demo_console_ok.
    + apply empty_ring_rep.
    + repeat constructor.
    + discriminate.
    + reflexivity.
    + reflexivity.
  - intros u w' (t' & Ht & Hc & _). exists t'. split; [exact Ht|]. rewrite Hc. vm_compute. reflexivity.
Defined.

Lemma recv_dat_overrun_witness :
  canobj_dat (P := demo_prom) (H := ready_chip) (K := demo_kernel)
    (set_canf Can.length 15 (demo_request CANTYPE_DAT 0 0)) demo_console = Fault OutOfBounds.
Proof.
  apply (recv_dat_overrun (H := ready_chip) (K := demo_kernel)).
  - exact demo_console_ok.
  - apply set_canf_ok; [fld_side|cbn; lia|]. apply demo_request_ok. lia.
  - vm_compute. reflexivity.
  - vm_compute. reflexivity.
  - vm_compute. reflexivity.
Defined.
