(* ===== verification/ConsoleStream.v ===== *)
(** * A stream of DAT packets at the console of a node

    What the tty of a connected node gets from the packets a client sends it:
    the characters of all of them, in order. *)

From stdpp Require Import prelude list numbers gmap strings.
From Stdlib Require Import ZArith Lia.
From S2P Require Import Prelude CanTypes Ring Obp World Demo CanSend Console CanObj CanMain CanChip DriverInv DriverTotal DriverFiles DriverSteps ObjProps ConsoleProps.

Section console_stream.
Context {P : Prom} {PS : PromStrings P} {H : CanHw} {K : Kernel}.
Implicit Types w : world.

(** A connected node with a terminal open on its console: [q] waits in the
    input buffer, [t] is the terminal. *)
Record listening w (q : list Z) (t : tty_struct) : Prop := Listening {
  ls_ok : drv_ok w;
  ls_queue : ring_rep (cancon_inbuf w) q;
  ls_open : ttyp w <> 0;
  ls_tty : ttys w !! ttyp w = Some t;
  ls_flip : flip_ptr_null t = false;
  ls_rmt : CANCON_UNCONNECTED (cancon_rmt w) = false;
  ls_obj : fget Ext.object (cancon_rmt w) <> 0
}.

(** What the terminal has got, or still gets. *)
Definition received (q : list Z) (t : tty_struct) : list (Z * Z) :=
  flip_chars t ++ map (fun c => (c, 0)) q.

(** A DAT packet with the characters [cs], short enough for the bus. *)
Record brings (p : can_packet) (cs : list Z) : Prop := Brings {
  br_ok : pkt_ok p;
  br_type : extf Ext.type p = CANTYPE_DAT;
  br_object : extf Ext.object p = 0;
  br_length : canf Can.length p = 4 + Z.of_nat (length cs);
  br_short : (length cs <= 4)%nat;
  br_chars : chars_of (length cs) p = cs
}.

Lemma recv_dat_keeps pkt w : drv_ok w -> short pkt ->
  wp (cantty_recv_dat pkt (s32 (canf Can.length pkt - sizeof_can_header_ext))) (fun _ w' => drv_ok w') w.
Proof. intros Hw Hs. eapply wp_mono; [by apply spends_recv_dat|]. by intros _ w' [? _]. Qed.

Lemma packet_received p cs w q t : listening w q t -> brings p cs ->
  Z.of_nat (length q + length cs) <= MAXRING - 1 ->
  wp (canobj_packet p) (fun handled w' => exists q' t', handled = 1 /\ listening w' q' t' /\
    received q' t' = received q t ++ map (fun c => (c, 0)) cs /\
    (length q' <= length q + length cs)%nat /\ ttyp w' = ttyp w) w.
Proof.
  intros [Hw Hq Ho Ht Hf Hun Hobj] [Hp Ety Eobj El Hs Hc] Hroom. unfold canobj_packet. rewrite Eobj, wp_bind.
  change (if 0 =? CANOBJ_CONSOLE_CONNECT then canobj_connect p else _) with (canobj_dat p).
  unfold canobj_dat. rewrite wp_bind, wp_gets, Hun, Ety. cbv zeta.
  change (CANTYPE_DAT =? CANTYPE_DAT) with true. cbv iota. rewrite wp_bind.
  eapply wp_mono; [apply canobj_acknak_sends; [done|by left|done|apply none_word]|].
  intros _ w1 (_ & Hw1 & Hsame). rewrite wp_bind.
  assert (Esh : short p) by (unfold short; lia).
  assert (Elen : s32 (canf Can.length p - sizeof_can_header_ext) = Z.of_nat (length cs)).
  { unfold s32, sizeof_can_header_ext. rewrite Z.mod_small by lia. lia. }
  destruct Hsame as (Econ & _ & _ & _ & _ & _ & _ & _ & _ & _ & _ & Ettys).
  assert (E1 : cancon_inbuf w1 = cancon_inbuf w /\ ttyp w1 = ttyp w /\ cancon_rmt w1 = cancon_rmt w)
    by (by rewrite Econ).
  destruct E1 as (Einb & Ettyp & Ermt).
  eapply wp_mono; [apply wp_and; [by apply recv_dat_keeps|rewrite Elen; apply (recv_dat_fifo _ _ _ t q); congruence || done]|].
  cbv zeta. rewrite Hc, take_ge by (rewrite length_app; lia). set (k := min _ _).
  intros _ w' (Hw' & r & t' & -> & Hr & Efl & Ef'). rewrite wp_ret, wp_bind, wp_gets. ws.
  rewrite Ermt, Hun, (proj2 (Z.eqb_neq _ _) (not_eq_sym Hobj)). cbn [negb andb]. rewrite wp_ret.
  exists (drop k (q ++ cs)), t'. split; [done|]. split; [|split; [|split]].
  - split; ws; try done; try congruence. by rewrite lookup_insert_eq.
  - unfold received. rewrite Efl, <- app_assoc, <- map_app, take_drop, map_app, app_assoc. done.
  - rewrite length_drop, length_app. lia.
  - done.
Qed.

(** The characters of a sequence of packets. *)
Lemma stream_received ps css w q t : listening w q t -> Forall2 brings ps css ->
  Z.of_nat (length q + length (concat css)) <= MAXRING - 1 ->
  wp (for_each ps (fun p => canobj_packet p ;; skip)) (fun _ w' => exists q' t',
    listening w' q' t' /\ received q' t' = received q t ++ map (fun c => (c, 0)) (concat css)) w.
Proof.
  intros Hw Hps. revert w q t Hw. induction Hps as [|p cs ps css Hp _ IH]; intros w q t Hw Hroom; cbn [for_each].
  { rewrite wp_skip. exists q, t. cbn. by rewrite app_nil_r. }
  cbn [concat] in *. rewrite length_app in Hroom. rewrite wp_bind, wp_bind.
  eapply wp_mono; [apply (packet_received p cs w q t Hw Hp); lia|].
  intros h w1 (q1 & t1 & _ & Hw1 & E1 & Hl1 & _). rewrite wp_skip.
  eapply wp_mono; [apply (IH w1 q1 t1 Hw1); lia|]. intros _ w2 (q2 & t2 & Hw2 & E2).
  exists q2, t2. split; [done|]. by rewrite E2, E1, map_app, app_assoc.
Qed.
End console_stream.
