(* ===== verification/FileProps.v ===== *)
(** * What the file operations do

    Functional specifications of the operations on /dev/can and of the
    delivery of packets to the open files. *)

From stdpp Require Import prelude list numbers gmap strings.
From Stdlib Require Import ZArith Lia.
From S2P Require Import Prelude CanTypes Ring Obp World Demo CanSend Console CanObj CanMain CanChip DriverInv DriverTotal DriverFiles DriverSteps ObjProps.

Section file_props.
Context {P : Prom} {PS : PromStrings P} {L : Lengths} {H : CanHw} {K : Kernel}.
Implicit Types w : world.

(** can_alloc_consobj(): whatever the clock says, it terminates with an
    identifier in the valid range that was free, now reserved, the others
    unchanged; or, exactly when all 256 are reserved, with -1 and the state
    unchanged. *)
Theorem alloc_consobj_spec w :
  drv_ok w ->
  wp can_alloc_consobj (fun c w' =>
    (c = -1 /\ w' = w /\ forall k, 0 <= k < COSIZE -> consobj_reserved w !! Z.to_nat k = Some 1) \/
    (CAN_VALID_CONSOBJ c = true /\
     consobj_reserved w !! Z.to_nat (c - CANOBJ_CONSMIN) = Some 0 /\
     w' = set_consobj_reserved (<[Z.to_nat (c - CANOBJ_CONSMIN) := 1]> (consobj_reserved w)) w)) w.
Proof.
  intros Hw. eapply wp_mono; [apply can_alloc_consobj_spec, Hw|].
  intros c w' [(-> & Hall & ->)|(k & v & -> & Hk & Ev & Hv & ->)]; [by left|right].
  replace (Z.to_nat (CANOBJ_CONSMIN + Z.of_nat k - CANOBJ_CONSMIN)) with k by lia.
  split.
  - unfold CAN_VALID_CONSOBJ, COSIZE, CANOBJ_CONSMIN, CANOBJ_CONSMAX in *.
    apply andb_true_iff. lia.
  - destruct (own_reserved _ _ _ (ok_owners _ Hw) k v Ev) as [->| ->]; done.
Qed.

(** Opening a file and closing it again gives everything back: when the
    table has a free slot and kmalloc() succeeds, open returns the new file,
    whose flags are clear and whose queue is empty, and a release restores the
    table, the heap and the use counts. When all 256 slots are taken, open
    fails with -EBUSY and changes nothing. *)
Theorem open_release_roundtrip p mem w :
  drv_ok w -> p <> 0 -> heap w !! p = None -> mem_ok mem ->
  if bool_decide (0 ∈ openfd w) then
    wp (can_open p mem) (fun r w1 =>
      r = (0, p) /\
      (exists fs, heap w1 !! p = Some fs /\ promiscuous fs = 0 /\ snoopy fs = 0 /\
         consobj fs = -1 /\ ring_rep (fs_inq fs) []) /\
      wp (can_release p) (fun r' w2 =>
        r' = 0 /\ openfd w2 = openfd w /\ heap w2 = heap w /\
        can_usecount w2 = can_usecount w /\ mod_usecount w2 = mod_usecount w /\
        consobj_reserved w2 = consobj_reserved w) w1) w
  else can_open p mem w = Done (- EBUSY, 0) w.
Proof.
  intros Hw Hp Hh Hm. pose proof (can_open_spec p mem w Hw Hp) as Ho.
  destruct (bool_decide (0 ∈ openfd w)) eqn:E.
  2:{ apply bool_decide_eq_false in E. unfold wp in Ho. destruct (can_open p mem w) as [r w'|]; [|done].
      destruct Ho as [(-> & -> & _)|(_ & i & Hi & _)]; [done|].
      destruct E. by eapply list_elem_of_lookup_2. }
  apply bool_decide_eq_true in E. eapply wp_mono; [exact Ho|]. cbn beta.
  intros r w1 [(_ & _ & Hn)|(-> & i & Hi & ->)]; [done|].
  pose proof (opened_ok i p mem w Hw Hp Hh Hm Hi) as Hw1.
  assert (Hlt : (i < length (openfd w))%nat) by by eapply lookup_lt_Some.
  split; [done|]. split.
  { exists (fresh_fs mem). unfold opened. ws. rewrite lookup_insert_eq. split_and!; done. }
  assert (Hnone : forall j, openfd w !! j <> Some p).
  { intros j Hj. destruct (is_open_heap w p Hw) as (fs & Hfs & _); [|congruence].
    split; [by eapply list_elem_of_lookup_2|done]. }
  unfold can_release, can_release_openfd. rewrite wp_bind, wp_bind, wp_gets. cbv zeta.
  set (w1 := opened i p mem w) in *.
  assert (Eo : openfd w1 = <[i := p]> (openfd w)) by done. rewrite Eo.
  destruct (find_from_spec p (<[i := p]> (openfd w)) 0) as [[_ Hn]|(j & -> & Hj)].
  { destruct Hn. apply (list_elem_of_lookup_2 _ i). by apply list_lookup_insert_eq. }
  assert (j = i).
  { apply list_lookup_insert_Some in Hj as [(? & _)|[_ Hj]]; [done|by apply Hnone in Hj]. }
  subst j. destruct (ok_openfd _ Hw) as [Hlen _].
  destruct (Z.eqb_spec (0 + Z.of_nat i) CAN_MAX_USECOUNT) as [Ec|_]; [lia|].
  unfold openfd_get. rewrite !wp_bind, wp_gets, (proj2 (Z.leb_le 0 _)), wp_the by lia.
  replace (Z.to_nat (0 + Z.of_nat i)) with i by lia. exists p. rewrite Eo. split; [done|].
  rewrite wp_bind, wp_get_fs. exists (fresh_fs mem).
  assert (Eh : heap w1 = <[p := fresh_fs mem]> (heap w)) by done. rewrite Eh, lookup_insert_eq.
  split; [done|]. cbn [fresh_fs consobj promiscuous]. rewrite !Z.eqb_refl. cbn [negb when].
  rewrite !wp_bind, wp_skip, wp_bind, wp_skip, wp_bind, wp_modify.
  unfold openfd_set. rewrite wp_bind, wp_gets. ws. rewrite Eo, length_insert.
  rewrite (proj2 (Z.leb_le 0 _)), (proj2 (Z.ltb_lt (0 + Z.of_nat i) _)) by lia. cbn [andb].
  rewrite wp_modify, wp_bind, wp_modify, wp_bind, wp_modify, wp_ret. ws.
  replace (Z.to_nat (0 + Z.of_nat i)) with i by lia.
  rewrite list_insert_insert_eq, list_insert_id by done. rewrite Eh, delete_insert_id by done.
  unfold w1, opened. ws. split_and!; try done; lia.
Qed.

(** ** Delivery *)

(** Whether an open file gets to see a packet. *)
Definition wants (w : world) (pkt : can_packet) (fs : file_state) : bool :=
  IS_MYPACKET (can_nodeid w) pkt || negb (promiscuous fs =? 0) || negb (snoopy fs =? 0).

(** What the loop over the open files does with one file. *)
Definition file_got (w : world) (pkt : can_packet) (p : Z) (fs fs' : file_state) : Prop :=
  promiscuous fs' = promiscuous fs /\ snoopy fs' = snoopy fs /\ consobj fs' = consobj fs /\
  forall q, ring_rep (fs_inq fs) q ->
    ring_rep (fs_inq fs') (if wants w pkt fs && room q then q ++ [pkt] else q).

Lemma deliver_one_spec pkt i w : drv_ok w -> 0 <= i < CAN_MAX_USECOUNT ->
  wp (deliver_one pkt i) (fun _ w' =>
    exists p, openfd w !! Z.to_nat i = Some p /\
    if p =? 0 then w' = w
    else exists fs fs' k, heap w !! p = Some fs /\ file_got w pkt p fs fs' /\
      w' = set_klog k (set_heap (<[p := fs']> (heap w)) w)) w.
Proof.
  intros Hw Hi. unfold deliver_one, openfd_get.
  rewrite !wp_bind, wp_gets, (proj2 (Z.leb_le 0 i)) by lia.
  destruct (ok_openfd _ Hw) as [Hlen Hfd]. rewrite wp_the.
  destruct (list_lookup_total_Z (openfd w) i) as [p Ep]; [rewrite Hlen; lia|].
  exists p. split; [done|]. destruct (Z.eqb_spec p 0) as [->|Hp].
  { rewrite wp_skip. exists 0. by split. }
  destruct (Hfd p) as (fs & Efs & q & Hq & _); [by eapply list_elem_of_lookup_2|done|].
  rewrite wp_bind, wp_get_fs. exists fs. split; [done|]. rewrite wp_bind, wp_gets.
  assert (Hskip : wants w pkt fs = false -> exists p, openfd w !! Z.to_nat i = Some p /\
    if p =? 0 then w = w
    else exists fs fs' k, heap w !! p = Some fs /\ file_got w pkt p fs fs' /\
      w = set_klog k (set_heap (<[p := fs']> (heap w)) w)).
  { intros Hno. exists p. split; [done|]. rewrite (proj2 (Z.eqb_neq _ _) Hp).
    exists fs, fs, (klog w). split; [done|]. rewrite insert_id by done. split; [|world_eq].
    unfold file_got. rewrite Hno. done. }
  unfold wants in Hskip.
  destruct (IS_MYPACKET (can_nodeid w) pkt) eqn:Em, (promiscuous fs =? 0) eqn:Epr,
    (snoopy fs =? 0) eqn:Esn; cbn [negb andb orb] in *; try (rewrite wp_skip; by apply Hskip).
  all: clear Hskip; rewrite wp_bind, wp_on_fs_inq; exists fs; (split; [done|]);
    (wp_call pkt_to_ring_spec; [exact Hq|]); intros v r Hr; fold (room q) in Hr;
    rewrite wp_when; (split; intros _; [rewrite wp_log|]); exists p; (split; [done|]);
    rewrite (proj2 (Z.eqb_neq _ _) Hp); exists fs, (FileState r (promiscuous fs) (snoopy fs) (consobj fs));
    [eexists | exists (klog w)]; (split; [done|]); (split; [|ws; first [reflexivity | world_eq]]);
    (split; [done|split; [done|split; [done|]]]); intros q' Hq';
    rewrite (ring_rep_functional _ _ _ Hq' Hq); unfold wants; rewrite Em, ?Epr, ?Esn; cbn [orb negb andb];
    destruct (room q); cbn [fs_inq]; [apply Hr | by destruct Hr as [_ ->] | apply Hr | by destruct Hr as [_ ->]].
Qed.

(** The files the loop has served after the slots [l], and the heap then. *)
Definition served (fds l : list Z) (p : Z) : Prop :=
  p <> 0 /\ exists i, i ∈ l /\ fds !! Z.to_nat i = Some p.

Definition heap_served w pkt (l : list Z) (h : gmap Z file_state) : Prop :=
  forall p fs, heap w !! p = Some fs -> exists fs', h !! p = Some fs' /\
    (served (openfd w) l p -> file_got w pkt p fs fs') /\ (~ served (openfd w) l p -> fs' = fs).

Lemma served_snoc fds l i p :
  served fds (l ++ [i]) p <-> served fds l p \/ p <> 0 /\ fds !! Z.to_nat i = Some p.
Proof.
  unfold served. split.
  - intros (Hnz & j & Hj & Ej). apply elem_of_app in Hj as [Hj|Hj]; [left; eauto|].
    apply list_elem_of_singleton in Hj. subst. by right.
  - intros [(Hnz & j & Hj & Ej)|[Hnz Ei]]; (split; [done|]); [exists j | exists i]; set_solver.
Qed.

Lemma served_open fds p : length fds = Z.to_nat CAN_MAX_USECOUNT ->
  served fds (seqZ 0 CAN_MAX_USECOUNT) p <-> is_open fds p.
Proof.
  intros Hlen. split.
  - intros (Hnz & j & _ & Hj). split; [|done]. by eapply list_elem_of_lookup_2.
  - intros [Hin Hnz]. split; [done|]. apply list_elem_of_lookup_1 in Hin as [j Hj].
    exists (Z.of_nat j). rewrite Nat2Z.id. split; [|done]. apply elem_of_seqZ.
    apply lookup_lt_Some in Hj. lia.
Qed.

Lemma heap_served_skip w pkt l i h :
  openfd w !! Z.to_nat i = Some 0 -> heap_served w pkt l h -> heap_served w pkt (l ++ [i]) h.
Proof.
  intros Ei Hh p fs Hp. destruct (Hh p fs Hp) as (fs' & Hl & Hs & Hn). exists fs'.
  rewrite served_snoc. split; [done|]. split.
  - intros [?|[Hnz E]]; [by apply Hs|congruence].
  - intros Hns. apply Hn. tauto.
Qed.

Lemma heap_served_step w pkt l i h p fs0 fs1 :
  openfd w !! Z.to_nat i = Some p -> p <> 0 -> ~ served (openfd w) l p ->
  h !! p = Some fs0 -> file_got w pkt p fs0 fs1 ->
  heap_served w pkt l h -> heap_served w pkt (l ++ [i]) (<[p := fs1]> h).
Proof.
  intros Ei Hnz Hnot Hh0 Hgot Hh p' fs Hp'. destruct (Hh p' fs Hp') as (fs' & Hl & Hs & Hn).
  destruct (decide (p = p')) as [<-|Hne].
  - rewrite lookup_insert_eq. exists fs1. rewrite served_snoc. split; [done|].
    rewrite Hl in Hh0. injection Hh0 as <-. rewrite (Hn Hnot) in Hgot. split; [done|]. intros Hns. destruct Hns. by right.
  - rewrite lookup_insert_ne by done. exists fs'. rewrite served_snoc. split; [done|]. split.
    + intros [?|[_ E]]; [by apply Hs|congruence].
    + intros Hns. apply Hn. tauto.
Qed.

(** One slot of the table comes after the ones before it. *)
Lemma seqZ_split n pre i post : seqZ 0 n = pre ++ i :: post ->
  0 <= i < n /\ i ∉ pre /\ forall j, j ∈ pre -> 0 <= j.
Proof.
  intros El. assert (Hin : forall j, j ∈ pre ++ i :: post -> 0 <= j < n).
  { intros j Hj. rewrite <- El in Hj. apply elem_of_seqZ in Hj. lia. }
  pose proof (NoDup_seqZ 0 n) as Hnd. rewrite El in Hnd. apply NoDup_app in Hnd as (_ & Hd & _).
  split; [apply Hin; set_solver|]. split; [intros Hi; apply (Hd i Hi); set_solver|].
  intros j Hj. apply (Hin j). set_solver.
Qed.

Definition served_inv w pkt (l : list Z) (w' : world) : Prop :=
  drv_ok w' /\ openfd w' = openfd w /\ w_con w' = w_con w /\ inq w' = inq w /\ outq w' = outq w /\
  can_nodeid w' = can_nodeid w /\ heap_served w pkt l (heap w').

Lemma deliver_step pkt w pre i post w1 : drv_ok w -> pkt_ok pkt ->
  seqZ 0 CAN_MAX_USECOUNT = pre ++ i :: post -> served_inv w pkt pre w1 ->
  wp (deliver_one pkt i) (fun _ => served_inv w pkt (pre ++ [i])) w1.
Proof.
  intros Hw Hpkt El (Hw1 & Efd & Ec & Ei & Eq & Eid & Hh).
  destruct (seqZ_split _ _ _ _ El) as (Hi & Hipre & Hpos).
  pose proof (deliver_one_free pkt i Hpkt Hi w1 Hw1) as Hfree.
  pose proof (deliver_one_spec pkt i w1 Hw1 Hi) as Hone. rewrite wp_done in Hfree, Hone |- *.
  destruct Hone as (u & w2 & E2 & p & Ep & Hone), Hfree as (u' & w2' & E2' & (Hw2 & _)).
  rewrite E2 in E2'. injection E2' as <- <-. exists u, w2. split; [done|]. rewrite Efd in Ep.
  destruct (Z.eqb_spec p 0) as [->|Hp].
  - subst w2. unfold served_inv. split_and!; try done. by apply heap_served_skip.
  - destruct Hone as (fs0 & fs1 & k & Hh0 & Hgot & ->). unfold served_inv. ws. split_and!; try done.
    apply (heap_served_step w pkt pre i (heap w1) p fs0 fs1); try done.
    + intros (_ & j & Hj & Ej).
      pose proof (own_nodup _ _ _ (ok_owners _ Hw) _ _ _ Ep Ej Hp) as Eij.
      apply Hipre. pose proof (Hpos j Hj). by replace i with j by lia.
    + unfold file_got, wants in *. by rewrite Eid in Hgot.
Qed.

(** C13. Delivery to user space: of a packet, every open file that should see it
    (it is addressed to this node, or the file is promiscuous or snoops) and
    has room gets exactly one copy, at the end of its queue; every other open
    file keeps its queue; no file changes in any other way. *)
Theorem deliver_to_files pkt w :
  drv_ok w -> pkt_ok pkt ->
  wp (for_each (seqZ 0 CAN_MAX_USECOUNT) (deliver_one pkt)) (fun _ w' =>
    openfd w' = openfd w /\ w_con w' = w_con w /\ inq w' = inq w /\ outq w' = outq w /\
    (forall p fs, heap w !! p = Some fs -> exists fs', heap w' !! p = Some fs' /\
       if bool_decide (is_open (openfd w) p) then file_got w pkt p fs fs' else fs' = fs)) w.
Proof.
  intros Hw Hp.
  eapply wp_mono; [apply (wp_for_each (deliver_one pkt) (served_inv w pkt) (seqZ 0 CAN_MAX_USECOUNT) [] w)|].
  - unfold served_inv. split_and!; try done. intros p fs Hfs. exists fs. split; [done|]. split; [|done].
    intros (_ & i & Hi & _). by apply elem_of_nil in Hi.
  - intros pre i post w1 El HI. by apply (deliver_step pkt w pre i post).
  - cbn [app]. intros u w' (Hw' & Efd & Ec & Ei & Eq & _ & Hh). split_and!; try done.
    intros p fs Hfs. destruct (Hh p fs Hfs) as (fs' & Hl & Hs & Hn). exists fs'. split; [done|].
    rewrite served_open in Hs, Hn by apply Hw. case_bool_decide; auto.
Qed.

(** ** read *)

(** C37. A read without sleeping: with room for less than one packet it fails
    with -EIO; with nothing queued it fails with -EAGAIN (or would sleep);
    otherwise it returns the oldest packets of the file's queue, in order, as
    many as are there and as fit, and exactly these leave the queue. *)
Theorem read_returns_oldest p nonblock count w fs q :
  heap w !! p = Some fs -> ring_rep (fs_inq fs) q ->
  wp (can_read p nonblock (fun _ => true) count []) (fun r w' =>
    if count <? PKTSIZE then r = (Some (- EIO), []) /\ w' = w
    else
      let n := min (Z.to_nat (count / PKTSIZE)) (length q) in
      r = (if bool_decide (q = []) then if nonblock then Some (- EAGAIN) else None
           else Some (Z.of_nat n * PKTSIZE), take n q) /\
      exists rb, ring_rep rb (drop n q) /\
        w' = set_heap (<[p := FileState rb (promiscuous fs) (snoopy fs) (consobj fs)]> (heap w)) w) w.
Proof.
  intros Hh Hq. unfold can_read. destruct (Z.ltb_spec count PKTSIZE) as [Hc|Hc]; [done|].
  cbn [can_read_loop]. rewrite wp_bind.
  eapply wp_mono; [by apply (ring_to_user_spec p _ _ 0 w fs q)|].
  intros [got pkts] w' (n & rb & Hrb & -> & [(E & -> & _)|(_ & _ & k & _ & ? & _)]); [|done].
  injection E as -> ->. cbv zeta.
  assert (H1 : (1 <= Z.to_nat (count / PKTSIZE))%nat).
  { unfold PKTSIZE in *. assert (1 <= count / 16) by (apply Z.div_le_lower_bound; lia). lia. }
  set (n := min _ (length q)) in *. rewrite (proj2 (Z.ltb_ge (Z.of_nat n) 0)) by lia.
  destruct q as [|x q].
  - cbn [length] in n. replace n with 0%nat in * by (unfold n; lia).
    rewrite bool_decide_true by done.
    destruct nonblock; hnf; (split; [done|]); by exists rb.
  - rewrite bool_decide_false by done. rewrite (proj2 (Z.ltb_lt 0 _)) by (unfold n; cbn; lia).
    rewrite wp_ret. split; [done|]. by exists rb.
Qed.

(** A read into a bad user buffer: when packet number [k] cannot be stored,
    the read fails with -EFAULT, although [k] packets were delivered; these
    and the one that could not be stored are gone from the queue. *)
Theorem read_fault_loses p nonblock ok count w fs q k :
  heap w !! p = Some fs -> ring_rep (fs_inq fs) q -> PKTSIZE <= count ->
  (k < Z.to_nat (count / PKTSIZE))%nat -> (k < length q)%nat ->
  ok k = false -> (forall j, (j < k)%nat -> ok j = true) ->
  wp (can_read p nonblock ok count []) (fun r w' =>
    r.1 = Some (- EFAULT) /\
    exists fs', heap w' !! p = Some fs' /\ ring_rep (fs_inq fs') (drop (S k) q)) w.
Proof.
  intros Hh Hq Hc Hk Hkq Hbad Hgood. unfold can_read.
  rewrite (proj2 (Z.ltb_ge count PKTSIZE)) by done. cbn [can_read_loop]. rewrite wp_bind.
  eapply wp_mono; [by apply (ring_to_user_spec p ok _ 0 w fs q)|].
  intros [got pkts] w' (n & rb & Hrb & -> & Hres). cbn [fst] in Hres.
  destruct Hres as [(_ & En & Hall)|(-> & _ & k' & -> & Hbad' & Hgood')].
  { specialize (Hall k ltac:(lia)). cbn in Hall. congruence. }
  cbn [Nat.add] in Hbad'. rewrite (proj2 (Z.ltb_lt (- EFAULT) 0)) by (unfold EFAULT; lia).
  rewrite wp_ret. split; [done|]. ws. rewrite lookup_insert_eq. eexists. split; [done|]. cbn [fs_inq].
  destruct (Nat.lt_trichotomy k' k) as [Hlt|[->|Hlt]]; [|done|].
  - rewrite Hgood in Hbad' by done. done.
  - specialize (Hgood' k Hlt). cbn [Nat.add] in Hgood'. congruence.
Qed.

(** ** write *)

(** send_pkt() accepted the packets [ps], one after the other. *)
Inductive sends_all : world -> list can_packet -> world -> Prop :=
  | sends_nil w : sends_all w [] w
  | sends_cons w p w1 ps w2 qi qo :
      queues w qi qo -> send_post w qi qo (stamped w (fixed_up w p)) 1 w1 ->
      sends_all w1 ps w2 -> sends_all w (p :: ps) w2.

(** ... and refuses [p], its queue being full. *)
Definition refuses w p : Prop :=
  exists qi qo, queues w qi qo /\ send_post w qi qo (stamped w (fixed_up w p)) 0 w.

Lemma send_post_value w qi qo p v w' : send_post w qi qo p v w' -> v = 1 \/ (v = 0 /\ w' = w).
Proof. unfold send_post. repeat case_match; intros Hs; destruct Hs; auto. Qed.

Lemma user_to_outq_spec buf count i w :
  drv_ok w -> (forall k p, buf k = Some p -> pkt_ok p /\ fits p) ->
  wp (user_to_outq buf count i) (fun r w' => exists ps,
    (length ps <= count)%nat /\ (forall k p, ps !! k = Some p -> buf (i + k)%nat = Some p) /\
    sends_all w ps w' /\
    ((r = Z.of_nat (i + length ps) /\
      (length ps = count \/ exists p, buf (i + length ps)%nat = Some p /\ refuses w' p)) \/
     (r = - EFAULT /\ (length ps < count)%nat /\ buf (i + length ps)%nat = None))) w.
Proof.
  intros Hw Hb. revert i w Hw. induction count as [|count IH]; intros i w Hw; cbn [user_to_outq].
  { rewrite wp_ret. exists []. split_and!; [done|by intros k p Hk|constructor|].
    left. cbn. split; [lia|by left]. }
  destruct (buf i) as [pkt|] eqn:Eb.
  2:{ rewrite wp_ret. exists []. split_and!; [cbn; lia|by intros k p Hk|constructor|].
      right. cbn. rewrite Nat.add_0_r. split_and!; [done|lia|done]. }
  destruct (Hb _ _ Eb) as [Hp Hs]. rewrite wp_bind. destruct (ok_queues _ Hw) as (qi & qo & Hq & Si).
  eapply wp_mono; [by apply (send_pkt_spec pkt w qi qo)|]. intros [v pk] w1 [_ Hpost]. cbn [fst] in Hpost.
  pose proof (send_post_value _ _ _ _ _ _ Hpost) as Hv.
  assert (Hw1 : drv_ok w1).
  { apply (sends_ok w pkt w1 Hw Hp Hs). by exists qi, qo, v. }
  destruct Hv as [->|[-> ->]].
  - cbn [Z.eqb]. eapply wp_mono; [by apply IH|]. intros r w2 (ps & Hl & Hps & Hall & Hr).
    exists (pkt :: ps). split; [cbn; lia|]. split; [|split].
    + intros [|k] p Hk; cbn in Hk; [injection Hk as <-; by rewrite Nat.add_0_r|].
      replace (i + S k)%nat with (S i + k)%nat by lia. by apply Hps.
    + by eapply sends_cons.
    + cbn [length]. replace (i + S (length ps))%nat with (S i + length ps)%nat by lia.
      destruct Hr as [[-> [Hend|Hend]]|(-> & ? & ?)]; [left|left|right].
      * split; [done|]. left. lia.
      * split; [done|by right].
      * split_and!; [done|lia|done].
  - cbn [Z.eqb]. rewrite wp_ret. exists []. split_and!; [cbn; lia|by intros k p Hk|constructor|].
    left. cbn [length]. rewrite Nat.add_0_r. split; [done|]. right. exists pkt. split; [done|].
    by exists qi, qo.
Qed.


(** ** Promiscuous mode *)

Lemma wp_init_then w pr (Q : unit -> world -> Prop) :
  (forall tr i f, Q tt (set_io tr (set_irq_installed i (set_first_time f w)))) ->
  wp (can_init_82c200 pr ;; skip) Q w.
Proof.
  intros HQ. rewrite wp_bind. eapply wp_mono; [apply can_init_82c200_frame|].
  intros v w' (tr & i & f & ->). rewrite wp_skip. apply HQ.
Qed.

Lemma set_promiscuous_spec p w fs arg :
  heap w !! p = Some fs ->
  wp (can_ioctl p CAN_SET_PROMISCUOUS arg) (fun _ w' =>
    promiscuous_usecount w' = promiscuous_usecount w + 1 /\
    heap w' = <[p := set_promiscuous 1 fs]> (heap w)) w.
Proof.
  intros Hh. cbn [can_ioctl]. rewrite wp_bind, wp_get_fs. exists fs. split; [done|].
  rewrite wp_bind, wp_put_fs, wp_bind, wp_gets, wp_bind, wp_modify, wp_bind, wp_when. ws.
  split; intros _; [|done]. apply wp_init_then. intros. rewrite wp_ret. done.
Qed.
Lemma clr_promiscuous_spec p w fs arg :
  heap w !! p = Some fs ->
  wp (can_ioctl p CAN_CLR_PROMISCUOUS arg) (fun _ w' =>
    promiscuous_usecount w' = promiscuous_usecount w - 1 /\
    heap w' = <[p := set_promiscuous 0 fs]> (heap w)) w.
Proof.
  intros Hh. cbn [can_ioctl]. rewrite wp_bind, wp_get_fs. exists fs. split; [done|].
  rewrite wp_bind, wp_put_fs, wp_bind, wp_gets, wp_bind, wp_modify, wp_bind, wp_when. ws.
  split; intros _; [|done]. apply wp_init_then. intros. rewrite wp_ret. done.
Qed.

(** The use count of promiscuous mode counts ioctl() calls, not files: a
    file that asks for the mode twice and gives it up once is no longer
    promiscuous, but the count has grown by one, and closing the file will not
    lower it, so the chip stays promiscuous for ever. *)
Theorem promiscuous_count_leaks p w fs :
  heap w !! p = Some fs ->
  wp (can_ioctl p CAN_SET_PROMISCUOUS None ;; can_ioctl p CAN_SET_PROMISCUOUS None ;;
      can_ioctl p CAN_CLR_PROMISCUOUS None) (fun _ w' =>
    promiscuous_usecount w' = promiscuous_usecount w + 1 /\
    exists fs', heap w' !! p = Some fs' /\ promiscuous fs' = 0) w.
Proof.
  intros Hh. rewrite wp_bind. eapply wp_mono; [by apply set_promiscuous_spec|].
  intros _ w1 [E1 Eh1]. rewrite wp_bind. eapply wp_mono; [apply set_promiscuous_spec|].
  { rewrite Eh1. apply lookup_insert_eq. }
  intros _ w2 [E2 Eh2]. eapply wp_mono; [apply clr_promiscuous_spec|].
  { rewrite Eh2. apply lookup_insert_eq. }
  intros _ w3 [E3 Eh3]. split; [lia|]. rewrite Eh3, lookup_insert_eq. by eexists.
Qed.
End file_props.

Section writes.
Context {P : Prom} {PS : PromStrings P} {H : CanHw} {K : Kernel}.
Implicit Types w : world.

(** C38. A write without sleeping: a length that is no multiple of the packet
    size is refused with -EIO; otherwise the packets of the user buffer are
    sent in order until one is refused for lack of room or cannot be read. The
    result counts the bytes sent, -EAGAIN if there were none; but after an
    unreadable packet it is -EFAULT although the packets before it were sent. *)
Theorem write_sends_prefix buf count w :
  drv_ok (L := any_length) w -> 0 <= count -> (forall k p, buf k = Some p -> pkt_ok p) ->
  wp (can_write true buf count []) (fun r w' =>
    if negb (count mod PKTSIZE =? 0) then r = Some (- EIO) /\ w' = w
    else exists ps,
      (forall k p, ps !! k = Some p -> buf k = Some p) /\ sends_all w ps w' /\
      ((Z.of_nat (length ps) * PKTSIZE = count \/
        exists p, buf (length ps) = Some p /\ refuses w' p) /\
       r = Some (if bool_decide (ps = []) then - EAGAIN else Z.of_nat (length ps) * PKTSIZE) \/
       buf (length ps) = None /\ r = Some (- EFAULT))) w.
Proof.
  intros Hw Hc Hb. unfold can_write. destruct (Z.eqb_spec (count mod PKTSIZE) 0) as [Em|Em]; [|done].
  cbn [negb can_write_loop]. rewrite wp_bind.
  eapply wp_mono; [apply (user_to_outq_spec (L := any_length) buf (Z.to_nat (count / PKTSIZE)) 0 w); [done|by split; [eapply Hb|]]|].
  intros i w' (ps & Hl & Hps & Hall & Hr). cbn [Nat.add] in Hr.
  destruct Hr as [(-> & Hend)|(-> & _ & Hnone)].
  - rewrite (proj2 (Z.ltb_ge _ 0)) by lia.
    assert (Hend' : Z.of_nat (length ps) * PKTSIZE = count \/
                    exists p, buf (length ps) = Some p /\ refuses w' p).
    { destruct Hend as [->|?]; [left|by right]. unfold PKTSIZE in *.
      assert (0 <= count / 16) by (apply Z.div_pos; lia). pose proof (Z.div_mod count 16). lia. }
    destruct ps as [|p ps].
    + hnf. exists []. split; [done|]. split; [done|].
      left. by rewrite bool_decide_true by done.
    + rewrite (proj2 (Z.ltb_lt 0 _)) by (cbn; lia). rewrite wp_ret. exists (p :: ps).
      split; [done|]. split; [done|]. left. split; [done|]. by rewrite bool_decide_false by done.
  - rewrite (proj2 (Z.ltb_lt (- EFAULT) 0)) by (unfold EFAULT; lia). rewrite wp_ret.
    exists ps. split; [done|]. split; [done|]. by right.
Qed.
End writes.

(** * Examples *)

#[local] Existing Instance demo_prom_strings.

Lemma demo_two_ok : drv_ok demo_two.
Proof. exact (reachable_ok demo_world demo_two ready_rx demo_ok demo_two_reachable). Qed.

Lemma alloc_consobj_spec_witness :
  wp (can_alloc_consobj (P := demo_prom)) (fun c _ => CAN_VALID_CONSOBJ c = true) demo_world.
Proof.
  eapply wp_mono.
  - apply (alloc_consobj_spec demo_world). exact demo_ok.
  - intros c w' [(_ & _ & Hall)|[Hv _]]; [|exact Hv].
    specialize (Hall 0 ltac:(done)). discriminate.
Defined.

Lemma open_release_roundtrip_witness :
  if bool_decide (0 ∈ openfd demo_world) then
    wp (can_open (P := demo_prom) 4096 demo_mem) (fun r w1 =>
      r = (0, 4096) /\
      (exists fs, heap w1 !! 4096 = Some fs /\ promiscuous fs = 0 /\ snoopy fs = 0 /\
         consobj fs = -1 /\ ring_rep (fs_inq fs) []) /\
      wp (can_release (H := ready_chip) (K := demo_kernel) 4096) (fun r' w2 =>
        r' = 0 /\ openfd w2 = openfd demo_world /\ heap w2 = heap demo_world /\
        can_usecount w2 = can_usecount demo_world /\ mod_usecount w2 = mod_usecount demo_world /\
        consobj_reserved w2 = consobj_reserved demo_world) w1) demo_world
  else can_open (P := demo_prom) 4096 demo_mem demo_world = Done (- EBUSY, 0) demo_world.
Proof.
  apply (open_release_roundtrip (H := ready_chip) (K := demo_kernel) 4096 demo_mem demo_world).
  - exact demo_ok.
  - discriminate.
  - reflexivity.
  - reflexivity.
Defined.

Lemma deliver_to_files_witness :
  wp (for_each (seqZ 0 CAN_MAX_USECOUNT)
        (deliver_one (P := demo_prom) (demo_request CANTYPE_RO 1 0)))
    (fun _ w' => openfd w' = openfd demo_two /\ inq w' = inq demo_two) demo_two.
Proof.
  eapply wp_mono.
  - apply (deliver_to_files (demo_request CANTYPE_RO 1 0) demo_two); [exact demo_two_ok|].
    apply demo_request_ok. lia.
  - intros u w' (Ho & _ & Hi & _). exact (conj Ho Hi).
Defined.

(** A file with two packets to read. *)
Definition demo_pkts : list can_packet := [demo_request CANTYPE_RO 1 0; demo_request CANTYPE_RO 2 0].
Definition demo_fs : file_state :=
  FileState (Ring (demo_pkts ++ replicate 1022 zero_packet) 2 0 0 0) 0 0 (-1).
Lemma demo_fs_rep : ring_rep (fs_inq demo_fs) demo_pkts.
Proof.
  unfold ring_rep. refine (conj eq_refl (conj _ (conj _ (conj eq_refl _)))).
  - cbn. unfold MAXRING. lia.
  - cbn. unfold MAXRING. lia.
  - intros [|[|i]] x Hi; cbn in Hi; [injection Hi as <-; reflexivity..|done].
Qed.
Definition demo_reader : @world demo_prom := set_heap {[4096 := demo_fs]} demo_world.

Lemma read_returns_oldest_witness :
  wp (can_read (P := demo_prom) 4096 true (fun _ => true) 20 [])
    (fun r _ => r = (Some 16, [demo_request CANTYPE_RO 1 0])) demo_reader.
Proof.
  eapply wp_mono.
  - apply (read_returns_oldest 4096 true 20 demo_reader demo_fs demo_pkts).
    + reflexivity.
    + exact demo_fs_rep.
  - intros r w' [-> _]. rewrite (bool_decide_false (demo_pkts = [])) by done. reflexivity.
Defined.

Lemma read_fault_loses_witness :
  wp (can_read (P := demo_prom) 4096 true (fun i => (i =? 0)%nat) 32 [])
    (fun r w' => r.1 = Some (- EFAULT) /\
       exists fs', heap w' !! 4096 = Some fs' /\ ring_rep (fs_inq fs') []) demo_reader.
Proof.
  apply (read_fault_loses 4096 true (fun i => (i =? 0)%nat) 32 demo_reader demo_fs demo_pkts 1).
  - reflexivity.
  - exact demo_fs_rep.
  - unfold PKTSIZE. lia.
  - apply Nat.ltb_lt. vm_compute. reflexivity.
  - apply Nat.ltb_lt. vm_compute. reflexivity.
  - reflexivity.
  - intros [|j] Hj; [reflexivity|lia].
Defined.

Lemma write_sends_prefix_witness :
  wp (can_write (P := demo_prom) (H := ready_chip) true (fun i => demo_pkts !! i) 32 [])
    (fun r w' => exists ps, sends_all demo_world ps w') demo_world.
Proof.
  eapply wp_mono.
  - apply (write_sends_prefix (H := ready_chip) (fun i => demo_pkts !! i) 32 demo_world).
    + exact (drv_ok_any short_only demo_world demo_ok).
    + lia.
    + intros [|[|k]] p Hk; cbn in Hk; [injection Hk as <-|injection Hk as <-|done];
        (apply demo_request_ok; lia).
  - intros r w' (ps & _ & Hs & _). by exists ps.
Defined.

Lemma promiscuous_count_leaks_witness :
  wp (can_ioctl (P := demo_prom) (H := ready_chip) (K := demo_kernel) 4096 CAN_SET_PROMISCUOUS None ;;
      can_ioctl (H := ready_chip) (K := demo_kernel) 4096 CAN_SET_PROMISCUOUS None ;;
      can_ioctl (H := ready_chip) (K := demo_kernel) 4096 CAN_CLR_PROMISCUOUS None) (fun _ w' =>
    promiscuous_usecount w' = 1) demo_reader.
Proof.
  eapply wp_mono.
  - apply (promiscuous_count_leaks (H := ready_chip) (K := demo_kernel) 4096 demo_reader demo_fs).
    reflexivity.
  - intros u w' [Hc _]. exact Hc.
Defined.
