(* ===== verification/FileErrors.v ===== *)
(** What a failing call on an open file of the CAN driver leaves behind: the
    error branches of open, ioctl, read and write, each with the cause of the
    error and the state after it. *)

From stdpp Require Import prelude list numbers gmap strings.
From Stdlib Require Import ZArith Lia.
From S2P Require Import Prelude CanTypes Ring Obp World Demo CanSend Console CanObj CanMain CanChip DriverInv DriverTotal DriverFiles DriverSteps ObjProps FileProps.

Section file_errors.
Context {P : Prom} {PS : PromStrings P} {L : Lengths} {H : CanHw} {K : Kernel}.
Implicit Types w : world.

(** The error [e] of can_ioctl() on the file [fs] at [p], by command, and the
    state [w'] after it. *)
Definition ioctl_failed w p fs (cmd : can_cmd) (arg : option Z) (e : Z) w' : Prop :=
  match cmd with
  | CAN_OTHER _ => e = - EINVAL /\ w' = w
  | CAN_GET_HEARTBEAT | CAN_SET_HEARTBEAT | CAN_GET_ADDR => e = - EFAULT /\ arg = None /\ w' = w
  | CAN_GET_CONSOBJ =>
      (e = - EBUSY /\ consobj fs = -1 /\ all_reserved w /\ w' = w) \/
      (e = - EFAULT /\ arg = None /\ exists c res, CAN_VALID_CONSOBJ c = true /\
         res !! Z.to_nat (c - CANOBJ_CONSMIN) = Some 1 /\
         w' = set_heap (<[p := set_consobj c fs]> (heap w)) (set_consobj_reserved res w))
  | _ => False
  end.

(** The file [fs] at [p] with the ring [rb], all else as in [w]. *)
Definition with_ring w p fs rb : world :=
  set_heap (<[p := FileState rb (promiscuous fs) (snoopy fs) (consobj fs)]> (heap w)) w.

(** A command that ends in success. *)
Lemma spends_then_ok {A B} b (m : eff world A) (v : B) w :
  spends 0 b m -> drv_ok w -> wp (m ;; mret v) (fun r _ => r = v) w.
Proof. intros Hm Hw. rewrite wp_bind. eapply wp_mono; [by apply Hm|]. done. Qed.

Lemma drv_ok_promiscuous v w p fs :
  drv_ok w -> heap w !! p = Some fs -> pkt_ring (fs_inq fs) -> forall n,
  drv_ok (set_promiscuous_usecount n (set_heap (<[p := set_promiscuous v fs]> (heap w)) w)).
Proof.
  intros Hw Hh Hr n. assert (Hf : drv_ok (set_heap (<[p := set_promiscuous v fs]> (heap w)) w))
    by by eapply drv_ok_fs.
  destruct Hf. split; ws; assumption.
Qed.

(** What CAN_GET_CONSOBJ touches, and when it finds no identifier. *)
Lemma get_consobj_frame p arg fs w :
  drv_ok w -> is_open (openfd w) p -> heap w !! p = Some fs ->
  wp (can_ioctl p CAN_GET_CONSOBJ arg) (fun r w' => exists h res,
    w' = set_heap h (set_consobj_reserved res w) /\
    (r.1 = - EBUSY -> res = consobj_reserved w /\ consobj fs = -1 /\ all_reserved w)) w.
Proof.
  intros Hw Ho Hh. cbn [can_ioctl]. rewrite wp_bind, wp_get_fs. exists fs. split; [done|].
  rewrite wp_bind. eapply wp_mono; [by apply (free_held_spec w p fs)|]. intros _ w1 (k & res & -> & Hres).
  assert (Hlen : length res = Z.to_nat COSIZE).
  { destruct Hres as [[_ ->]|(_ & _ & ->)]; [|rewrite length_insert]; apply Hw. }
  rewrite wp_bind. eapply wp_mono; [apply can_alloc_consobj_spec; exact Hlen|].
  intros c w2 Hc. rewrite wp_bind, wp_put_fs.
  destruct Hc as [(-> & Hall & ->)|(j & v & -> & Hj & Ej & Hv & ->)].
  - rewrite Z.eqb_refl, wp_ret. eexists _, res. split; [reflexivity|]. intros _.
    destruct Hres as [[Ec ->]|(_ & Hk & ->)]; [done|].
    specialize (Hall (Z.of_nat k) ltac:(lia)). revert Hall. ws. rewrite Nat2Z.id, list_lookup_insert_eq; [done|].
    rewrite <- (length_insert _ k 0). lia.
  - destruct (Z.eqb_spec (CANOBJ_CONSMIN + Z.of_nat j) (-1)) as [Ec|_]; [unfold CANOBJ_CONSMIN in Ec; lia|].
    destruct arg; rewrite wp_ret; eexists _, _; (split; [reflexivity|]); done.
Qed.

Lemma get_consobj_fails p arg fs w :
  drv_ok w -> is_open (openfd w) p -> heap w !! p = Some fs ->
  wp (can_ioctl p CAN_GET_CONSOBJ arg) (fun r w' =>
    r.1 = 0 \/ r.2 = None /\ ioctl_failed w p fs CAN_GET_CONSOBJ arg r.1 w') w.
Proof.
  intros Hw Ho Hh. eapply wp_mono.
  { apply wp_and; [by apply (get_consobj_spec p arg w)|by apply (get_consobj_frame p arg fs w)]. }
  intros r w' [(HO & Ef & fs0 & c & E0 & Eh & Hr) (h & res & -> & Hb)].
  rewrite Hh in E0. injection E0 as <-.
  assert (h = <[p := set_consobj c fs]> (heap w)) as -> by exact Eh. destruct Hr as [[-> ->]|[Hv ->]].
  - right. split; [done|]. left. destruct (Hb eq_refl) as (-> & Ec & Hall). split_and!; try done.
    rewrite insert_id; [world_eq|]. rewrite Hh. destruct fs. cbn in Ec. by subst.
  - destruct arg as [a|]; [by left|]. right. split; [done|]. right. split; [done|]. split; [done|].
    exists c, res. split; [done|]. split; [|done].
    destruct (valid_consobj_index c Hv) as (k & -> & Hk).
    replace (Z.to_nat (CANOBJ_CONSMIN + Z.of_nat k - CANOBJ_CONSMIN)) with k by lia.
    apply (proj2 (own_held _ _ _ (ok_owners _ HO) k)). exists p, (set_consobj (CANOBJ_CONSMIN + Z.of_nat k) fs).
    split; [exact Ho|]. split; [|done]. ws. apply lookup_insert_eq.
Qed.

(** Every error of can_ioctl(). *)
Lemma can_ioctl_fails p cmd arg fs w :
  drv_ok w -> is_open (openfd w) p -> heap w !! p = Some fs ->
  wp (can_ioctl p cmd arg) (fun r w' =>
    r.1 = 0 \/ r.2 = None /\ ioctl_failed w p fs cmd arg r.1 w') w.
Proof.
  intros Hw Ho Hh. destruct (is_open_heap w p Hw Ho) as (fs0 & E0 & Hring).
  rewrite Hh in E0. injection E0 as <-.
  assert (Hok : forall (m : eff world (Z * option Z)) w1, wp m (fun r _ => r = (0, None)) w1 ->
            wp m (fun r w' => r.1 = 0 \/ r.2 = None /\ ioctl_failed w p fs cmd arg r.1 w') w1).
  { intros m w1 Hm. eapply wp_mono; [exact Hm|]. intros r w' ->. by left. }
  destruct cmd; [by apply get_consobj_fails|cbn [can_ioctl]..].
  - rewrite wp_bind, wp_gets. destruct arg; rewrite wp_ret; [by left|by right].
  - apply Hok. rewrite wp_bind, wp_get_fs. exists fs. split; [done|].
    rewrite wp_bind, wp_put_fs, wp_bind, wp_gets, wp_bind, wp_modify.
    eapply spends_then_ok; [|by apply drv_ok_promiscuous].
    apply (spends_none (Some 0)), spends_when; [done|done|apply spends_can_init].
  - apply Hok. rewrite wp_bind, wp_get_fs. exists fs. split; [done|].
    rewrite wp_bind, wp_put_fs, wp_bind, wp_gets, wp_bind, wp_modify.
    eapply spends_then_ok; [|by apply drv_ok_promiscuous].
    apply (spends_none (Some 0)), spends_when; [done|done|apply spends_can_init].
  - unfold canobj_gethbval. rewrite wp_bind, wp_gets. destruct arg; rewrite wp_ret; [by left|by right].
  - destruct arg as [v|]; [|rewrite wp_ret; by right]. unfold canobj_sethbval.
    rewrite wp_bind, wp_modify, wp_ret. by left.
  - apply Hok. rewrite wp_bind. eapply wp_mono; [apply can_init_82c200_frame|]. done.
  - apply Hok. rewrite wp_bind, wp_modify.
    eapply spends_then_ok; [apply spends_dump_info|by apply drv_ok_debug].
  - apply Hok. rewrite wp_bind, wp_modify.
    eapply spends_then_ok; [apply spends_printk|by apply drv_ok_debug].
  - apply Hok. rewrite wp_bind, wp_get_fs. exists fs. split; [done|]. by rewrite wp_bind, wp_put_fs, wp_ret.
  - apply Hok. rewrite wp_bind, wp_get_fs. exists fs. split; [done|]. by rewrite wp_bind, wp_put_fs, wp_ret.
  - rewrite wp_ret. by right.
Qed.

(** Every error of a read that does not sleep. *)
Lemma can_read_fails p ok count fs q w :
  heap w !! p = Some fs -> ring_rep (fs_inq fs) q ->
  wp (can_read p true ok count []) (fun r w' => exists n, r.1 = Some n /\
    (0 < n \/ n = - EIO /\ count < PKTSIZE /\ w' = w \/ n = - EAGAIN /\ q = [] /\ w' = w \/
     n = - EFAULT /\ exists k rb, ok k = false /\ (k < length q)%nat /\
       ring_rep rb (drop (S k) q) /\ w' = with_ring w p fs rb)) w.
Proof.
  intros Hh Hq. unfold can_read. destruct (Z.ltb_spec count PKTSIZE) as [Hc|Hc].
  { rewrite wp_ret. exists (- EIO). auto 8. }
  assert (H1 : exists m, Z.to_nat (count / PKTSIZE) = S m).
  { unfold PKTSIZE in *. assert (1 <= count / 16) by (apply Z.div_le_lower_bound; lia).
    exists (pred (Z.to_nat (count / 16))). lia. }
  destruct H1 as [m Em]. cbn [can_read_loop]. rewrite Em, wp_bind. destruct q as [|x q].
  - cbn [ring_to_user]. rewrite wp_bind, wp_on_fs_inq. exists fs. split; [done|].
    wp_call ring_to_pkt_spec; [exact Hq|]. intros o r [-> ->]. rewrite wp_ret. cbn.
    exists (- EAGAIN). split; [done|]. right. right. left. split; [done|]. split; [done|].
    rewrite insert_id; [world_eq|]. rewrite Hh. by destruct fs.
  - eapply wp_mono; [by apply (ring_to_user_spec p ok (S m) 0 w fs (x :: q))|].
    intros [got pkts] w' (n & rb & Hrb & -> & [(E & -> & _)|(E & Hn & k & -> & Hbad & _)]).
    + injection E as -> ->. cbn [length Nat.add Nat.min].
      rewrite (proj2 (Z.ltb_ge _ 0)), (proj2 (Z.ltb_lt 0 _)), wp_ret by lia.
      eexists. split; [done|]. left. unfold PKTSIZE. lia.
    + cbn in E, Hbad. subst got. cbn [Z.ltb]. rewrite (proj2 (Z.ltb_lt (- EFAULT) 0)), wp_ret by done.
      exists (- EFAULT). split; [done|]. right. right. right. split; [done|]. by exists k, rb.
Qed.

(** Every error of a write that does not sleep. *)
Lemma can_write_fails buf count w :
  drv_ok w -> 0 < count -> (forall k pkt, buf k = Some pkt -> pkt_ok pkt /\ fits pkt) ->
  wp (can_write true buf count []) (fun r w' => exists n, r = Some n /\
    (0 < n \/ n = - EIO /\ count mod PKTSIZE <> 0 /\ w' = w \/
     n = - EAGAIN /\ (exists pkt, buf 0%nat = Some pkt /\ refuses w pkt) /\ w' = w \/
     n = - EFAULT /\ exists ps, buf (length ps) = None /\
       (forall k pkt, ps !! k = Some pkt -> buf k = Some pkt) /\ sends_all w ps w')) w.
Proof.
  intros Hw Hc Hb. unfold can_write. destruct (Z.eqb_spec (count mod PKTSIZE) 0) as [Em|Em]; cbn [negb].
  2:{ rewrite wp_ret. exists (- EIO). auto 8. }
  assert (H1 : (0 < Z.to_nat (count / PKTSIZE))%nat).
  { unfold PKTSIZE in *. pose proof (Z.div_mod count 16). lia. }
  cbn [can_write_loop]. rewrite wp_bind. eapply wp_mono; [by apply user_to_outq_spec|].
  intros i w' (ps & _ & Hps & Hall & Hr). destruct Hr as [[-> Hend]|(-> & _ & Hbad)].
  - cbn [Nat.add] in *. rewrite (proj2 (Z.ltb_ge _ 0)) by lia.
    destruct ps as [|x ps]; [|rewrite (proj2 (Z.ltb_lt 0 _)), wp_ret by (cbn; lia)].
    + inversion Hall; subst. cbn. exists (- EAGAIN). split; [done|]. right. right. left.
      split; [done|]. split; [|done]. destruct Hend as [E|Hend]; [cbn in E; lia|exact Hend].
    + eexists. split; [done|]. left. unfold PKTSIZE. cbn. lia.
  - rewrite (proj2 (Z.ltb_lt (- EFAULT) 0)), wp_ret by done. exists (- EFAULT). split; [done|].
    right. right. right. split; [done|]. by exists ps.
Qed.

End file_errors.

Section failures.
Context {P : Prom} {PS : PromStrings P} {H : CanHw} {K : Kernel}.
Implicit Types w : world.

(** C14. What a failing call leaves behind. On an open file of a driver in a good
    state: a failed open (-EBUSY, all slots taken) changes nothing; a failed
    ioctl (-EINVAL for an unknown command, -EFAULT for a bad address, -EBUSY
    when no console object is left and the file held none) returns no word and
    changes nothing, except that CAN_GET_CONSOBJ with a bad address has already
    exchanged the file's console object, which stays reserved; a read or write
    that fails with -EIO or -EAGAIN changes nothing; one that fails with
    -EFAULT has already taken the packets up to the bad address off the
    file's queue, or sent those before it. *)
Theorem failed_calls p fs q w :
  drv_ok (L := any_length) w -> is_open (openfd w) p -> heap w !! p = Some fs -> ring_rep (fs_inq fs) q ->
  (forall p' mem, p' <> 0 -> wp (can_open p' mem) (fun r w' =>
     r = (0, p') \/ r = (- EBUSY, 0) /\ 0 ∉ openfd w /\ w' = w) w) /\
  (forall cmd arg, wp (can_ioctl p cmd arg) (fun r w' =>
     r.1 = 0 \/ r.2 = None /\ ioctl_failed w p fs cmd arg r.1 w') w) /\
  (forall ok count, wp (can_read p true ok count []) (fun r w' => exists n, r.1 = Some n /\
     (0 < n \/ n = - EIO /\ count < PKTSIZE /\ w' = w \/ n = - EAGAIN /\ q = [] /\ w' = w \/
      n = - EFAULT /\ exists k rb, ok k = false /\ (k < length q)%nat /\
        ring_rep rb (drop (S k) q) /\ w' = with_ring w p fs rb)) w) /\
  (forall buf count, 0 < count -> (forall k pkt, buf k = Some pkt -> pkt_ok pkt) ->
     wp (can_write true buf count []) (fun r w' => exists n, r = Some n /\
       (0 < n \/ n = - EIO /\ count mod PKTSIZE <> 0 /\ w' = w \/
        n = - EAGAIN /\ (exists pkt, buf 0%nat = Some pkt /\ refuses w pkt) /\ w' = w \/
        n = - EFAULT /\ exists ps, buf (length ps) = None /\
          (forall k pkt, ps !! k = Some pkt -> buf k = Some pkt) /\ sends_all w ps w')) w).
Proof.
  intros Hw Ho Hh Hq. split; [|split; [|split]].
  - intros p' mem Hp'. eapply wp_mono; [by apply (can_open_spec (L := any_length))|].
    intros r w' [(-> & -> & Hn)|[-> _]]; [by right|by left].
  - intros cmd arg. by apply (can_ioctl_fails (L := any_length)).
  - intros ok count. by apply can_read_fails.
  - intros buf count Hc Hb. apply (can_write_fails (L := any_length)); [done|done|].
    split; [by eapply Hb|done].
Qed.
End failures.

(** * Example *)
#[local] Existing Instance demo_prom_strings.

Lemma failed_calls_witness :
  exists fs q, heap demo_two !! 4096 = Some fs /\ ring_rep (fs_inq fs) q /\
    wp (can_ioctl (P := demo_prom) (H := ready_chip) (K := demo_kernel) 4096 (CAN_OTHER 99) (Some 5))
      (fun r w' => r.1 = 0 \/ r.2 = None /\
         ioctl_failed demo_two 4096 fs (CAN_OTHER 99) (Some 5) r.1 w') demo_two.
Proof.
  assert (Ho : is_open (openfd demo_two) 4096) by (split; [vm_compute; set_solver|discriminate]).
  destruct (is_open_heap demo_two 4096 demo_two_ok Ho) as (fs & Hh & q & Hq & _).
  exists fs, q. split; [exact Hh|]. split; [exact Hq|].
  pose proof (failed_calls (H := ready_chip) (K := demo_kernel) 4096 fs q demo_two
    (drv_ok_any short_only demo_two demo_two_ok) Ho Hh Hq)
    as (_ & Hio & _).
  apply Hio.
Defined.
