(* ===== verification/CanLib.v ===== *)
(** * The CAN library of the user programs (cmd/can.c)

    Sending and receiving packets over a file descriptor of /dev/can, and the
    tables the tools print and parse.  The descriptor is an interface
    ([CanFd]); CanLibDriver.v shows that the driver implements it. *)

From stdpp Require Import prelude list numbers strings.
From Stdlib Require Import ZArith Lia.
From S2P Require Import Prelude CanTypes Obp.

(** ** The descriptor

    ioctl(fd, CAN_GET_ADDR, ..): the address, [None] on failure.  write(fd,
    pkt, PKTSIZE) and read(fd, &pkt, PKTSIZE): the return value (-1 on
    failure) and, of read, the packet stored, for a return value of PKTSIZE. *)
Class CanFd := {
  fd_st : Type;
  fd_ioctl_addr : eff fd_st (option Z);
  fd_write : can_packet -> eff fd_st Z;
  fd_read : eff fd_st (Z * can_packet)
}.

(** Static variables of can.c, an uninitialised local [struct can_packet],
    and the descriptor. *)
Record lib_state {F : CanFd} := Lib {
  nodeid : Z;              (* unsigned long *)
  initialized : Z;
  lib_stack : can_packet;
  lib_fd : fd_st
}.

Section can_lib.
Context {F : CanFd}.
Abbreviation M := (eff lib_state).
Implicit Types s : lib_state.

Definition on_fd {A} (m : eff fd_st A) : M A :=
  zoom (fun s => lib_fd s) (fun f s => Lib F (nodeid s) (initialized s) (lib_stack s) f) m.

Definition _initialize : M unit :=
  if negb (can_checkalign can_packet_offsets =? 0) then fail Panic
  else
    o ← on_fd fd_ioctl_addr;
    match o with
    | None => fail (Exit 1)
    | Some v => modify (fun s => Lib F v 1 (lib_stack s) (lib_fd s))
    end.

Definition initialize_once : M unit :=
  i ← gets (fun s => initialized s);
  when (i =? 0) _initialize.

(** write() of one packet, with the assertion on its result. *)
Definition write_pkt (pkt : can_packet) : M Z :=
  nbytes ← on_fd (fd_write pkt);
  if (nbytes =? -1) || (nbytes =? PKTSIZE) then mret nbytes else fail Panic.

(** The result is the return value and the packet [ack] points to. *)
Definition can_ack (dat : option Z) (len acknak : Z) (ack : can_packet) : M (Z * can_packet) :=
  initialize_once ;;
  let ack := set_canf Can.length (sizeof_can_header_ext + len) ack in
  let ack := set_extf Ext.type acknak ack in
  let ack := match dat with
             | Some d => if 0 <? len then set_dat d ack else ack
             | None => ack
             end in
  nbytes ← write_pkt ack;
  mret (nbytes, ack).

Definition can_send (ext : Z) (dat : option Z) (len : Z) : M Z :=
  initialize_once ;;
  id ← gets (fun s => nodeid s);
  pkt ← gets (fun s => lib_stack s);
  let pkt := set_canf Can.lpriority CAN_HIGH_PRIORITY pkt in
  let pkt := set_canf Can.length (sizeof_can_header_ext + len) pkt in
  let pkt := set_canf Can.dest
               (if (UNPACK_MODULE id =? fget Ext.module ext)
                   && (UNPACK_CLUSTER id =? fget Ext.cluster ext)
                then fget Ext.node ext else CAN_MODULE_H8) pkt in
  let pkt := set_ext ext pkt in
  let pkt := match dat with
             | Some d => if 0 <? len then set_dat d pkt else pkt
             | None => pkt
             end in
  write_pkt pkt.

Definition ACKABLE (t : Z) : bool :=
  (t =? CANTYPE_RO) || (t =? CANTYPE_WO) || (t =? CANTYPE_DAT).

(** What can_recv() stores through [ext], [dat] and [len], if anything. *)
Record received_t := Received { r_ext : Z; r_dat : Z; r_len : Z }.

(** [ack = None] is the NULL pointer; otherwise the packet [ack] points to,
    before and after.  When read() fails, the test for [ack] looks at the
    packet that was not read. *)
Definition can_recv (ack : option can_packet) : M (Z * option received_t * option can_packet) :=
  initialize_once ;;
  '(nbytes, pkt) ← on_fd fd_read;
  if negb ((nbytes =? -1) || (nbytes =? PKTSIZE)) then fail Panic
  else
    let got := if nbytes =? PKTSIZE
               then Some (Received (ext pkt) (dat pkt)
                            (canf Can.length pkt - sizeof_can_header_ext))
               else None in
    match ack with
    | None => mret (nbytes, got, None)
    | Some a =>
        if negb (nbytes =? PKTSIZE) then fail Uninit
        else if ACKABLE (extf Ext.type pkt) then
          let a := set_canf Can.lpriority CAN_HIGH_PRIORITY a in
          let a := set_canf Can.length sizeof_can_header_ext a in
          let a := set_canf Can.dest (canf Can.src pkt) a in
          let a := set_ext (ext pkt) a in
          let a := set_extf Ext.type CANTYPE_ACK a in
          mret (nbytes, got, Some a)
        else mret (nbytes, got, Some a)
    end.

Definition ISACKNAK (t : Z) : bool := (t =? CANTYPE_ACK) || (t =? CANTYPE_NAK).

(** Is the received packet the answer to the transaction [ext]? *)
Definition answers (ext lext : Z) : bool :=
  ISACKNAK (fget Ext.type lext)
  && (fget Ext.object lext =? fget Ext.object ext)
  && (fget Ext.cluster lext =? fget Ext.cluster ext)
  && (fget Ext.module lext =? fget Ext.module ext)
  && (fget Ext.node lext =? fget Ext.node ext).

(** The result is the return value and, when an answer came, the new [*ext],
    [*dat] and [*len]. *)
Fixpoint can_recv_ack_loop (fuel : nat) (ext : Z) : M (Z * option received_t) :=
  match fuel with
  | O => fail OutOfFuel
  | S fuel' =>
      '(nbytes, got, _) ← can_recv None;
      if nbytes =? -1 then mret (nbytes, None)
      else
        r ← the Uninit got;
        if answers ext (r_ext r) then
          mret (nbytes, Some (Received (fset Ext.type (fget Ext.type (r_ext r)) ext)
                                (r_dat r) (r_len r)))
        else can_recv_ack_loop fuel' ext
  end.

Definition can_recv_ack (fuel : nat) (ext : Z) : M (Z * option received_t) :=
  initialize_once ;;
  can_recv_ack_loop fuel ext.
End can_lib.

(** ** Characters and words *)

Definition tolower (c : Z) : Z := if (65 <=? c) && (c <=? 90) then c + 32 else c.

(** strcasecmp(a, b) == 0 *)
Definition strcaseeq (a b : cstring) : bool := bool_decide (map tolower a = map tolower b).

Definition isspace (c : Z) : bool := (c =? 32) || ((9 <=? c) && (c <=? 13)).

Definition xdigit (c : Z) : option Z :=
  if (48 <=? c) && (c <=? 57) then Some (c - 48)
  else if (97 <=? tolower c) && (tolower c <=? 102) then Some (tolower c - 87)
  else None.

Fixpoint skip_space (s : cstring) : cstring :=
  match s with c :: s' => if isspace c then skip_space s' else s | [] => [] end.

(** sscanf() of %s: the next word and what follows it. *)
Fixpoint word_chars (s : cstring) : cstring * cstring :=
  match s with
  | c :: s' => if isspace c then ([], s) else let (w, r) := word_chars s' in (c :: w, r)
  | [] => ([], [])
  end.
Definition scan_s (s : cstring) : option (cstring * cstring) :=
  match word_chars (skip_space s) with ([], _) => None | (w, r) => Some (w, r) end.

(** sscanf() of %x: an optional sign, an optional 0x, hexadecimal digits; the
    value is that of strtoul(), which saturates, converted to 32 bits. *)
Fixpoint hex_digits (acc : Z) (s : cstring) : Z * cstring :=
  match s with
  | c :: s' =>
      match xdigit c with
      | Some d => hex_digits (acc * 16 + d) s'
      | None => (acc, s)
      end
  | [] => (acc, [])
  end.

Definition scan_sign (s : cstring) : Z * cstring :=
  match s with
  | c :: s' => if c =? 45 then (-1, s') else if c =? 43 then (1, s') else (1, s)
  | [] => (1, [])
  end.

Definition scan_x (s : cstring) : option (Z * cstring) :=
  let '(sign, s1) := scan_sign (skip_space s) in
  let value v := if 2 ^ 32 <=? v then 2 ^ 32 - 1 else u32 (sign * v) in
  match s1 with
  | c :: s' =>
      match xdigit c with
      | None => None
      | Some _ =>
          let s2 := match s' with
                    | x :: s'' => if (c =? 48) && (tolower x =? 120) then s'' else s1
                    | [] => s1
                    end in
          let '(v, r) := hex_digits 0 s2 in Some (value v, r)
      end
  | [] => None
  end.

Definition scan_char (c : Z) (s : cstring) : option cstring :=
  match s with x :: s' => if x =? c then Some s' else None | [] => None end.

(** sscanf(canid, "%x,%x,%x", ..) with all three items. *)
Definition comma : Z := 44.
Definition scan_canid (s : cstring) : option (Z * Z * Z) :=
  '(c, s) ← scan_x s; s ← scan_char comma s;
  '(m, s) ← scan_x s; s ← scan_char comma s;
  '(n, _) ← scan_x s; Some (c, m, n).

(** fgets(buf, size, f) until the end of the file: the pieces of at most
    [size - 1] characters, each up to a newline. *)
Fixpoint fgets_lines (room : nat) (size : nat) (acc : cstring) (f : list Z) : list cstring :=
  match f with
  | [] => match acc with [] => [] | _ => [rev acc] end
  | c :: f' =>
      match room with
      | O => []
      | S room' =>
          if (c =? 10) || (room' =? 0)%nat
          then rev (c :: acc) :: fgets_lines (size - 1) size [] f'
          else fgets_lines room' size (c :: acc) f'
      end
  end.

(** A line as the string functions see it: up to the first NUL. *)
Fixpoint c_str (s : list Z) : cstring :=
  match s with c :: s' => if c =? 0 then [] else c :: c_str s' | [] => [] end.

Definition BSIZE : nat := 255.
Definition MAXHOSTNAMELEN : Z := 128.

Definition lines_of (f : list Z) : list cstring :=
  map c_str (fgets_lines (BSIZE - 1) BSIZE [] f).

(** ** /etc/canhosts and /etc/canobj

    [f] is the file's content, [None] when fopen() fails. *)
Record canhostname := CanHost {
  h_cluster : Z; h_module : Z; h_node : Z; hostname : cstring
}.
Record canobj := CanObject { o_id : Z; o_name : cstring }.

(** sscanf(buf, "%s %s", canid, hostname): the two words; the second must
    fit its buffer. *)
Definition scan_two (buf : cstring) : eff unit (option (cstring * cstring)) :=
  match scan_s buf with
  | None => mret None
  | Some (canid, r) =>
      match scan_s r with
      | None => mret None
      | Some (name, _) =>
          if MAXHOSTNAMELEN <=? Z.of_nat (length name) then fail OutOfBounds
          else mret (Some (canid, name))
      end
  end.

(** sscanf(buf, "%x %s", &tmpid, tmpname). *)
Definition scan_obj (buf : cstring) : eff unit (option (Z * cstring)) :=
  match scan_x buf with
  | None => mret None
  | Some (id, r) =>
      match scan_s r with
      | None => mret None
      | Some (name, _) =>
          if MAXHOSTNAMELEN <=? Z.of_nat (length name) then fail OutOfBounds
          else mret (Some (s32 id, name))
      end
  end.

Fixpoint gethostbyname_loop (name : cstring) (ls : list cstring) (host : option canhostname)
    : eff unit (option canhostname) :=
  match ls with
  | [] => mret host
  | buf :: ls' =>
      o ← scan_two buf;
      gethostbyname_loop name ls'
        (match o with
         | Some (canid, hostname) =>
             if bool_decide (hostname = name) then
               match scan_canid canid with
               | Some (c, m, n) => Some (CanHost (s32 c) (s32 m) (s32 n) hostname)
               | None => host
               end
             else host
         | None => host
         end)
  end.

(** [Some host] stands for the return value 0, [None] for -1. *)
Definition can_gethostbyname (f : option (list Z)) (name : cstring)
    : eff unit (option canhostname) :=
  match f with
  | None => mret None
  | Some f => gethostbyname_loop name (lines_of f) None
  end.

Fixpoint gethostbyaddr_loop (c m n : Z) (ls : list cstring) (host : option canhostname)
    : eff unit (option canhostname) :=
  match ls with
  | [] => mret host
  | buf :: ls' =>
      o ← scan_two buf;
      gethostbyaddr_loop c m n ls'
        (match o with
         | Some (canid, hostname) =>
             match scan_canid canid with
             | Some (xc, xm, xn) =>
                 if (u32 c =? xc) && (u32 m =? xm) && (u32 n =? xn)
                 then Some (CanHost (s32 xc) (s32 xm) (s32 xn) hostname) else host
             | None => host
             end
         | None => host
         end)
  end.

Definition can_gethostbyaddr (f : option (list Z)) (c m n : Z)
    : eff unit (option canhostname) :=
  match f with
  | None => mret None
  | Some f => gethostbyaddr_loop c m n (lines_of f) None
  end.

(** The first line that satisfies the test ends the search. *)
Fixpoint getobj_loop (test : Z -> cstring -> bool) (ls : list cstring)
    : eff unit (option canobj) :=
  match ls with
  | [] => mret None
  | buf :: ls' =>
      o ← scan_obj buf;
      match o with
      | Some (id, name) =>
          if test id name then mret (Some (CanObject id name)) else getobj_loop test ls'
      | None => getobj_loop test ls'
      end
  end.

Definition can_getobjbyname (f : option (list Z)) (name : cstring) : eff unit (option canobj) :=
  match f with
  | None => mret None
  | Some f => getobj_loop (fun _ tmpname => strcaseeq tmpname name) (lines_of f)
  end.

Definition can_getobjbyid (f : option (list Z)) (id : Z) : eff unit (option canobj) :=
  match f with
  | None => mret None
  | Some f => getobj_loop (fun tmpid _ => tmpid =? id) (lines_of f)
  end.

(** ** Names of packet types and heartbeat states *)

Definition can_type2str (type : Z) : cstring :=
  let t := Z.land type 0x7 in
  if t =? CANTYPE_RO then str "RO"
  else if t =? CANTYPE_WO then str "WO"
  else if t =? CANTYPE_WNA then str "WNA"
  else if t =? CANTYPE_DAT then str "DAT"
  else if t =? CANTYPE_ACK then str "ACK"
  else if t =? CANTYPE_NAK then str "NAK"
  else if t =? CANTYPE_SIG then str "SIG"
  else str "[?]".

Definition can_str2type (s : cstring) : Z :=
  if strcaseeq s (str "wo") then CANTYPE_WO
  else if strcaseeq s (str "ro") then CANTYPE_RO
  else if strcaseeq s (str "wna") then CANTYPE_WNA
  else if strcaseeq s (str "dat") then CANTYPE_DAT
  else if strcaseeq s (str "ack") then CANTYPE_ACK
  else if strcaseeq s (str "nak") then CANTYPE_NAK
  else if strcaseeq s (str "sig") then CANTYPE_SIG
  else -1.

(** [None] is the NULL pointer. *)
Definition hbstr : list (option cstring) :=
  map (fun s => Some (str s))
    ["held in reset"; "at OK"; "running remote self test"; "ROM loading external code";
     "ROM about to run external code"; "OS called panic"; "disk needs checking";
     "the can module has been loaded"; "UNIX running single user";
     "UNIX going to run level 0"; "UNIX running at level 1"; "UNIX running at level 2";
     "UNIX running at level 3"; "UNIX running at level 4"; "UNIX running at level 5";
     "UNIX running at level 6"; "module power is bad"; "processor is configured out";
     "processor is running vrom"; "H8 did not respond to request";
     "module is not responding"]%string
  ++ replicate 11 None.

Definition HB_NUMSTATES : Z := 0x20.
Definition HB_TO_STATUS (hb : Z) : Z := Z.land (Z.shiftr hb 2) 0x1f.
Definition STATUS_TO_HB (st : Z) : Z := Z.shiftl st 2.

(** The table entry; an index outside the table is a fault. *)
Definition can_hb2str (hb : Z) : eff unit (option cstring) :=
  the OutOfBounds (hbstr !! Z.to_nat (HB_TO_STATUS hb)).

(** The loop of can_str2hb(): [*hb], if it is set. *)
Fixpoint str2hb_loop (s : cstring) (table : list (option cstring)) (i : Z) : option Z :=
  match table with
  | Some t :: table' =>
      if strcaseeq s t then Some (STATUS_TO_HB i) else str2hb_loop s table' (i + 1)
  | _ => None
  end.

Definition can_str2hb (s : cstring) : option Z :=
  str2hb_loop s (take (Z.to_nat HB_NUMSTATES) hbstr) 0.

(** ** Output *)

(** Arguments of the tools' messages. *)
Inductive earg := EInt (z : Z) | EStr (s : cstring).
