(* ===== verification/CanLibProps.v ===== *)
(** * Properties of the tables of the CAN library

    The lookups in /etc/canhosts and /etc/canobj against the list of entries
    the file holds, and the names of packet types and heartbeat states. *)

From stdpp Require Import prelude list numbers strings.
From Stdlib Require Import ZArith Lia.
From S2P Require Import Prelude CanTypes Obp CanLib.

(** ** Reference definitions

    The entry a line of /etc/canhosts holds, and whether its name fits the
    buffer of the lookup functions. *)
Definition two_words (buf : cstring) : option (cstring * cstring) :=
  '(canid, r) ← scan_s buf; '(name, _) ← scan_s r; Some (canid, name).
Definition host_line_fits (buf : cstring) : bool :=
  match two_words buf with
  | Some (_, name) => Z.of_nat (length name) <? MAXHOSTNAMELEN
  | None => true
  end.
Definition host_entry (buf : cstring) : option canhostname :=
  '(canid, name) ← two_words buf; '(c, m, n) ← scan_canid canid;
  Some (CanHost (s32 c) (s32 m) (s32 n) name).

Definition at_addr (c m n : Z) (h : canhostname) : Prop :=
  h_cluster h = c /\ h_module h = m /\ h_node h = n.
#[global] Instance at_addr_dec c m n h : Decision (at_addr c m n h).
Proof. unfold at_addr. apply _. Defined.

(** The last match of a list, or what was found before it. *)
Definition last_match {A} (Q : A -> Prop) `{forall x, Decision (Q x)} (l : list A)
    (o : option A) : option A :=
  match last (filter Q l) with Some x => Some x | None => o end.

Lemma last_match_cons {A} (Q : A -> Prop) `{forall x, Decision (Q x)} x l o :
  last_match Q (x :: l) o = last_match Q l (if decide (Q x) then Some x else o).
Proof.
  unfold last_match. rewrite filter_cons. destruct (decide (Q x)); [|done].
  rewrite last_cons. by destruct (last (filter Q l)).
Qed.

Lemma scan_two_words buf :
  scan_two buf tt = if host_line_fits buf then Done (two_words buf) tt else Fault OutOfBounds.
Proof.
  unfold scan_two, host_line_fits, two_words.
  destruct (scan_s buf) as [[canid r]|]; [cbn|done].
  destruct (scan_s r) as [[name r']|]; [cbn|done].
  destruct (Z.leb_spec MAXHOSTNAMELEN (Z.of_nat (length name))),
    (Z.ltb_spec (Z.of_nat (length name)) MAXHOSTNAMELEN); (done || lia).
Qed.

(** Both lookups: scan the lines, keep the last entry that satisfies [Q]. *)
Lemma scan_hosts (Q : canhostname -> Prop) `{forall h, Decision (Q h)}
    (loop : list cstring -> option canhostname -> eff unit (option canhostname)) :
  (forall host, loop [] host = mret host) ->
  (forall buf ls host, host_line_fits buf = false ->
     loop (buf :: ls) host tt = Fault OutOfBounds) ->
  (forall buf ls host, host_line_fits buf = true ->
     loop (buf :: ls) host tt =
     loop ls (match host_entry buf with
              | Some h => if decide (Q h) then Some h else host
              | None => host
              end) tt) ->
  forall ls host,
    loop ls host tt =
    if forallb host_line_fits ls then Done (last_match Q (omap host_entry ls) host) tt
    else Fault OutOfBounds.
Proof.
  intros Hnil Hbad Hcons ls. induction ls as [|buf ls IH]; intros host.
  { by rewrite Hnil. }
  cbn [forallb]. destruct (host_line_fits buf) eqn:E; cbn [andb]; [|by apply Hbad].
  rewrite Hcons, IH by done. destruct (forallb _ ls); [|done].
  cbn [omap list_omap]. destruct (host_entry buf); [by rewrite last_match_cons|done].
Qed.

Lemma gethostbyname_scan name ls host :
  gethostbyname_loop name ls host tt =
  if forallb host_line_fits ls
  then Done (last_match (fun h => hostname h = name) (omap host_entry ls) host) tt
  else Fault OutOfBounds.
Proof.
  apply (scan_hosts (fun h => hostname h = name) (gethostbyname_loop name)); [done|..];
    intros buf l host' E; cbn [gethostbyname_loop]; unfold mbind at 1, eff_bind;
    rewrite scan_two_words, E; [done|].
  f_equal. unfold host_entry. destruct (two_words buf) as [[canid nm]|]; [cbn|done].
  destruct (scan_canid canid) as [[[c m] n]|]; cbn.
  - case_bool_decide; case_decide; done.
  - by case_bool_decide.
Qed.

Lemma scan_x_range s v r : scan_x s = Some (v, r) -> 0 <= v < 2 ^ 32.
Proof.
  unfold scan_x. destruct (scan_sign _) as [sign s1]. destruct s1 as [|c s1]; [done|].
  destruct (xdigit c); [|done].
  match goal with |- context [hex_digits 0 ?s2] => destruct (hex_digits 0 s2) as [v' r'] end.
  intros [= <- _]. destruct (Z.leb_spec (2 ^ 32) v'); [lia|]. unfold u32.
  apply Z.mod_pos_bound. lia.
Qed.

Lemma scan_canid_range s c m n : scan_canid s = Some (c, m, n) ->
  0 <= c < 2 ^ 32 /\ 0 <= m < 2 ^ 32 /\ 0 <= n < 2 ^ 32.
Proof.
  unfold scan_canid. intros E.
  apply bind_Some in E as ([c' s1] & E1 & E). apply bind_Some in E as (s2 & _ & E).
  apply bind_Some in E as ([m' s3] & E2 & E). apply bind_Some in E as (s4 & _ & E).
  apply bind_Some in E as ([n' s5] & E3 & E). injection E as <- <- <-.
  split_and!; try (by eapply scan_x_range); by eapply (scan_x_range _ _ _).
Qed.

(** Comparing as unsigned or as signed 32-bit integers is the same. *)
Lemma u32_s32 a x : -2 ^ 31 <= a < 2 ^ 31 -> 0 <= x < 2 ^ 32 ->
  (u32 a =? x) = bool_decide (s32 x = a).
Proof.
  intros Ha Hx. unfold u32, s32. apply Bool.eq_iff_eq_true.
  rewrite Z.eqb_eq, bool_decide_eq_true. split; [intros <-|intros <-].
  - destruct (Z.leb_spec 0 a).
    + rewrite (Z.mod_small a) by lia. rewrite Z.mod_small; lia.
    + replace (a mod 2 ^ 32) with (a + 2 ^ 32).
      * replace (a + 2 ^ 32 + 2 ^ 31) with (a + 2 ^ 31 + 1 * 2 ^ 32) by lia.
        rewrite Z_mod_plus_full, Z.mod_small; lia.
      * rewrite <- (Z_mod_plus_full a 1), Z.mod_small; lia.
  - rewrite Zminus_mod, Zmod_mod, <- Zminus_mod.
    replace (x + 2 ^ 31 - 2 ^ 31) with x by lia. apply Z.mod_small. lia.
Qed.

Lemma gethostbyaddr_scan c m n ls host :
  -2 ^ 31 <= c < 2 ^ 31 -> -2 ^ 31 <= m < 2 ^ 31 -> -2 ^ 31 <= n < 2 ^ 31 ->
  gethostbyaddr_loop c m n ls host tt =
  if forallb host_line_fits ls
  then Done (last_match (at_addr c m n) (omap host_entry ls) host) tt
  else Fault OutOfBounds.
Proof.
  intros Hc Hm Hn.
  apply (scan_hosts (at_addr c m n) (gethostbyaddr_loop c m n)); [done|..];
    intros buf l host' E; cbn [gethostbyaddr_loop]; unfold mbind at 1, eff_bind;
    rewrite scan_two_words, E; [done|].
  f_equal. unfold host_entry. destruct (two_words buf) as [[canid nm]|]; [cbn|done].
  destruct (scan_canid canid) as [[[xc xm] xn]|] eqn:Es; [cbn|done].
  apply scan_canid_range in Es as (Hxc & Hxm & Hxn).
  rewrite !u32_s32 by done. unfold at_addr; cbn.
  repeat case_bool_decide; case_decide; cbn; tauto.
Qed.

(** C39. The lookups in /etc/canhosts: when every name in the file fits the
    buffer, a lookup returns the last entry of the file that matches (by name
    or by address), -1 if there is none; otherwise sscanf() writes past the
    buffer, whether or not the long name is the one looked for. *)
Theorem canhosts_lookup f name c m n :
  -2 ^ 31 <= c < 2 ^ 31 -> -2 ^ 31 <= m < 2 ^ 31 -> -2 ^ 31 <= n < 2 ^ 31 ->
  let fits := forallb host_line_fits (lines_of f) in
  let entries := omap host_entry (lines_of f) in
  can_gethostbyname (Some f) name tt =
    (if fits then Done (last (filter (fun h => hostname h = name) entries)) tt
     else Fault OutOfBounds) /\
  can_gethostbyaddr (Some f) c m n tt =
    (if fits then Done (last (filter (at_addr c m n) entries)) tt else Fault OutOfBounds).
Proof.
  intros Hc Hm Hn. cbn zeta. unfold can_gethostbyname, can_gethostbyaddr.
  rewrite gethostbyname_scan, gethostbyaddr_scan by done. unfold last_match.
  destruct (forallb _ _); [|done]. split; f_equal; by destruct (last _).
Qed.

(** ** /etc/canobj *)

Definition obj_words (buf : cstring) : option (Z * cstring) :=
  '(id, r) ← scan_x buf; '(name, _) ← scan_s r; Some (id, name).
Definition obj_line_fits (buf : cstring) : bool :=
  match obj_words buf with
  | Some (_, name) => Z.of_nat (length name) <? MAXHOSTNAMELEN
  | None => true
  end.
Definition obj_entry (buf : cstring) : option canobj :=
  '(id, name) ← obj_words buf; Some (CanObject (s32 id) name).

Lemma scan_obj_words buf : obj_line_fits buf = true ->
  scan_obj buf tt =
  Done ('(id, name) ← obj_words buf; Some (s32 id, name)) tt.
Proof.
  unfold scan_obj, obj_line_fits, obj_words.
  destruct (scan_x buf) as [[id r]|]; [cbn|done].
  destruct (scan_s r) as [[name r']|]; [cbn|done]. intros E.
  destruct (Z.leb_spec MAXHOSTNAMELEN (Z.of_nat (length name))),
    (Z.ltb_spec (Z.of_nat (length name)) MAXHOSTNAMELEN); (done || lia).
Qed.

Lemma getobj_scan test ls : forallb obj_line_fits ls = true ->
  getobj_loop test ls tt =
  Done (head (filter (fun o => test (o_id o) (o_name o) = true) (omap obj_entry ls))) tt.
Proof.
  induction ls as [|buf ls IH]; [done|]. cbn [forallb]. rewrite andb_true_iff. intros [E Hls].
  specialize (IH Hls). cbn [getobj_loop]. unfold mbind at 1, eff_bind.
  rewrite scan_obj_words by done.
  replace (omap obj_entry (buf :: ls)) with
    (match obj_entry buf with Some o => o :: omap obj_entry ls | None => omap obj_entry ls end)
    by reflexivity.
  unfold obj_entry at 1. destruct (obj_words buf) as [[id name]|];
    cbn [mbind option_bind]; [|exact IH].
  rewrite filter_cons. cbn [o_id o_name].
  destruct (test (s32 id) name); case_decide; done.
Qed.

Lemma head_filter_unique {A B} (Q : A -> Prop) `{forall x, Decision (Q x)} (g : A -> B) b l x :
  NoDup (map g l) -> (forall y, Q y <-> g y = b) ->
  (head (filter Q l) = Some x <-> x ∈ l /\ g x = b).
Proof.
  intros Hnd HQ. induction l as [|y l IH].
  { split; [done|]. by intros [?%elem_of_nil _]. }
  cbn in Hnd. apply NoDup_cons in Hnd as [Hy Hnd]. rewrite filter_cons, elem_of_cons.
  case_decide as HQy.
  - cbn. split; [intros [= ->]; split; [by left|by apply HQ]|].
    intros [[->|Hin] Hb]; [done|]. destruct Hy. apply HQ in HQy. rewrite HQy, <- Hb.
    by apply list_elem_of_fmap_2.
  - rewrite IH by done. split; [intros [? ?]; by split; [right|]|].
    intros [[->|Hin] Hb]; [|done]. destruct HQy. by apply HQ.
Qed.

(** The lookups in /etc/canobj, for a file whose names fit and that lists
    no identifier and (letter case aside) no name twice: a lookup by name or
    by identifier finds exactly the entry that has it; so looking up the
    identifier found for a name gives the name back, and the converse. *)
Theorem canobj_lookup f name i o :
  let entries := omap obj_entry (lines_of f) in
  forallb obj_line_fits (lines_of f) = true ->
  NoDup (map o_id entries) -> NoDup (map (fun o => map tolower (o_name o)) entries) ->
  (can_getobjbyname (Some f) name tt = Done (Some o) tt <->
     o ∈ entries /\ strcaseeq (o_name o) name = true) /\
  (can_getobjbyid (Some f) i tt = Done (Some o) tt <-> o ∈ entries /\ o_id o = i).
Proof.
  intros entries Hfit Hid Hname. unfold can_getobjbyname, can_getobjbyid.
  rewrite !getobj_scan by done. fold entries. split.
  - unfold strcaseeq. rewrite bool_decide_eq_true.
    rewrite <- (head_filter_unique
      (fun o => bool_decide (map tolower (o_name o) = map tolower name) = true)
      (fun o => map tolower (o_name o)) (map tolower name) entries o Hname).
    + split; [by intros [= ->]|by intros ->].
    + intros y. apply bool_decide_eq_true.
  - rewrite <- (head_filter_unique (fun o => (o_id o =? i) = true) o_id i entries o Hid).
    + split; [by intros [= ->]|by intros ->].
    + intros y. apply Z.eqb_eq.
Qed.

(** ** Names *)

Lemma strcaseeq_refl s : strcaseeq s s = true.
Proof. by apply bool_decide_eq_true. Qed.

Lemma strcaseeq_trans a b c : strcaseeq a b = true -> strcaseeq b c = strcaseeq a c.
Proof. unfold strcaseeq. intros E%bool_decide_eq_true. by rewrite E. Qed.

(** can_type2str() and can_str2type() are inverse to each other: a type of
    the protocol is recovered from its name, and a string, in any letter case,
    stands for a type exactly when it is the type's name; the unused code 5
    has no name that can be read back. *)
Theorem type_names_inverse t s :
  0 <= t < 8 -> t <> 5 ->
  can_str2type (can_type2str t) = t /\
  (can_str2type s = t <-> strcaseeq s (can_type2str t) = true) /\
  can_str2type (can_type2str 5) = -1.
Proof.
  intros Ht H5.
  assert (Hall : t = 0 \/ t = 1 \/ t = 2 \/ t = 3 \/ t = 4 \/ t = 6 \/ t = 7) by lia.
  split; [by destruct Hall as [->|[->|[->|[->|[->|[->| ->]]]]]]|].
  split; [|reflexivity].
  assert (Hcase : forall u, strcaseeq s u = true -> can_str2type s = can_str2type u).
  { intros u E. unfold can_str2type. by rewrite !(strcaseeq_trans s u _ E). }
  split.
  - unfold can_str2type.
    repeat (match goal with |- context [strcaseeq s ?u] =>
      let E := fresh in destruct (strcaseeq s u) eqn:E; [intros <-; exact E|clear E] end).
    intros <-. lia.
  - intros E. rewrite (Hcase _ E). by destruct Hall as [->|[->|[->|[->|[->|[->| ->]]]]]].
Qed.

Lemma str2hb_loop_spec s table i hb :
  str2hb_loop s table i = Some hb ->
  exists k t, table !! k = Some (Some t) /\ strcaseeq s t = true /\
    hb = STATUS_TO_HB (i + Z.of_nat k).
Proof.
  revert i. induction table as [|[t|] table IH]; intros i; cbn [str2hb_loop]; try done.
  destruct (strcaseeq s t) eqn:E.
  - intros [= <-]. exists 0%nat, t. split_and!; [done|done|f_equal; lia].
  - intros (k & t' & Hk & Et & ->)%IH. exists (S k), t'. split_and!; [done|done|f_equal; lia].
Qed.

(** A check of the whole table. *)
Lemma hb_names_read_back : forall k, (k < 32)%nat ->
  match hbstr !! k with
  | Some (Some t) => can_str2hb t = Some (STATUS_TO_HB (Z.of_nat k))
  | Some None => True
  | None => False
  end.
Proof.
  assert (H : forallb (fun k => match hbstr !! k with
    | Some (Some t) => bool_decide (can_str2hb t = Some (STATUS_TO_HB (Z.of_nat k)))
    | Some None => true | None => false end) (seq 0 32) = true) by (vm_compute; reflexivity).
  intros k Hk. rewrite forallb_forall in H.
  specialize (H k (proj2 (in_seq 32 0 k) ltac:(lia))).
  destruct (hbstr !! k) as [[t|]|]; [by apply bool_decide_eq_true in H|done|done].
Qed.

Lemma hb_status_range hb : 0 <= HB_TO_STATUS hb < 32.
Proof.
  unfold HB_TO_STATUS. change 0x1f with (Z.ones 5). rewrite Z.land_ones by lia.
  apply Z.mod_pos_bound. lia.
Qed.

Lemma hb_status_shift k : 0 <= k < 32 -> HB_TO_STATUS (STATUS_TO_HB k) = k.
Proof.
  intros Hk. unfold HB_TO_STATUS, STATUS_TO_HB. rewrite Z.shiftr_shiftl_l by lia.
  change (2 - 2) with 0. rewrite Z.shiftl_0_r. change 0x1f with (Z.ones 5).
  rewrite Z.land_ones by lia. apply Z.mod_small. lia.
Qed.

(** The names of heartbeat states: can_hb2str() never leaves its table,
    whatever the value; a name it gives is read back by can_str2hb() as the
    state it names, with the two low bits clear; and what can_str2hb() accepts
    has the given name, letter case aside. *)
Theorem hb_names_inverse hb s v :
  (exists o, can_hb2str hb tt = Done o tt /\
     forall t, o = Some t -> can_str2hb t = Some (STATUS_TO_HB (HB_TO_STATUS hb))) /\
  (can_str2hb s = Some v ->
     exists t, can_hb2str v tt = Done (Some t) tt /\ strcaseeq s t = true).
Proof.
  split.
  - pose proof (hb_status_range hb) as Hr.
    pose proof (hb_names_read_back (Z.to_nat (HB_TO_STATUS hb)) ltac:(lia)) as Hn.
    unfold can_hb2str. destruct (hbstr !! Z.to_nat (HB_TO_STATUS hb)) as [o|]; [|done].
    exists o. split; [done|]. intros t ->. rewrite Z2Nat.id in Hn by lia. exact Hn.
  - intros (k & t & Hk & Et & ->)%str2hb_loop_spec. exists t. split; [|done].
    assert (Hlt : (k < 32)%nat) by (apply lookup_lt_Some in Hk; exact Hk).
    unfold can_hb2str. rewrite Z.add_0_l, hb_status_shift, Nat2Z.id by lia.
    rewrite lookup_take_Some in Hk. by destruct Hk as [-> _].
Qed.

(** * Examples *)

Definition demo_canhosts : list Z :=
  str "# comment" ++ [10] ++ str "00,00,04	node1" ++ [10] ++ str "00,01,1d	mod1-h8" ++ [10].
Definition demo_canobj : list Z :=
  str "0x31 HEARTBEAT" ++ [10] ++ str "3ff TESTRW" ++ [10].

Lemma canhosts_lookup_witness :
  can_gethostbyname (Some demo_canhosts) (str "mod1-h8") tt =
    Done (Some (CanHost 0 1 29 (str "mod1-h8"))) tt /\
  can_gethostbyaddr (Some demo_canhosts) 0 0 4 tt =
    Done (Some (CanHost 0 0 4 (str "node1"))) tt.
Proof.
  destruct (canhosts_lookup demo_canhosts (str "mod1-h8") 0 0 4 ltac:(lia) ltac:(lia) ltac:(lia))
    as [E1 E2].
  split; [rewrite E1|rewrite E2]; vm_compute; reflexivity.
Defined.

Lemma canobj_lookup_witness :
  let o := CanObject 0x3ff (str "TESTRW") in
  can_getobjbyname (Some demo_canobj) (str "testrw") tt = Done (Some o) tt /\
  can_getobjbyid (Some demo_canobj) 0x3ff tt = Done (Some o) tt.
Proof.
  assert (Hin : CanObject 0x3ff (str "TESTRW") ∈ omap obj_entry (lines_of demo_canobj))
    by (vm_compute; right; left).
  destruct (canobj_lookup demo_canobj (str "testrw") 0x3ff (CanObject 0x3ff (str "TESTRW")))
    as [E1 E2].
  - vm_compute. reflexivity.
  - apply (bool_decide_unpack _). vm_compute. exact I.
  - apply (bool_decide_unpack _). vm_compute. exact I.
  - split; [apply E1; split; [exact Hin|vm_compute; reflexivity]|apply E2; by split].
Defined.

Lemma type_names_inverse_witness :
  can_str2type (can_type2str CANTYPE_NAK) = CANTYPE_NAK /\ can_str2type (str "nAk") = CANTYPE_NAK.
Proof.
  destruct (type_names_inverse CANTYPE_NAK (str "nAk")) as (E1 & E2 & _);
    [unfold CANTYPE_NAK; lia|done|].
  split; [exact E1|]. apply E2. vm_compute. reflexivity.
Defined.

Lemma hb_names_inverse_witness :
  can_str2hb (str "AT ok") = Some 4 /\ exists t, can_hb2str 4 tt = Done (Some t) tt.
Proof.
  assert (E : can_str2hb (str "AT ok") = Some 4) by (vm_compute; reflexivity).
  split; [exact E|]. destruct (hb_names_inverse 4 (str "AT ok") 4) as [_ Ht].
  destruct (Ht E) as (t & Et & _). exists t. exact Et.
Defined.
