(* ===== verification/CanLibDriver.v ===== *)
(** * The CAN library over the CAN driver

    The descriptor the library reads and writes is the driver's: the system
    calls on an open /dev/can run can_ioctl(), can_read() and can_write() of
    can_main.c.  The properties follow a request from the tool that makes it
    to the driver's queues, and an answer from there back to the tool. *)

From stdpp Require Import prelude list numbers gmap strings.
From Stdlib Require Import ZArith Lia.
From S2P Require Import Prelude CanTypes Ring Obp World Demo CanSend CanChip Console CanObj CanMain DriverInv DriverTotal DriverFiles DriverSteps ObjProps CanLib.

Section lib_driver.
Context {P : Prom} {PS : PromStrings P} {H : CanHw} {K : Kernel}.
Implicit Types w : world.

(** A blocking descriptor of the open file [p].  The C library turns a
    negative result of a system call into -1; a call that sleeps for ever is
    [Blocked]. *)
Definition syscall (n : Z) : Z := if n <? 0 then -1 else n.

Definition dev_write (pkt : can_packet) : eff world Z :=
  o ← can_write false (fun k => match k with O => Some pkt | S _ => None end) PKTSIZE [];
  match o with None => fail Blocked | Some n => mret (syscall n) end.

Definition dev_read (p : Z) : eff world (Z * can_packet) :=
  '(o, l) ← can_read p false (fun _ => true) PKTSIZE [];
  match o with
  | None => fail Blocked
  | Some n => mret (syscall n, match l with x :: _ => x | [] => zero_packet end)
  end.

Definition dev_ioctl_addr (p : Z) : eff world (option Z) :=
  '(r, v) ← can_ioctl p CAN_GET_ADDR (Some 0);
  mret (if r <? 0 then None else v).

#[local] Instance dev_can (p : Z) : CanFd := {|
  fd_st := world;
  fd_ioctl_addr := dev_ioctl_addr p;
  fd_write := dev_write;
  fd_read := dev_read p
|}.

(** ** The system calls *)

Lemma dev_ioctl_addr_spec p w : dev_ioctl_addr p w = Done (Some (can_nodeid w)) w.
Proof. reflexivity. Qed.

(** write() hands the packet to send_pkt(), or sleeps when it is refused. *)
Lemma dev_write_spec pkt w :
  drv_ok w -> pkt_ok pkt -> short pkt ->
  match dev_write pkt w with
  | Done n w' => n = PKTSIZE /\ drv_ok w' /\
      exists qi qo, queues w qi qo /\ send_post w qi qo (stamped w (fixed_up w pkt)) 1 w'
  | Fault f => f = Blocked /\
      exists qi qo, queues w qi qo /\ send_post w qi qo (stamped w (fixed_up w pkt)) 0 w
  end.
Proof.
  intros Hw Hp Hs. destruct (ok_queues _ Hw) as (qi & qo & Hq & Si).
  pose proof (send_pkt_spec pkt w qi qo Hq Hp) as Hsend.
  apply wp_done in Hsend as ([v p'] & w1 & E & _ & Hpost). cbn [fst] in Hpost.
  assert (Ew : dev_write pkt w =
    if v =? 0 then Fault Blocked else Done PKTSIZE w1).
  { unfold dev_write, can_write. change (negb (PKTSIZE mod PKTSIZE =? 0)) with false.
    change (Z.to_nat (PKTSIZE / PKTSIZE)) with 1%nat.
    cbn [can_write_loop user_to_outq].
    unfold mbind, eff_bind. rewrite E.
    destruct (v =? 0); reflexivity. }
  rewrite Ew. assert (Hv : v = 1 \/ v = 0 /\ w1 = w).
  { unfold send_post in Hpost. repeat case_match; destruct Hpost; auto. }
  destruct Hv as [->|[-> ->]].
  - cbn [Z.eqb]. split; [done|]. split; [|by exists qi, qo].
    apply (sends_ok w pkt w1 Hw Hp Hs). by exists qi, qo, 1.
  - cbn [Z.eqb]. split; [done|]. by exists qi, qo.
Qed.

(** read() takes the oldest packet of the file's queue, or sleeps. *)
Lemma dev_read_spec p w fs q :
  heap w !! p = Some fs -> ring_rep (fs_inq fs) q ->
  match q with
  | [] => dev_read p w = Fault Blocked
  | x :: q' => exists rb, ring_rep rb q' /\
      dev_read p w = Done (PKTSIZE, x)
        (set_heap (<[p := FileState rb (promiscuous fs) (snoopy fs) (consobj fs)]> (heap w)) w)
  end.
Proof.
  intros Hh Hq.
  pose proof (ring_to_user_spec p (fun _ => true) 1 0 w fs q Hh Hq) as Hr.
  apply wp_done in Hr as ([got l] & w' & E & n & rb & Hrb & -> & Hres).
  destruct Hres as [(Eg & -> & _)|(_ & _ & k & _ & ? & _)]; [|done].
  injection Eg as -> ->.
  assert (Ew : dev_read p w =
    match q with
    | [] => Fault Blocked
    | x :: _ => Done (PKTSIZE, x) (set_heap
        (<[p := FileState rb (promiscuous fs) (snoopy fs) (consobj fs)]> (heap w)) w)
    end).
  { unfold dev_read, can_read. change (PKTSIZE <? PKTSIZE) with false.
    change (Z.to_nat (PKTSIZE / PKTSIZE)) with 1%nat. cbn [can_read_loop].
    unfold mbind, eff_bind. rewrite E. destruct q as [|x q]; reflexivity. }
  rewrite Ew. destruct q as [|x q]; [done|]. by exists rb.
Qed.

(** ** Sending *)

(** The library knows the address of the node, or will ask for it. *)
Definition lib_ready (p : Z) (s : @lib_state (dev_can p)) : Prop :=
  initialized s = 0 \/ initialized s = 1 /\ nodeid s = can_nodeid (lib_fd s).

Lemma initialize_once_spec p (s : @lib_state (dev_can p)) : lib_ready p s ->
  initialize_once s = Done tt (Lib (dev_can p) (can_nodeid (lib_fd s)) 1 (lib_stack s) (lib_fd s)).
Proof.
  destruct s as [id i st w]. unfold lib_ready. cbn.
  intros [->|[-> ->]]; reflexivity.
Qed.

(** The packet can_send() builds in its uninitialised local. *)
Definition lib_base (id ext len : Z) (junk : can_packet) : can_packet :=
  set_ext ext (set_canf Can.dest
    (if (UNPACK_MODULE id =? fget Ext.module ext) && (UNPACK_CLUSTER id =? fget Ext.cluster ext)
     then fget Ext.node ext else CAN_MODULE_H8)
    (set_canf Can.length (sizeof_can_header_ext + len)
      (set_canf Can.lpriority CAN_HIGH_PRIORITY junk))).
Definition lib_pkt (id ext : Z) (dat : option Z) (len : Z) (junk : can_packet) : can_packet :=
  match dat with
  | Some d => if 0 <? len then set_dat d (lib_base id ext len junk) else lib_base id ext len junk
  | None => lib_base id ext len junk
  end.

Lemma lib_pkt_fields id e dat len junk :
  pkt_ok junk -> word e -> (forall d, dat = Some d -> word d) -> 0 <= len <= 4 ->
  let pkt := lib_pkt id e dat len junk in
  pkt_ok pkt /\ ext pkt = e /\ canf Can.length pkt = 4 + len /\
  canf Can.lpriority pkt = CAN_HIGH_PRIORITY /\
  canf Can.dest pkt =
    (if (UNPACK_MODULE id =? fget Ext.module e) && (UNPACK_CLUSTER id =? fget Ext.cluster e)
     then fget Ext.node e mod 2 ^ 5 else CAN_MODULE_H8) /\
  (forall d, dat = Some d -> 0 < len -> CanTypes.dat pkt = d).
Proof.
  intros Hj He Hd Hlen pkt.
  set (base := lib_base id e len junk).
  assert (Hb : pkt_ok base) by (unfold base, lib_base; auto 9 with pkt).
  assert (Hf : forall g, canf g pkt = canf g base /\ ext pkt = ext base).
  { intros g. unfold pkt, lib_pkt. destruct dat as [d|]; [destruct (0 <? len)|]; done. }
  split.
  { unfold pkt, lib_pkt. destruct dat as [d|]; [|done]. destruct (0 <? len); [|done].
    apply set_dat_ok; [by apply Hd|done]. }
  rewrite !(proj1 (Hf _)), (proj2 (Hf Can.length)).
  unfold base, lib_base, canf, set_canf; cbn -[fget fset]. fld.
  split_and!; try done.
  - cbn. rewrite Z.mod_small; unfold sizeof_can_header_ext; lia.
  - destruct (_ && _); done.
  - intros d -> Hl. unfold pkt, lib_pkt. by rewrite (proj2 (Z.ltb_lt 0 len)).
Qed.

Lemma can_send_pkt p e dat len (s : @lib_state (dev_can p)) : lib_ready p s ->
  can_send e dat len s =
  write_pkt (lib_pkt (can_nodeid (lib_fd s)) e dat len (lib_stack s))
    (Lib (dev_can p) (can_nodeid (lib_fd s)) 1 (lib_stack s) (lib_fd s)).
Proof.
  intros Hs. unfold can_send, mbind at 1, eff_bind. rewrite initialize_once_spec by done.
  cbv beta iota. reflexivity.
Qed.

(** C11. A tool's can_send() through the driver. The packet that reaches
    send_pkt() has the extended header and the data given, the length and the
    priority bit, and is addressed on the local bus to the node (its address
    cut to the five bits of the bus address) when the target is in the
    sender's module, to the module controller otherwise. can_send() returns
    PKTSIZE exactly when the driver queued the packet; on a full queue the
    process sleeps and the driver's state is as before. *)
Theorem can_send_over_driver p e dat len (s : @lib_state (dev_can p)) :
  drv_ok (lib_fd s) -> lib_ready p s -> pkt_ok (lib_stack s) -> word e ->
  (forall d, dat = Some d -> word d) -> 0 <= len <= 4 ->
  let w := lib_fd s in
  let id := can_nodeid w in
  exists pkt, ext pkt = e /\ canf Can.length pkt = 4 + len /\
    canf Can.lpriority pkt = CAN_HIGH_PRIORITY /\
    canf Can.dest pkt =
      (if (UNPACK_MODULE id =? fget Ext.module e) && (UNPACK_CLUSTER id =? fget Ext.cluster e)
       then fget Ext.node e mod 2 ^ 5 else CAN_MODULE_H8) /\
    (forall d, dat = Some d -> 0 < len -> CanTypes.dat pkt = d) /\
    exists qi qo, queues w qi qo /\
    match can_send e dat len s with
    | Done n s' => n = PKTSIZE /\ lib_ready p s' /\ drv_ok (lib_fd s') /\
        send_post w qi qo (stamped w (fixed_up w pkt)) 1 (lib_fd s')
    | Fault f => f = Blocked /\ send_post w qi qo (stamped w (fixed_up w pkt)) 0 w
    end.
Proof.
  intros Hw Hs Hj He Hd Hlen w id.
  destruct (lib_pkt_fields id e dat len (lib_stack s) Hj He Hd Hlen)
    as (Hok & F1 & F2 & F3 & F4 & F5).
  exists (lib_pkt id e dat len (lib_stack s)). split_and!; try done.
  rewrite (can_send_pkt p) by done. fold w id.
  set (pkt := lib_pkt id e dat len (lib_stack s)) in *.
  pose proof (dev_write_spec pkt w Hw Hok ltac:(unfold short; lia)) as Hwr.
  unfold write_pkt, on_fd, zoom, mbind, eff_bind. cbn [lib_fd fd_write dev_can].
  fold w. destruct (dev_write pkt w) as [n w'|f].
  - destruct Hwr as (-> & Hw' & qi & qo & Hq & Hpost). exists qi, qo. split; [done|].
    cbn. split; [done|]. split; [|done]. right. split; [done|]. cbn.
    symmetry. apply (sends_ok w pkt w' Hw Hok); [apply short_fits; unfold short; lia|]. by exists qi, qo, 1.
  - destruct Hwr as (-> & qi & qo & Hq & Hpost). by exists qi, qo.
Qed.

(** ** Waiting for the answer *)

Lemma can_recv_pkt p (s : @lib_state (dev_can p)) fs x q :
  lib_ready p s -> heap (lib_fd s) !! p = Some fs -> ring_rep (fs_inq fs) (x :: q) ->
  exists rb, ring_rep rb q /\
    can_recv None s = Done (PKTSIZE, Some (Received (ext x) (dat x) (canf Can.length x - 4)), None)
      (Lib (dev_can p) (can_nodeid (lib_fd s)) 1 (lib_stack s)
        (set_heap (<[p := FileState rb (promiscuous fs) (snoopy fs) (consobj fs)]>
          (heap (lib_fd s))) (lib_fd s))).
Proof.
  intros Hs Hh Hq. destruct (dev_read_spec p _ _ _ Hh Hq) as (rb & Hrb & E).
  exists rb. split; [done|]. unfold can_recv, mbind at 1, eff_bind.
  rewrite initialize_once_spec by done. unfold mbind at 1, eff_bind, on_fd, zoom.
  cbn [lib_fd fd_read dev_can]. rewrite E. reflexivity.
Qed.

Lemma set_heap_same w : set_heap (heap w) w = w.
Proof. world_eq. Qed.

Lemma recv_ack_skips p e pre fuel (s : @lib_state (dev_can p)) fs q :
  lib_ready p s -> heap (lib_fd s) !! p = Some fs -> ring_rep (fs_inq fs) (pre ++ q) ->
  Forall (fun x => answers e (ext x) = false) pre ->
  exists s' rb, lib_ready p s' /\ ring_rep rb q /\
    lib_fd s' = set_heap (<[p := FileState rb (promiscuous fs) (snoopy fs) (consobj fs)]>
      (heap (lib_fd s))) (lib_fd s) /\
    can_recv_ack_loop (length pre + fuel) e s = can_recv_ack_loop fuel e s'.
Proof.
  revert s fs. induction pre as [|x pre IH]; intros s fs Hs Hh Hq Hpre.
  { exists s, (fs_inq fs). split; [done|]. split; [done|]. split; [|done].
    destruct fs. cbn. rewrite insert_id by done. symmetry. apply set_heap_same. }
  apply Forall_cons in Hpre as [Hx Hpre]. cbn [app] in Hq.
  destruct (can_recv_pkt p s fs x (pre ++ q) Hs Hh Hq) as (rb & Hrb & E).
  set (fs1 := FileState rb _ _ _) in E.
  match type of E with _ = Done _ ?t => set (s1 := t) in E end.
  destruct (IH s1 fs1) as (s' & rb' & Hs' & Hq' & Ew & El).
  - right. split; reflexivity.
  - apply lookup_insert_eq.
  - exact Hrb.
  - exact Hpre.
  - exists s', rb'. split; [done|]. split; [done|]. split.
    + rewrite Ew. unfold s1. cbn [lib_fd]. ws. by rewrite insert_insert_eq.
    + rewrite <- El. cbn [length Nat.add can_recv_ack_loop]. unfold mbind at 1, eff_bind.
      rewrite E. change (PKTSIZE =? -1) with false. unfold mbind at 1, eff_bind.
      cbn [the]. unfold mret at 1, eff_ret. cbn [r_ext]. by rewrite Hx.
Qed.

Lemma lib_ready_again p (s : @lib_state (dev_can p)) :
  lib_ready p (Lib (dev_can p) (can_nodeid (lib_fd s)) 1 (lib_stack s) (lib_fd s)).
Proof. right. split; reflexivity. Qed.

(** A packet that answers the request [e]: an ACK or a NAK whose header names
    the same object at the same address. *)
Definition answer_for (e : Z) (x : can_packet) : Prop :=
  (extf Ext.type x = CANTYPE_ACK \/ extf Ext.type x = CANTYPE_NAK) /\
  Forall (fun g => extf g x = fget g e) [Ext.object; Ext.cluster; Ext.module; Ext.node].

Lemma answers_iff e x : answers e (ext x) = true <-> answer_for e x.
Proof.
  unfold answers, ISACKNAK, answer_for, extf. rewrite !andb_true_iff, orb_true_iff, !Z.eqb_eq.
  rewrite !Forall_cons, list.Forall_nil. tauto.
Qed.

Lemma answers_none e l :
  Forall (fun y => ~ answer_for e y) l -> Forall (fun y => answers e (ext y) = false) l.
Proof.
  intros Hl. eapply list.Forall_impl; [exact Hl|]. intros y Hy.
  apply not_true_iff_false. by rewrite answers_iff.
Qed.

(** C12. A tool's can_recv_ack() through the driver. The packets queued for its
    file are read in order; those that do not answer the request (an ACK or a
    NAK for the same object at the same address) are thrown away, whatever
    they are; the first that does is returned, its type in the header given,
    and the packets behind it stay queued. Without an answer in the queue all
    packets are consumed and the process sleeps. *)
Theorem can_recv_ack_over_driver p e (s : @lib_state (dev_can p)) fs q fuel :
  lib_ready p s -> heap (lib_fd s) !! p = Some fs -> ring_rep (fs_inq fs) q ->
  (length q < fuel)%nat ->
  (forall pre x rest, q = pre ++ x :: rest ->
     Forall (fun y => ~ answer_for e y) pre -> answer_for e x ->
     wp (can_recv_ack fuel e) (fun r (s' : @lib_state (dev_can p)) =>
       r = (PKTSIZE, Some (Received (fset Ext.type (fget Ext.type (ext x)) e) (dat x)
                             (canf Can.length x - 4))) /\
       exists rb, ring_rep rb rest /\ lib_fd s' =
         set_heap (<[p := FileState rb (promiscuous fs) (snoopy fs) (consobj fs)]>
           (heap (lib_fd s))) (lib_fd s)) s) /\
  (Forall (fun y => ~ answer_for e y) q -> can_recv_ack fuel e s = Fault Blocked).
Proof.
  intros Hs Hh Hq Hfuel. unfold can_recv_ack.
  assert (E0 : (initialize_once ;; can_recv_ack_loop fuel e) s = can_recv_ack_loop fuel e
    (Lib (dev_can p) (can_nodeid (lib_fd s)) 1 (lib_stack s) (lib_fd s))).
  { unfold mbind at 1, eff_bind. by rewrite initialize_once_spec. }
  rewrite E0. split.
  - intros pre x rest -> Hpre%answers_none Hx%answers_iff. unfold wp. rewrite E0.
    rewrite length_app in Hfuel. cbn [length] in Hfuel.
    destruct (recv_ack_skips p e pre (S (fuel - length pre - 1)) _ fs (x :: rest)
      (lib_ready_again p s) Hh Hq Hpre) as (s' & rb & Hs' & Hrb & Ew & El).
    replace (length pre + S (fuel - length pre - 1))%nat with fuel in El by lia. rewrite El.
    set (fs1 := FileState rb _ _ _) in Ew.
    destruct (can_recv_pkt p s' fs1 x rest Hs') as (rb' & Hrb' & E); [|exact Hrb|].
    { rewrite Ew. apply lookup_insert_eq. }
    cbn [can_recv_ack_loop]. unfold mbind at 1, eff_bind. rewrite E.
    change (PKTSIZE =? -1) with false. unfold mbind at 1, eff_bind. cbn [the].
    unfold mret at 1, eff_ret. cbn [r_ext].
    rewrite Hx. split; [done|]. exists rb'. split; [done|]. cbn [lib_fd].
    rewrite Ew. ws. by rewrite insert_insert_eq.
  - intros Hall%answers_none. rewrite <- (app_nil_r q) in Hq.
    destruct (recv_ack_skips p e q (S (fuel - length q - 1)) _ fs []
      (lib_ready_again p s) Hh Hq Hall) as (s' & rb & Hs' & Hrb & Ew & El).
    replace (length q + S (fuel - length q - 1))%nat with fuel in El by lia. rewrite El.
    pose proof (dev_read_spec p (lib_fd s') _ [] ltac:(rewrite Ew; apply lookup_insert_eq) Hrb) as E.
    cbn [can_recv_ack_loop]. unfold mbind at 1, eff_bind, can_recv, mbind at 1, eff_bind.
    rewrite initialize_once_spec by done. unfold mbind at 1, eff_bind, on_fd, zoom.
    cbn [lib_fd fd_read dev_can]. by rewrite E.
Qed.
End lib_driver.

(** * Examples *)

(** A tool on node 5 asks node 3 for its TESTRW word. *)
Definition demo_ext : Z := ext (set_extf Ext.node 3 (demo_request CANTYPE_RO CANOBJ_TESTRW 0)).
Definition demo_lib (w : @world demo_prom) :=
  Lib (dev_can (P := demo_prom) (H := ready_chip) (K := demo_kernel) 4096) 0 0 zero_packet w.

Lemma can_send_over_driver_witness :
  exists pkt, ext pkt = demo_ext /\ canf Can.dest pkt = 3 /\ canf Can.length pkt = 4 /\
    exists s', can_send demo_ext None 0 (demo_lib demo_world) = Done PKTSIZE s'.
Proof.
  assert (He : word demo_ext) by (unfold word; vm_compute; split; [discriminate|reflexivity]).
  assert (Hlen : 0 <= 0 <= 4) by lia.
  destruct (can_send_over_driver (PS := demo_prom_strings) (H := ready_chip) (K := demo_kernel)
    4096 demo_ext None 0 (demo_lib demo_world) demo_ok (or_introl eq_refl) zero_packet_ok He
    ltac:(discriminate) Hlen) as (pkt & E1 & E2 & _ & E3 & _ & qi & qo & _ & Hres).
  exists pkt. split; [exact E1|]. split; [rewrite E3; vm_compute; reflexivity|].
  split; [exact E2|].
  assert (Hdone : match can_send demo_ext None 0 (demo_lib demo_world) with
                  | Done _ _ => true | Fault _ => false end = true)
    by (vm_compute; reflexivity).
  destruct (can_send demo_ext None 0 (demo_lib demo_world)) as [n s'|]; [|discriminate Hdone].
  destruct Hres as [-> _]. by exists s'.
Defined.

(** The file has a request of somebody else and the answer queued. *)
Definition demo_answer : can_packet :=
  set_extf Ext.node 3 (demo_request CANTYPE_ACK CANOBJ_TESTRW 77).
Definition demo_answer_fs : file_state :=
  FileState (Ring ([demo_request CANTYPE_RO 1 0; demo_answer] ++ replicate 1022 zero_packet)
               2 0 0 0) 0 0 (-1).
Definition demo_asker : @world demo_prom := set_heap {[4096 := demo_answer_fs]} demo_world.

Lemma demo_answer_rep :
  ring_rep (fs_inq demo_answer_fs) [demo_request CANTYPE_RO 1 0; demo_answer].
Proof.
  unfold ring_rep. refine (conj eq_refl (conj _ (conj _ (conj eq_refl _)))).
  - cbn. unfold MAXRING. lia.
  - cbn. unfold MAXRING. lia.
  - intros [|[|i]] x Hi; cbn in Hi; [injection Hi as <-; reflexivity..|done].
Qed.

Lemma can_recv_ack_over_driver_witness :
  wp (can_recv_ack 3 demo_ext) (fun r _ =>
    exists e, r = (PKTSIZE, Some (Received e 77 4))) (demo_lib demo_asker).
Proof.
  assert (Hh : heap (lib_fd (demo_lib demo_asker)) !! 4096 = Some demo_answer_fs) by reflexivity.
  destruct (can_recv_ack_over_driver (P := demo_prom) (H := ready_chip) (K := demo_kernel)
    4096 demo_ext (demo_lib demo_asker) demo_answer_fs
    [demo_request CANTYPE_RO 1 0; demo_answer] 3
    (or_introl eq_refl) Hh demo_answer_rep ltac:(cbn; lia)) as [Hans _].
  eapply wp_mono; [apply (Hans [demo_request CANTYPE_RO 1 0] demo_answer [])|].
  - reflexivity.
  - constructor; [|constructor]. rewrite <- answers_iff. vm_compute. discriminate.
  - rewrite <- answers_iff. vm_compute. reflexivity.
  - intros r s' [-> _]. eexists. reflexivity.
Defined.
