(* ===== verification/Cancon.v ===== *)
(** * The console client (cmd/cancon.c)

    cancon connects a terminal to the console of another node. Three threads
    run: tty_reader() filters what is typed and queues it, writer() takes it
    from the queue and sends it in DAT packets, reader() takes packets off the
    CAN, prints the characters of the console and hands acknowledgements to
    whoever waits for them. What the other threads do to the acknowledgement
    buffer while a thread waits for its turn or for an acknowledgement is the
    interface [Threads]. *)

From stdpp Require Import prelude list numbers strings.
From Stdlib Require Import ZArith Lia.
From S2P Require Import Prelude CanTypes Obp CanLib.

Definition ESCAPE_CHAR : Z := 38.   (* '&' *)
Definition MAX_RETRIES : Z := 20.
Definition ACKBUFLEN : Z := 16.
Definition OUTCHARSLEN : Z := 1024.

Inductive acknak_t := NONE | ACK | NAK | TIMEDOUT.

#[global] Instance acknak_eq_dec : EqDecision acknak_t.
Proof. solve_decision. Defined.

(** An array of the C program: assignment checks the bounds. *)
Definition array_set {S A} (get : S -> list A) (set : list A -> S -> S) (i : Z) (x : A) : eff S unit :=
  l ← gets get;
  if (0 <=? i) && (i <? Z.of_nat (length l))
  then modify (set (<[Z.to_nat i := x]> l)) else fail OutOfBounds.

(** ** The buffer of acknowledgements *)

Record mbox := Mbox { ackbuf : list (Z * Z); ackbuflen : Z }.

Definition set_ackbuf (l : list (Z * Z)) (m : mbox) : mbox := Mbox l (ackbuflen m).
Definition set_ackbuflen (n : Z) (m : mbox) : mbox := Mbox (ackbuf m) n.

Definition signal_acknak (target dat : Z) : eff mbox unit :=
  n ← gets ackbuflen;
  when (n <? ACKBUFLEN)
    (array_set ackbuf set_ackbuf n (target, dat) ;; modify (set_ackbuflen (n + 1))).

(** x and y are extended headers. *)
Definition IS_OUR_ACKNAK (x y : Z) : bool :=
  (fget Ext.object x =? fget Ext.object y) && (fget Ext.cluster x =? fget Ext.cluster y)
  && (fget Ext.module x =? fget Ext.module y) && (fget Ext.node x =? fget Ext.node y).

Definition IS_ACKNAK (t : Z) : acknak_t := if t =? CANTYPE_ACK then ACK else NAK.

(** The loop over the buffer: the response so far and the data stored through
    the argument, if any. *)
Definition scan_one (target : Z) (r : acknak_t * option Z) (a : Z * Z) : acknak_t * option Z :=
  if IS_OUR_ACKNAK a.1 target then (IS_ACKNAK (fget Ext.type a.1), Some a.2) else r.

Definition scan_acks (target : Z) (r : acknak_t * option Z) : eff mbox (acknak_t * option Z) :=
  n ← gets ackbuflen;
  l ← gets ackbuf;
  if Z.of_nat (length l) <? n then fail OutOfBounds
  else mret (fold_left (scan_one target) (take (Z.to_nat n) l) r).

(** ** The queue of typed characters *)

Record charq := Charq { outchars : list Z; outcharslen : Z }.

Definition set_outchars (l : list Z) (q : charq) : charq := Charq l (outcharslen q).
Definition set_outcharslen (n : Z) (q : charq) : charq := Charq (outchars q) n.

(** The number of characters that found room. *)
Fixpoint signal_outchars (buf : list Z) (count : Z) : eff charq Z :=
  match buf with
  | [] => mret count
  | c :: buf' =>
      n ← gets outcharslen;
      if n <? OUTCHARSLEN then
        array_set outchars set_outchars n c ;;
        modify (set_outcharslen (n + 1)) ;;
        signal_outchars buf' (count + 1)
      else mret count
  end.

(** memmove(dst, src, n) within one array: the [n] characters from [src] on. *)
Definition memmove_down (src n : Z) (l : list Z) : list Z :=
  take (Z.to_nat n) (drop (Z.to_nat src) l) ++ drop (Z.to_nat n) l.

(** After the wait, if there was one. *)
Definition waitfor_outchars (maxlen : Z) : eff charq (list Z) :=
  n ← gets outcharslen;
  l ← gets outchars;
  let count := Z.min n maxlen in
  if Z.of_nat (length l) <? n then fail OutOfBounds
  else
    modify (set_outchars (memmove_down count (n - count) l)) ;;
    modify (set_outcharslen (n - count)) ;;
    mret (take (Z.to_nat count) l).

(** ** The process *)

(** What another thread does to the acknowledgement buffer: reader() adds an
    entry, or waitfor_acknak() of a thread that sends too empties it. *)
Inductive other := SignalAcknak (target dat : Z) | OtherWaiter.

(** [others k d]: what the other threads do until this thread holds
    acknak_mutex for the k-th time, where [d] is the state of the descriptor,
    which reader() changes; [timed_out k]: the deadline of
    pthread_cond_timedwait() has passed then; [canhosts]: /etc/canhosts. *)
Class Threads (F : CanFd) := {
  others : nat -> fd_st -> list other * fd_st;
  timed_out : nat -> bool;
  canhosts : option (list Z)
}.

(** The static variables, the history of tty_reader(), what was printed on
    stdout (characters, in order) and stderr (messages, last first), the number of
    disconnect() threads started, the number of times acknak_mutex was taken,
    and an uninitialised word. *)
Record cancon {F : CanFd} := Cancon {
  cc_lib : lib_state;
  acks : mbox;
  chars : charq;
  console_object : Z;
  target_ch : canhostname;
  cc_consobj : Z;
  cc_nodeid : Z;
  resetobj : canobj;
  fopt : Z;
  cc_ack : can_packet;
  hist0 : Z; hist1 : Z;
  out : list Z;
  err : list (string * list earg);
  disconnects : Z;
  syncs : nat;
  stack_word : Z
}.

Section setters.
Context {F : CanFd}.
Implicit Types s : cancon.
Definition set_cc_lib (v : lib_state) s : cancon :=
  Cancon F v (acks s) (chars s) (console_object s) (target_ch s) (cc_consobj s) (cc_nodeid s) (resetobj s) (fopt s) (cc_ack s) (hist0 s) (hist1 s) (out s) (err s) (disconnects s) (syncs s) (stack_word s).
Definition set_acks (v : mbox) s : cancon :=
  Cancon F (cc_lib s) v (chars s) (console_object s) (target_ch s) (cc_consobj s) (cc_nodeid s) (resetobj s) (fopt s) (cc_ack s) (hist0 s) (hist1 s) (out s) (err s) (disconnects s) (syncs s) (stack_word s).
Definition set_chars (v : charq) s : cancon :=
  Cancon F (cc_lib s) (acks s) v (console_object s) (target_ch s) (cc_consobj s) (cc_nodeid s) (resetobj s) (fopt s) (cc_ack s) (hist0 s) (hist1 s) (out s) (err s) (disconnects s) (syncs s) (stack_word s).
Definition set_console_object (v : Z) s : cancon :=
  Cancon F (cc_lib s) (acks s) (chars s) v (target_ch s) (cc_consobj s) (cc_nodeid s) (resetobj s) (fopt s) (cc_ack s) (hist0 s) (hist1 s) (out s) (err s) (disconnects s) (syncs s) (stack_word s).
Definition set_cc_ack (v : can_packet) s : cancon :=
  Cancon F (cc_lib s) (acks s) (chars s) (console_object s) (target_ch s) (cc_consobj s) (cc_nodeid s) (resetobj s) (fopt s) v (hist0 s) (hist1 s) (out s) (err s) (disconnects s) (syncs s) (stack_word s).
Definition set_out (v : list Z) s : cancon :=
  Cancon F (cc_lib s) (acks s) (chars s) (console_object s) (target_ch s) (cc_consobj s) (cc_nodeid s) (resetobj s) (fopt s) (cc_ack s) (hist0 s) (hist1 s) v (err s) (disconnects s) (syncs s) (stack_word s).
Definition set_err (v : list (string * list earg)) s : cancon :=
  Cancon F (cc_lib s) (acks s) (chars s) (console_object s) (target_ch s) (cc_consobj s) (cc_nodeid s) (resetobj s) (fopt s) (cc_ack s) (hist0 s) (hist1 s) (out s) v (disconnects s) (syncs s) (stack_word s).
Definition set_disconnects (v : Z) s : cancon :=
  Cancon F (cc_lib s) (acks s) (chars s) (console_object s) (target_ch s) (cc_consobj s) (cc_nodeid s) (resetobj s) (fopt s) (cc_ack s) (hist0 s) (hist1 s) (out s) (err s) v (syncs s) (stack_word s).
Definition set_syncs (v : nat) s : cancon :=
  Cancon F (cc_lib s) (acks s) (chars s) (console_object s) (target_ch s) (cc_consobj s) (cc_nodeid s) (resetobj s) (fopt s) (cc_ack s) (hist0 s) (hist1 s) (out s) (err s) (disconnects s) v (stack_word s).
Definition set_hist (a b : Z) s : cancon :=
  Cancon F (cc_lib s) (acks s) (chars s) (console_object s) (target_ch s) (cc_consobj s) (cc_nodeid s) (resetobj s) (fopt s) (cc_ack s) a b (out s) (err s) (disconnects s) (syncs s) (stack_word s).
End setters.

Section cancon_c.
Context {F : CanFd} {T : Threads F} (wait_fuel : nat).
Abbreviation M := (eff cancon).
Implicit Types s : cancon.

Definition on_lib {A} (m : eff lib_state A) : M A := zoom cc_lib set_cc_lib m.
Definition on_acks {A} (m : eff mbox A) : M A := zoom acks set_acks m.
Definition on_chars {A} (m : eff charq A) : M A := zoom chars set_chars m.
Definition with_files {A} (m : eff unit A) : M A := zoom (fun _ => tt) (fun _ s => s) m.

Definition eprintf (fmt : string) (args : list earg) : M unit :=
  modify (fun s => set_err ((fmt, args) :: err s) s).

(** The other threads run until this one holds acknak_mutex again; is the
    deadline over then? *)
Definition other_step (o : other) : eff mbox unit :=
  match o with
  | SignalAcknak target dat => signal_acknak target dat
  | OtherWaiter => modify (set_ackbuflen 0)
  end.

Definition take_acknak_mutex : M bool :=
  k ← gets syncs;
  l ← on_lib (on_fd (run (others k)));
  on_acks (for_each l other_step) ;;
  modify (set_syncs (S k)) ;;
  mret (timed_out k).

(** ** Addresses *)

Definition load_ext_ch (ext tp obj : Z) (ch : canhostname) : Z :=
  fset Ext.node (h_node ch) (fset Ext.module (h_module ch) (fset Ext.cluster (h_cluster ch)
    (fset Ext.object obj (fset Ext.type tp ext)))).

Definition load_ext_nodeid (ext tp obj nodeid : Z) : Z :=
  fset Ext.node (UNPACK_NODE nodeid) (fset Ext.module (UNPACK_MODULE nodeid)
    (fset Ext.cluster (UNPACK_CLUSTER nodeid) (fset Ext.object obj (fset Ext.type tp ext)))).

(** The host name, empty when there is none. *)
Definition can_gethostbyext (ext : Z) : M cstring :=
  o ← with_files (can_gethostbyaddr canhosts (fget Ext.cluster ext) (fget Ext.module ext)
                (fget Ext.node ext));
  mret (match o with Some ch => hostname ch | None => [] end).

Definition extaddr_to_str (ext : Z) : M (list earg) :=
  name ← can_gethostbyext ext;
  mret [EStr name; EInt (fget Ext.cluster ext); EInt (fget Ext.module ext);
        EInt (fget Ext.node ext)].

(** ** Sending and waiting for the acknowledgement *)

Fixpoint waitfor_acknak_loop (fuel : nat) (target : Z) : M (acknak_t * option Z) :=
  match fuel with
  | O => fail OutOfFuel
  | S fuel' =>
      n ← gets (fun s => ackbuflen (acks s));
      response ← (if n =? 0 then
                    etimedout ← take_acknak_mutex;
                    mret (if (etimedout : bool) then TIMEDOUT else NONE)
                  else mret NONE);
      '(response, dat) ← on_acks (scan_acks target (response, None));
      on_acks (modify (set_ackbuflen 0)) ;;
      if decide (response = NONE) then waitfor_acknak_loop fuel' target
      else mret (response, dat)
  end.

(** The response, and what was stored through [dat]. *)
Definition waitfor_acknak (target : Z) : M (acknak_t * option Z) :=
  take_acknak_mutex ;;
  waitfor_acknak_loop wait_fuel target.

(** [ack]: what earlier tries stored; the third result counts the tries. *)
Fixpoint mysend_loop (fuel : nat) (target : Z) (dat : option Z) (len : Z) (ack : option Z)
    (try max_retries : Z) : M (acknak_t * option Z * Z) :=
  match fuel with
  | O => fail OutOfFuel
  | S fuel' =>
      on_lib (can_send target dat len) ;;
      '(response, a) ← waitfor_acknak target;
      let try := try + 1 in
      let ack := match a with Some _ => a | None => ack end in
      when (bool_decide (response = TIMEDOUT) && (0 <? max_retries)) (eprintf "." []) ;;
      if negb (bool_decide (response = ACK)) && (try <? max_retries)
      then mysend_loop fuel' target dat len ack try max_retries
      else mret (response, ack, try)
  end.

Definition mysend (target : Z) (dat : option Z) (len : Z) (max_retries : Z) : M (acknak_t * option Z) :=
  '(response, ack, try) ←
    mysend_loop (S (Z.to_nat max_retries)) target dat len None 0 max_retries;
  when (negb (bool_decide (response = ACK)) && (0 <? max_retries))
    (eprintf "\r\ncancon: send aborted after %d tr%s\r\n"
       [EInt try; EStr (str (if try =? 1 then "y" else "ies"))]) ;;
  mret (response, ack).

Definition send (target : Z) (dat : option Z) (len : Z) : M (acknak_t * option Z) :=
  mysend target dat len MAX_RETRIES.
Definition send_nb (target : Z) (dat : option Z) (len : Z) : M (acknak_t * option Z) :=
  mysend target dat len 0.

(** memcpy(&dat, buf, len) *)
Fixpoint dat_of (i : Z) (buf : list Z) (dat : Z) : Z :=
  match buf with [] => dat | c :: buf' => dat_of (i + 1) buf' (set_byte 4 i c dat) end.

Definition send_dat (buf : list Z) : M unit :=
  w ← gets stack_word;
  ch ← gets target_ch;
  send (load_ext_ch w CANTYPE_DAT 0 ch) (Some (dat_of 0 buf w)) (Z.of_nat (length buf)) ;; skip.

Definition send_break : M unit :=
  w ← gets stack_word;
  ch ← gets target_ch;
  '(response, _) ← send (load_ext_ch w CANTYPE_WO CANOBJ_BREAK ch) None 0;
  if bool_decide (response = ACK) then eprintf "\r\nSent break.\r\n" []
  else eprintf "CAN giving up sending break.\r\n" [].

Definition send_reset_h8 : M unit :=
  w ← gets stack_word;
  ch ← gets target_ch;
  obj ← gets resetobj;
  let target := load_ext_ch w CANTYPE_WO (o_id obj) ch in
  let target := fset Ext.node (CAN_GET_BOARD_H8 (fget Ext.node target)) target in
  '(response, _) ← send target (Some 2) sizeof_can_dat;
  if bool_decide (response = ACK) then eprintf "\r\nSent reset to H8\r\n" []
  else eprintf "CAN giving up sending reset to H8.\r\n" [].

(** ** The terminal *)

Definition ISCRNL (c : Z) : bool := (c =? 10) || (c =? 13).

(** start_disconnect(): one more disconnect() thread. *)
Definition start_disconnect : M unit := modify (fun s => set_disconnects (disconnects s + 1) s).

Definition print_help : M unit :=
  eprintf "\r\n-------------------------------\r\n" [] ;;
  eprintf "%c .		disconnect\r\n" [EInt ESCAPE_CHAR] ;;
  eprintf "%c ?		help\r\n" [EInt ESCAPE_CHAR] ;;
  eprintf "%c #		send break\r\n" [EInt ESCAPE_CHAR] ;;
  eprintf "%c r		send reset to node H8\r\n" [EInt ESCAPE_CHAR] ;;
  eprintf "-------------------------------\r\n" [].

(** The commands behind the escape character. *)
Definition command (c : Z) : option (M unit) :=
  if c =? 46 then Some start_disconnect            (* . *)
  else if c =? 63 then Some print_help             (* ? *)
  else if c =? 35 then Some send_break             (* # *)
  else if (c =? 114) || (c =? 82) then Some send_reset_h8   (* r R *)
  else None.

(** outbuf[j++] = c, for the array of eight characters *)
Definition outbuf_put (c : Z) (outbuf : list Z) : M (list Z) :=
  if Z.of_nat (length outbuf) <? 8 then mret (outbuf ++ [c]) else fail OutOfBounds.

(** One character of the loop of tty_reader(): the new outbuf. *)
Definition tty_char (c : Z) (outbuf : list Z) : M (list Z) :=
  h0 ← gets hist0;
  h1 ← gets hist1;
  outbuf ←
    (if ISCRNL h0 && (h1 =? ESCAPE_CHAR) then
       match command c with
       | Some run => run ;; mret outbuf
       | None => outbuf ← outbuf_put ESCAPE_CHAR outbuf; outbuf_put c outbuf
       end
     else if negb (c =? ESCAPE_CHAR) || negb (ISCRNL h1) then outbuf_put c outbuf
     else mret outbuf);
  modify (set_hist h1 c) ;;
  mret outbuf.

Fixpoint tty_chars (buf outbuf : list Z) : M (list Z) :=
  match buf with
  | [] => mret outbuf
  | c :: buf' => outbuf ← tty_char c outbuf; tty_chars buf' outbuf
  end.

(** The body of the loop of tty_reader() for what read() put in buf. *)
Definition tty_read (buf : list Z) : M unit :=
  outbuf ← tty_chars buf [];
  n ← on_chars (signal_outchars outbuf 0);
  let dropped := Z.of_nat (length outbuf) - n in
  when (0 <? dropped) (eprintf "\r\ncancon: %d tty chars dropped\r\n" [EInt dropped]).

(** The body of the loop of writer(). *)
Definition writer_once : M unit :=
  buf ← on_chars (waitfor_outchars 4);
  send_dat buf.

(** tty_reader(): [input] is what its calls of read(0, buf, 4) return. *)
Fixpoint tty_reader (input : list (list Z)) : M unit :=
  match input with
  | [] | [] :: _ => skip
  | buf :: input' => tty_read buf ;; tty_reader input'
  end.

(** The first [n] rounds of writer(), which does not end. *)
Fixpoint writer (n : nat) : M unit :=
  match n with O => skip | S n' => writer_once ;; writer n' end.

(** ** The connection *)

(** For a read, the second result is what was stored in [*cons]. *)
Definition send_connect (type cons : Z) : M (acknak_t * option Z) :=
  w ← gets stack_word;
  ch ← gets target_ch;
  let target := load_ext_ch w type CANOBJ_CONSOLE_CONNECT ch in
  '(response, a) ← (if type =? CANTYPE_RO then send target None 0
                    else '(r, _) ← send target (Some cons) 4; mret (r, None));
  when (negb (bool_decide (response = ACK)))
    (eprintf "Failed to %s CONSOLE_CONNECT object.\r\n"
       [EStr (str (if type =? CANTYPE_RO then "read from" else "write to"))]) ;;
  mret (response, a).

Definition send_disconnect (cons : Z) : M acknak_t :=
  w ← gets stack_word;
  ch ← gets target_ch;
  '(response, _) ← send (load_ext_ch w CANTYPE_WO CANOBJ_CONSOLE_DISCONN ch) (Some cons) 4;
  when (negb (bool_decide (response = ACK)))
    (eprintf "Failed to write to CONSOLE_DISCONN object.\r\n" []) ;;
  mret response.

Definition send_force_disconnect_nb (cons : Z) : M acknak_t :=
  let target := fset Ext.object CANOBJ_FORCE_DISCONN (fset Ext.type CANTYPE_WO cons) in
  '(response, _) ← send_nb target (Some cons) 4;
  when (negb (bool_decide (response = ACK)))
    (eprintf "No response from other cancon.  Beware...\r\n" []) ;;
  mret response.

(** [*oldcon] after a read of CONSOLE_CONNECT: what the answer holds, else
    what it was. *)
Definition stored (a : option Z) (old : Z) : Z := match a with Some d => d | None => old end.

(** The loop that polls the connection, with the number of tries done. *)
Fixpoint heist_poll (fuel : nat) (oldcon try : Z) : M (option (Z * Z)) :=
  match fuel with
  | O => fail OutOfFuel
  | S fuel' =>
      '(response, a) ← send_connect CANTYPE_RO oldcon;
      if negb (bool_decide (response = ACK)) then mret None
      else
        let oldcon := stored a oldcon in
        let try := try + 1 in
        if negb (CANCON_UNCONNECTED oldcon) && (try <? 5) then heist_poll fuel' oldcon try
        else mret (Some (oldcon, try))
  end.

Definition heist_connection (oldcon : Z) : M Z :=
  r ← send_force_disconnect_nb oldcon;
  ok ← (if negb (bool_decide (r = ACK))
        then r ← send_disconnect oldcon; mret (bool_decide (r = ACK))
        else mret true);
  if negb ok then mret (-1)
  else
    o ← heist_poll 5 oldcon 0;
    match o with
    | None => mret (-1)
    | Some (oldcon, try) =>
        if try =? 5
        then r ← send_disconnect oldcon; mret (if bool_decide (r = ACK) then 0 else -1)
        else mret 0
    end.

Definition connect_protocol : M Z :=
  eprintf "Connecting...\n" [] ;;
  w ← gets stack_word;
  '(response, a) ← send_connect CANTYPE_RO w;
  if negb (bool_decide (response = ACK)) then mret (-1)
  else
    let oldcon := stored a w in
    go ← (if negb (CANCON_UNCONNECTED oldcon) then
            f ← gets fopt;
            who ← extaddr_to_str oldcon;
            if negb (f =? 0) then
              eprintf "Stealing console from %s...\n" who ;;
              r ← heist_connection oldcon;
              mret (negb (r =? -1))
            else eprintf "Console is already in use by %s\n" who ;; mret false
          else mret true);
    if negb go then mret (-1)
    else
      co ← gets console_object;
      obj ← gets cc_consobj;
      id ← gets cc_nodeid;
      let co := load_ext_nodeid co CANTYPE_DAT obj id in
      modify (set_console_object co) ;;
      '(response, _) ← send_connect CANTYPE_WO co;
      if negb (bool_decide (response = ACK)) then mret (-1)
      else
        ch ← gets target_ch;
        eprintf "Connected to %s (%-2.2x,%-2.2x,%-2.2x).  "
          [EStr (hostname ch); EInt (h_cluster ch); EInt (h_module ch); EInt (h_node ch)] ;;
        eprintf "Escape char is `%c'.\n" [EInt ESCAPE_CHAR] ;;
        mret 0.

(** ** The reader *)

(** fwrite(&dat.dat_b[0], len, 1, stdout) *)
Definition fwrite (dat len : Z) : M unit :=
  if (len <? 0) || (4 <? len) then fail OutOfBounds
  else modify (fun s => set_out (out s ++ take (Z.to_nat len) (bytes_of 4 dat)) s).

(** One round of the loop of reader(): does it go on? *)
Definition reader_once : M bool :=
  ack ← gets cc_ack;
  '(n, got, ack) ← on_lib (can_recv (Some ack));
  ack ← the NullDeref ack;
  modify (set_cc_ack ack) ;;
  if n =? -1 then mret false
  else
    r ← the Uninit got;
    co ← gets console_object;
    let t := fget Ext.type (r_ext r) in
    let answer dat len :=
      '(_, ack) ← on_lib (can_ack dat len CANTYPE_ACK ack); modify (set_cc_ack ack) in
    (if (t =? CANTYPE_ACK) || (t =? CANTYPE_NAK) then on_acks (signal_acknak (r_ext r) (r_dat r))
     else if t =? CANTYPE_DAT then
       when (r_ext r =? co) (fwrite (r_dat r) (r_len r) ;; answer None 0)
     else if t =? CANTYPE_WO then
       when ((fget Ext.object (r_ext r) =? CANOBJ_FORCE_DISCONN) && (r_dat r =? co))
         (eprintf "\r\nConsole has been stolen!" [] ;;
          answer (Some 1) 4 ;;
          start_disconnect)
     else skip) ;;
    mret true.

(** reader(), until can_recv() fails. *)
Fixpoint reader (fuel : nat) : M unit :=
  match fuel with
  | O => fail OutOfFuel
  | S fuel' => go ← reader_once; if (go : bool) then reader fuel' else skip
  end.
End cancon_c.
