(* ===== verification/CanconProps.v ===== *)
(** * What the console client sends

    Properties of Cancon.v: the two buffers, and the loop that sends and
    retries. What the threads do with them is in CanconTyped.v (the terminal
    and the writer) and CanconReader.v. *)

From stdpp Require Import prelude list numbers strings.
From Stdlib Require Import ZArith Lia.
From S2P Require Import Prelude CanTypes Obp CanLib Cancon.

(** ** Arrays with a fill level *)

Lemma wp_array_set {S A} (get : S -> list A) set i x (Q : unit -> S -> Prop) s :
  0 <= i < Z.of_nat (length (get s)) -> Q tt (set (<[Z.to_nat i := x]> (get s)) s) ->
  wp (array_set get set i x) Q s.
Proof.
  intros Hi HQ. unfold array_set. rewrite wp_bind, wp_gets.
  rewrite (proj2 (Z.leb_le 0 i)), (proj2 (Z.ltb_lt _ _)) by lia. done.
Qed.

(** The part of an array in use, after the next entry is filled. *)
Lemma take_insert_snoc {A} (l : list A) (n : Z) x : 0 <= n < Z.of_nat (length l) ->
  take (Z.to_nat (n + 1)) (<[Z.to_nat n := x]> l) = take (Z.to_nat n) l ++ [x].
Proof.
  intros Hn. replace (Z.to_nat (n + 1)) with (S (Z.to_nat n)) by lia.
  assert (E : <[Z.to_nat n := x]> l !! Z.to_nat n = Some x) by (apply list_lookup_insert_eq; lia).
  rewrite (take_S_r _ _ x E). f_equal. apply take_insert_ge. lia.
Qed.

(** ** The buffer of acknowledgements *)

Definition mbox_ok (m : mbox) : Prop :=
  Z.of_nat (length (ackbuf m)) = ACKBUFLEN /\ 0 <= ackbuflen m <= ACKBUFLEN.
Definition entries (m : mbox) : list (Z * Z) := take (Z.to_nat (ackbuflen m)) (ackbuf m).

Lemma entries_length m : mbox_ok m -> Z.of_nat (length (entries m)) = ackbuflen m.
Proof. intros [Hl Hn]. unfold entries. rewrite length_take. unfold ACKBUFLEN in *. lia. Qed.

Lemma entries_empty m : mbox_ok m -> ackbuflen m = 0 <-> entries m = [].
Proof.
  intros Hm. pose proof (entries_length m Hm). rewrite <- length_zero_iff_nil. lia.
Qed.

(** An acknowledgement joins the others, or is dropped when there are sixteen. *)
Lemma signal_acknak_spec t d m : mbox_ok m ->
  wp (signal_acknak t d) (fun _ m' => mbox_ok m' /\
    entries m' = if ackbuflen m <? ACKBUFLEN then entries m ++ [(t, d)] else entries m) m.
Proof.
  intros Hm. unfold signal_acknak. rewrite wp_bind, wp_gets, wp_when.
  destruct (Z.ltb_spec (ackbuflen m) ACKBUFLEN) as [Hn|Hn]; (split; intros Eb; [|done || discriminate]);
    [|discriminate].
  rewrite wp_bind. apply wp_array_set; [destruct Hm; lia|]. rewrite wp_modify.
  destruct Hm as [Hl Hn']. unfold mbox_ok, entries; cbn. rewrite length_insert.
  repeat split; [done|lia..|]. apply take_insert_snoc. lia.
Qed.

(** What the loop of waitfor_acknak() finds: the last entry that matches. *)
Definition match_of (target : Z) (l : list (Z * Z)) (r : acknak_t * option Z) :=
  fold_left (scan_one target) l r.

Lemma match_of_found target l r :
  match_of target l r = r \/
  exists a, a ∈ l /\ IS_OUR_ACKNAK a.1 target = true /\
    match_of target l r = (IS_ACKNAK (fget Ext.type a.1), Some a.2).
Proof.
  revert r. induction l as [|a l IH]; intros r; [by left|].
  change (match_of target (a :: l) r) with (match_of target l (scan_one target r a)).
  unfold scan_one. destruct (IS_OUR_ACKNAK a.1 target) eqn:E.
  - destruct (IH (IS_ACKNAK (fget Ext.type a.1), Some a.2)) as [->|(b & Hb & Hm & ->)]; right.
    + exists a. split; [by left|done].
    + exists b. split; [by right|done].
  - destruct (IH r) as [->|(b & Hb & Hm & ->)]; [by left|right]. exists b. split; [by right|done].
Qed.

Lemma match_of_none target l r :
  Forall (fun a => IS_OUR_ACKNAK a.1 target = false) l -> match_of target l r = r.
Proof.
  revert r. induction l as [|a l IH]; intros r Hl; [done|].
  apply Forall_cons in Hl as [Ha Hl].
  change (match_of target (a :: l) r) with (match_of target l (scan_one target r a)).
  unfold scan_one. rewrite Ha. by apply IH.
Qed.

Lemma scan_acks_spec target r (Q : acknak_t * option Z -> mbox -> Prop) m :
  mbox_ok m -> Q (match_of target (entries m) r) m -> wp (scan_acks target r) Q m.
Proof.
  intros [Hl Hn] HQ. unfold scan_acks. wp_go.
  rewrite (proj2 (Z.ltb_ge _ _)) by lia. done.
Qed.

(** ** The queue of typed characters *)

Definition charq_ok (q : charq) : Prop :=
  Z.of_nat (length (outchars q)) = OUTCHARSLEN /\ 0 <= outcharslen q <= OUTCHARSLEN.
Definition queued (q : charq) : list Z := take (Z.to_nat (outcharslen q)) (outchars q).

Lemma queued_length q : charq_ok q -> Z.of_nat (length (queued q)) = outcharslen q.
Proof. intros [Hl Hn]. unfold queued. rewrite length_take. unfold OUTCHARSLEN in *. lia. Qed.

Lemma signal_outchars_spec buf count q : charq_ok q ->
  wp (signal_outchars buf count) (fun n q' => charq_ok q' /\ exists k,
    (k <= length buf)%nat /\ n = count + Z.of_nat k /\ queued q' = queued q ++ take k buf /\
    (k < length buf -> outcharslen q' = OUTCHARSLEN)%nat) q.
Proof.
  revert count q. induction buf as [|c buf IH]; intros count q Hq; cbn [signal_outchars].
  { rewrite wp_ret. split; [done|]. exists O. rewrite app_nil_r. cbn. repeat split; lia. }
  rewrite wp_bind, wp_gets. destruct (Z.ltb_spec (outcharslen q) OUTCHARSLEN) as [Hn|Hn].
  - rewrite wp_bind. destruct Hq as [Hl Hn']. apply wp_array_set; [lia|]. rewrite wp_bind, wp_modify.
    eapply wp_mono; [apply IH|].
    { unfold charq_ok; cbn. rewrite length_insert. lia. }
    intros n q' (Hq' & k & Hk & -> & E & Hfull). split; [done|]. exists (S k).
    unfold queued in E at 2. cbn in E. rewrite take_insert_snoc, <- app_assoc in E by lia.
    cbn. repeat split; [lia|lia|exact E|]. intros. apply Hfull. lia.
  - rewrite wp_ret. split; [done|]. exists O. rewrite app_nil_r. cbn.
    repeat split; [lia|lia|]. intros. destruct Hq. lia.
Qed.

Lemma memmove_down_length src n l : 0 <= src -> 0 <= n -> src + n <= Z.of_nat (length l) ->
  length (memmove_down src n l) = length l.
Proof.
  intros. unfold memmove_down. rewrite length_app, length_take, !length_drop. lia.
Qed.

Lemma waitfor_outchars_spec k q : charq_ok q -> 0 <= k ->
  wp (waitfor_outchars k) (fun buf q' => charq_ok q' /\
    queued q = buf ++ queued q' /\ Z.of_nat (length buf) = Z.min k (outcharslen q)) q.
Proof.
  intros Hq Hk. pose proof (queued_length q Hq) as Hql. destruct Hq as [Hl Hn].
  unfold waitfor_outchars. rewrite !wp_bind, !wp_gets. cbv beta. rewrite wp_bind, wp_gets.
  rewrite (proj2 (Z.ltb_ge _ _)) by lia. rewrite wp_bind, wp_modify, wp_bind, wp_modify, wp_ret.
  set (n := outcharslen q) in *. set (c := Z.min n k).
  unfold charq_ok, queued; cbn. rewrite memmove_down_length by lia. fold n.
  split; [lia|]. split; [|rewrite length_take; lia].
  unfold memmove_down. rewrite take_app_le by (rewrite length_take, length_drop; lia).
  rewrite take_take, Nat.min_id. replace (Z.to_nat n) with (Z.to_nat c + Z.to_nat (n - c))%nat by lia.
  by rewrite take_take_drop.
Qed.

(** ** The process *)

(** A descriptor that takes every packet, and other threads that leave alone
    the packets only this thread sends ([mine]); [written] are the packets
    given to write() so far, oldest first. *)
Class Wire (F : CanFd) (T : Threads F) := {
  written : fd_st -> list can_packet;
  mine : can_packet -> bool;
  wire_addr : Z;
  wire_ioctl : forall d, exists d',
    fd_ioctl_addr d = Done (Some wire_addr) d' /\ written d' = written d;
  wire_write : forall p d, exists d',
    fd_write p d = Done PKTSIZE d' /\ written d' = written d ++ [p];
  wire_others : forall k d,
    List.filter mine (written (others k d).2) = List.filter mine (written d)
}.

(** Every wait is over within [fuel] turns: a deadline passes. *)
Class Deadline (F : CanFd) (T : Threads F) (fuel : nat) :=
  deadline : forall k, exists n, (S n < fuel)%nat /\ timed_out (k + n) = true.

(** The message of tty_reader() when the queue is full. *)
Definition drop_msg : string := "\r\ncancon: %d tty chars dropped\r\n".

Section cancon_props.
Context {F : CanFd} {T : Threads F} {W : Wire F T} (wait_fuel : nat)
  {D : Deadline F T wait_fuel}.
Implicit Types s : cancon.

Definition sent (lb : lib_state) : list can_packet := List.filter mine (written (lib_fd lb)).

(** The library asks for the address or has asked for it. *)
Definition lib_ok (lb : lib_state) : Prop := initialized lb = 0 \/ nodeid lb = wire_addr.

(** The state after sending and waiting: the descriptor and the library, the
    acknowledgements, the turns taken and the messages on stderr. *)
Definition touch (lb : lib_state) (m : mbox) (k : nat) (l : list (string * list earg)) s : cancon :=
  set_err (l ++ err s) (set_syncs k (set_acks m (set_cc_lib lb s))).

(** From [s] to [s'] this thread sent [ps], and nothing else happened that
    matters to it. *)
Definition sends (ps : list can_packet) s s' : Prop :=
  exists lb m k l, s' = touch lb m k l s /\ sent lb = sent (cc_lib s) ++ ps /\
    mbox_ok m /\ Forall (fun e => e.1 <> drop_msg) l /\
    (lib_ok (cc_lib s) -> lib_ok lb) /\ lib_stack lb = lib_stack (cc_lib s).

Lemma sends_refl s : mbox_ok (acks s) -> sends [] s s.
Proof.
  intros Hm. exists (cc_lib s), (acks s), (syncs s), []. rewrite app_nil_r.
  split; [by destruct s|]. done.
Qed.
Lemma sends_trans ps1 ps2 s1 s2 s3 : sends ps1 s1 s2 -> sends ps2 s2 s3 -> sends (ps1 ++ ps2) s1 s3.
Proof.
  intros (lb1 & m1 & k1 & l1 & -> & E1 & _ & H1 & Hl1 & Es1)
    (lb2 & m2 & k2 & l2 & -> & E2 & Hm & H2 & Hl2 & Es2).
  exists lb2, m2, k2, (l2 ++ l1). cbn in *. split; [unfold touch; cbn; by rewrite app_assoc|].
  split; [by rewrite E2, E1, app_assoc|]. split; [done|]. split; [by apply list.Forall_app|].
  split; [tauto|]. by rewrite Es2.
Qed.
Lemma sends_acks ps s s' : sends ps s s' -> mbox_ok (acks s').
Proof. by intros (? & ? & ? & ? & -> & _ & ? & _). Qed.

Lemma sends_eprintf fmt args s : mbox_ok (acks s) -> fmt <> drop_msg ->
  wp (eprintf fmt args) (fun _ s' => sends [] s s') s.
Proof.
  intros Hm Hf. unfold eprintf. rewrite wp_modify.
  exists (cc_lib s), (acks s), (syncs s), [(fmt, args)]. rewrite app_nil_r.
  split; [by destruct s|]. split; [done|]. split; [done|]. split; [by constructor|done].
Qed.

(** *** The turns of the other threads *)

Lemma other_steps_ok l m : mbox_ok m ->
  wp (for_each l other_step) (fun _ m' => mbox_ok m' /\
    forall a, a ∈ entries m' -> a ∈ entries m \/ SignalAcknak a.1 a.2 ∈ l) m.
Proof.
  revert m. induction l as [|o l IH]; intros m Hm; cbn [for_each].
  { rewrite wp_skip. split; [done|]. by left. }
  rewrite wp_bind. destruct o as [t d|]; cbn [other_step].
  - eapply wp_mono; [by apply signal_acknak_spec|]. intros _ m' [Hm' E].
    eapply wp_mono; [by apply IH|]. intros _ m'' [Hm'' H]. split; [done|]. intros a Ha.
    destruct (H a Ha) as [Ha'|Ha']; [|right; by right]. rewrite E in Ha'.
    destruct (_ <? _); [|by left]. apply elem_of_app in Ha' as [Ha'|Ha']; [by left|right].
    apply list_elem_of_singleton in Ha' as ->. by left.
  - rewrite wp_modify.
    eapply wp_mono; [apply IH; destruct Hm; split; cbn; [done|unfold ACKBUFLEN; lia]|].
    intros _ m'' [Hm'' H]. split; [done|]. intros a Ha. destruct (H a Ha) as [Ha'|Ha']; [|right; by right].
    by apply elem_of_nil in Ha'.
Qed.

Lemma take_acknak_mutex_spec s : mbox_ok (acks s) ->
  wp take_acknak_mutex (fun b s' => sends [] s s' /\ b = timed_out (syncs s) /\
    syncs s' = S (syncs s) /\ cc_lib s' = Lib F (nodeid (cc_lib s)) (initialized (cc_lib s))
      (lib_stack (cc_lib s)) (others (syncs s) (lib_fd (cc_lib s))).2 /\
    forall a, a ∈ entries (acks s') -> a ∈ entries (acks s) \/
      SignalAcknak a.1 a.2 ∈ (others (syncs s) (lib_fd (cc_lib s))).1) s.
Proof.
  intros Hm. unfold take_acknak_mutex. rewrite wp_bind, wp_gets, wp_bind.
  unfold on_lib, on_fd. rewrite !wp_zoom, wp_run, wp_bind. unfold on_acks. rewrite wp_zoom.
  eapply wp_mono; [by apply other_steps_ok|]. intros _ m' [Hm' Hfrom].
  rewrite wp_bind, wp_modify, wp_ret. cbn.
  repeat split; [|done..|]; [|intros a Ha; by apply Hfrom].
  exists (Lib F (nodeid (cc_lib s)) (initialized (cc_lib s)) (lib_stack (cc_lib s))
            (others (syncs s) (lib_fd (cc_lib s))).2), m', (S (syncs s)), [].
  split; [done|]. split; [|done]. rewrite app_nil_r. apply wire_others.
Qed.

(** *** Waiting for an acknowledgement *)

(** An entry the wait may find: one that was there, or that another thread
    adds in one of the turns from [k0] to [k1]. *)
Definition comes (s : cancon) (k1 : nat) (a : Z * Z) : Prop :=
  a ∈ entries (acks s) \/
  exists k d, (syncs s <= k < k1)%nat /\ SignalAcknak a.1 a.2 ∈ (others k d).1.

(** The result of a wait: a time-out, or the type and the data of a matching
    entry. *)
Definition wait_result (target : Z) (P : Z * Z -> Prop) (r : acknak_t * option Z) : Prop :=
  r = (TIMEDOUT, None) \/
  exists a, P a /\ IS_OUR_ACKNAK a.1 target = true /\
    r = (IS_ACKNAK (fget Ext.type a.1), Some a.2).

Definition waited (target : Z) (r : acknak_t * option Z) s s' : Prop :=
  sends [] s s' /\ (syncs s <= syncs s')%nat /\ entries (acks s') = [] /\
  wait_result target (comes s (syncs s')) r.

Lemma IS_ACKNAK_not_none t : IS_ACKNAK t <> NONE.
Proof. unfold IS_ACKNAK. by destruct (_ =? _). Qed.

(** One round: what the scan makes of the entries and the time-out. *)
Lemma scan_round target b s (Q : acknak_t * option Z -> cancon -> Prop) : mbox_ok (acks s) ->
  (forall r s', sends [] s s' -> syncs s' = syncs s -> entries (acks s') = [] ->
     mbox_ok (acks s') -> cc_lib s' = cc_lib s ->
     r = (if b : bool then TIMEDOUT else NONE, None) \/
     wait_result target (fun a => a ∈ entries (acks s)) r -> Q r s') ->
  wp (r ← on_acks (scan_acks target (if b : bool then TIMEDOUT else NONE, None));
      on_acks (modify (set_ackbuflen 0)) ;; mret r) Q s.
Proof.
  intros Hm HQ. rewrite wp_bind. unfold on_acks. rewrite wp_zoom. apply scan_acks_spec; [done|].
  rewrite wp_bind, wp_zoom, wp_modify, wp_ret. cbn.
  assert (Hm0 : mbox_ok (set_ackbuflen 0 (acks s))).
  { destruct Hm. split; cbn; [done|unfold ACKBUFLEN; lia]. }
  apply HQ; [|done..|].
  - exists (cc_lib s), (set_ackbuflen 0 (acks s)), (syncs s), []. rewrite app_nil_r. by destruct s.
  - destruct (match_of_found target (entries (acks s)) (if b then TIMEDOUT else NONE, None))
      as [->|(a & Ha & Hour & ->)]; [by left|right; right]. by exists a.
Qed.

(** The loop in terms of its rounds. *)
Lemma waitfor_loop_unfold target fuel s :
  waitfor_acknak_loop (S fuel) target s =
  (b ← (n ← gets (fun s => ackbuflen (acks s));
        if n =? 0 then take_acknak_mutex else mret false);
   r ← (r ← on_acks (scan_acks target (if b : bool then TIMEDOUT else NONE, None));
        on_acks (modify (set_ackbuflen 0)) ;; mret r);
   if decide (r.1 = NONE) then waitfor_acknak_loop fuel target else mret r) s.
Proof.
  cbn [waitfor_acknak_loop]. unfold mbind, eff_bind, gets, mret, eff_ret.
  destruct (ackbuflen (acks s) =? 0).
  - destruct (take_acknak_mutex s) as [b s'|]; [|done].
    destruct (on_acks (scan_acks _ _) s') as [[r d] s''|]; [|done].
    by destruct (on_acks (modify _) s'').
  - destruct (on_acks (scan_acks _ _) s) as [[r d] s''|]; [|done].
    by destruct (on_acks (modify _) s'').
Qed.

Lemma wp_eq {A} (m m' : eff cancon A) Q s : m s = m' s -> wp m' Q s -> wp m Q s.
Proof. unfold wp. by intros ->. Qed.

(** A wait after a turn [s] - [s1] of the other threads. *)
Lemma waited_turn target P r s s1 s2 :
  sends [] s s1 -> syncs s1 = S (syncs s) ->
  (forall a, a ∈ entries (acks s1) -> a ∈ entries (acks s) \/
     SignalAcknak a.1 a.2 ∈ (others (syncs s) (lib_fd (cc_lib s))).1) ->
  sends [] s1 s2 -> (syncs s1 <= syncs s2)%nat -> entries (acks s2) = [] ->
  wait_result target P r -> (forall a, P a -> comes s1 (syncs s2) a) -> waited target r s s2.
Proof.
  intros Hs E Hfrom Hs2 Hk He Hr HP. split; [by apply (sends_trans [] [] _ s1)|].
  split; [lia|]. split; [done|]. destruct Hr as [->|(a & Ha & Hour & ->)]; [by left|right].
  exists a. split; [|done]. destruct (HP a Ha) as [Hin|(k & d & Hkd & Hin)].
  - destruct (Hfrom a Hin) as [?|?]; [by left|right]. exists (syncs s), (lib_fd (cc_lib s)).
    split; [lia|done].
  - right. exists k, d. split; [lia|done].
Qed.

Lemma waitfor_loop_empty target n : forall fuel s,
  mbox_ok (acks s) -> entries (acks s) = [] -> (n < fuel)%nat -> timed_out (syncs s + n) = true ->
  wp (waitfor_acknak_loop fuel target) (fun r s' => waited target r s s') s.
Proof.
  induction n as [|n IH]; intros [|fuel] s Hm He Hf Ht; try lia;
    (eapply wp_eq; [apply waitfor_loop_unfold|]);
    rewrite wp_bind, wp_bind, wp_gets, (proj2 (Z.eqb_eq _ 0)) by by apply entries_empty.
  all: eapply wp_mono; [by apply take_acknak_mutex_spec|]; intros b s1 (Hs1 & Eb & Ek & _ & Hfrom).
  all: rewrite wp_bind; apply scan_round; [by eapply sends_acks|]; intros r s2 Hs2 Ek2 He2 Hm2 _ Hr.
  - rewrite Nat.add_0_r in Ht. rewrite Ht in Eb. subst b.
    assert (Hr' : wait_result target (fun a => a ∈ entries (acks s1)) r) by (destruct Hr as [->|?]; [by left|done]).
    rewrite decide_False.
    2: { destruct Hr' as [->|(a & _ & _ & ->)]; [done|apply IS_ACKNAK_not_none]. }
    rewrite wp_ret.
    apply (waited_turn target _ r s s1 s2 Hs1 Ek Hfrom Hs2 ltac:(lia) He2 Hr'). by left.
  - destruct (decide (r.1 = NONE)) as [En|En].
    + eapply wp_mono; [apply IH; [done|done|lia|rewrite Ek2, Ek; by rewrite <- plus_n_Sm in Ht]|].
      intros r' s3 (Hs3 & Hk3 & He3 & Hr3).
      apply (waited_turn target _ r' s s1 s3 Hs1 Ek Hfrom (sends_trans [] [] _ _ _ Hs2 Hs3)
        ltac:(lia) He3 Hr3).
      intros a [Ha|(k & d & Hkd & Ha)]; [by rewrite He2 in Ha; apply elem_of_nil in Ha|].
      right. exists k, d. split; [lia|done].
    + rewrite wp_ret.
      assert (Hr' : wait_result target (fun a => a ∈ entries (acks s1)) r).
      { destruct Hr as [->|Hr]; [|exact Hr]. destruct b; [by left|done]. }
      apply (waited_turn target _ r s s1 s2 Hs1 Ek Hfrom Hs2 ltac:(lia) He2 Hr'). by left.
Qed.

Lemma waitfor_loop_spec target n fuel s :
  mbox_ok (acks s) -> (S n < fuel)%nat -> timed_out (syncs s + n) = true ->
  wp (waitfor_acknak_loop fuel target) (fun r s' => waited target r s s') s.
Proof.
  intros Hm Hf Ht. destruct (Z.eqb_spec (ackbuflen (acks s)) 0) as [E|E].
  { apply (waitfor_loop_empty target n); [done|by apply entries_empty|lia|done]. }
  destruct fuel as [|fuel]; [lia|]. eapply wp_eq; [apply waitfor_loop_unfold|].
  rewrite wp_bind, wp_bind, wp_gets, (proj2 (Z.eqb_neq _ 0)) by done. rewrite wp_ret, wp_bind.
  apply (scan_round target false); [done|]. intros r s2 Hs2 Ek2 He2 Hm2 _ Hr.
  destruct (decide (r.1 = NONE)) as [En|En].
  - eapply wp_mono; [apply (waitfor_loop_empty target n); [done|done|lia|by rewrite Ek2]|].
    intros r' s3 (Hs3 & Hk3 & He3 & Hr3).
    split; [by apply (sends_trans [] [] _ s2)|]. split; [lia|]. split; [done|].
    destruct Hr3 as [->|(a & Ha & Hour & ->)]; [by left|right]. exists a. split; [|done].
    destruct Ha as [Ha|(k & d & Hkd & Ha)]; [by rewrite He2 in Ha; apply elem_of_nil in Ha|].
    right. exists k, d. split; [lia|done].
  - rewrite wp_ret. split; [done|]. split; [lia|]. split; [done|].
    destruct Hr as [->|[->|(a & Ha & Hour & ->)]]; [done|by left|right].
    exists a. split; [by left|done].
Qed.

(** waitfor_acknak() returns: with the type and the data of an entry for the
    target that was in the buffer or came before it returned, or when the
    deadline has passed. *)
Lemma waitfor_acknak_spec target s : mbox_ok (acks s) ->
  wp (waitfor_acknak wait_fuel target) (fun r s' => waited target r s s') s.
Proof using D.
  intros Hm. unfold waitfor_acknak. rewrite wp_bind.
  eapply wp_mono; [by apply take_acknak_mutex_spec|]. intros b s1 (Hs1 & _ & Ek & _ & Hfrom).
  destruct (deadline (syncs s1)) as (n & Hn & Ht).
  eapply wp_mono; [apply (waitfor_loop_spec target n); [by eapply sends_acks|done|done]|].
  intros r s2 (Hs2 & Hk2 & He2 & Hr2).
  by apply (waited_turn target _ r s s1 s2 Hs1 Ek Hfrom Hs2 ltac:(lia) He2 Hr2).
Qed.

(** *** Sending *)

(** The packet can_send() makes for a header, data and a length of at most
    four bytes. *)
Definition request (target : Z) (dat : option Z) (len : Z) (p : can_packet) : Prop :=
  ext p = target /\ canf Can.length p = 4 + len /\
  canf Can.lpriority p = CAN_HIGH_PRIORITY /\
  forall d, dat = Some d -> 0 < len -> CanTypes.dat p = d.

(** can_send() with the address the descriptor gives. *)
Definition request_of (target : Z) (dat : option Z) (len : Z) (lb : lib_state) : can_packet :=
  let pkt := set_canf Can.lpriority CAN_HIGH_PRIORITY (lib_stack lb) in
  let pkt := set_canf Can.length (sizeof_can_header_ext + len) pkt in
  let pkt := set_canf Can.dest
               (if (UNPACK_MODULE wire_addr =? fget Ext.module target)
                   && (UNPACK_CLUSTER wire_addr =? fget Ext.cluster target)
                then fget Ext.node target else CAN_MODULE_H8) pkt in
  let pkt := set_ext target pkt in
  match dat with Some d => if 0 <? len then set_dat d pkt else pkt | None => pkt end.

Lemma request_of_ok target dat len lb : 0 <= len <= 4 ->
  request target dat len (request_of target dat len lb).
Proof.
  intros Hlen. unfold request, request_of.
  assert (Eh : forall d, canf Can.length (set_canf Can.dest d (set_canf Can.length (sizeof_can_header_ext + len)
    (set_canf Can.lpriority CAN_HIGH_PRIORITY (lib_stack lb)))) = 4 + len /\
    canf Can.lpriority (set_canf Can.dest d (set_canf Can.length (sizeof_can_header_ext + len)
    (set_canf Can.lpriority CAN_HIGH_PRIORITY (lib_stack lb)))) = CAN_HIGH_PRIORITY).
  { intros d. unfold canf, set_canf; cbn [can set_can]. fld. unfold sizeof_can_header_ext.
    split; [|done]. cbn [f_wid Can.length]. apply Z.mod_small. lia. }
  destruct (Eh (if (UNPACK_MODULE wire_addr =? fget Ext.module target)
                   && (UNPACK_CLUSTER wire_addr =? fget Ext.cluster target)
                then fget Ext.node target else CAN_MODULE_H8)) as [E1 E2].
  destruct dat as [d|]; [destruct (Z.ltb_spec 0 len)|]; unfold canf in *; cbn in *;
    repeat split; try done.
  - by intros ? [= ->] _.
  - intros. lia.
Qed.

Lemma can_send_spec target dat len lb : lib_ok lb ->
  exists lb', can_send target dat len lb = Done PKTSIZE lb' /\ lib_ok lb' /\
    lib_stack lb' = lib_stack lb /\
    written (lib_fd lb') = written (lib_fd lb) ++ [request_of target dat len lb] /\
    exists d0, (d0 = lib_fd lb \/ exists a, fd_ioctl_addr (lib_fd lb) = Done a d0) /\
      fd_write (request_of target dat len lb) d0 = Done PKTSIZE (lib_fd lb').
Proof.
  intros Hlb. unfold can_send, initialize_once, mbind, eff_bind, gets, when.
  assert (Hinit : exists lb0, (if initialized lb =? 0 then _initialize else skip) lb = Done tt lb0 /\
    nodeid lb0 = wire_addr /\ lib_stack lb0 = lib_stack lb /\
    written (lib_fd lb0) = written (lib_fd lb) /\
    (lib_fd lb0 = lib_fd lb \/ exists a, fd_ioctl_addr (lib_fd lb) = Done a (lib_fd lb0))).
  { destruct (Z.eqb_spec (initialized lb) 0) as [E|E].
    - destruct (wire_ioctl (lib_fd lb)) as (d' & E1 & E2). unfold _initialize.
      change (can_checkalign can_packet_offsets =? 0) with true. cbn [negb].
      unfold mbind, eff_bind, on_fd, zoom. rewrite E1. eexists. split; [reflexivity|].
      do 3 (split; [done|]). right. by exists (Some wire_addr).
    - exists lb. split; [done|]. split; [by destruct Hlb|]. split; [done|]. split; [done|]. by left. }
  destruct Hinit as (lb0 & -> & En & Es & Ew & Efd).
  unfold write_pkt, mbind, eff_bind, on_fd, zoom.
  match goal with |- context [fd_write ?p ?d] => destruct (wire_write p d) as (d' & E1 & E2) end.
  rewrite E1. cbn. eexists. split; [reflexivity|]. split; [by right|]. split; [done|].
  cbn. split; [by rewrite E2, Ew, Es, En|]. exists (lib_fd lb0). split; [done|].
  rewrite Es, En in E1. exact E1.
Qed.

Lemma lib_ok_sends ps s s' : sends ps s s' -> lib_ok (cc_lib s) -> lib_ok (cc_lib s').
Proof. intros (? & ? & ? & ? & -> & _ & _ & _ & H & _). exact H. Qed.
Lemma stack_sends ps s s' : sends ps s s' -> lib_stack (cc_lib s') = lib_stack (cc_lib s).
Proof. by intros (? & ? & ? & ? & -> & _ & _ & _ & _ & H). Qed.

(** What [n] sends of one packet add to what this thread sent. *)
Definition copies (n : nat) (p : can_packet) : list can_packet := List.filter mine (replicate n p).

Lemma copies_add n m p : copies (n + m) p = copies n p ++ copies m p.
Proof. unfold copies. by rewrite replicate_add, List.filter_app. Qed.

Lemma send_once target dat len s : mbox_ok (acks s) -> lib_ok (cc_lib s) ->
  wp (on_lib (can_send target dat len)) (fun _ s' =>
    sends (copies 1 (request_of target dat len (cc_lib s))) s s' /\
    acks s' = acks s /\ syncs s' = syncs s) s.
Proof.
  intros Hm Hlb. unfold on_lib. rewrite wp_zoom.
  destruct (can_send_spec target dat len _ Hlb) as (lb' & E & Hlb' & Es & Ew & _).
  unfold wp. rewrite E. split; [|done]. exists lb', (acks s), (syncs s), [].
  split; [by destruct s|]. unfold sent. rewrite Ew, List.filter_app. done.
Qed.

(** [p] sent [n] times until the [result], with an answer if it is ACK. *)
Definition tried (target : Z) (p : can_packet) (n : nat) (r : acknak_t * option Z) s s' : Prop :=
  sends (copies n p) s s' /\ (syncs s <= syncs s')%nat /\ r.1 <> NONE /\ entries (acks s') = [] /\
  (r.1 = ACK -> exists a, comes s (syncs s') a /\ IS_OUR_ACKNAK a.1 target = true /\
     fget Ext.type a.1 = CANTYPE_ACK /\ r.2 = Some a.2).

Lemma wait_result_ack target P r : wait_result target P r -> r.1 <> NONE /\
  (r.1 = ACK -> exists a, P a /\ IS_OUR_ACKNAK a.1 target = true /\
     fget Ext.type a.1 = CANTYPE_ACK /\ r.2 = Some a.2).
Proof.
  intros [->|(a & Ha & Hour & ->)]; [done|]. split; [apply IS_ACKNAK_not_none|].
  cbn. unfold IS_ACKNAK. destruct (Z.eqb_spec (fget Ext.type a.1) CANTYPE_ACK); [|done].
  intros _. by exists a.
Qed.

Lemma try_once target dat len s : mbox_ok (acks s) -> lib_ok (cc_lib s) ->
  wp (on_lib (can_send target dat len) ;; waitfor_acknak wait_fuel target) (fun r s' =>
    tried target (request_of target dat len (cc_lib s)) 1 r s s') s.
Proof using D.
  intros Hm Hlb. rewrite wp_bind. eapply wp_mono; [by apply send_once|].
  intros _ s1 (Hs1 & Ea & Ek). eapply wp_mono; [apply waitfor_acknak_spec; by rewrite Ea|].
  intros r s2 (Hs2 & Hk2 & He2 & Hr2). destruct (wait_result_ack _ _ _ Hr2) as [Hn Hack].
  split; [|split; [lia|split; [done|split; [done|]]]].
  - pose proof (sends_trans _ _ _ _ _ Hs1 Hs2) as H. by rewrite app_nil_r in H.
  - intros E. destruct (Hack E) as (a & Ha & H). exists a. split; [|done].
    unfold comes in *. rewrite Ea, Ek in Ha. exact Ha.
Qed.

Lemma tried_trans target p n m r s s1 s2 :
  sends (copies n p) s s1 -> entries (acks s1) = [] -> (syncs s <= syncs s1)%nat ->
  tried target p m r s1 s2 -> tried target p (n + m) r s s2.
Proof.
  intros Hs He Hk (Hs2 & Hk2 & Hn & He2 & Hack). split; [|split; [lia|split; [done|split; [done|]]]].
  - rewrite copies_add. by eapply sends_trans.
  - intros E. destruct (Hack E) as (a & Ha & H). exists a. split; [|done].
    destruct Ha as [Ha|(k & d & Hkd & Ha)]; [by rewrite He in Ha; apply elem_of_nil in Ha|].
    right. exists k, d. split; [lia|done].
Qed.

(** A message, perhaps, changes nothing else. *)
Definition said s s' : Prop := sends [] s s' /\ acks s' = acks s /\ syncs s' = syncs s.

Lemma wp_when_err b fmt args (Q : unit -> cancon -> Prop) s : mbox_ok (acks s) -> fmt <> drop_msg ->
  (forall s', said s s' -> Q tt s') -> wp (when b (eprintf fmt args)) Q s.
Proof.
  intros Hm Hf HQ. apply wp_when. split; intros _.
  - pose proof (sends_eprintf fmt args s Hm Hf) as H. unfold eprintf in *.
    rewrite wp_modify in *. apply HQ. done.
  - apply HQ. split; [by apply sends_refl|done].
Qed.

Lemma tried_said target p n r s s1 s2 :
  tried target p n r s s1 -> said s1 s2 -> tried target p n r s s2.
Proof.
  intros (Hs & Hk & Hn & He & Hack) (Hs2 & Ea & Ek).
  split; [|rewrite Ea, Ek; done].
  pose proof (sends_trans _ _ _ _ _ Hs Hs2) as H. by rewrite app_nil_r in H.
Qed.

Lemma tried_ok target p n r s s' : tried target p n r s s' ->
  mbox_ok (acks s') /\ (lib_ok (cc_lib s) -> lib_ok (cc_lib s')).
Proof. intros (Hs & _). split; [by eapply sends_acks|by eapply lib_ok_sends]. Qed.

Lemma request_of_stack target dat len lb lb' : lib_stack lb' = lib_stack lb ->
  request_of target dat len lb' = request_of target dat len lb.
Proof. unfold request_of. by intros ->. Qed.

Lemma mysend_loop_spec target dat len max : forall fuel ack try s,
  mbox_ok (acks s) -> lib_ok (cc_lib s) -> (Z.to_nat (max - try - 1) < fuel)%nat ->
  wp (mysend_loop wait_fuel fuel target dat len ack try max) (fun r s' => exists n,
    tried target (request_of target dat len (cc_lib s)) (S n) r.1 s s' /\
    r.2 = try + 1 + Z.of_nat n /\ r.2 <= Z.max (try + 1) max /\
    (r.1.1 <> ACK -> max <= r.2)) s.
Proof using D.
  induction fuel as [|fuel IH]; intros ack try s Hm Hlb Hfuel; [lia|]. cbn [mysend_loop].
  pose proof (try_once target dat len s Hm Hlb) as Htry. rewrite wp_bind in Htry. rewrite wp_bind.
  eapply wp_mono; [exact Htry|]. cbn beta. intros _ s0 H0. rewrite wp_bind.
  eapply wp_mono; [exact H0|]. cbn beta. intros [response a] s1 H1. cbv zeta.
  destruct (tried_ok _ _ _ _ _ _ H1) as [Hm1 Hlb1]. rewrite wp_bind.
  apply wp_when_err; [done|done|]. intros s2 H2.
  destruct (bool_decide_reflect (response = ACK)) as [E|E]; cbn [negb andb].
  - rewrite wp_ret. exists O. subst response. cbn [fst snd].
    split; [|split; [lia|split; [lia|done]]]. eapply tried_said in H2; [|exact H1].
    destruct H2 as (Hs & Hk & Hn & He & Hack). split; [done|]. split; [done|]. split; [done|].
    split; [done|]. intros _. destruct (Hack eq_refl) as (b & Hb & Hour & Ht & Ed).
    exists b. cbn [fst snd] in *. by subst a.
  - destruct (Z.ltb_spec (try + 1) max) as [Hlt|Hge].
    + pose proof (tried_said _ _ _ _ _ _ _ H1 H2) as (Hs & Hk & _ & He & _).
      eapply wp_mono; [apply IH; [by eapply sends_acks|by eapply lib_ok_sends|lia]|].
      intros r s3 (n & Ht & E2 & Hmax & Hno). exists (S n).
      split; [|split; [lia|split; [lia|done]]].
      rewrite (request_of_stack _ _ _ (cc_lib s)) in Ht by by eapply stack_sends.
      by apply (tried_trans _ _ 1 (S n) _ s s2).
    + rewrite wp_ret. exists O. cbn [fst snd]. split; [|split; [lia|split; [lia|lia]]].
      eapply tried_said in H2; [|exact H1].
      destruct H2 as (Hs & Hk & Hn & He & Hack). split; [done|]. split; [done|]. split; [done|].
      split; [done|]. done.
Qed.

Lemma mysend_spec target dat len max s :
  mbox_ok (acks s) -> lib_ok (cc_lib s) -> 0 <= max ->
  wp (mysend wait_fuel target dat len max) (fun r s' => exists n,
    tried target (request_of target dat len (cc_lib s)) n r s s' /\
    1 <= Z.of_nat n <= Z.max 1 max /\ (r.1 <> ACK -> Z.of_nat n = Z.max 1 max)) s.
Proof using D.
  intros Hm Hlb Hmax. unfold mysend. rewrite wp_bind.
  eapply wp_mono; [apply mysend_loop_spec; [done|done|lia]|].
  intros [[response ack] try] s1 (n & Ht & E & Hle & Hno). cbn [fst snd] in *.
  destruct (tried_ok _ _ _ _ _ _ Ht) as [Hm1 _]. rewrite wp_bind.
  apply wp_when_err; [done|done|]. intros s2 H2. rewrite wp_ret. exists (S n).
  split; [by eapply tried_said|]. split; [lia|]. intros Hr. specialize (Hno Hr). lia.
Qed.

(** *** Acknowledgements that come in time *)

(** Among what the other threads do, the acknowledgement of [p] comes last,
    and finds room. *)
Definition acked (p : can_packet) (l : list other) : Prop :=
  exists l' a x, l = l' ++ [SignalAcknak a x] /\ Z.of_nat (length l') < ACKBUFLEN /\
    IS_OUR_ACKNAK a (ext p) = true /\ fget Ext.type a = CANTYPE_ACK.

(** Every packet of this thread is acknowledged while it waits for its turn
    to look at the acknowledgements. *)
Definition prompt : Prop :=
  forall k d p, list.last (written d) = Some p -> mine p = true -> acked p (others k d).1.

Lemma other_step_one o m : mbox_ok m ->
  wp (other_step o) (fun _ m' => mbox_ok m' /\ ackbuflen m' <= ackbuflen m + 1) m.
Proof.
  intros Hm. destruct o as [t d|]; cbn [other_step].
  - eapply wp_mono; [by apply signal_acknak_spec|]. intros _ m' [Hm' E]. split; [done|].
    rewrite <- (entries_length m'), <- (entries_length m), E by done.
    destruct (_ <? _); rewrite ?length_app; cbn; lia.
  - rewrite wp_modify. destruct Hm. split; [split; cbn; [done|unfold ACKBUFLEN; lia]|cbn; lia].
Qed.

Lemma last_found p a x l : forall m, mbox_ok m -> ackbuflen m + Z.of_nat (length l) < ACKBUFLEN ->
  IS_OUR_ACKNAK a (ext p) = true -> fget Ext.type a = CANTYPE_ACK ->
  wp (for_each (l ++ [SignalAcknak a x]) other_step) (fun _ m' => mbox_ok m' /\ entries m' <> [] /\
    forall r, (match_of (ext p) (entries m') r).1 = ACK) m.
Proof.
  induction l as [|o l IH]; intros m Hm Hl Hour Ht; cbn [app for_each]; rewrite wp_bind.
  - eapply wp_mono; [by apply signal_acknak_spec|]. intros _ m' [Hm' E].
    rewrite (proj2 (Z.ltb_lt _ _)) in E by (cbn in Hl; lia). rewrite wp_skip. split; [done|]. rewrite E.
    split; [by destruct (entries m)|]. intros r. unfold match_of. rewrite fold_left_app. cbn.
    unfold scan_one. cbn [fst snd]. rewrite Hour. cbn. unfold IS_ACKNAK. by rewrite Ht.
  - eapply wp_mono; [by apply other_step_one|]. intros _ m' [Hm' Hl']. apply IH; [done| |done..].
    cbn [length] in Hl. lia.
Qed.

Lemma waitfor_prompt p s : mbox_ok (acks s) -> entries (acks s) = [] -> (0 < wait_fuel)%nat ->
  acked p (others (syncs s) (lib_fd (cc_lib s))).1 ->
  wp (waitfor_acknak wait_fuel (ext p)) (fun r _ => r.1 = ACK) s.
Proof using D.
  intros Hm He Hf (l & a & x & El & Hl & Hour & Ht). unfold waitfor_acknak, take_acknak_mutex.
  rewrite !wp_bind, wp_gets, wp_bind. unfold on_lib, on_fd. rewrite !wp_zoom, wp_run, wp_bind.
  unfold on_acks at 1. rewrite wp_zoom, El. apply entries_empty in He; [|done]. cbn [cc_lib lib_fd set_cc_lib acks].
  eapply wp_mono; [apply (last_found p); [done|lia|done..]|]. intros _ m' (Hm' & Hne & Hack).
  rewrite wp_bind, wp_modify, wp_ret. destruct wait_fuel as [|fuel]; [lia|].
  eapply wp_eq; [apply waitfor_loop_unfold|]. rewrite wp_bind, wp_bind, wp_gets. cbn [acks set_acks set_syncs].
  rewrite (proj2 (Z.eqb_neq _ 0)) by by rewrite entries_empty. rewrite wp_ret, wp_bind, wp_bind.
  unfold on_acks. rewrite wp_zoom. apply scan_acks_spec; [done|]. rewrite wp_bind, wp_zoom, wp_modify, wp_ret.
  cbn [acks set_acks set_syncs]. rewrite Hack. rewrite decide_False by done. rewrite wp_ret. apply Hack.
Qed.

(** Then the packet is sent once. *)
Lemma mysend_prompt target dat len max s : prompt -> entries (acks s) = [] ->
  mbox_ok (acks s) -> lib_ok (cc_lib s) -> 0 <= len <= 4 ->
  mine (request_of target dat len (cc_lib s)) = true ->
  wp (mysend wait_fuel target dat len max) (fun _ s' =>
    sent (cc_lib s') = sent (cc_lib s) ++ copies 1 (request_of target dat len (cc_lib s))) s.
Proof using D.
  intros Hp He Hm Hlb Hlen Hmine. set (p := request_of target dat len (cc_lib s)) in *.
  unfold mysend. rewrite wp_bind. cbn [mysend_loop].
  pose proof (try_once target dat len s Hm Hlb) as Htry. rewrite wp_bind in Htry. rewrite wp_bind.
  assert (Hack : wp (on_lib (can_send target dat len)) (fun _ s1 =>
    wp (waitfor_acknak wait_fuel target) (fun r _ => r.1 = ACK) s1) s).
  { unfold on_lib. rewrite wp_zoom. destruct (can_send_spec target dat len _ Hlb) as (lb' & E & _ & _ & Ew & _).
    unfold wp at 1. rewrite E. assert (Et : ext p = target) by by apply request_of_ok.
    rewrite <- Et. apply waitfor_prompt; [done|done| |].
    - destruct (deadline O) as (n & Hn & _). lia.
    - apply Hp; [|done]. cbn. rewrite Ew. apply last_snoc. }
  eapply wp_mono; [exact (wp_and _ _ _ _ Htry Hack)|]. cbn beta. intros _ s0 [H0 Ha0].
  rewrite wp_bind. eapply wp_mono; [exact (wp_and _ _ _ _ H0 Ha0)|]. intros [response a] s1 [H1 E]. cbn in E.
  subst response. destruct (tried_ok _ _ _ _ _ _ H1) as [Hm1 _]. cbv zeta. rewrite wp_bind.
  apply wp_when_err; [done|done|]. intros s2 H2.
  rewrite (bool_decide_eq_true_2 (ACK = ACK)) by done. cbn [negb andb]. rewrite wp_ret, wp_bind.
  destruct (tried_said _ _ _ _ _ _ _ H1 H2) as ((lb & m & k & l & -> & Es & _) & _).
  rewrite (bool_decide_eq_true_2 (ACK = ACK)) by done. cbn [negb andb]. rewrite wp_when.
  split; [done|]. intros _. by rewrite wp_ret.
Qed.

(** C28. Sending with retries. However the acknowledgements come, mysend() returns:
    it gives the same packet to the descriptor at least once and at most
    max_retries times (once for 0), not fewer if no ACK comes; a result of ACK
    means that an ACK for the object and address it sent to was in the buffer
    or came meanwhile, and gives its data. *)
Theorem mysend_retries target dat len max s :
  mbox_ok (acks s) -> lib_ok (cc_lib s) -> 0 <= max -> 0 <= len <= 4 ->
  wp (mysend wait_fuel target dat len max) (fun r s' => exists n p,
    request target dat len p /\ tried target p n r s s' /\
    1 <= Z.of_nat n <= Z.max 1 max /\ (r.1 <> ACK -> Z.of_nat n = Z.max 1 max)) s.
Proof using D.
  intros Hm Hlb Hmax Hlen. eapply wp_mono; [by apply mysend_spec|].
  intros r s' (n & Ht & H). exists n, (request_of target dat len (cc_lib s)).
  split; [by apply request_of_ok|done].
Qed.
End cancon_props.

(** * Examples *)

(** The console of the demo client, and two characters for it. *)
Definition demo_console : Z := 0x30000100.
Definition demo_dat : can_packet := CanPacket 0 (fset Can.length 6 0) demo_console 0x6f6b0000.

(** A descriptor that records what is written; the reader acknowledges the
    last packet in every turn. *)
#[local] Instance recorder : CanFd := {|
  fd_st := list can_packet;
  fd_ioctl_addr := mret (Some 5);
  fd_write := fun p => modify (fun l => l ++ [p]) ;; mret PKTSIZE;
  fd_read := mret (PKTSIZE, demo_dat)
|}.

Definition ack_for (p : can_packet) : other :=
  SignalAcknak (fset Ext.type CANTYPE_ACK (ext p)) 0.

#[local] Instance acking : Threads recorder := {|
  others := fun _ d => (match list.last d with Some p => [ack_for p] | None => [] end, d);
  timed_out := fun _ => true;
  canhosts := None
|}.

#[local, refine] Instance recorded : Wire recorder acking := {|
  written := fun d : @fd_st recorder => d;
  mine := fun p => extf Ext.type p =? CANTYPE_DAT;
  wire_addr := 5
|}.
Proof.
  - intros d. by exists d.
  - intros p d. by exists (d ++ [p]).
  - done.
Defined.

#[local] Instance acking_deadline : Deadline recorder acking 3.
Proof. intros k. exists O. split; [lia|done]. Defined.

Definition demo_cancon : cancon (F := recorder) :=
  Cancon recorder (Lib recorder 0 0 zero_packet []) (Mbox (replicate 16 (0, 0)) 0)
    (Charq (replicate 1024 0) 0) demo_console (CanHost 0 0 3 (str "node3")) 256 5
    (CanObject 0x3e8 (str "RESET")) 0 zero_packet 13 13 [] [] 0 0 0.

Lemma demo_cancon_idle : mbox_ok (acks demo_cancon) /\ lib_ok (cc_lib demo_cancon).
Proof. split; [split; [done|cbn; unfold ACKBUFLEN; lia]|by left]. Qed.

Lemma mysend_retries_witness :
  wp (mysend 3 (load_ext_ch 0 CANTYPE_DAT 0 (target_ch demo_cancon)) (Some 0x68690000) 2 20) (fun r s' =>
    exists n p, request (load_ext_ch 0 CANTYPE_DAT 0 (target_ch demo_cancon)) (Some 0x68690000) 2 p /\
      1 <= Z.of_nat n <= 20 /\ mine p = true /\ sent (cc_lib s') = copies n p) demo_cancon.
Proof.
  eapply wp_mono; [apply (mysend_retries 3 _ (Some 0x68690000) 2 20 demo_cancon
    (proj1 demo_cancon_idle) (proj2 demo_cancon_idle)); lia|].
  intros r s' (n & p & Hp & ((lb & m & k & l & -> & Es & _) & _) & Hn & _). exists n, p.
  split; [exact Hp|]. split; [lia|]. split; [|exact Es].
  cbn [mine recorded]. unfold extf. rewrite (proj1 Hp). vm_compute. reflexivity.
Defined.

(** The run itself: the break is acknowledged at once. *)
Example break_acknowledged :
  match mysend 3 (load_ext_ch 0 CANTYPE_WO CANOBJ_BREAK (target_ch demo_cancon)) None 0 20 demo_cancon with
  | Done (r, _) s' => r = ACK /\ length (lib_fd (cc_lib s')) = 1%nat
  | Fault _ => False
  end.
Proof. vm_compute. split; reflexivity. Qed.

(** An ACK that came too late for an earlier packet is taken for the answer
    to the next one, although the other threads are silent: mysend() does not
    empty the buffer before it sends. *)
#[local] Instance silent : Threads recorder := {|
  others := fun _ d => ([], d); timed_out := fun _ => true; canhosts := None
|}.

Example stale_ack_accepted :
  let target := load_ext_ch 0 CANTYPE_WO CANOBJ_BREAK (target_ch demo_cancon) in
  let late := set_acks (Mbox ((fset Ext.type CANTYPE_ACK target, 0) :: replicate 15 (0, 0)) 1) demo_cancon in
  match mysend (T := silent) 3 target None 0 20 late with
  | Done (r, _) _ => r = ACK
  | Fault _ => False
  end.
Proof. vm_compute. reflexivity. Qed.
