(* ===== verification/CanconTyped.v ===== *)
(** * From the terminal to the packets

    Typed characters pass the filter of tty_reader(), wait in the queue and
    leave it in the DAT packets of writer(), in every order of the rounds of
    the two threads. *)

From stdpp Require Import prelude list numbers strings.
From Stdlib Require Import ZArith Lia.
From S2P Require Import Prelude CanTypes Obp CanLib Cancon CanconProps.

Section cancon_typed.
Context {F : CanFd} {T : Threads F} {W : Wire F T} (wait_fuel : nat)
  {D : Deadline F T wait_fuel}.
Implicit Types s : cancon.

(** ** Typed characters *)

(** *** The filter

    What tty_reader() should let through, with [bol] for the begin of a line:
    there the escape character is held back; if a command follows both are
    swallowed, otherwise both go through. *)
Definition is_command (c : Z) : bool :=
  existsb (Z.eqb c) [46; 63; 35; 114; 82].

Fixpoint keep (bol : bool) (cs : list Z) : list Z :=
  match cs with
  | [] => []
  | c :: cs' =>
      if bol && (c =? ESCAPE_CHAR) then
        match cs' with
        | [] => []
        | c' :: cs'' => (if is_command c' then [] else [ESCAPE_CHAR; c']) ++ keep (ISCRNL c') cs''
        end
      else c :: keep (ISCRNL c) cs'
  end.

(** Characters other than the escape character at the begin of a line pass. *)
Lemma keep_plain cs bol : ESCAPE_CHAR ∉ cs -> keep bol cs = cs.
Proof.
  revert bol. induction cs as [|c cs IH]; intros bol Hn; [done|]. cbn.
  apply not_elem_of_cons in Hn as [Hc Hcs].
  rewrite (proj2 (Z.eqb_neq c ESCAPE_CHAR)), andb_false_r by done. f_equal. by apply IH.
Qed.

(** The program's view: what one character lets out after the two before it. *)
Definition lets_out (h0 h1 c : Z) : list Z :=
  if ISCRNL h0 && (h1 =? ESCAPE_CHAR) then if is_command c then [] else [ESCAPE_CHAR; c]
  else if negb (c =? ESCAPE_CHAR) || negb (ISCRNL h1) then [c] else [].

Fixpoint lets_out_all (h0 h1 : Z) (cs : list Z) : list Z :=
  match cs with [] => [] | c :: cs' => lets_out h0 h1 c ++ lets_out_all h1 c cs' end.

Definition history (h : Z * Z) (cs : list Z) : Z * Z := fold_left (fun h c => (h.2, c)) cs h.

Lemma lets_out_all_app cs ds h0 h1 :
  lets_out_all h0 h1 (cs ++ ds) = lets_out_all h0 h1 cs ++
    lets_out_all (history (h0, h1) cs).1 (history (h0, h1) cs).2 ds.
Proof.
  revert h0 h1. induction cs as [|c cs IH]; intros h0 h1; [done|]. cbn.
  by rewrite IH, app_assoc.
Qed.

Lemma lets_out_keep cs : forall h0 h1,
  lets_out_all h0 h1 cs =
  if ISCRNL h0 && (h1 =? ESCAPE_CHAR) then keep true (ESCAPE_CHAR :: cs) else keep (ISCRNL h1) cs.
Proof.
  induction cs as [|c cs IH]; intros h0 h1; [by destruct (_ && _)|].
  change (lets_out_all h0 h1 (c :: cs)) with (lets_out h0 h1 c ++ lets_out_all h1 c cs).
  rewrite IH. unfold lets_out. destruct (ISCRNL h0 && (h1 =? ESCAPE_CHAR)) eqn:E1.
  - apply andb_true_iff in E1 as [_ ->%Z.eqb_eq]. change (ISCRNL ESCAPE_CHAR) with false.
    cbn [andb]. cbn. done.
  - destruct (ISCRNL h1 && (c =? ESCAPE_CHAR)) eqn:E2.
    + apply andb_true_iff in E2 as [-> ->%Z.eqb_eq]. done.
    + assert (Eo : negb (c =? ESCAPE_CHAR) || negb (ISCRNL h1) = true).
      { rewrite <- negb_andb, andb_comm, E2. done. }
      rewrite Eo. cbn [keep app]. by rewrite E2.
Qed.

(** *** The threads *)

(** [ps] was sent from [s] to [s'], and no message about dropped characters
    written. *)
Record quiet (ps : list can_packet) s s' : Prop := Quiet {
  q_sent : sent (cc_lib s') = sent (cc_lib s) ++ ps;
  q_chars : chars s' = chars s;
  q_target : target_ch s' = target_ch s;
  q_acks : mbox_ok (acks s');
  q_empty : entries (acks s) = [] -> entries (acks s') = [];
  q_lib : lib_ok (cc_lib s) -> lib_ok (cc_lib s');
  q_err : exists l, err s' = l ++ err s /\ Forall (fun e => e.1 <> drop_msg) l
}.

Lemma quiet_sends ps s s' : sends ps s s' ->
  (entries (acks s) = [] -> entries (acks s') = []) -> quiet ps s s'.
Proof.
  intros (lb & m & k & l & -> & E & Hm & Hl & Hlb & _) He. split; try done. by exists l.
Qed.
Lemma quiet_refl s : mbox_ok (acks s) -> quiet [] s s.
Proof. intros. by apply quiet_sends; [apply sends_refl|]. Qed.
Lemma quiet_trans ps1 ps2 s1 s2 s3 :
  quiet ps1 s1 s2 -> quiet ps2 s2 s3 -> quiet (ps1 ++ ps2) s1 s3.
Proof.
  intros [E1 C1 T1 _ N1 L1 (l1 & Er1 & H1)] [E2 C2 T2 A2 N2 L2 (l2 & Er2 & H2)].
  split; try congruence; [by rewrite E2, E1, app_assoc|tauto|tauto|].
  exists (l2 ++ l1). split; [by rewrite Er2, Er1, app_assoc|]. by apply list.Forall_app.
Qed.
Lemma quiet_nil s1 s2 s3 : quiet [] s1 s2 -> quiet [] s2 s3 -> quiet [] s1 s3.
Proof. apply (quiet_trans [] []). Qed.

(** Only the writer sends DAT packets. *)
Context (only_dats : forall p, mine p = (extf Ext.type p =? CANTYPE_DAT)).

Lemma load_type w t obj ch : 0 <= t < 8 -> fget Ext.type (load_ext_ch w t obj ch) = t.
Proof. intros. unfold load_ext_ch. fld. by apply Z.mod_small. Qed.

Lemma request_type target dat len lb :
  extf Ext.type (request_of target dat len lb) = fget Ext.type target.
Proof. unfold request_of, extf. destruct dat as [d|]; [destruct (0 <? len)|]; done. Qed.

Lemma copies_mine n p : mine p = true -> copies n p = replicate n p.
Proof. intros E. unfold copies. induction n as [|n IH]; [done|]. cbn. by rewrite E, IH. Qed.
Lemma copies_not_mine n p : mine p = false -> copies n p = [].
Proof. intros E. unfold copies. induction n as [|n IH]; [done|]. cbn. by rewrite E. Qed.

(** Requests that are no DAT packets leave the DAT packets alone. *)
Lemma send_quiet target dat len s : mbox_ok (acks s) -> lib_ok (cc_lib s) ->
  fget Ext.type target <> CANTYPE_DAT ->
  wp (send wait_fuel target dat len) (fun _ s' => quiet [] s s') s.
Proof using D only_dats.
  intros Hm Hlb Ht. eapply wp_mono; [by apply (mysend_spec wait_fuel)|].
  intros r s' (n & (Hs & _ & _ & He & _) & _). rewrite copies_not_mine in Hs; [by apply quiet_sends|].
  rewrite only_dats, request_type. by apply Z.eqb_neq.
Qed.

Lemma eprintf_quiet fmt args s : mbox_ok (acks s) -> fmt <> drop_msg ->
  wp (eprintf fmt args) (fun _ s' => quiet [] s s') s.
Proof.
  intros Hm Hf. pose proof (sends_eprintf fmt args s Hm Hf) as H. unfold eprintf in *.
  rewrite wp_modify in *. by apply quiet_sends.
Qed.

Lemma eprintf_after fmt args s0 s : quiet [] s0 s -> fmt <> drop_msg ->
  wp (eprintf fmt args) (fun _ s' => quiet [] s0 s') s.
Proof.
  intros Hq Hf. eapply wp_mono; [apply eprintf_quiet; [apply Hq|done]|]. intros. by eapply quiet_nil.
Qed.

(** One message after the other. *)
Lemma eprintf_then fmt args (m : eff cancon unit) s0 s : quiet [] s0 s -> fmt <> drop_msg ->
  (forall s', quiet [] s0 s' -> wp m (fun _ s'' => quiet [] s0 s'') s') ->
  wp (eprintf fmt args ;; m) (fun _ s' => quiet [] s0 s') s.
Proof.
  intros Hq Hf Hm. rewrite wp_bind. eapply wp_mono; [by apply eprintf_after|]. intros [] s1. apply Hm.
Qed.

Lemma command_quiet c run s : mbox_ok (acks s) -> lib_ok (cc_lib s) ->
  command wait_fuel c = Some run -> wp run (fun _ s' => quiet [] s s') s.
Proof using D only_dats.
  intros Hm Hlb. pose proof (quiet_refl s Hm) as H0. unfold command.
  destruct (c =? 46); [|destruct (c =? 63); [|destruct (c =? 35); [|destruct (_ || _); [|done]]]];
    intros E; apply Some_inj in E; subst run.
  - unfold start_disconnect. rewrite wp_modify. split; try done; [by rewrite app_nil_r|by exists []].
  - unfold print_help.
    do 5 (apply eprintf_then; [done|done|]; intros ? ?). by apply eprintf_after.
  - unfold send_break. rewrite !wp_bind, !wp_gets, wp_bind, wp_gets, wp_bind.
    eapply wp_mono; [apply send_quiet; [done..|by rewrite load_type]|].
    intros [r a] s1 H1. by destruct (bool_decide _); apply eprintf_after.
  - unfold send_reset_h8. rewrite !wp_bind, !wp_gets, wp_bind, wp_gets, wp_bind, wp_gets, wp_bind.
    eapply wp_mono; [apply send_quiet; [done..|]|].
    { unfold load_ext_ch. fld. done. }
    intros [r a] s1 H1. by destruct (bool_decide _); apply eprintf_after.
Qed.

Lemma is_command_spec c :
  is_command c = match command wait_fuel c with Some _ => true | None => false end.
Proof.
  unfold is_command, command. cbn [existsb].
  destruct (c =? 46); [reflexivity|]. destruct (c =? 63); [reflexivity|].
  destruct (c =? 35); [reflexivity|]. destruct (c =? 114); [reflexivity|].
  by destruct (c =? 82).
Qed.

Lemma outbuf_put_spec c outbuf s (Q : list Z -> cancon -> Prop) :
  (length outbuf < 8)%nat -> Q (outbuf ++ [c]) s -> wp (outbuf_put c outbuf) Q s.
Proof.
  intros Hl HQ. unfold outbuf_put. rewrite (proj2 (Z.ltb_lt _ 8)) by lia. by rewrite wp_ret.
Qed.

(** One typed character; outbuf has room for it. *)
Lemma tty_char_spec c outbuf s : mbox_ok (acks s) -> lib_ok (cc_lib s) ->
  (length outbuf + 2 <= 8)%nat ->
  wp (tty_char wait_fuel c outbuf) (fun outbuf' s' => quiet [] s s' /\
    outbuf' = outbuf ++ lets_out (hist0 s) (hist1 s) c /\
    hist0 s' = hist1 s /\ hist1 s' = c) s.
Proof using D only_dats.
  intros Hm Hlb Hl. pose proof (quiet_refl s Hm) as H0. unfold tty_char, lets_out.
  rewrite !wp_bind, !wp_gets, wp_bind, wp_gets, wp_bind. rewrite is_command_spec.
  assert (Hend : forall (o : list Z) s1, quiet [] s s1 -> wp (modify (set_hist (hist1 s) c) ;; mret o)
    (fun (o' : list Z) s' => quiet [] s s' /\ o' = o /\ hist0 s' = hist1 s /\ hist1 s' = c) s1).
  { intros o s1 [E C T' A N L R]. rewrite wp_bind, wp_modify, wp_ret. split; [by split|done]. }
  destruct (ISCRNL (hist0 s) && (hist1 s =? ESCAPE_CHAR)).
  - destruct (command wait_fuel c) as [run|] eqn:Ec.
    + rewrite wp_bind. eapply wp_mono; [by eapply (command_quiet c)|]. intros [] s1 H1.
      rewrite wp_ret, app_nil_r. by apply Hend.
    + rewrite wp_bind. apply outbuf_put_spec; [lia|].
      apply outbuf_put_spec; [rewrite length_app; cbn; lia|]. rewrite <- app_assoc. by apply Hend.
  - destruct (_ || _).
    + apply outbuf_put_spec; [lia|]. by apply Hend.
    + rewrite wp_ret, app_nil_r. by apply Hend.
Qed.

Lemma lets_out_length h0 h1 c : (length (lets_out h0 h1 c) <= 2)%nat.
Proof. unfold lets_out. repeat case_match; cbn; lia. Qed.

Lemma tty_chars_spec buf : forall outbuf s, mbox_ok (acks s) -> lib_ok (cc_lib s) ->
  (length outbuf + 2 * length buf <= 8)%nat ->
  wp (tty_chars wait_fuel buf outbuf) (fun outbuf' s' => quiet [] s s' /\
    outbuf' = outbuf ++ lets_out_all (hist0 s) (hist1 s) buf /\
    (hist0 s', hist1 s') = history (hist0 s, hist1 s) buf) s.
Proof using D only_dats.
  induction buf as [|c buf IH]; intros outbuf s Hm Hlb Hl; cbn [tty_chars].
  { rewrite wp_ret, app_nil_r. split; [by apply quiet_refl|done]. }
  rewrite wp_bind. cbn [length] in Hl. eapply wp_mono; [apply tty_char_spec; [done|done|lia]|].
  intros o s1 (H1 & -> & E0 & E1). pose proof (lets_out_length (hist0 s) (hist1 s) c).
  eapply wp_mono; [apply IH; [apply H1|by apply H1|rewrite length_app; lia]|].
  intros o s2 (H2 & -> & E). split; [by eapply quiet_nil|]. rewrite E0, E1 in *.
  split; [by rewrite <- app_assoc|done].
Qed.

(** The characters the typed ones let through join the queue, or a message
    tells that some did not. *)
Lemma tty_read_spec buf s : mbox_ok (acks s) -> lib_ok (cc_lib s) -> charq_ok (chars s) ->
  (length buf <= 4)%nat ->
  wp (tty_read wait_fuel buf) (fun _ s' =>
    sent (cc_lib s') = sent (cc_lib s) /\ charq_ok (chars s') /\ target_ch s' = target_ch s /\
    mbox_ok (acks s') /\ lib_ok (cc_lib s') /\ (entries (acks s) = [] -> entries (acks s') = []) /\
    (hist0 s', hist1 s') = history (hist0 s, hist1 s) buf /\
    exists l o, err s' = l ++ err s /\ queued (chars s') = queued (chars s) ++ o /\
      o `prefix_of` lets_out_all (hist0 s) (hist1 s) buf /\
      (Forall (fun e => e.1 <> drop_msg) l -> o = lets_out_all (hist0 s) (hist1 s) buf)) s.
Proof using D only_dats.
  intros Hm Hlb Hq Hl. unfold tty_read. rewrite wp_bind.
  eapply wp_mono; [apply tty_chars_spec; [done|done|cbn; lia]|].
  intros o s1 ([E C T' A N L (l & El & Hnd)] & -> & Eh). cbn [app]. rewrite wp_bind.
  unfold on_chars. rewrite wp_zoom, C. eapply wp_mono; [by apply signal_outchars_spec|].
  intros n q' (Hq' & k & Hk & -> & Eq & Hfull). rewrite app_nil_r in E.
  set (o := lets_out_all _ _ _) in *. rewrite wp_when. split; intros Eb.
  - unfold eprintf. rewrite wp_modify. cbn.
    do 7 (split; [by auto|]). exists ((drop_msg, [EInt (Z.of_nat (length o) - (0 + Z.of_nat k))]) :: l).
    exists (take k o). split; [by rewrite El|]. split; [done|]. split; [apply prefix_take|].
    intros [Hbad _]%Forall_cons. by destruct Hbad.
  - apply Z.ltb_ge in Eb. cbn. do 7 (split; [by auto|]). exists l, (take k o).
    split; [done|]. split; [done|]. split; [apply prefix_take|]. intros _. apply firstn_all2. lia.
Qed.

(** *** The writer *)

(** [p] carries the characters [cs] to the console of the target. *)
Definition carries (ch : canhostname) (p : can_packet) (cs : list Z) : Prop :=
  extf Ext.type p = CANTYPE_DAT /\ extf Ext.object p = 0 /\
  (forall w, extf Ext.cluster p = fget Ext.cluster (load_ext_ch w CANTYPE_DAT 0 ch) /\
     extf Ext.module p = fget Ext.module (load_ext_ch w CANTYPE_DAT 0 ch) /\
     extf Ext.node p = fget Ext.node (load_ext_ch w CANTYPE_DAT 0 ch)) /\
  canf Can.length p = 4 + Z.of_nat (length cs) /\
  take (length cs) (bytes_of 4 (dat p)) = cs.

Definition is_byte (c : Z) : Prop := 0 <= c < 2 ^ 8.

Lemma bytes_of_4 x : bytes_of 4 x = [byte_of 4 0 x; byte_of 4 1 x; byte_of 4 2 x; byte_of 4 3 x].
Proof. done. Qed.

Lemma dat_of_bytes cs w : (length cs <= 4)%nat -> Forall is_byte cs ->
  take (length cs) (bytes_of 4 (dat_of 0 cs w)) = cs.
Proof.
  intros Hl Hb. rewrite bytes_of_4. destruct cs as [|? [|? [|? [|? [|? ?]]]]]; cbn in Hl; try lia;
    repeat match goal with H : Forall _ (_ :: _) |- _ => apply Forall_cons in H as [? ?] end;
    cbn -[byte_of set_byte Z.of_nat]; unfold is_byte in *;
    repeat first [ rewrite byte_of_set_byte_eq by lia | rewrite byte_of_set_byte_ne by lia ]; done.
Qed.

Lemma request_carries w ch cs lb :
  (length cs <= 4)%nat -> Forall is_byte cs ->
  carries ch (request_of (load_ext_ch w CANTYPE_DAT 0 ch) (Some (dat_of 0 cs w))
                (Z.of_nat (length cs)) lb) cs.
Proof.
  intros Hl Hb. set (t := load_ext_ch w CANTYPE_DAT 0 ch).
  destruct (request_of_ok t (Some (dat_of 0 cs w)) (Z.of_nat (length cs)) lb ltac:(lia))
    as (Et & El & _ & Ed).
  unfold carries, extf. rewrite Et. split; [by apply load_type|].
  split; [unfold t, load_ext_ch; by fld|]. split; [|split; [done|]].
  - intros w'. unfold t, load_ext_ch. by fld.
  - destruct cs as [|c cs]; [done|]. rewrite (Ed _ eq_refl) by (cbn; lia). by apply dat_of_bytes.
Qed.

(** Characters taken from the queue and the number of times they were sent. *)
Definition packets (ch : canhostname) (g : list Z * nat) (ps : list can_packet) : Prop :=
  (length g.1 <= 4)%nat /\ (1 <= g.2 <= 20)%nat /\
  exists p, carries ch p g.1 /\ ps = replicate g.2 p.

Lemma writer_once_spec s : mbox_ok (acks s) -> lib_ok (cc_lib s) -> charq_ok (chars s) ->
  Forall is_byte (queued (chars s)) ->
  wp (writer_once wait_fuel) (fun _ s' => exists g ps,
    packets (target_ch s) g ps /\ queued (chars s) = g.1 ++ queued (chars s') /\
    sent (cc_lib s') = sent (cc_lib s) ++ ps /\ charq_ok (chars s') /\
    target_ch s' = target_ch s /\ mbox_ok (acks s') /\ lib_ok (cc_lib s') /\
    entries (acks s') = [] /\ (prompt -> entries (acks s) = [] -> g.2 = 1%nat) /\
    (hist0 s', hist1 s') = (hist0 s, hist1 s) /\
    exists l, err s' = l ++ err s) s.
Proof using D only_dats.
  intros Hm Hlb Hq Hb. unfold writer_once. rewrite wp_bind. unfold on_chars. rewrite wp_zoom.
  eapply wp_mono; [by apply waitfor_outchars_spec|].
  intros buf q' (Hq' & Eq & El). rewrite Eq in Hb. apply list.Forall_app in Hb as [Hb _].
  unfold send_dat. rewrite wp_bind, wp_gets, wp_bind, wp_gets, wp_bind.
  cbn [target_ch set_chars stack_word].
  set (t := load_ext_ch _ _ _ _). set (d := Some _). set (n0 := Z.of_nat _).
  set (p := request_of t d n0 (cc_lib s)).
  assert (Hc : carries (target_ch s) p buf) by (apply request_carries; [lia|done]).
  assert (Ep : mine p = true) by (rewrite only_dats; apply Z.eqb_eq; apply Hc).
  pose proof (fun Hp He => mysend_prompt wait_fuel t d n0 MAX_RETRIES (set_chars q' s) Hp He Hm Hlb ltac:(lia) Ep)
    as Honce. fold p in Honce.
  pose proof (mysend_spec wait_fuel t d n0 MAX_RETRIES (set_chars q' s) Hm Hlb ltac:(done)) as Hsend.
  change (send wait_fuel t d n0) with (mysend wait_fuel t d n0 MAX_RETRIES).
  unfold wp in Honce, Hsend |- * at 1. destruct (mysend _ _ _ _ _ _) as [r s'|]; [|done].
  destruct Hsend as (n & (Hs & _ & _ & He' & _) & Hn & _). rewrite wp_skip.
  cbn [cc_lib target_ch set_chars stack_word acks] in *. fold p in Hs. rewrite copies_mine in Hs by done.
  assert (Hone : prompt -> entries (acks s) = [] -> n = 1%nat).
  { intros Hp He. specialize (Honce Hp He). destruct Hs as (lb & m & k & l & -> & E & _).
    rewrite copies_mine in Honce by done. cbn [cc_lib touch set_err set_syncs set_acks set_cc_lib set_chars] in Honce.
    rewrite E in Honce. apply app_inv_head, (f_equal length) in Honce. by rewrite !length_replicate in Honce. }
  destruct Hs as (lb & m & k & l & -> & E & Hm' & _ & Hlb' & _). cbn in *.
  exists (buf, n), (replicate n p). unfold MAX_RETRIES in Hn.
  split; [split; [cbn; lia|split; [cbn; lia|by exists p]]|].
  do 9 (split; [by auto|]). by exists l.
Qed.

(** *** All orders of the threads' rounds *)

(** A round of tty_reader() that got [buf] from the terminal, or one of
    writer(), also one it is woken up for without a character. *)
Inductive cc_event := Typed (buf : list Z) | Write.

Definition cc_handle (e : cc_event) : eff cancon unit :=
  match e with Typed buf => tty_read wait_fuel buf | Write => writer_once wait_fuel end.

(** The loops of the two threads are such rounds. *)
Lemma tty_reader_rounds input s : Forall (fun buf => buf <> []) input ->
  tty_reader wait_fuel input s = for_each (map Typed input) cc_handle s.
Proof.
  intros Hn. revert s. induction Hn as [|buf input Hbuf _ IH]; intros s; [done|].
  destruct buf as [|c buf]; [done|]. cbn [tty_reader map for_each cc_handle].
  unfold mbind, eff_bind. destruct (tty_read _ _ s); [apply IH|done].
Qed.
Lemma writer_rounds n s : writer wait_fuel n s = for_each (replicate n Write) cc_handle s.
Proof.
  revert s. induction n as [|n IH]; intros s; [done|]. cbn [writer replicate for_each cc_handle].
  unfold mbind, eff_bind. destruct (writer_once _ s); [apply IH|done].
Qed.

Definition event_ok (e : cc_event) : Prop :=
  match e with Typed buf => (length buf <= 4)%nat /\ Forall is_byte buf | Write => True end.

Definition typed (l : list cc_event) : list Z :=
  concat (map (fun e => match e with Typed buf => buf | Write => [] end) l).

Record cc_ok s : Prop := CcOk {
  cc_acks : mbox_ok (acks s);
  cc_library : lib_ok (cc_lib s);
  cc_queue : charq_ok (chars s);
  cc_bytes : Forall is_byte (queued (chars s))
}.

Lemma lets_out_bytes cs : forall h0 h1, Forall is_byte cs -> Forall is_byte (lets_out_all h0 h1 cs).
Proof.
  induction cs as [|c cs IH]; intros h0 h1 Hb; [done|]. apply Forall_cons in Hb as [Hc Hb].
  cbn. apply list.Forall_app. split; [|by apply IH]. unfold lets_out.
  assert (is_byte ESCAPE_CHAR) by (unfold is_byte, ESCAPE_CHAR; lia).
  repeat case_match; rewrite ?list.Forall_cons, ?list.Forall_nil; auto.
Qed.

Lemma Forall_prefix {A} (P : A -> Prop) l l' : l `prefix_of` l' -> Forall P l' -> Forall P l.
Proof. intros [k ->] H. by apply list.Forall_app in H as [? _]. Qed.

(** What the packets sent in a run carry. *)
Definition run_post (cs : list Z) s s' : Prop :=
  exists gs pss l, Forall2 (packets (target_ch s)) gs pss /\
    sent (cc_lib s') = sent (cc_lib s) ++ concat pss /\ err s' = l ++ err s /\
    (prompt -> entries (acks s) = [] -> Forall (fun g => g.2 = 1%nat) gs) /\
    (Forall (fun e => e.1 <> drop_msg) l ->
       queued (chars s) ++ cs = concat (map fst gs) ++ queued (chars s')).

Lemma cc_handle_spec e s : cc_ok s -> event_ok e ->
  wp (cc_handle e) (fun _ s' => cc_ok s' /\ target_ch s' = target_ch s /\
    (entries (acks s) = [] -> entries (acks s') = []) /\
    (hist0 s', hist1 s') = history (hist0 s, hist1 s) (typed [e]) /\
    run_post (lets_out_all (hist0 s) (hist1 s) (typed [e])) s s') s.
Proof using D only_dats.
  intros [Hm Hlb Hq Hb] He. destruct e as [buf|]; cbn [cc_handle typed map concat].
  - rewrite app_nil_r. destruct He as [Hl Hbuf].
    eapply wp_mono; [by apply tty_read_spec|].
    intros _ s' (E & Hq' & Et & Hm' & Hlb' & He' & Eh & l & o & El & Eq & Hpre & Hall).
    split; [|split; [done|split; [done|split; [done|]]]].
    + split; try done. rewrite Eq. apply list.Forall_app. split; [done|].
      eapply Forall_prefix; [done|]. by apply lets_out_bytes.
    + exists [], [], l. split; [constructor|]. split; [by rewrite app_nil_r|]. split; [done|].
      split; [constructor|]. intros Hnd. cbn. by rewrite Eq, (Hall Hnd).
  - eapply wp_mono; [by apply writer_once_spec|].
    intros _ s' (g & ps & Hg & Eq & E & Hq' & Et & Hm' & Hlb' & He' & Hone & Eh & l & El).
    split; [|split; [done|split; [done|split; [done|]]]].
    + split; try done. rewrite Eq in Hb. by apply list.Forall_app in Hb as [_ ?].
    + exists [g], [ps], l. split; [by apply Forall2_cons|]. cbn. rewrite !app_nil_r.
      split; [done|]. split; [done|]. split; [|by intros _].
      intros Hp Hempty. constructor; [by apply Hone|constructor].
Qed.

Lemma run_post_trans cs1 cs2 s1 s2 s3 : target_ch s2 = target_ch s1 ->
  (entries (acks s1) = [] -> entries (acks s2) = []) ->
  run_post cs1 s1 s2 -> run_post cs2 s2 s3 -> run_post (cs1 ++ cs2) s1 s3.
Proof.
  intros Et Hn (g1 & p1 & l1 & H1 & E1 & El1 & O1 & Q1) (g2 & p2 & l2 & H2 & E2 & El2 & O2 & Q2).
  rewrite Et in H2. exists (g1 ++ g2), (p1 ++ p2), (l2 ++ l1).
  split; [by apply Forall2_app|]. split; [by rewrite concat_app, app_assoc, <- E1, E2|].
  split; [by rewrite <- app_assoc, <- El1|].
  split; [intros Hp He; apply list.Forall_app; auto|]. intros [Hn2 Hn1]%list.Forall_app.
  rewrite map_app, concat_app, app_assoc, (Q1 Hn1), <- !app_assoc. f_equal. by apply Q2.
Qed.

Lemma cc_run_spec evs : forall s, cc_ok s -> Forall event_ok evs ->
  wp (for_each evs cc_handle) (fun _ s' => cc_ok s' /\
    run_post (lets_out_all (hist0 s) (hist1 s) (typed evs)) s s') s.
Proof using D only_dats.
  induction evs as [|e evs IH]; intros s Hs He; cbn [for_each].
  { rewrite wp_skip. split; [done|]. exists [], [], []. cbn. rewrite !app_nil_r.
    split; [constructor|]. do 2 (split; [done|]). split; [constructor|done]. }
  apply Forall_cons in He as [He Hes]. rewrite wp_bind.
  eapply wp_mono; [by apply cc_handle_spec|]. intros _ s1 (Hs1 & Et & Hn & Eh & H1).
  eapply wp_mono; [by apply IH|]. intros _ s2 [Hs2 H2]. split; [done|].
  assert (Ety : typed (e :: evs) = typed [e] ++ typed evs).
  { unfold typed. cbn. by rewrite app_nil_r. }
  rewrite Ety, lets_out_all_app, <- Eh. by apply (run_post_trans _ _ _ s1).
Qed.

(** C20. Typed characters reach the console in order. In whatever order
    tty_reader() and writer() take their turns, and however the reader's
    acknowledgements come: of what was typed, filtered for the escape
    commands, a first part has been sent and the rest is queued, nothing lost,
    repeated or reordered; the packets are groups of at most four characters,
    each group sent one to twenty times in a row as the same DAT packet to the
    target. If the queue was full, a message tells that characters were
    dropped. *)
Theorem typed_chars_in_order evs s :
  cc_ok s -> hist0 s = 13 -> hist1 s = 13 -> queued (chars s) = [] -> Forall event_ok evs ->
  wp (for_each evs cc_handle) (fun _ s' => exists gs pss l,
    Forall2 (packets (target_ch s)) gs pss /\
    sent (cc_lib s') = sent (cc_lib s) ++ concat pss /\ err s' = l ++ err s /\
    (Forall (fun e => e.1 <> drop_msg) l ->
       keep true (typed evs) = concat (map fst gs) ++ queued (chars s'))) s.
Proof using D only_dats.
  intros Hs E0 E1 Eq He. eapply wp_mono; [by apply cc_run_spec|].
  intros _ s' [_ (gs & pss & l & Hg & Es & El & _ & H)]. rewrite lets_out_keep, E0, E1, Eq in H.
  by exists gs, pss, l.
Qed.
End cancon_typed.

(** * Example *)

#[local] Existing Instance recorder.
#[local] Existing Instance acking.
#[local] Existing Instance recorded.
#[local] Existing Instance acking_deadline.

Lemma demo_cancon_ok : cc_ok demo_cancon.
Proof. split; [split; [done|cbn; unfold ACKBUFLEN; lia]|by left|split; [done|cbn; unfold OUTCHARSLEN; lia]|constructor]. Qed.

(** "hi", newline and the escape character, then "?x": the command for help
    is not sent. *)
Definition demo_typing : list cc_event :=
  [Typed [104; 105; 10; 38]; Write; Typed [63; 120]; Write].

Lemma demo_typing_ok : Forall event_ok demo_typing.
Proof. repeat (constructor; [try (split; [cbn; lia|repeat (constructor; [unfold is_byte; lia|]); constructor]); try done|]). constructor. Qed.

Example keep_typing : keep true (typed demo_typing) = [104; 105; 10; 120].
Proof. reflexivity. Qed.

Lemma typed_chars_in_order_witness :
  wp (for_each demo_typing (cc_handle 3)) (fun _ s' => exists gs pss l,
    Forall2 (packets (target_ch demo_cancon)) gs pss /\
    sent (cc_lib s') = sent (cc_lib demo_cancon) ++ concat pss /\ err s' = l ++ err demo_cancon /\
    (Forall (fun e => e.1 <> drop_msg) l ->
       keep true (typed demo_typing) = concat (map fst gs) ++ queued (chars s'))) demo_cancon.
Proof.
  apply (typed_chars_in_order (W := recorded) 3 (fun _ => eq_refl) demo_typing demo_cancon demo_cancon_ok
    eq_refl eq_refl eq_refl demo_typing_ok).
Defined.
