(* ===== verification/CanconReader.v ===== *)
(** * The reader of the console client

    What reader() does with each kind of packet. *)

From stdpp Require Import prelude list numbers strings.
From Stdlib Require Import ZArith Lia.
From S2P Require Import Prelude CanTypes Obp CanLib Cancon CanconProps.

Section cancon_reader.
Context {F : CanFd} {T : Threads F} {W : Wire F T}.
Implicit Types s : cancon.

(** ** The reader *)

(** The answer reader() makes from the packet [p]: an ACK of [len] bytes to
    its sender. *)
Definition answers_packet (p : can_packet) (d : option Z) (len : Z) (q : can_packet) : Prop :=
  ext q = fset Ext.type CANTYPE_ACK (ext p) /\ canf Can.dest q = canf Can.src p /\
  canf Can.length q = 4 + len /\ forall x, d = Some x -> dat q = x.

Lemma can_ack_spec dat len ack lb : lib_ok lb -> initialized lb <> 0 ->
  exists lb' q, can_ack dat len CANTYPE_ACK ack lb = Done (PKTSIZE, q) lb' /\
    written (lib_fd lb') = written (lib_fd lb) ++ [q] /\ (lib_ok lb' /\ initialized lb' <> 0) /\
    q = (let ack := set_canf Can.length (sizeof_can_header_ext + len) ack in
         let ack := set_extf Ext.type CANTYPE_ACK ack in
         match dat with Some d => if 0 <? len then set_dat d ack else ack | None => ack end).
Proof.
  intros Hlb Hi. unfold can_ack, initialize_once, mbind, eff_bind, gets, when.
  rewrite (proj2 (Z.eqb_neq _ 0) Hi). unfold skip, write_pkt, mbind, eff_bind, on_fd, zoom.
  match goal with |- context [fd_write ?p ?d] => destruct (wire_write p d) as (d' & E1 & E2) end.
  rewrite E1. cbn. eexists _, _. split; [reflexivity|]. split; [exact E2|]. by split.
Qed.

(** The packet can_recv() prepares for the acknowledgement. *)
Definition prepared (pkt a : can_packet) : can_packet :=
  if ACKABLE (extf Ext.type pkt) then
    set_extf Ext.type CANTYPE_ACK (set_ext (ext pkt)
      (set_canf Can.dest (canf Can.src pkt) (set_canf Can.length sizeof_can_header_ext
        (set_canf Can.lpriority CAN_HIGH_PRIORITY a))))
  else a.

Lemma can_recv_spec a pkt d' lb : initialized lb <> 0 -> fd_read (lib_fd lb) = Done (PKTSIZE, pkt) d' ->
  can_recv (Some a) lb =
  Done (PKTSIZE, Some (Received (ext pkt) (dat pkt) (canf Can.length pkt - sizeof_can_header_ext)),
        Some (prepared pkt a)) (Lib F (nodeid lb) (initialized lb) (lib_stack lb) d').
Proof.
  intros Hi E. unfold can_recv, initialize_once, mbind, eff_bind, gets, when.
  rewrite (proj2 (Z.eqb_neq _ 0) Hi). unfold skip, on_fd, zoom. rewrite E. cbn.
  unfold prepared. by destruct (ACKABLE _).
Qed.

(** What reader() does with a packet. *)
Definition dispatched (pkt : can_packet) s s' : Prop :=
  let t := extf Ext.type pkt in
  let answer d len :=
    exists q, answers_packet pkt d len q /\ written (lib_fd (cc_lib s')) = written (lib_fd (cc_lib s)) ++ [q] in
  let silent := written (lib_fd (cc_lib s')) = written (lib_fd (cc_lib s)) in
  if (t =? CANTYPE_ACK) || (t =? CANTYPE_NAK) then
    silent /\ out s' = out s /\ disconnects s' = disconnects s /\
    entries (acks s') = (if ackbuflen (acks s) <? ACKBUFLEN
                         then entries (acks s) ++ [(ext pkt, dat pkt)] else entries (acks s))
  else acks s' = acks s /\
    if (t =? CANTYPE_DAT) && (ext pkt =? console_object s) then
      answer None 0 /\ disconnects s' = disconnects s /\
      out s' = out s ++ take (Z.to_nat (canf Can.length pkt - 4)) (bytes_of 4 (dat pkt))
    else if (t =? CANTYPE_WO) && (extf Ext.object pkt =? CANOBJ_FORCE_DISCONN)
            && (dat pkt =? console_object s) then
      answer (Some 1) 4 /\ disconnects s' = disconnects s + 1 /\ out s' = out s
    else silent /\ disconnects s' = disconnects s /\ out s' = out s.

Lemma prepared_answer pkt a d len (q : can_packet) : ACKABLE (extf Ext.type pkt) = true -> 0 <= len <= 4 ->
  (d <> None -> 0 < len) ->
  q = (let ack := set_canf Can.length (sizeof_can_header_ext + len) (prepared pkt a) in
       let ack := set_extf Ext.type CANTYPE_ACK ack in
       match d with Some d => if 0 <? len then set_dat d ack else ack | None => ack end) ->
  answers_packet pkt d len q.
Proof.
  intros Hack Hlen Hd ->. unfold prepared. rewrite Hack. unfold answers_packet.
  assert (Hsrc : canf Can.src pkt mod 2 ^ 5 = canf Can.src pkt).
  { apply Z.mod_small. apply (fget_range Can.src). fld_side. }
  assert (Hln : (4 + len) mod 2 ^ 4 = 4 + len) by (apply Z.mod_small; lia).
  destruct d as [d|]; [rewrite (proj2 (Z.ltb_lt 0 len)) by (apply Hd; done)|];
    unfold set_extf, canf, set_canf, sizeof_can_header_ext in *;
    cbn [ext can set_ext set_can set_dat dat]; fld; rewrite fset_fset by fld_side;
    cbn [f_wid Can.length Can.dest]; rewrite Hsrc, Hln.
  - do 3 (split; [done|]). by intros x [= ->].
  - done.
Qed.

(** The acknowledgement of a packet that was taken. *)
Lemma answer_taken pkt a d len (lb : lib_state) s2 :
  lib_ok lb -> initialized lb <> 0 -> cc_lib s2 = lb ->
  ACKABLE (extf Ext.type pkt) = true -> 0 <= len <= 4 -> (d <> None -> 0 < len) ->
  wp ('(_, ack) ← on_lib (can_ack d len CANTYPE_ACK (prepared pkt a)); modify (set_cc_ack ack))
    (fun _ s3 => exists q lb', answers_packet pkt d len q /\
       written (lib_fd lb') = written (lib_fd lb) ++ [q] /\ (lib_ok lb' /\ initialized lb' <> 0) /\
       s3 = set_cc_ack q (set_cc_lib lb' s2)) s2.
Proof using Type.
  intros Hlb Hi El Hack Hl Hd. rewrite wp_bind. unfold on_lib. rewrite wp_zoom, El.
  destruct (can_ack_spec d len (prepared pkt a) lb) as (lb' & q & E & Ew & Hlb' & Eq); [done|done|].
  unfold wp at 1. rewrite E, wp_modify. exists q, lb'.
  split; [by apply (prepared_answer pkt a)|]. by split.
Qed.

(** What reader() does with each packet: an acknowledgement goes to the
    buffer, if there is room; characters for this console are printed and
    acknowledged to their sender; a FORCE_DISCONN for this console is
    acknowledged and starts the end of the session; anything else is ignored. *)
Theorem reader_dispatches pkt d' s :
  mbox_ok (acks s) -> lib_ok (cc_lib s) -> initialized (cc_lib s) <> 0 ->
  fd_read (lib_fd (cc_lib s)) = Done (PKTSIZE, pkt) d' ->
  written d' = written (lib_fd (cc_lib s)) -> 4 <= canf Can.length pkt <= 8 ->
  wp reader_once (fun go s' => go = true /\ dispatched pkt s s') s.
Proof using Type.
  intros Hm Hlb Hi Hr Hw Hlen. unfold reader_once, dispatched. cbv zeta.
  rewrite wp_bind, wp_gets, wp_bind. unfold on_lib at 1. rewrite wp_zoom.
  unfold wp at 1. rewrite (can_recv_spec _ _ _ _ Hi Hr). rewrite wp_bind. cbn [the].
  rewrite wp_ret, wp_bind, wp_modify. change (PKTSIZE =? -1) with false. cbv iota.
  rewrite wp_bind. cbn [the]. rewrite wp_ret, wp_bind, wp_gets. cbv zeta. cbn [r_ext r_dat r_len].
  rewrite wp_bind. change (fget Ext.type (ext pkt)) with (extf Ext.type pkt).
  change (fget Ext.object (ext pkt)) with (extf Ext.object pkt).
  set (s1 := set_cc_ack _ _). set (co := console_object s1).
  pose proof (fun d len s2 (E : cc_lib s2 = cc_lib s1) =>
    answer_taken pkt (cc_ack s) d len (cc_lib s1) s2 Hlb Hi E) as Hans.
  assert (Hmr : forall (Q : bool -> cancon -> Prop) s2, Q true s2 -> wp (mret true) Q s2) by done.
  destruct ((extf Ext.type pkt =? CANTYPE_ACK) || (extf Ext.type pkt =? CANTYPE_NAK)) eqn:Et.
  { unfold on_acks. rewrite wp_zoom. eapply wp_mono; [apply signal_acknak_spec; exact Hm|].
    intros _ m' [_ E]. apply Hmr. split; [done|]. split; [exact Hw|]. by split. }
  destruct (extf Ext.type pkt =? CANTYPE_DAT) eqn:Ed; cbn [andb].
  { change (console_object s) with co. destruct (ext pkt =? co); cbn [when].
    - rewrite wp_bind. unfold fwrite.
      rewrite (proj2 (Z.ltb_ge _ 0)), (proj2 (Z.ltb_ge 4 _)) by (unfold sizeof_can_header_ext; lia).
      cbn [orb]. rewrite wp_modify.
      eapply wp_mono; [apply (Hans None 0); [done| |lia|done]|].
      { unfold ACKABLE. rewrite Ed. by rewrite orb_true_r. }
      intros _ s3 (q & lb & Hq & Ew & _ & ->). apply Hmr. split; [done|]. split; [done|].
      split; [exists q; split; [done|by rewrite <- Hw]|]. done.
    - rewrite wp_skip. apply Hmr. split; [done|]. split; [done|].
      apply Z.eqb_eq in Ed. rewrite Ed. by split. }
  destruct (extf Ext.type pkt =? CANTYPE_WO) eqn:Ew; cbn [andb].
  2: { rewrite wp_skip. apply Hmr. split; [done|]. split; [done|]. by split. }
  change (console_object s) with co.
  destruct ((extf Ext.object pkt =? CANOBJ_FORCE_DISCONN) && (dat pkt =? co)); cbn [when].
  2: { rewrite wp_skip. apply Hmr. split; [done|]. split; [done|]. by split. }
  rewrite wp_bind. unfold eprintf. rewrite wp_modify, wp_bind.
  eapply wp_mono; [apply (Hans (Some 1) 4); [done|unfold ACKABLE; by rewrite Ew, orb_true_r|lia|lia]|].
  intros _ s3 (q & lb & Hq & Ewr & _ & ->). unfold start_disconnect. rewrite wp_modify. apply Hmr.
  split; [done|]. split; [done|]. split; [exists q; split; [done|by rewrite <- Hw]|]. done.
Qed.
End cancon_reader.

(** * Example *)

#[local] Existing Instance recorder.
#[local] Existing Instance acking.
#[local] Existing Instance recorded.

(** The characters are printed. *)
Lemma reader_dispatches_witness :
  wp reader_once (fun go s' => go = true /\ out s' = [111; 107])
    (set_cc_lib (Lib recorder 5 1 zero_packet ([] : list can_packet)) demo_cancon).
Proof.
  eapply wp_mono.
  - apply (reader_dispatches (W := recorded) demo_dat [] (set_cc_lib (Lib recorder 5 1 zero_packet ([] : list can_packet)) demo_cancon)).
    + exact (proj1 demo_cancon_idle).
    + right. reflexivity.
    + discriminate.
    + reflexivity.
    + reflexivity.
    + vm_compute. split; discriminate.
  - intros go s' [-> (_ & _ & _ & Ho)]. split; [reflexivity|exact Ho].
Defined.
