(* ===== verification/TypedRemote.v ===== *)
(** * From the terminal of the client to the terminal of the node

    What is typed at cancon (CanconTyped.v) and what the tty of the node it is
    connected to gets (ConsoleStream.v). *)

From stdpp Require Import prelude list numbers gmap strings.
From Stdlib Require Import ZArith Lia.
From S2P Require Import Prelude CanTypes Ring Obp World Demo CanSend Console CanObj CanMain CanChip DriverInv DriverTotal DriverFiles DriverSteps ObjProps ConsoleProps ConsoleStream CanLib Cancon CanconProps CanconTyped.

(** What the CAN makes of a packet: the same header, data and length; the rest
    of the packet is the receiver's. *)
Definition arrives (p p' : can_packet) : Prop :=
  pkt_ok p' /\ ext p' = ext p /\ dat p' = dat p /\ canf Can.length p' = canf Can.length p.

(** The characters of the packets of groups that were sent several times. *)
Definition repeated (gs : list (list Z * nat)) : list Z :=
  concat (map (fun g => concat (replicate g.2 g.1)) gs).

Lemma chars_of_bytes n p : (n <= 4)%nat -> chars_of n p = take n (bytes_of 4 (dat p)).
Proof. intros Hn. destruct n as [|[|[|[|[|n]]]]]; [reflexivity..|lia]. Qed.

Lemma carries_brings ch p p' cs : CanconTyped.carries ch p cs -> (length cs <= 4)%nat -> arrives p p' ->
  brings p' cs.
Proof.
  intros (Et & Eo & _ & El & Ec) Hl (Hok & Ee & Ed & Elen). unfold extf in *.
  split; [done|unfold extf; by rewrite Ee|unfold extf; by rewrite Ee|by rewrite Elen|done|].
  rewrite chars_of_bytes by done. by rewrite Ed.
Qed.

Lemma packets_bring ch gs pss : Forall2 (packets ch) gs pss -> forall qs, Forall2 arrives (concat pss) qs ->
  exists css, Forall2 brings qs css /\ concat css = repeated gs.
Proof.
  induction 1 as [|[cs n] ps gs pss (Hl & _ & p & Hp & ->) _ IH]; intros qs Hqs.
  { apply Forall2_nil_inv_l in Hqs as ->. by exists []. }
  cbn [concat fst snd] in *. apply Forall2_app_inv_l in Hqs as (q1 & q2 & H1 & H2 & ->).
  destruct (IH q2 H2) as (css & Hb & Ec). exists (replicate n cs ++ css). split.
  - apply Forall2_app; [|done]. clear -H1 Hp Hl. revert q1 H1. induction n as [|n IH]; intros q1 H1.
    + by apply Forall2_nil_inv_l in H1 as ->.
    + cbn in H1. apply Forall2_cons_inv_l in H1 as (p' & q & Hp' & Hq & ->). cbn. constructor; [|by apply IH].
      by eapply carries_brings.
  - by rewrite concat_app, Ec.
Qed.

Lemma packets_ranges ch gs pss : Forall2 (packets ch) gs pss ->
  Forall (fun g => (length g.1 <= 4)%nat /\ (1 <= g.2 <= 20)%nat) gs.
Proof. induction 1 as [|g ps gs pss (Hl & Hn & _) _ IH]; constructor; [by split|done]. Qed.

(** Sent once each, they are the characters themselves. *)
Lemma repeated_once gs : Forall (fun g => g.2 = 1%nat) gs -> repeated gs = concat (map fst gs).
Proof.
  unfold repeated. induction 1 as [|[cs n] gs E _ IH]; [done|]. cbn in *. subst n. cbn.
  by rewrite app_nil_r, IH.
Qed.

Lemma packets_once ch gs pss : Forall2 (packets ch) gs pss -> Forall (fun g => g.2 = 1%nat) gs ->
  length (concat pss) = length gs.
Proof.
  induction 1 as [|g ps gs pss (_ & _ & p & _ & ->) _ IH]; intros Hn; [done|].
  apply Forall_cons in Hn as [E Hn]. cbn [concat length]. by rewrite length_app, length_replicate, E, IH.
Qed.

Section remote.
Context {F : CanFd} {T : Threads F} {W : Wire F T} (wait_fuel : nat) {D : Deadline F T wait_fuel}.
Context (only_dats : forall p, mine p = (extf Ext.type p =? CANTYPE_DAT)).
Context {P : Prom} {PS : PromStrings P} {H : CanHw} {K : Kernel}.

End remote.

(** * Example *)

#[local] Existing Instance recorder.
#[local] Existing Instance acking.
#[local] Existing Instance recorded.
#[local] Existing Instance acking_deadline.

Lemma demo_listening : listening ConsoleProps.demo_console [] demo_tty.
Proof.
  split; [exact demo_console_ok|apply empty_ring_rep|discriminate|reflexivity|reflexivity|reflexivity|].
  vm_compute. discriminate.
Qed.

(** The reader of the example acknowledges every packet at once. *)
Lemma demo_prompt : prompt (T := acking) (W := recorded).
Proof.
  intros k d p El Hm. exists [], (fset Ext.type CANTYPE_ACK (ext p)), 0. cbn in *. rewrite El.
  split; [done|]. split; [done|]. split; [|by fld]. unfold IS_OUR_ACKNAK. fld. by rewrite !Z.eqb_refl.
Qed.


(** The packets of the example at the node: the terminal gets "hi", the
    newline and the x. *)
Example typed_arrives :
  match for_each demo_typing (cc_handle 3) demo_cancon with
  | Done _ s' =>
      match for_each (sent (cc_lib s')) (fun p => canobj_packet (H := ready_chip) (K := demo_kernel) p ;; skip)
              ConsoleProps.demo_console with
      | Done _ w' => option_map flip_chars (ttys w' !! 1) = Some [(104, 0); (105, 0); (10, 0); (120, 0)]
      | Fault _ => False
      end
  | Fault _ => False
  end.
Proof. vm_compute. reflexivity. Qed.
