(* ===== verification/ConsoleDialog.v ===== *)
(** * The console output of a node and its client

    The node: what every operation that writes to the console, and every
    acknowledgement and time-out, does to the output ring and to the packets
    that leave. The client: a packet that arrives is printed and answered.
    ConsoleRun.v puts them together. *)

From stdpp Require Import prelude list numbers gmap strings.
From Stdlib Require Import ZArith Lia.
From S2P Require Import Prelude CanTypes Ring Obp World Demo CanSend Console CanObj CanMain CanChip DriverInv DriverTotal DriverFiles DriverSteps ObjProps ConsoleProps ConsoleStream CanLib Cancon CanconProps CanconTyped CanconReader TypedRemote.

(** ** The node *)

(** What a console device makes of a text: a carriage return before every
    newline. *)
Definition crlf (str : list Z) : list Z :=
  concat (map (fun c => if c =? newline then [carriage_return; c] else [c]) str).

(** What the output ring, which holds 1023 characters, takes of texts that are
    written one after the other when [q] is in it: of every text a first part,
    and everything if there is room for everything. *)
Definition takes (texts : list (list Z)) (q more : list Z) : Prop :=
  (exists mores, Forall2 prefix mores texts /\ more = concat mores) /\
  (Z.of_nat (length q + length (concat texts)) <= MAXRING - 1 -> more = concat texts).

Lemma takes_nil q : takes [] q [].
Proof. split; [by exists []|done]. Qed.

Lemma takes_app t1 t2 q q1 m1 m2 : takes t1 q m1 -> takes t2 q1 m2 ->
  (length q1 <= length q + length m1)%nat -> takes (t1 ++ t2) q (m1 ++ m2).
Proof.
  intros [(l1 & H1 & ->) A1] [(l2 & H2 & ->) A2] Hq. split.
  - exists (l1 ++ l2). split; [by apply Forall2_app|by rewrite concat_app].
  - rewrite concat_app, length_app. intros Hroom.
    pose proof (A1 ltac:(lia)) as E1. rewrite E1 in *. rewrite A2; [done|]. lia.
Qed.

Lemma takes_one cs q : takes [cs] q (take (Z.to_nat (MAXRING - 1) - length q) cs).
Proof.
  split.
  - exists [take (Z.to_nat (MAXRING - 1) - length q) cs]. cbn. rewrite app_nil_r.
    split; [|done]. constructor; [apply prefix_take|constructor].
  - cbn. rewrite app_nil_r. intros. apply take_ge. lia.
Qed.

Section node.
Context {P : Prom} {PS : PromStrings P} {L : Lengths} {H : CanHw} {K : Kernel}.
Implicit Types w : world.

(** A word a client connected with. *)
Definition console_word (rmt : Z) : Prop :=
  CANCON_UNCONNECTED rmt = false /\ CAN_VALID_CONSOBJ (fget Ext.object rmt) = true.

(** The frames the driver has given to the chip or keeps for it, in order. *)
Definition sent_frames w : list frame := tx_frames (io w) ++ map frame_of (ring_list (outq w)).

(** There is room for another. *)
Definition out_room w : Prop := room (ring_list (outq w)) = true.

(** A node whose console is connected to [rmt] on another node, with [q] still to
    be sent. *)
Record console w (rmt : Z) (q : list Z) : Prop := Console {
  con_ok : drv_ok w;
  con_rmt : cancon_rmt w = rmt;
  con_word : console_word rmt;
  con_foreign : own_console (can_nodeid w) rmt = false;
  con_queue : ring_rep (cancon_outbuf w) q
}.

(** One to four characters that left the output ring, and the frame they left
    in, or none if the driver's queue was full and the packet dropped. *)
Definition group : Type := list Z * option frame.

Definition carried_by (rmt : Z) (cs : list Z) (f : frame) : Prop :=
  exists p, f = frame_of p /\ ConsoleProps.carries rmt cs p /\ dat_of_console rmt p.

Definition group_ok (rmt : Z) (g : group) : Prop :=
  (1 <= length g.1 <= 4)%nat /\ forall f, g.2 = Some f -> carried_by rmt g.1 f.

(** The next packet will not be dropped. *)
Definition ready w : Prop := cancon_ack_pending w <> 0 \/ out_room w.

(** From [w], with [q] to be sent, to [w'], with [q'], the output [more] was
    added and the groups [gs] left; all in frames if [R]. *)
Record flow (R : Prop) (rmt : Z) w q (more : list Z) (gs : list group) w' q' : Prop := Flow {
  fl_console : console w' rmt q';
  fl_id : can_nodeid w' = can_nodeid w;
  fl_chars : q ++ more = concat (map fst gs) ++ q';
  fl_groups : Forall (group_ok rmt) gs;
  fl_frames : sent_frames w' = sent_frames w ++ omap snd gs;
  fl_ready : R -> Forall (fun g => is_Some g.2) gs /\ ready w'
}.

(** The same for the texts that are written meanwhile. *)
Definition flows (R : Prop) (rmt : Z) w q (texts : list (list Z)) w' : Prop :=
  exists more gs q', takes texts q more /\ flow R rmt w q more gs w' q'.

Lemma flow_trans R rmt w q m1 g1 w1 q1 m2 g2 w2 q2 :
  flow R rmt w q m1 g1 w1 q1 -> flow (ready w1) rmt w1 q1 m2 g2 w2 q2 ->
  flow R rmt w q (m1 ++ m2) (g1 ++ g2) w2 q2.
Proof.
  intros [_ I1 C1 G1 F1 R1] [D2 I2 C2 G2 F2 R2]. split; [done|congruence|..].
  - by rewrite app_assoc, C1, <- app_assoc, C2, map_app, concat_app, app_assoc.
  - by apply list.Forall_app.
  - by rewrite F2, F1, omap_app, app_assoc.
  - intros HR. destruct (R1 HR) as [H1 Hr]. destruct (R2 Hr). split; [by apply list.Forall_app|done].
Qed.

Lemma flow_queue R rmt w q more gs w' q' : flow R rmt w q more gs w' q' ->
  (length q' <= length q + length more)%nat.
Proof.
  intros [_ _ C _ _ _]. apply (f_equal length) in C. rewrite !length_app in C. lia.
Qed.

Lemma flows_trans R rmt w q t1 w1 t2 w2 : flows R rmt w q t1 w1 ->
  (forall q1, console w1 rmt q1 -> flows (ready w1) rmt w1 q1 t2 w2) -> flows R rmt w q (t1 ++ t2) w2.
Proof.
  intros (m1 & g1 & q1 & T1 & F1) H2. destruct (H2 q1 (fl_console _ _ _ _ _ _ _ _ F1)) as (m2 & g2 & q2 & T2 & F2).
  exists (m1 ++ m2), (g1 ++ g2), q2. split; [|by eapply flow_trans].
  eapply takes_app; [done..|]. by eapply flow_queue.
Qed.

Lemma flows_bind {A} (m1 : eff world A) (m2 : A -> eff world unit) R rmt w q t1 t2 :
  wp m1 (fun _ w1 => flows R rmt w q t1 w1) w ->
  (forall a w1 q1, console w1 rmt q1 -> wp (m2 a) (fun _ w2 => flows (ready w1) rmt w1 q1 t2 w2) w1) ->
  wp (m1 ≫= m2) (fun _ w2 => flows R rmt w q (t1 ++ t2) w2) w.
Proof.
  intros H1 H2. rewrite wp_bind. eapply wp_mono; [exact H1|]. intros a w1 F1.
  destruct F1 as (m & g & q1 & T1 & Hc) eqn:EF. clear EF. pose proof (fl_console _ _ _ _ _ _ _ _ Hc) as C1.
  eapply wp_mono; [by apply (H2 a w1 q1)|]. intros u w2 F2. eapply flows_trans; [exact F1|].
  intros q1' C1'. assert (Eq : q1' = q1) by (eapply ring_rep_functional; [apply C1'|apply C1]). by subst q1'.
Qed.

Lemma flows_weaken (R R' : Prop) rmt w q t w' : (R -> R') -> flows R' rmt w q t w' -> flows R rmt w q t w'.
Proof. intros HR (m & g & q' & T & [D I C G F HR']). exists m, g, q'. split; [done|]. split; auto. Qed.

(** Nothing for the console happened. *)
Lemma flows_none (R : Prop) rmt w q w' : console w' rmt q -> can_nodeid w' = can_nodeid w ->
  sent_frames w' = sent_frames w -> (R -> ready w') -> flows R rmt w q [] w'.
Proof.
  intros Hc I F HR. exists [], [], q. split; [apply takes_nil|].
  split; [done|done|by rewrite app_nil_r|constructor|by rewrite app_nil_r|auto].
Qed.

Lemma flows_skip rmt w q : console w rmt q -> wp skip (fun _ w' => flows (ready w) rmt w q [] w') w.
Proof. intros. rewrite wp_skip. by apply flows_none. Qed.

Lemma flows_log e rmt w q : console w rmt q -> wp (log e) (fun _ w' => flows (ready w) rmt w q [] w') w.
Proof.
  intros [Hw E Hword Ho Hq]. rewrite wp_log. apply flows_none; try done. split; try done. by apply drv_ok_klog.
Qed.

(** A text was put into the ring, as far as there was room. *)
Lemma flows_put rmt w q cs r : console w rmt q -> ring_rep r (take (Z.to_nat (MAXRING - 1)) (q ++ cs)) ->
  flows (ready w) rmt w q [cs] (set_cancon_outbuf r w).
Proof.
  intros [Hw E Hword Ho Hq] Hr. exists (take (Z.to_nat (MAXRING - 1) - length q) cs), [], (take (Z.to_nat (MAXRING - 1)) (q ++ cs)).
  split; [apply takes_one|]. split; ws; try done.
  - split; try done. apply drv_ok_outbuf; [by eexists|done].
  - cbn. rewrite take_app, (take_ge q); [done|]. destruct Hq as (_ & _ & ? & _). lia.
  - by rewrite app_nil_r.
Qed.

(** *** Writing into the ring *)

(** [w'] is [w] with [cs] behind [q] in the ring, as far as there is room. *)
Definition put (w : world) (q cs : list Z) (w' : world) : Prop :=
  exists r, w' = set_cancon_outbuf r w /\ ring_rep r (take (Z.to_nat (MAXRING - 1)) (q ++ cs)).

Lemma put_none w q : ring_rep (cancon_outbuf w) q -> put w q [] w.
Proof.
  intros Hq. exists (cancon_outbuf w). split; [world_eq|]. rewrite app_nil_r, take_ge; [done|].
  destruct Hq as (_ & _ & ? & _). lia.
Qed.

Lemma put_one c w q : ring_rep (cancon_outbuf w) q ->
  wp (on_outbuf (char_to_ring c)) (fun v w' => put w q [c] w' /\ v = if room q then 1 else 0) w.
Proof.
  intros Hq. rewrite wp_on_outbuf. wp_call char_to_ring_spec; [exact Hq|]. intros v r Hr. fold (room q) in Hr.
  assert (Et : take (Z.to_nat (MAXRING - 1)) (q ++ [c]) = if room q then q ++ [c] else q).
  { rewrite <- take_room by apply Hq. rewrite app_nil_r. apply take_ge. unfold room.
    destruct (Z.ltb_spec (Z.of_nat (length q)) (MAXRING - 1)); rewrite ?length_app; cbn [length]; [lia|].
    destruct Hq as (_ & _ & ? & _). lia. }
  destruct (room q); destruct Hr as [-> Hr]; (split; [|done]); exists r; (split; [done|]); rewrite Et; [done|].
  by subst r.
Qed.

Lemma put_trans w q cs ds w1 w2 : put w q cs w1 ->
  (forall q1, ring_rep (cancon_outbuf w1) q1 -> put w1 q1 ds w2) -> put w q (cs ++ ds) w2.
Proof.
  intros (r & -> & Hr) H2. destruct (H2 _ Hr) as (r' & -> & Hr'). exists r'. split; [done|].
  revert Hr'. rewrite app_assoc. set (n := Z.to_nat (MAXRING - 1)). set (l := q ++ cs).
  rewrite (take_app (take n l)), (take_app l), take_take, Nat.min_id, length_take.
  destruct (le_lt_dec n (length l)) as [Hle|Hlt].
  - rewrite Nat.min_l by done. by replace (n - length l)%nat with (n - n)%nat by lia.
  - by rewrite Nat.min_r by lia.
Qed.

Lemma put_bind {A B} (m1 : eff world A) (m2 : A -> eff world B) w q cs ds :
  wp m1 (fun _ w1 => put w q cs w1) w ->
  (forall a w1 q1, ring_rep (cancon_outbuf w1) q1 -> wp (m2 a) (fun _ w2 => put w1 q1 ds w2) w1) ->
  wp (m1 ≫= m2) (fun _ w2 => put w q (cs ++ ds) w2) w.
Proof.
  intros H1 H2. rewrite wp_bind. eapply wp_mono; [exact H1|]. intros a w1 P1.
  assert (Hr1 : exists q1, ring_rep (cancon_outbuf w1) q1) by (destruct P1 as (r & -> & Hr); by eexists).
  destruct Hr1 as [q1 Hq1]. eapply wp_mono; [by apply (H2 a w1 q1)|]. intros b w2 P2.
  eapply put_trans; [exact P1|]. intros q1' Hq1'. by rewrite (ring_rep_functional _ _ _ Hq1' Hq1).
Qed.

Lemma put_skip w q : ring_rep (cancon_outbuf w) q -> wp skip (fun _ w' => put w q [] w') w.
Proof. intros. rewrite wp_skip. by apply put_none. Qed.

Lemma put_char c w q : ring_rep (cancon_outbuf w) q ->
  wp (on_outbuf (char_to_ring c) ;; skip) (fun _ w' => put w q [c] w') w.
Proof.
  intros Hq. apply (put_bind _ _ w q [c] []); [|intros; by apply put_skip].
  eapply wp_mono; [by apply put_one|]. by intros v w' [? _].
Qed.

(** The loop of the console device. *)
Lemma put_text str : forall w q, ring_rep (cancon_outbuf w) q ->
  wp (for_each str (fun c =>
      when (c =? newline) (on_outbuf (char_to_ring carriage_return) ;; skip) ;;
      on_outbuf (char_to_ring c) ;; skip)) (fun _ w' => put w q (crlf str) w') w.
Proof.
  induction str as [|c str IH]; intros w q Hq; cbn [for_each]; [by apply put_skip|].
  unfold crlf. cbn [map concat]. apply put_bind; [|intros; by apply IH].
  destruct (c =? newline); cbn [when].
  - apply (put_bind _ _ w q [carriage_return] [c]); [by apply put_char|intros; by apply put_char].
  - apply (put_bind _ _ w q [] [c]); [by apply put_skip|intros; by apply put_char].
Qed.

(** The bytes of a buffer up to the first that cannot be read. *)
Fixpoint readable_part (b : list (option Z)) : list Z :=
  match b with Some c :: b' => c :: readable_part b' | _ => [] end.

(** The loop of the tty's write. *)
Lemma put_buffer fu b : readable fu b -> forall i w q, ring_rep (cancon_outbuf w) q ->
  wp (cantty_write_loop fu b i) (fun _ w' => put w q (readable_part b) w') w.
Proof.
  induction b as [|[c|] b IH]; intros Hb i w q Hq; cbn [cantty_write_loop readable_part].
  - rewrite wp_ret. by apply put_none.
  - rewrite wp_bind. eapply wp_mono; [by apply put_one|]. intros v w1 [P1 ->].
    destruct (room q) eqn:Er; cbn [Z.eqb].
    + pose proof P1 as (r & -> & Hr). assert (Hb' : readable fu b).
      { destruct Hb as [->|Hb]; [by left|right]. by apply Forall_cons in Hb as [_ ?]. }
      change (1 =? 0) with false. cbv iota. eapply wp_mono; [apply (IH Hb' _ (set_cancon_outbuf r w) _ Hr)|]. intros i' w2 P2.
      apply (put_trans w q [c] (readable_part b) (set_cancon_outbuf r w)); [by exists r|].
      intros q1 Hq1. by rewrite (ring_rep_functional _ _ _ Hq1 Hr).
    + change (0 =? 0) with true. cbv iota. rewrite wp_ret. apply (put_trans w q [c] (readable_part b) w1); [done|].
      intros q1 Hq1. destruct P1 as (r & -> & Hr). exists r. split; [world_eq|].
      assert (Eq : q1 = q).
      { rewrite (ring_rep_functional _ _ _ Hq1 Hr). rewrite <- take_room, Er, app_nil_r by apply Hq.
        apply take_ge. destruct Hq as (_ & _ & ? & _). lia. }
      subst q1. rewrite take_app_le; [|unfold room in Er; apply Z.ltb_ge in Er; lia].
      rewrite take_ge; [done|]. destruct Hq as (_ & _ & ? & _). lia.
  - destruct Hb as [->|Hb]; [|by apply Forall_cons in Hb as [[? ?] _]]. rewrite wp_ret. by apply put_none.
Qed.

Lemma flows_of_put rmt w q cs w' : console w rmt q -> put w q cs w' -> flows (ready w) rmt w q [cs] w'.
Proof. intros Hc (r & -> & Hr). by apply flows_put. Qed.

(** *** Sending *)

(** A packet for another node is sent after what was sent before. *)
Lemma sends_sent w p w' : drv_ok w -> ObjProps.sends w p w' -> IS_MYPACKET (can_nodeid w) p = false ->
  out_room w -> sent_frames w' = sent_frames w ++ [frame_of (stamped w (fixed_up w p))].
Proof.
  intros Hw (qi & qo & v & (Hi & Ho & _) & Hs) Hmine Hroom. unfold out_room in Hroom.
  rewrite (ring_rep_list _ _ Ho) in Hroom. unfold send_post in Hs.
  rewrite stamped_fixed_mine, Hmine, Hroom in Hs. destruct Hs as (_ & ri & ro & n & tr & _ & Hro & Htx & ->).
  unfold sent_frames. ws. rewrite (ring_rep_list _ _ Hro), (ring_rep_list _ _ Ho), Htx, <- !app_assoc, <- map_app, take_drop.
  by rewrite map_app.
Qed.

(** What the queue does to a packet is in neither of its headers' fields for
    the receiver, nor in its data. *)
Lemma carried_queued rmt cs v p : ConsoleProps.carries rmt cs p -> dat_of_console rmt p ->
  carried_by rmt cs (frame_of (stamped v (fixed_up v p))).
Proof.
  intros (H1 & H2 & H3 & H4) [Hp He]. exists (stamped v (fixed_up v p)). split; [done|]. split.
  - split; [done|]. split; [done|]. split; [|done]. rewrite <- H3.
    unfold canf, stamped, fixed_up, set_canf. cbn. by fld.
  - split; [by apply stamped_ok, fixed_up_ok|done].
Qed.

(** cancon_send_next(): nothing, or one group leaves. *)
Lemma send_next_flows rmt w q : console w rmt q ->
  wp cancon_send_next (fun _ w' => flows (ready w) rmt w q [] w') w.
Proof.
  intros Hc. pose proof Hc as [Hw E Hword Ho Hq].
  assert (Hun : CANCON_UNCONNECTED (cancon_rmt w) = false) by (rewrite E; apply Hword).
  eapply wp_mono; [apply wp_and; [by apply send_next_carries|by apply spends_send_next]|].
  intros u w' [H1 [Hw' [Eid _]]]. cbn beta in *.
  destruct (Z.eqb_spec (cancon_ack_pending w) 0) as [Ep|Ep]; cbn [negb orb] in H1;
    [|subst w'; by apply flows_none].
  destruct (bool_decide_reflect (q = [])) as [->|Hne]; [subst w'; by apply flows_none|].
  destruct H1 as [Hr (p & w0 & w1 & Hcar & Hd & Hs & Emine & E0 & Hend)]. rewrite E in Hcar, Hd, Emine, Hend.
  assert (Hl : (1 <= length (take 4 q) <= 4)%nat).
  { rewrite length_take. destruct q; [done|]. cbn [length]. lia. }
  assert (Hw0 : drv_ok w0) by (subst w0; apply drv_ok_outbuf; [by eexists|done]).
  unfold takes_console in Hend. rewrite E, Ho in Hend. rewrite Ho in Emine.
  assert (F0 : sent_frames w0 = sent_frames w) by (subst w0; reflexivity).
  destruct Hend as [(Hroom & Ep' & Er' & Ei & Eo & Ex & _)|(Hfull & E1 & E2)].
  - exists [], [(take 4 q, Some (frame_of (stamped w0 (fixed_up w0 p))))], (drop 4 q).
    split; [apply takes_nil|]. split.
    + split; try done; congruence.
    + done.
    + cbn. by rewrite !app_nil_r, take_drop.
    + constructor; [|constructor]. split; [done|]. intros f [= <-]. by apply carried_queued.
    + replace (sent_frames w') with (sent_frames w1) by (unfold sent_frames; by rewrite Eo, Ex).
      rewrite <- F0. apply sends_sent; [done|done|by subst w0|by subst w0].
    + intros _. split; [by constructor|]. left. rewrite Ep'. done.
  - exists [], [(take 4 q, None)], (drop 4 q). split; [apply takes_nil|]. rewrite E2 in *. split.
    + split; [done|by rewrite E0|done|by rewrite Eid|done].
    + done.
    + cbn. by rewrite !app_nil_r, take_drop.
    + by constructor.
    + cbn. by rewrite app_nil_r.
    + intros [Hp|Hroom]; [done|]. unfold out_room in Hroom. congruence.
Qed.

(** *** The operations *)

Lemma printk_write_flows rmt w q str : console w rmt q ->
  wp (cancon_printk_write str) (fun _ w' => flows (ready w) rmt w q [crlf str] w') w.
Proof.
  intros Hc. pose proof Hc as [Hw E Hword Ho Hq]. unfold cancon_printk_write.
  rewrite wp_bind, wp_gets, E, (proj1 Hword). cbn [orb].
  destruct (bool_decide_reflect (str = [])) as [->|_].
  { rewrite wp_skip. apply flows_of_put; [done|]. by apply put_none. }
  apply (flows_bind _ _ _ rmt w q [crlf str] []).
  - eapply wp_mono; [by apply put_text|]. intros u w'. by apply flows_of_put.
  - intros _ w1 q1 C1. by apply send_next_flows.
Qed.

Lemma printk_write_all_flows rmt texts : forall w q, console w rmt q ->
  wp (for_each texts cancon_printk_write) (fun _ w' => flows (ready w) rmt w q (map crlf texts) w') w.
Proof.
  induction texts as [|t texts IH]; intros w q Hc; cbn [for_each map]; [by apply flows_skip|].
  apply (flows_bind _ _ _ rmt w q [crlf t]); [by apply printk_write_flows|]. intros _ w1 q1. apply IH.
Qed.

(** The texts a message of the kernel is for the console. *)
Definition printed w (fmt : string) (args : list parg) : list (list Z) :=
  if con_registered w then map crlf (printk_text fmt args) else [].

Lemma printk_flows rmt w q fmt args : console w rmt q ->
  wp (printk fmt args) (fun _ w' => flows (ready w) rmt w q (printed w fmt args) w') w.
Proof.
  intros Hc. unfold printk. change (printed w fmt args) with ([] ++ printed w fmt args).
  rewrite wp_bind. eapply wp_mono; [eapply (wp_and _ _ (fun _ w' => con_registered w' = con_registered w)); [by apply (flows_log _ rmt w q)|by rewrite wp_log]|].
  intros u w1 [F1 E1]. rewrite wp_bind, wp_gets, E1.
  destruct F1 as (m & g & q1 & T & F) eqn:EF. clear EF. pose proof (fl_console _ _ _ _ _ _ _ _ F) as C1.
  eapply (wp_mono _ (fun _ w' => flows (ready w1) rmt w1 q1 (printed w fmt args) w')).
  - unfold printed. destruct (con_registered w); cbn [when]; [by apply printk_write_all_flows|by apply flows_skip].
  - intros v w2 F2. eapply (flows_trans _ _ _ _ [] w1); [by exists m, g, q1|]. intros q1' C1'.
    by rewrite (ring_rep_functional _ _ _ (con_queue _ _ _ C1') (con_queue _ _ _ C1)).
Qed.

(** An acknowledgement, or the end of the wait for one, lets the next group
    leave; the messages it may give are output too. *)
Definition ack_texts w (timeout : Z) : list (list Z) :=
  if negb (cancon_ack_pending w =? 0) then
    if negb (timeout =? 0) then printed w "can: consobj ACK timed out\n" [] else []
  else printed w "can: unexpected ACK %s\n" [PStr (if negb (timeout =? 0) then "timeout" else "received")].

Lemma recv_ack_flows rmt w q t timeout : console w rmt q ->
  wp (cancon_recv_ack timeout) (fun _ w' => flows (out_room w) rmt w q (ack_texts w timeout) w') (set_ack_timer t w).
Proof.
  intros Hc. pose proof Hc as [Hw E Hword Ho Hq]. unfold cancon_recv_ack, del_ack_timer, ack_texts.
  rewrite wp_bind, wp_modify, wp_bind, wp_gets. ws.
  destruct (Z.eqb_spec (cancon_ack_pending w) 0) as [Ep|Ep]; cbn [negb].
  - assert (Et : set_ack_timer None (set_ack_timer t w) = w).
    { pose proof (proj2 (ok_ack _ Hw) Ep) as Et. destruct w as [[] [] [] []]. cbn in Et. subst. done. }
    rewrite Et. eapply wp_mono; [eapply (flows_bind _ _ (ready w) rmt w q _ []); [by apply printk_flows|]|].
    + intros _ w1 q1. apply send_next_flows.
    + intros u w'. rewrite app_nil_r. apply flows_weaken. by right.
  - set (w0 := set_cancon_ack_pending 0 (set_ack_timer None w)).
    assert (C0 : console w0 rmt q) by (split; try done; by apply drv_ok_unacked).
    rewrite wp_bind, wp_bind, wp_modify. change (set_cancon_ack_pending 0 _) with w0.
    change (printed w) with (printed w0).
    rewrite <- wp_bind. eapply wp_mono;
      [apply (flows_bind _ _ (ready w0) rmt w0 q (if negb (timeout =? 0) then printed w0 "can: consobj ACK timed out\n" [] else []) [])|].
    + destruct (negb (timeout =? 0)); cbn [when]; [by apply printk_flows|by apply flows_skip].
    + intros _ w1 q1. apply send_next_flows.
    + intros u w'. rewrite app_nil_r. intros (m & g & q' & T & [D I Ch G F R]). exists m, g, q'. split; [done|].
      split; try done. intros Hroom. apply R. by right.
Qed.

Lemma tty_write_flows rmt w q tty fu b n t : console w rmt q -> ttys w !! tty = Some t ->
  (forall l, b = Some l -> readable fu l) ->
  wp (cantty_write tty fu b n) (fun _ w' => flows (ready w) rmt w q
    (match b with
     | Some l => if tty_stopped t then [] else [readable_part (take (Z.to_nat n) l)]
     | None => []
     end) w') w.
Proof.
  intros Hc Et Hb. pose proof Hc as [Hw E Hword Ho Hq]. unfold cantty_write.
  rewrite wp_bind, wp_gets, E, (proj1 Hword), wp_bind, wp_get_tty. exists t. split; [done|].
  destruct b as [l|]; [|rewrite wp_ret; by apply flows_none].
  destruct (tty_stopped t); [rewrite wp_ret; by apply flows_none|]. set (cs := readable_part _).
  assert (Hl : readable fu (take (Z.to_nat n) l)).
  { destruct (Hb l eq_refl) as [->|Hl]; [by left|right; by apply Forall_take]. }
  rewrite wp_bind. eapply wp_mono; [by apply (put_buffer _ _ Hl _ w q)|]. intros i w1 P1. fold cs in P1.
  pose proof (flows_of_put rmt w q cs w1 Hc P1) as F1.
  destruct F1 as (m & g & q1 & T & F) eqn:EF. clear EF. pose proof (fl_console _ _ _ _ _ _ _ _ F) as C1.
  rewrite wp_bind. eapply (wp_mono _ (fun _ w' => flows (ready w1) rmt w1 q1 [] w')).
  - destruct (0 <? i); cbn [when]; [by apply send_next_flows|by apply flows_skip].
  - intros v w2 F2. rewrite wp_ret. apply (flows_trans _ _ w q [cs] w1 []); [by exists m, g, q1|]. intros q1' C1'.
    by rewrite (ring_rep_functional _ _ _ (con_queue _ _ _ C1') (con_queue _ _ _ C1)).
Qed.

(** The output of an event: what is written, and the messages of the
    driver's timer. *)
Definition event_texts w (e : event) : option (list (list Z)) :=
  match e with
  | EvPrintk fmt args => Some (printed w fmt args)
  | EvAckTimer => Some (ack_texts w 1)
  | EvTtyPutChar _ c => Some [[c]]
  | EvTtyWrite tty _ b n => Some (
      match ttys w !! tty, b with
      | Some t, Some l => if tty_stopped t then [] else [readable_part (take (Z.to_nat n) l)]
      | _, _ => []
      end)
  | _ => None
  end.

Lemma event_flows rmt w q e texts : console w rmt q -> enabled e w -> event_texts w e = Some texts ->
  wp (handle e) (fun _ w' => flows (out_room w) rmt w q texts w') w.
Proof.
  intros Hc He Et.
  assert (Hready : forall {A} (m : eff world A), wp m (fun _ w' => flows (ready w) rmt w q texts w') w ->
    wp m (fun _ w' => flows (out_room w) rmt w q texts w') w).
  { intros A m Hm. eapply wp_mono; [exact Hm|]. intros a w'. apply flows_weaken. by right. }
  destruct e; try discriminate Et; injection Et as <-; cbn [handle].
  - rewrite wp_bind, wp_modify. by apply recv_ack_flows.
  - by apply Hready, printk_flows.
  - destruct He as [[t Ht] Hb]. rewrite Ht in *. apply Hready.
    rewrite <- (app_nil_r (match b with Some _ => _ | None => _ end)).
    apply (flows_bind _ _ _ rmt w q _ []); [by apply (tty_write_flows rmt w q tty from_user b count t)|].
    intros _ w1 q1. apply flows_skip.
  - apply Hready. unfold cantty_put_char. apply (flows_bind _ _ _ rmt w q [[ch]] []).
    + eapply wp_mono; [by apply put_one, Hc|]. intros v w' [P1 _]. by apply flows_of_put.
    + intros _ w1 q1. apply send_next_flows.
Qed.

(** The objects of the kernel are not console objects. *)
Lemma consobj_other rmt o : console_word rmt -> o < CANOBJ_CONSMIN \/ CANOBJ_CONSMAX < o ->
  (fget Ext.object rmt =? o) = false.
Proof.
  intros [_ Hv] Ho. unfold CAN_VALID_CONSOBJ in Hv. apply andb_true_iff in Hv as [H1%Z.leb_le H2%Z.leb_le].
  apply Z.eqb_neq. lia.
Qed.

(** An acknowledgement for the console, whatever it acknowledges. *)
Definition console_ack (rmt : Z) (a : can_packet) : Prop :=
  extf Ext.type a = CANTYPE_ACK /\ extf Ext.object a = fget Ext.object rmt.

Lemma ack_flows rmt w q a : console w rmt q -> console_ack rmt a ->
  wp (canobj_packet a) (fun handled w' => handled = 1 /\ flows (out_room w) rmt w q (ack_texts w 0) w') w.
Proof.
  intros Hc [Ety Eobj]. pose proof Hc as [Hw E Hword Ho Hq]. unfold canobj_packet. rewrite Eobj.
  rewrite !(consobj_other _ _ Hword) by (vm_compute; (left; reflexivity) || (right; reflexivity)).
  rewrite wp_bind, wp_ret, wp_bind, wp_gets, E, (proj1 Hword), Z.eqb_refl. cbn [negb andb].
  unfold canobj_consobj. cbv zeta. rewrite Ety. change (CANTYPE_ACK =? CANTYPE_ACK) with true. cbv iota.
  assert (Et : set_ack_timer (ack_timer w) w = w) by world_eq.
  rewrite wp_bind. pose proof (recv_ack_flows rmt w q (ack_timer w) 0 Hc) as Hr. rewrite Et in Hr.
  eapply wp_mono; [exact Hr|]. intros u w' Hw'. by rewrite wp_ret.
Qed.
End node.

Lemma carries_chars rmt cs p : ConsoleProps.carries rmt cs p -> chars_of (length cs) p = map u8 cs.
Proof.
  intros (_ & _ & _ & Hc). apply list_eq. intros i. unfold chars_of.
  rewrite !list_lookup_fmap. destruct (cs !! i) as [c|] eqn:Ei; cbn [fmap option_fmap option_map].
  - rewrite lookup_seq_lt by (by eapply lookup_lt_Some). cbn. by rewrite (Hc i c Ei).
  - rewrite lookup_seq_ge; [done|]. by apply lookup_ge_None.
Qed.

(** ** The client *)

(** An acknowledgement without data arrives: the bus carries its header. *)
Definition header_arrives (a a1 : can_packet) : Prop :=
  pkt_ok a1 /\ ext a1 = ext a /\ canf Can.length a1 = canf Can.length a.

(** The packet a frame arrives as. *)
Definition from_frame (f : frame) (p : can_packet) : Prop :=
  pkt_ok p /\ ext p = f.1.2 /\ dat p = f.2 /\ fget Can.length (can p) = fget Can.length f.1.1.

Section dialog.
Context {F : CanFd} {T : Threads F} {W : Wire F T}.
Implicit Types s : cancon.

(** A client whose reader runs, connected with the word [co]. *)
Record reading s (co : Z) : Prop := Reading {
  rd_lib : lib_ok (cc_lib s);
  rd_init : initialized (cc_lib s) <> 0;
  rd_object : console_object s = co
}.

(** The next packet on its descriptor. *)
Definition hears s (p : can_packet) : Prop :=
  exists d', fd_read (lib_fd (cc_lib s)) = Done (PKTSIZE, p) d' /\
    written d' = written (lib_fd (cc_lib s)).

(** Characters of its console are printed and acknowledged. *)
Lemma reader_prints p s co : reading s co -> hears s p ->
  extf Ext.type p = CANTYPE_DAT -> ext p = co -> 4 <= canf Can.length p <= 8 ->
  wp reader_once (fun go s' => go = true /\ reading s' co /\ acks s' = acks s /\
    out s' = out s ++ take (Z.to_nat (canf Can.length p - 4)) (bytes_of 4 (dat p)) /\
    exists a, answers_packet p None 0 a /\
      written (lib_fd (cc_lib s')) = written (lib_fd (cc_lib s)) ++ [a]) s.
Proof using Type.
  intros [Hlb Hi Hco] (d' & Hr & Hw) Ety Ex Hlen. unfold reader_once.
  rewrite wp_bind, wp_gets, wp_bind. unfold on_lib at 1. rewrite wp_zoom.
  unfold wp at 1. rewrite (can_recv_spec _ _ _ _ Hi Hr). rewrite wp_bind. cbn [the].
  rewrite wp_ret, wp_bind, wp_modify. change (PKTSIZE =? -1) with false. cbv iota.
  rewrite wp_bind. cbn [the]. rewrite wp_ret, wp_bind, wp_gets. cbv zeta. cbn [r_ext r_dat r_len].
  rewrite wp_bind. change (fget Ext.type (ext p)) with (extf Ext.type p). rewrite Ety.
  change ((CANTYPE_DAT =? CANTYPE_ACK) || (CANTYPE_DAT =? CANTYPE_NAK)) with false. cbv iota.
  change (CANTYPE_DAT =? CANTYPE_DAT) with true. cbv iota.
  set (s1 := set_cc_ack _ _). change (console_object s1) with (console_object s).
  rewrite Ex, Hco, Z.eqb_refl. unfold when. rewrite wp_bind. unfold fwrite.
  rewrite (proj2 (Z.ltb_ge _ 0)), (proj2 (Z.ltb_ge 4 _)) by (unfold sizeof_can_header_ext; lia).
  cbn [orb]. rewrite wp_modify.
  eapply wp_mono; [apply (answer_taken p (cc_ack s) None 0 (cc_lib s1)); try done; unfold ACKABLE; rewrite Ety; done|].
  intros _ s3 (a & lb & Ha & Ew & [Hlb' Hi'] & ->). rewrite wp_ret. split; [done|]. split; [by split|].
  split; [done|]. split; [done|]. exists a. split; [done|]. rewrite <- Hw. exact Ew.
Qed.

(** A group of characters arrives: the reader prints it, and what it answers
    is for the node an acknowledgement of its console. *)
Lemma frame_printed rmt cs f p1 s : carried_by rmt cs f -> (length cs <= 4)%nat -> from_frame f p1 ->
  reading s (fset Ext.type CANTYPE_DAT rmt) -> hears s p1 ->
  wp reader_once (fun _ s1 => reading s1 (fset Ext.type CANTYPE_DAT rmt) /\ out s1 = out s ++ map u8 cs /\
    exists a, written (lib_fd (cc_lib s1)) = written (lib_fd (cc_lib s)) ++ [a] /\
      forall a1, header_arrives a a1 -> console_ack rmt a1) s.
Proof using Type.
  intros (p & -> & (Ety & Eobj & Elen & Ec) & [_ Eext]) Hl (Hok & Ee & Ed & El) Hs Hh.
  cbn in Ee, Ed, El. fold (canf Can.length p1) (canf Can.length p) in El.
  assert (Ety1 : extf Ext.type p1 = CANTYPE_DAT) by (unfold extf in *; by rewrite Ee).
  eapply wp_mono; [apply (reader_prints p1 s _ Hs Hh); [done|by rewrite Ee|rewrite El; lia]|].
  intros go s1 (_ & Hs1 & _ & Eout & a & (Ea & _) & Ew). split; [done|]. split.
  - rewrite Eout. f_equal. rewrite El, Elen. replace (Z.to_nat _) with (length cs) by lia. rewrite Ed.
    rewrite <- chars_of_bytes by done. by apply (carries_chars rmt).
  - exists a. split; [done|]. intros a1 (_ & Ea1 & _). unfold console_ack, extf.
    rewrite Ea1, Ea, Ee, Eext. split; by fld.
Qed.
End dialog.
