(* ===== verification/ConsoleRun.v ===== *)
(** * The output of a node until it is printed

    A transition system of the driver of a node, the frames of its console's
    output that are on their way, and the client the console is connected to;
    and where every character of the output is after any run of it. *)

From stdpp Require Import prelude list numbers gmap strings.
From Stdlib Require Import ZArith Lia.
From S2P Require Import Prelude CanTypes Ring Obp World Demo CanSend Console CanObj CanMain CanChip DriverInv DriverTotal DriverFiles DriverSteps ObjProps ConsoleProps ConsoleStream CanLib Cancon CanconProps CanconTyped CanconReader TypedRemote ConsoleDialog.

(** What became of characters that left the output ring: the client printed
    them; the frame was lost; the driver dropped the packet, because its queue
    was full; the frame is on its way. *)
Inductive fate := Printed | Lost | Dropped | On_way (f : frame).

(** The characters, and the frames, with a fate; all in order. *)
Definition is_printed (h : list Z * fate) : bool := match h.2 with Printed => true | _ => false end.
Definition is_lost (h : list Z * fate) : bool := match h.2 with Lost => true | _ => false end.
Definition is_dropped (h : list Z * fate) : bool := match h.2 with Dropped => true | _ => false end.
Definition way (h : list Z * fate) : option frame := match h.2 with On_way f => Some f | _ => None end.

Definition chars_in (hs : list (list Z * fate)) : list Z := concat (map fst hs).
Definition printed_chars (hs : list (list Z * fate)) : list Z := chars_in (List.filter is_printed hs).

(** What a move was: output, with what the ring held before, the texts to be
    written, and whether the driver's queue had room; a frame printed by the
    client; a frame lost; none of these. *)
Inductive move :=
  | Output (q : list Z) (texts : list (list Z)) (roomy : bool)
  | Print
  | Lose
  | Other.

Definition outputs (l : list move) : list (list Z * list (list Z)) :=
  omap (fun m => match m with Output q texts _ => Some (q, texts) | _ => None end) l.
Definition losses (l : list move) : nat :=
  length (List.filter (fun m => match m with Lose => true | _ => false end) l).
Definition always_room (l : list move) : Prop :=
  Forall (fun m => match m with Output _ _ b => b = true | _ => True end) l.

Section run.
Context {F : CanFd} {T : Threads F} {W : Wire F T}.
Context {P : Prom} {PS : PromStrings P} {L : Lengths} {H : CanHw} {K : Kernel}.
Implicit Types (w : world) (s : cancon).

(** The node, the frames for its client that are on their way, in order, and
    the client. *)
Record dialog := Dialog { node : world; wire : list frame; client : cancon }.
Implicit Types d : dialog.

(** Output of the node: an event of the driver that writes to the console or
    ends the wait for an acknowledgement, or any acknowledgement for the
    console that arrives, be it in time or late. *)
Inductive node_output (rmt : Z) : list (list Z) -> world -> world -> Prop :=
  | By_event e texts w w' :
      enabled e w -> event_texts w e = Some texts -> handle e w = Done tt w' -> node_output rmt texts w w'
  | By_ack a h w w' :
      console_ack rmt a -> canobj_packet a w = Done h w' -> node_output rmt (ack_texts w 0) w w'.

(** One move. A frame is lost or printed only once, and those that are printed
    arrive in order. Whatever else the driver does leaves the connection and the
    output ring alone, and the other threads of the client do not print. *)
Inductive moves (rmt : Z) : move -> dialog -> dialog -> Prop :=
  | Node_output texts q w w' l fs s :
      node_output rmt texts w w' -> ring_rep (cancon_outbuf w) q -> sent_frames w' = sent_frames w ++ l ->
      moves rmt (Output q texts (room (ring_list (outq w)))) (Dialog w fs s) (Dialog w' (fs ++ l) s)
  | Frame_printed w f fs s p1 go s1 :
      from_frame f p1 -> hears s p1 -> reader_once s = Done go s1 ->
      moves rmt Print (Dialog w (f :: fs) s) (Dialog w fs s1)
  | Frame_lost w fs1 f fs2 s :
      moves rmt Lose (Dialog w (fs1 ++ f :: fs2) s) (Dialog w (fs1 ++ fs2) s)
  | Node_other w w' fs s :
      step w w' -> can_nodeid w' = can_nodeid w -> cancon_rmt w' = cancon_rmt w ->
      (forall q, ring_rep (cancon_outbuf w) q -> ring_rep (cancon_outbuf w') q) ->
      moves rmt Other (Dialog w fs s) (Dialog w' fs s)
  | Client_other w fs s s' :
      reading s' (console_object s) -> out s' = out s ->
      moves rmt Other (Dialog w fs s) (Dialog w fs s').

Inductive run (rmt : Z) : list move -> dialog -> dialog -> Prop :=
  | run_start d : run rmt [] d d
  | run_move ms m d d1 d2 : run rmt ms d d1 -> moves rmt m d1 d2 -> run rmt (ms ++ [m]) d d2.

(** ** What every move keeps *)

(** Whatever the output is, the node does one of the things of ConsoleDialog.v. *)
Lemma node_output_flows rmt texts w w' q : console w rmt q -> node_output rmt texts w w' ->
  flows (out_room w) rmt w q texts w'.
Proof using PS.
  intros Hc Hout. destruct Hout as [e texts w w' He Et Hs|a h w w' Ha Hs].
  - pose proof (event_flows rmt w q e _ Hc He Et) as Hf. unfold wp in Hf. by rewrite Hs in Hf.
  - pose proof (ack_flows rmt w q a Hc Ha) as Hf. unfold wp in Hf. rewrite Hs in Hf. apply Hf.
Qed.

(** A group whose fate is known or that is on its way. *)
Definition hist_ok (rmt : Z) (h : list Z * fate) : Prop :=
  (1 <= length h.1 <= 4)%nat /\ forall f, h.2 = On_way f -> carried_by rmt h.1 f.

(** The groups that left: those before [h2] are off the wire, and none in
    [h2] is printed. *)
Record accounts (rmt : Z) (out0 : list Z) d (h1 h2 : list (list Z * fate)) : Prop := Accounts {
  ac_ok : Forall (hist_ok rmt) (h1 ++ h2);
  ac_off : omap way h1 = [];
  ac_wire : omap way h2 = wire d;
  ac_unprinted : List.filter is_printed h2 = [];
  ac_out : out (client d) = out0 ++ map u8 (printed_chars h1);
  ac_reads : reading (client d) (fset Ext.type CANTYPE_DAT rmt)
}.

Definition of_group (g : group) : list Z * fate :=
  (g.1, match g.2 with Some f => On_way f | None => Dropped end).

Lemma of_groups (gs : list group) rmt : Forall (group_ok rmt) gs ->
  Forall (hist_ok rmt) (map of_group gs) /\ omap way (map of_group gs) = omap snd gs /\
  List.filter is_printed (map of_group gs) = [] /\ chars_in (map of_group gs) = concat (map fst gs) /\
  List.filter is_lost (map of_group gs) = [] /\
  (Forall (fun g => is_Some g.2) gs -> List.filter is_dropped (map of_group gs) = []).
Proof using Type.
  induction 1 as [|[cs [f|]] gs [Hl Hf] _ (I1 & I2 & I3 & I4 & I5 & I6)]; [done|..];
    cbn [map omap list_omap of_group fst snd way List.filter is_printed is_lost is_dropped] in *.
  - split; [constructor; [|done]; split; [done|]; intros f' [= <-]; by apply Hf|].
    split; [cbn; by rewrite I2|]. split; [done|]. split; [unfold chars_in in *; cbn; by rewrite I4|]. split; [done|].
    intros [_ Hs]%Forall_cons. by apply I6.
  - split; [constructor; [|done]; split; [done|]; intros f' [=]|].
    split; [done|]. split; [done|]. split; [unfold chars_in in *; cbn; by rewrite I4|]. split; [done|].
    intros [[? Hbad] _]%Forall_cons. discriminate Hbad.
Qed.

(** The first frame of the wire among the groups, or any. *)
Lemma split_way (hs : list (list Z * fate)) : forall fs1 f fs2, omap way hs = fs1 ++ f :: fs2 ->
  exists a cs b, hs = a ++ (cs, On_way f) :: b /\ omap way a = fs1 /\ omap way b = fs2.
Proof using Type.
  induction hs as [|[cs ft] hs IH]; intros fs1 f fs2 E; [by destruct fs1|].
  destruct ft as [| | |g].
  1-3: destruct (IH fs1 f fs2 E) as (a & cs' & b & -> & Ea & Eb); eexists (_ :: a), cs', b; by split_and!.
  destruct fs1 as [|f1 fs1]; cbn in E; injection E as -> E.
  - by exists [], cs, hs.
  - destruct (IH fs1 f fs2 E) as (a & cs' & b & -> & Ea & Eb). exists ((cs, On_way f1) :: a), cs', b.
    split_and!; [done|cbn; by rewrite Ea|done].
Qed.

Lemma filter_mid {A} (test : A -> bool) a x b : List.filter test (a ++ x :: b) =
  List.filter test a ++ (if test x then [x] else []) ++ List.filter test b.
Proof using Type. rewrite List.filter_app. cbn. by destruct (test x). Qed.

Lemma chars_in_mid a cs ft b : chars_in (a ++ (cs, ft) :: b) = chars_in a ++ cs ++ chars_in b.
Proof using Type. unfold chars_in. by rewrite map_app, concat_app. Qed.

(** Every character of the output after the moves [ms]. *)
Record explained (rmt : Z) (q out0 : list Z) (ms : list move) d mores h1 h2 q' : Prop := Explained {
  ex_node : console (node d) rmt q';
  ex_accounts : accounts rmt out0 d h1 h2;
  ex_taken : Forall2 (fun o more => takes o.2 o.1 more) (outputs ms) mores;
  ex_chars : q ++ concat mores = chars_in (h1 ++ h2) ++ q';
  ex_lost : length (List.filter is_lost (h1 ++ h2)) = losses ms;
  ex_dropped : always_room ms -> List.filter is_dropped (h1 ++ h2) = []
}.

Lemma outputs_snoc ms m : outputs (ms ++ [m]) = outputs ms ++ outputs [m].
Proof using Type. apply omap_app. Qed.
Lemma losses_snoc ms m : losses (ms ++ [m]) = (losses ms + losses [m])%nat.
Proof using Type. unfold losses. by rewrite List.filter_app, length_app. Qed.
Lemma always_room_snoc ms m : always_room (ms ++ [m]) -> always_room ms /\ always_room [m].
Proof using Type. apply list.Forall_app. Qed.

(** Moves that write nothing. *)
Lemma silent_move rmt q out0 ms m d d' mores h1 h2 h1' h2' q' : outputs [m] = [] ->
  explained rmt q out0 ms d mores h1 h2 q' -> console (node d') rmt q' -> accounts rmt out0 d' h1' h2' ->
  chars_in (h1' ++ h2') = chars_in (h1 ++ h2) ->
  length (List.filter is_lost (h1' ++ h2')) = (length (List.filter is_lost (h1 ++ h2)) + losses [m])%nat ->
  List.filter is_dropped (h1' ++ h2') = List.filter is_dropped (h1 ++ h2) ->
  explained rmt q out0 (ms ++ [m]) d' mores h1' h2' q'.
Proof using Type.
  intros Em [Hn Ha Ht Hc Hl Hd] Hn' Ha' Ec El Ed. split; [done|done|..].
  - by rewrite outputs_snoc, Em, app_nil_r.
  - by rewrite Ec.
  - by rewrite losses_snoc, El, Hl.
  - rewrite Ed. intros [Hr _]%always_room_snoc. by apply Hd.
Qed.

Lemma output_explained rmt q out0 ms mores h1 h2 q1 texts w w' fs l s :
  explained rmt q out0 ms (Dialog w fs s) mores h1 h2 q1 -> flows (out_room w) rmt w q1 texts w' ->
  sent_frames w' = sent_frames w ++ l ->
  exists mores' h2' q', explained rmt q out0 (ms ++ [Output q1 texts (room (ring_list (outq w)))])
    (Dialog w' (fs ++ l) s) mores' h1 h2' q'.
Proof using Type.
  intros [Hn [Hok Hoff Hw Hun Hout Hr] Ht Hc Hl Hd] (more & gs & q' & Htake & [Hn' Eid Ech Hgs Efr Hready]) El.
  rewrite El in Efr. apply app_inv_head in Efr. subst l. cbn [node wire client] in *.
  destruct (of_groups gs rmt Hgs) as (G1 & G2 & G3 & G4 & G5 & G6).
  exists (mores ++ [more]), (h2 ++ map of_group gs), q'. split; [done|split|..]; rewrite ?(app_assoc h1 h2).
  - apply list.Forall_app. by split.
  - done.
  - cbn. by rewrite omap_app, Hw, G2.
  - by rewrite List.filter_app, Hun, G3.
  - done.
  - done.
  - rewrite outputs_snoc. apply Forall2_app; [done|]. apply Forall2_cons_2; [exact Htake|constructor].
  - rewrite concat_app. cbn. rewrite app_nil_r, app_assoc, Hc, <- app_assoc, Ech.
    unfold chars_in in *. by rewrite (map_app _ (h1 ++ h2)), concat_app, G4, app_assoc.
  - rewrite List.filter_app, length_app, Hl, losses_snoc, G5. done.
  - rewrite List.filter_app. intros [Hrm Hb]%always_room_snoc. rewrite Hd by done.
    apply Forall_cons in Hb as [Hb _]. apply G6. by apply Hready.
Qed.

Lemma print_explained rmt q out0 ms mores h1 h2 q1 w f fs s p1 go s1 :
  explained rmt q out0 ms (Dialog w (f :: fs) s) mores h1 h2 q1 ->
  from_frame f p1 -> hears s p1 -> reader_once s = Done go s1 ->
  exists h1' h2', explained rmt q out0 (ms ++ [Print]) (Dialog w fs s1) mores h1' h2' q1.
Proof using Type.
  intros He Hf Hh Es. pose proof He as [Hn [Hok Hoff Hw Hun Hout Hr] Ht Hc Hl Hd]. cbn [node wire client] in *.
  destruct (split_way h2 [] f fs Hw) as (a & cs & b & -> & Ea & Eb).
  rewrite filter_mid in Hun. apply app_eq_nil in Hun as [Ua Ub]. cbn in Ub.
  rewrite app_assoc in Hok. apply list.Forall_app in Hok as [Hok Hok2]. apply Forall_cons in Hok2 as [[Hlen Hcar] Hok2].
  cbn [fst snd] in Hlen, Hcar. pose proof (frame_printed rmt cs f p1 s (Hcar f eq_refl) ltac:(lia) Hf Hr Hh) as Hp.
  unfold wp in Hp. rewrite Es in Hp. destruct Hp as (Hr1 & Eo & _).
  exists (h1 ++ a ++ [(cs, Printed)]), b. eapply silent_move; [done|exact He|done|split|..]; cbn [wire client].
  - apply list.Forall_app. split; [|done]. rewrite app_assoc. apply list.Forall_app. split; [done|]. by constructor.
  - rewrite !omap_app, Hoff, Ea. done.
  - done.
  - done.
  - rewrite Eo, Hout, <- app_assoc, <- map_app. f_equal. f_equal. unfold printed_chars, chars_in.
    rewrite !List.filter_app, Ua, map_app, concat_app. cbn. by rewrite app_nil_r.
  - done.
  - rewrite <- !app_assoc. cbn. by rewrite !app_assoc, !chars_in_mid.
  - rewrite <- !app_assoc. cbn [app]. rewrite !app_assoc, !filter_mid. cbn. lia.
  - rewrite <- !app_assoc. cbn [app]. by rewrite !app_assoc, !filter_mid.
Qed.

Lemma lose_explained rmt q out0 ms mores h1 h2 q1 w fs1 f fs2 s :
  explained rmt q out0 ms (Dialog w (fs1 ++ f :: fs2) s) mores h1 h2 q1 ->
  exists h2', explained rmt q out0 (ms ++ [Lose]) (Dialog w (fs1 ++ fs2) s) mores h1 h2' q1.
Proof using Type.
  intros He. pose proof He as [Hn [Hok Hoff Hw Hun Hout Hr] Ht Hc Hl Hd]. cbn [node wire client] in *.
  destruct (split_way h2 fs1 f fs2 Hw) as (a & cs & b & -> & Ea & Eb).
  exists (a ++ (cs, Lost) :: b). rewrite filter_mid in Hun.
  eapply silent_move; [done|exact He|done|split|..]; cbn [wire client].
  - rewrite !app_assoc in *. apply list.Forall_app in Hok as [Hok Hok2]. apply Forall_cons in Hok2 as [[Hlen _] Hok2].
    apply list.Forall_app. split; [done|]. constructor; [|done]. by split.
  - done.
  - by rewrite omap_app, Ea, <- Eb.
  - by rewrite filter_mid.
  - done.
  - done.
  - by rewrite !app_assoc, !chars_in_mid.
  - rewrite !app_assoc, !filter_mid. rewrite !length_app. cbn. lia.
  - by rewrite !app_assoc, !filter_mid.
Qed.

Lemma moves_explained rmt q out0 ms m d d' mores h1 h2 q1 : rx_ok ->
  explained rmt q out0 ms d mores h1 h2 q1 -> moves rmt m d d' ->
  exists mores' h1' h2' q', explained rmt q out0 (ms ++ [m]) d' mores' h1' h2' q'.
Proof using PS.
  intros HD He Hm. destruct Hm as [texts q2 w w' l fs s Ho Hq El|w f fs s p1 go s1 Hf Hh Es|w fs1 f fs2 s
    |w w' fs s Hs Eid Er Hq|w fs s s' Hr Eo].
  - pose proof (ex_node _ _ _ _ _ _ _ _ _ He) as Hn.
    rewrite (ring_rep_functional _ _ _ Hq (con_queue _ _ _ Hn)).
    destruct (output_explained _ _ _ _ _ _ _ _ texts _ w' _ l _ He) as (m' & h2' & q' & He');
      [by apply node_output_flows|done|]. by exists m', h1, h2', q'.
  - destruct (print_explained _ _ _ _ _ _ _ _ _ _ _ _ _ _ _ He Hf Hh Es) as (h1' & h2' & He').
    by exists mores, h1', h2', q1.
  - destruct (lose_explained _ _ _ _ _ _ _ _ _ _ _ _ _ He) as (h2' & He'). by exists mores, h1, h2', q1.
  - exists mores, h1, h2, q1. pose proof He as [[Hw E Hword Hf Hr] Ha _ _ _ _]. cbn in *.
    eapply silent_move; [done|exact He| |by destruct Ha|done|cbn; lia|done].
    cbn. split; [by eapply step_ok|by rewrite Er|done|by rewrite Eid|by apply Hq].
  - exists mores, h1, h2, q1. pose proof He as [Hn [A1 A2 A3 A4 A5 A6] _ _ _ _].
    eapply silent_move; [done|exact He|done| |done|cbn; lia|done]. cbn in *.
    split; try done; cbn; [by rewrite Eo|]. by rewrite <- (rd_object _ _ A6).
Qed.

Lemma run_explained rmt w q s ms d : rx_ok -> console w rmt q -> reading s (fset Ext.type CANTYPE_DAT rmt) ->
  run rmt ms (Dialog w [] s) d ->
  exists mores h1 h2 q', explained rmt q (out s) ms d mores h1 h2 q'.
Proof using PS.
  intros HD Hc Hr Hrun. remember (Dialog w [] s) as d0 eqn:E0. induction Hrun as [d|ms m d d1 d2 _ IH Hm].
  - subst d. exists [], [], [], q. split; try done; [split; try done|]; cbn; by rewrite app_nil_r.
  - destruct (IH E0) as (mores & h1 & h2 & q' & He). by eapply moves_explained.
Qed.

(** The next frame can be printed, and the answer to it lets the node go on. *)
Lemma next_printed rmt q out0 ms d mores h1 h2 q1 f fs p1 : explained rmt q out0 ms d mores h1 h2 q1 ->
  wire d = f :: fs -> from_frame f p1 -> hears (client d) p1 ->
  exists d1 a, moves rmt Print d d1 /\
    written (lib_fd (cc_lib (client d1))) = written (lib_fd (cc_lib (client d))) ++ [a] /\
    forall a1, header_arrives a a1 -> exists texts roomy d2, moves rmt (Output q1 texts roomy) d1 d2.
Proof using PS.
  intros [Hn [Hok _ Hw _ _ Hr] _ _ _ _] Ew Hf Hh. destruct d as [w wr s]. cbn in *. rewrite Ew in Hw |- *.
  destruct (split_way h2 [] f fs Hw) as (a & cs & b & -> & _ & _).
  rewrite app_assoc in Hok. apply list.Forall_app in Hok as [_ [[Hlen Hcar] _]%Forall_cons]. cbn [fst snd] in Hlen, Hcar.
  pose proof (frame_printed rmt cs f p1 s (Hcar f eq_refl) ltac:(lia) Hf Hr Hh) as Hp.
  unfold wp in Hp. destruct (reader_once s) as [go s1|] eqn:Es; [|done].
  destruct Hp as (_ & _ & ack & Eack & Hack). exists (Dialog w fs s1), ack.
  split; [by eapply Frame_printed|]. split; [done|]. intros a1 Ha.
  pose proof (ack_flows rmt w q1 a1 Hn (Hack a1 Ha)) as Ho. unfold wp in Ho.
  destruct (canobj_packet a1 w) as [h w2|] eqn:Ec; [|done]. destruct Ho as (_ & m & gs & q2 & _ & Hflow).
  eexists _, _, (Dialog w2 (fs ++ omap snd gs) s1). apply Node_output; [|apply Hn|apply Hflow].
  apply (By_ack rmt a1 h w w2); [by apply Hack|done].
Qed.

(** Without losses, what was printed is a first part of the output. *)
Lemma all_printed (hs : list (list Z * fate)) : omap way hs = [] -> List.filter is_lost hs = [] ->
  List.filter is_dropped hs = [] -> List.filter is_printed hs = hs.
Proof using Type.
  induction hs as [|[cs []] hs IH]; [done|..]; intros E1 E2 E3; cbn in *; try done. by rewrite IH.
Qed.

Lemma printed_prefix rmt q out0 ms d mores h1 h2 q1 : explained rmt q out0 ms d mores h1 h2 q1 ->
  losses ms = 0%nat -> always_room ms -> printed_chars (h1 ++ h2) `prefix_of` q ++ concat mores.
Proof using Type.
  intros [_ [_ Hoff _ Hun _ _] _ Hc Hl Hd] E0 Hroom. specialize (Hd Hroom). rewrite E0 in Hl.
  apply length_zero_iff_nil in Hl. rewrite List.filter_app in Hl, Hd.
  apply app_eq_nil in Hl as [Hl _]. apply app_eq_nil in Hd as [Hd _]. rewrite Hc.
  unfold printed_chars. rewrite List.filter_app, Hun, app_nil_r, all_printed by done.
  unfold chars_in. rewrite map_app, concat_app, <- app_assoc. by apply prefix_app_r.
Qed.

(** C19. Where the output of a connected console goes. Start with [q] in the
    output ring and nothing on the wire, and let anything happen in any order:
    printk(), tty writes, acknowledgements in time, late or for nothing, the
    acknowledgement timer, frames printed or lost, other events. Then of every
    text a first part was taken, all of it if the ring had room for it; what
    was taken left the ring in order, in groups of one to four, each in one
    packet that is never sent again, except for what still is in the ring. The
    client has printed, in order and once, exactly the groups that were neither
    lost on the wire, nor dropped because the driver's queue was full, nor are
    on their way; so without such losses it has printed a first part of the
    output. And a frame that arrives is printed and answered, and when the
    answer arrives the node goes on. *)
Theorem console_output_printed rmt w q s ms d :
  rx_ok -> console w rmt q -> reading s (fset Ext.type CANTYPE_DAT rmt) -> run rmt ms (Dialog w [] s) d ->
  exists mores hs q',
    Forall2 (fun o more => takes o.2 o.1 more) (outputs ms) mores /\
    q ++ concat mores = chars_in hs ++ q' /\ ring_rep (cancon_outbuf (node d)) q' /\
    Forall (hist_ok rmt) hs /\ omap way hs = wire d /\
    out (client d) = out s ++ map u8 (printed_chars hs) /\
    length (List.filter is_lost hs) = losses ms /\
    (always_room ms -> List.filter is_dropped hs = []) /\
    (losses ms = 0%nat -> always_room ms -> printed_chars hs `prefix_of` q ++ concat mores) /\
    forall f fs p1, wire d = f :: fs -> from_frame f p1 -> hears (client d) p1 ->
      exists d1 a, moves rmt Print d d1 /\
        written (lib_fd (cc_lib (client d1))) = written (lib_fd (cc_lib (client d))) ++ [a] /\
        forall a1, header_arrives a a1 -> exists texts roomy d2, moves rmt (Output q' texts roomy) d1 d2.
Proof using PS.
  intros HD Hc Hr Hrun. destruct (run_explained rmt w q s ms d HD Hc Hr Hrun) as (mores & h1 & h2 & q' & He).
  pose proof He as [Hn [Hok Hoff Hw Hun Hout _] Ht Hch Hl Hd]. exists mores, (h1 ++ h2), q'.
  split; [done|]. split; [done|]. split; [apply Hn|]. split; [done|].
  split; [by rewrite omap_app, Hoff|]. split.
  { rewrite Hout. unfold printed_chars. by rewrite List.filter_app, Hun, app_nil_r. }
  split; [done|]. split; [done|]. split; [by eapply printed_prefix|].
  intros f fs p1. by apply (next_printed rmt q (out s) ms d mores h1 h2 q' f fs p1).
Qed.
End run.

(** * Example

    A node with "hi" to send; a program writes "!" to its tty, and the client
    prints all three characters. *)

#[local] Existing Instance demo_prom_strings.
#[local] Existing Instance ready_chip.
#[local] Existing Instance demo_kernel.

#[local] Instance demo_line : CanFd := {|
  fd_st := list can_packet * list can_packet;
  fd_ioctl_addr := mret (Some 5);
  fd_write := fun p => modify (fun d => (d.1, d.2 ++ [p])) ;; mret PKTSIZE;
  fd_read := fun d => match d.1 with
                      | p :: l => Done (PKTSIZE, p) (l, d.2)
                      | [] => Fault Blocked
                      end
|}.
#[local] Instance demo_others : Threads demo_line := {|
  others := fun _ d => ([], d); timed_out := fun _ => true; canhosts := None
|}.
#[local, refine] Instance demo_wire : Wire demo_line demo_others := {|
  written := fun d : @fd_st demo_line => d.2;
  mine := fun _ => true;
  wire_addr := 5
|}.
Proof.
  - intros d. by exists d.
  - intros p d. by exists (d.1, d.2 ++ [p]).
  - done.
Defined.

Definition demo_word : Z := 0x00010105.
Definition demo_reader (p : can_packet) : cancon (F := demo_line) :=
  Cancon demo_line (Lib demo_line 5 1 zero_packet ([p], [])) (Mbox (replicate 16 (0, 0)) 0)
    (Charq (replicate 1024 0) 0) (fset Ext.type CANTYPE_DAT demo_word) (CanHost 0 0 3 (str "node3")) 0x105 5
    (CanObject 0x3e8 (str "RESET")) 0 zero_packet 13 13 [] [] 0 0 0.

Lemma demo_node : console ConsoleProps.demo_console demo_word [104; 105].
Proof. split; [exact demo_console_ok|reflexivity|by split; vm_compute|by vm_compute|exact demo_outbuf_rep]. Qed.

(** The state a computation ends in; [d] if it faults. *)
Definition final {S A} (m : eff S A) (d s : S) : S := match m s with Done _ s' => s' | Fault _ => d end.
Lemma done_final {S} (m : eff S unit) (Q : unit -> S -> Prop) d s : wp m Q s -> m s = Done tt (final m d s).
Proof. unfold wp, final. by destruct (m s) as [[] ?|]. Qed.

Definition demo_event : event := EvTtyPutChar 1 33.
Definition demo_sent : @world demo_prom := final (handle demo_event) ConsoleProps.demo_console ConsoleProps.demo_console.

(** Its frame as it arrives. *)
Definition arrived (f : frame) : can_packet := CanPacket 0 f.1.1 f.1.2 f.2.
Definition demo_frame : frame := nth 0 (sent_frames demo_sent) (0, 0, 0).

Lemma demo_handled : handle demo_event ConsoleProps.demo_console = Done tt demo_sent.
Proof.
  apply (done_final _ (fun _ w' => flows (out_room ConsoleProps.demo_console) demo_word ConsoleProps.demo_console [104; 105] [[33]] w')).
  by apply (event_flows demo_word _ _ demo_event [[33]] demo_node).
Qed.

Lemma demo_sent_frame : sent_frames demo_sent = [demo_frame].
Proof. vm_compute. reflexivity. Qed.

Lemma demo_arrived : from_frame demo_frame (arrived demo_frame).
Proof. split; [|done]. repeat split; vm_compute; discriminate || reflexivity. Qed.

Definition demo_client : cancon (F := demo_line) :=
  final reader_once (demo_reader (arrived demo_frame)) (demo_reader (arrived demo_frame)).

Lemma demo_printed : reader_once (demo_reader (arrived demo_frame)) = Done true demo_client.
Proof. vm_compute. reflexivity. Qed.

Definition demo_moves : list move := [Output [104; 105] [[33]] true; Print].

Lemma demo_run : run demo_word demo_moves
  (Dialog ConsoleProps.demo_console [] (demo_reader (arrived demo_frame))) (Dialog demo_sent [] demo_client).
Proof.
  apply (run_move _ [Output [104; 105] [[33]] true] Print _ (Dialog demo_sent [demo_frame] (demo_reader (arrived demo_frame)))).
  - apply (run_move _ [] _ _ _ _ (run_start _ _)).
    apply (Node_output demo_word [[33]] [104; 105] ConsoleProps.demo_console demo_sent [demo_frame] []).
    + by apply (By_event _ demo_event [[33]] _ _ I eq_refl demo_handled).
    + exact demo_outbuf_rep.
    + exact demo_sent_frame.
  - apply (Frame_printed _ _ _ _ _ _ _ _ demo_arrived) with (2 := demo_printed). by exists ([], []).
Qed.

Lemma console_output_printed_witness : exists mores hs q',
  Forall2 (fun o more => takes o.2 o.1 more) [([104; 105], [[33]])] mores /\
  [104; 105] ++ concat mores = chars_in hs ++ q' /\ [104; 105; 33] = map u8 (printed_chars hs).
Proof.
  destruct (console_output_printed demo_word ConsoleProps.demo_console [104; 105] (demo_reader (arrived demo_frame))
    demo_moves (Dialog demo_sent [] demo_client) ready_rx demo_node ltac:(split; [by right|done|reflexivity]) demo_run)
    as (mores & hs & q' & Ht & Hc & _ & _ & _ & Eo & _).
  exists mores, hs, q'. split; [exact Ht|]. split; [exact Hc|]. exact Eo.
Defined.
