(* ===== verification/ConsoleNode.v ===== *)
(** * The console of a node as its clients see it

    The objects CONSOLE_CONNECT and CONSOLE_DISCONN as one function of the
    connection word, and that the handlers of CanObj.v implement it. *)

From stdpp Require Import prelude list numbers gmap strings.
From Stdlib Require Import ZArith Lia.
From S2P Require Import Prelude CanTypes Ring Obp World Demo CanSend CanChip Console CanObj CanMain DriverInv DriverTotal ObjProps.

(** The type and the data of the answer to a request, if it is for these
    objects, and the connection afterwards. *)
Definition console_node (p : can_packet) (rmt : Z) : option (Z * Z) * Z :=
  let t := extf Ext.type p in
  let o := extf Ext.object p in
  if (o =? CANOBJ_CONSOLE_CONNECT) && (t =? CANTYPE_RO) then (Some (CANTYPE_ACK, rmt), rmt)
  else if (o =? CANOBJ_CONSOLE_CONNECT) && (t =? CANTYPE_WO) then
    if CANCON_UNCONNECTED rmt then (Some (CANTYPE_ACK, dat p), dat p)
    else (Some (CANTYPE_NAK, dat p), rmt)
  else if (o =? CANOBJ_CONSOLE_DISCONN) && (t =? CANTYPE_WO) then
    if CANCON_UNCONNECTED rmt then (Some (CANTYPE_NAK, dat p), rmt)
    else (Some (CANTYPE_ACK, dat p), disconnected rmt)
  else (None, rmt).

Section refinement.
Context {P : Prom} {PS : PromStrings P} {H : CanHw} {K : Kernel}.
Implicit Types w : world.

(** The answer [t], [d] to [pkt] was handed to send_pkt(), at a time when the
    queues and the chip were as in [w]. *)
Definition answered w (pkt : can_packet) (t d : Z) w' : Prop :=
  exists w0 w1 data,
    inq w0 = inq w /\ outq w0 = outq w /\ io w0 = io w /\
    sends w0 (reply t pkt data) w1 /\ dat (reply t pkt data) = d /\
    inq w' = inq w1 /\ outq w' = outq w1 /\ io w' = io w1.

Lemma sends_answered w w0 pkt t d data w' :
  inq w0 = inq w -> outq w0 = outq w -> io w0 = io w -> answer t ->
  sends w0 (reply t pkt data) w' -> default (dat pkt) data = d -> answered w pkt t d w'.
Proof.
  intros E1 E2 E3 Ht Hs Hd. exists w0, w', data. do 4 (split; [done|]).
  destruct (reply_fields t pkt data Ht) as (_ & _ & _ & _ & ->). done.
Qed.

(** The dispatcher on a packet for one of the two objects. *)
Definition console_handler (pkt : can_packet) : eff world Z :=
  if extf Ext.object pkt =? CANOBJ_CONSOLE_CONNECT then canobj_connect pkt
  else canobj_disconnect pkt.

Lemma console_handler_refines pkt w : drv_ok w -> pkt_ok pkt ->
  extf Ext.object pkt = CANOBJ_CONSOLE_CONNECT \/ extf Ext.object pkt = CANOBJ_CONSOLE_DISCONN ->
  wp (console_handler pkt) (fun handled w' =>
    cancon_rmt w' = (console_node pkt (cancon_rmt w)).2 /\
    match (console_node pkt (cancon_rmt w)).1 with
    | Some (t, d) => handled = 1 /\ answered w pkt t d w'
    | None => handled = 0 /\ w' = w
    end) w.
Proof.
  intros Hw Hp Ho. unfold console_handler, console_node. destruct Ho as [Ho|Ho]; rewrite Ho; cbn [andb].
  - change (CANOBJ_CONSOLE_CONNECT =? CANOBJ_CONSOLE_CONNECT) with true.
    change (CANOBJ_CONSOLE_CONNECT =? CANOBJ_CONSOLE_DISCONN) with false. cbn [andb].
    eapply wp_mono; [by apply connect_spec|]. cbv zeta. intros h w'.
    destruct (_ =? CANTYPE_RO); [|destruct (_ =? CANTYPE_WO)].
    + intros (Hh & Hs & Hr). do 2 (split; [done|]).
      apply (sends_answered w w _ _ _ (Some (cancon_rmt w))); try done. by left.
    + intros [Hh Hc]. destruct (CANCON_UNCONNECTED (cancon_rmt w)).
      * destruct Hc as (Hr & st & Hs). do 2 (split; [done|]).
        eapply (sends_answered w _ _ _ _ (Some (dat pkt))); [..|exact Hs|]; try done. by left.
      * destruct Hc as [Hs Hr]. do 2 (split; [done|]).
        apply (sends_answered w w _ _ _ None); try done. by right.
    + by intros [-> ->].
  - change (CANOBJ_CONSOLE_DISCONN =? CANOBJ_CONSOLE_CONNECT) with false.
    change (CANOBJ_CONSOLE_DISCONN =? CANOBJ_CONSOLE_DISCONN) with true. cbn [andb].
    destruct (Z.eqb_spec (extf Ext.type pkt) CANTYPE_WO) as [Et|Et].
    + eapply wp_mono; [by apply disconnect_spec|]. intros h w' [Hh Hd].
      destruct (CANCON_UNCONNECTED (cancon_rmt w)).
      * destruct Hd as [Hs Hc]. split; [by rewrite Hc|]. split; [done|].
        apply (sends_answered w w _ _ _ None); try done. by right.
      * destruct Hd as (Hr & _ & _ & _ & _ & st & rmt & w1 & Hs & _ & E1 & E2 & E3).
        do 2 (split; [done|]). eexists _, w1, None.
        split; [|split; [|split; [|split; [exact Hs|split; [|done]]]]]; try done.
    + unfold canobj_disconnect. rewrite (proj2 (Z.eqb_neq _ _) Et). done.
Qed.

(** C21. The node implements its console. A packet for CONSOLE_CONNECT or
    CONSOLE_DISCONN that canobj_packet() takes changes the connection as
    [console_node] says and hands the answer it says to send_pkt(): a read
    answers the connection; a write connects a free console, or disconnects a
    connected one, and is refused otherwise; anything else is left alone. *)
Theorem console_objects_refine pkt w : drv_ok w -> pkt_ok pkt ->
  extf Ext.object pkt = CANOBJ_CONSOLE_CONNECT \/ extf Ext.object pkt = CANOBJ_CONSOLE_DISCONN ->
  fget Ext.object (console_node pkt (cancon_rmt w)).2 <> extf Ext.object pkt ->
  wp (canobj_packet pkt) (fun handled w' =>
    cancon_rmt w' = (console_node pkt (cancon_rmt w)).2 /\
    match (console_node pkt (cancon_rmt w)).1 with
    | Some (t, d) => handled = 1 /\ answered w pkt t d w'
    | None => handled = 0 /\ w' = w
    end) w.
Proof.
  intros Hw Hp Ho Hne. pose proof (console_handler_refines pkt w Hw Hp Ho) as Hh.
  unfold canobj_packet, console_handler in *. rewrite wp_bind.
  assert (Hfin : forall h w', cancon_rmt w' = (console_node pkt (cancon_rmt w)).2 ->
    (rmt ← gets (fun w : world => cancon_rmt w);
     if negb (CANCON_UNCONNECTED rmt) && (extf Ext.object pkt =? fget Ext.object rmt)
     then canobj_consobj pkt else mret h) w' = Done h w').
  { intros h w' Er. unfold mbind, eff_bind, gets. rewrite Er.
    rewrite (proj2 (Z.eqb_neq _ _) (not_eq_sym Hne)), andb_false_r. reflexivity. }
  destruct (Z.eqb_spec (extf Ext.object pkt) CANOBJ_CONSOLE_CONNECT) as [Ec|Ec].
  - eapply wp_mono; [exact Hh|]. intros h w' [Er Hm]. unfold wp. rewrite (Hfin h w' Er).
    exact (conj Er Hm).
  - destruct Ho as [Ho|Ho]; [contradiction|]. rewrite (proj2 (Z.eqb_eq _ _) Ho).
    eapply wp_mono; [exact Hh|]. intros h w' [Er Hm]. unfold wp. rewrite (Hfin h w' Er).
    exact (conj Er Hm).
Qed.
End refinement.

(** * Example: a free console is connected, and then read. *)
Lemma console_objects_refine_witness :
  wp (canobj_packet (P := demo_prom) (H := ready_chip) (K := demo_kernel)
        (demo_request CANTYPE_WO CANOBJ_CONSOLE_CONNECT 0x00010105))
    (fun handled w' => handled = 1 /\ cancon_rmt w' = 0x00010105) demo_world.
Proof.
  eapply wp_mono.
  - apply (console_objects_refine (H := ready_chip) (K := demo_kernel)
             (demo_request CANTYPE_WO CANOBJ_CONSOLE_CONNECT 0x00010105) demo_world).
    + exact demo_ok.
    + apply demo_request_ok. lia.
    + left. vm_compute. reflexivity.
    + vm_compute. discriminate.
  - intros h w' [Hr Hm]. split; [exact (proj1 Hm)|]. rewrite Hr. vm_compute. reflexivity.
Defined.
