(* ===== verification/CanconConnect.v ===== *)
(** * The connection protocol against the node's console objects

    What connect_protocol() and heist_connection() do to the node they talk
    to. The node is the abstract console of [console_node]; the objects of
    can_obj.c implement it (ConsoleNode.v). Packets and acknowledgements are
    not lost; another cancon may hold the connection, may answer
    FORCE_DISCONN, and may give the connection up at any turn. *)

From stdpp Require Import prelude list numbers strings.
From Stdlib Require Import ZArith Lia.
From S2P Require Import Prelude CanTypes Obp CanLib Cancon CanconProps ConsoleNode.

(** The other client: the connection word it wrote, whether it answers
    FORCE_DISCONN, and in which turns its CONSOLE_DISCONN takes effect, if it
    has the connection then; and the file with the names of the hosts. *)
Class OtherClient := {
  old : Z; force_ack : bool; leaves : nat -> bool; hosts_file : option (list Z)
}.

(** The connection word of the node, the acknowledgements on their way, and
    the packets sent to the node. *)
Record net := Net { n_rmt : Z; n_answers : list other; n_written : list can_packet }.

Section network.
Context {O : OtherClient}.

(** The answer to a packet, if any, and the new connection. *)
Definition answer_to (p : can_packet) (rmt : Z) : list other * Z :=
  let reply a := match a with
                 | Some (t, d) => [SignalAcknak (fset Ext.type t (ext p)) d]
                 | None => []
                 end in
  if extf Ext.object p =? CANOBJ_FORCE_DISCONN
  then (reply (if force_ack then Some (CANTYPE_ACK, dat p) else None), rmt)
  else let '(a, rmt') := console_node p rmt in (reply a, rmt').

Definition net_write (p : can_packet) (n : net) : net :=
  let '(a, rmt) := answer_to p (n_rmt n) in Net rmt (n_answers n ++ a) (n_written n ++ [p]).

#[export] Instance net_fd : CanFd := {|
  fd_st := net;
  fd_ioctl_addr := mret (Some 5);
  fd_write := fun p => modify (net_write p) ;; mret PKTSIZE;
  fd_read := fail Blocked
|}.

(** The connection after turn [k]. *)
Definition turn (k : nat) (rmt : Z) : Z :=
  if leaves k && (rmt =? old) then disconnected rmt else rmt.

(** In a turn the acknowledgements arrive, and the other client may leave. *)
#[export] Instance net_threads : Threads net_fd := {|
  others := fun k d =>
    (n_answers d, Net (turn k (n_rmt d)) [] (n_written d));
  timed_out := fun _ => true;
  canhosts := hosts_file
|}.

#[export, refine] Instance net_wire : Wire net_fd net_threads := {|
  written := fun d : @fd_st net_fd => n_written d;
  mine := fun _ => true;
  wire_addr := 5
|}.
Proof.
  - intros d. by exists d.
  - intros p d. exists (net_write p d). split; [done|]. unfold net_write. by destruct (answer_to _ _).
  - done.
Defined.

Implicit Types s : cancon (F := net_fd).

Definition conn s : Z := n_rmt (lib_fd (cc_lib s)).
Definition coming s : list other := n_answers (lib_fd (cc_lib s)).

(** Nothing is on its way to this client. *)
Record idle s : Prop := Idle {
  i_mbox : mbox_ok (acks s);
  i_empty : entries (acks s) = [];
  i_lib : lib_ok (cc_lib s);
  i_coming : coming s = []
}.

Definition ack_entry (o : other) : list (Z * Z) :=
  match o with SignalAcknak e d => [(e, d)] | OtherWaiter => [] end.

Lemma turn_spec s : mbox_ok (acks s) -> entries (acks s) = [] -> (length (coming s) <= 1)%nat ->
  wp take_acknak_mutex (fun b s' => b = true /\ sends [] s s' /\ syncs s' = S (syncs s) /\
    conn s' = turn (syncs s) (conn s) /\ coming s' = [] /\
    entries (acks s') = concat (map ack_entry (coming s))) s.
Proof.
  intros Hm He Hl. unfold take_acknak_mutex. rewrite wp_bind, wp_gets, wp_bind.
  unfold on_lib, on_fd. rewrite !wp_zoom, wp_run, wp_bind. unfold on_acks. rewrite wp_zoom.
  cbn [others net_threads fst snd]. change (n_answers (lib_fd (cc_lib s))) with (coming s).
  assert (Hacks : wp (for_each (coming s) other_step) (fun _ m' => mbox_ok m' /\
    entries m' = concat (map ack_entry (coming s))) (acks s)).
  { destruct (coming s) as [|[e d|] [|? ?]]; cbn in Hl; try lia; cbn [for_each].
    - by rewrite wp_skip.
    - rewrite wp_bind. eapply wp_mono; [by apply signal_acknak_spec|].
      intros _ m' [Hm' E]. rewrite wp_skip. split; [done|]. rewrite E, He.
      apply (entries_empty _ Hm) in He. by rewrite He.
    - rewrite wp_bind. cbn [other_step]. rewrite wp_modify, wp_skip. destruct Hm.
      split; [split; [done|cbn; unfold ACKBUFLEN; lia]|done]. }
  eapply wp_mono; [exact Hacks|]. intros _ m' [Hm' He']. rewrite wp_bind, wp_modify, wp_ret.
  split; [done|]. split; [|done].
  eexists _, m', (S (syncs s)), []. split; [reflexivity|]. split; [by rewrite app_nil_r|]. done.
Qed.
(** *** One transaction *)


Lemma IS_OUR_reply t target : IS_OUR_ACKNAK (fset Ext.type t target) target = true.
Proof. unfold IS_OUR_ACKNAK. fld. by rewrite !Z.eqb_refl. Qed.

(** From [s] to [s'] this client made transactions that left the connection
    [r]. *)
Definition after s s' (r : Z) : Prop :=
  idle s' /\ (exists ps, sends ps s s') /\ conn s' = r /\ (syncs s < syncs s')%nat.

Lemma load_fields w t obj ch : 0 <= t < 8 -> 0 <= obj < 1024 ->
  fget Ext.type (load_ext_ch w t obj ch) = t /\ fget Ext.object (load_ext_ch w t obj ch) = obj.
Proof.
  intros. unfold load_ext_ch. fld. cbn [f_wid Ext.type Ext.object].
  split; apply Z.mod_small; cbn; lia.
Qed.

Lemma request_ext target dat len lb : ext (request_of target dat len lb) = target.
Proof. unfold request_of. destruct dat as [d|]; [destruct (0 <? len)|]; done. Qed.
Lemma request_dat target d lb : dat (request_of target (Some d) 4 lb) = d.
Proof. done. Qed.

(** *** The other client *)

Context (old_connected : CANCON_UNCONNECTED old = false).

(** The other client has the connection, or has left. *)
Definition held_or_left (r : Z) : Prop :=
  r = old \/ CANCON_UNCONNECTED r = true /\ exists k, leaves k = true.

Lemma unconnected_disconnected r : CANCON_UNCONNECTED (disconnected r) = true.
Proof. unfold CANCON_UNCONNECTED, disconnected. fld. done. Qed.

Lemma turn_other k r : r <> old -> turn k r = r.
Proof. intros Hr. unfold turn. by rewrite (proj2 (Z.eqb_neq _ _) Hr), andb_false_r. Qed.
Lemma turn_free k r : CANCON_UNCONNECTED r = true -> turn k r = r.
Proof using old_connected. intros Hr. apply turn_other. intros ->. congruence. Qed.
Lemma turn_held k r : held_or_left r -> held_or_left (turn k r).
Proof using old_connected.
  intros [->|[Hr Hl]]; [|right; by rewrite turn_free]. unfold turn. rewrite Z.eqb_refl, andb_true_r.
  destruct (leaves k) eqn:El; [right|by left]. split; [apply unconnected_disconnected|by exists k].
Qed.

Context (wait_fuel : nat) (Hfuel : (3 <= wait_fuel)%nat).

(** The wait for an answer that is on its way, or for none. *)
Lemma wait_net target s : mbox_ok (acks s) -> entries (acks s) = [] -> lib_ok (cc_lib s) ->
  match coming s with
  | [] => wp (waitfor_acknak wait_fuel target) (fun r s' => r = (TIMEDOUT, None) /\
      idle s' /\ sends [] s s' /\ (syncs s < syncs s')%nat /\
      conn s' = turn (S (syncs s)) (turn (syncs s) (conn s))) s
  | [SignalAcknak e d] => IS_OUR_ACKNAK e target = true ->
      wp (waitfor_acknak wait_fuel target) (fun r s' => r = (IS_ACKNAK (fget Ext.type e), Some d) /\
      idle s' /\ sends [] s s' /\ (syncs s < syncs s')%nat /\
      conn s' = turn (syncs s) (conn s)) s
  | _ => True
  end.
Proof using Hfuel.
  intros Hm He Hl. destruct wait_fuel as [|[|f]]; [lia|lia|].
  pose proof (turn_spec s Hm He) as Hturn. destruct (coming s) as [|[e d|] [|? ?]] eqn:Ec; try done.
  - unfold waitfor_acknak. rewrite wp_bind. eapply wp_mono; [apply Hturn; cbn; lia|].
    intros b s1 (_ & Hs1 & Ek1 & Er1 & Ec1 & He1). cbn in He1.
    assert (Hm1 : mbox_ok (acks s1)) by by eapply sends_acks.
    eapply wp_eq; [apply waitfor_loop_unfold|]. rewrite wp_bind, wp_bind, wp_gets.
    rewrite (proj2 (Z.eqb_eq _ 0)) by by apply entries_empty.
    eapply wp_mono; [apply turn_spec; [done|done|rewrite Ec1; cbn; lia]|].
    intros b2 s2 (-> & Hs2 & Ek2 & Er2 & Ec2 & He2). rewrite Ec1 in He2. cbn in He2. rewrite wp_bind.
    apply (scan_round target true); [by eapply sends_acks|]. intros r s3 Hs3 Ek3 He3 Hm3 El3 Hr.
    assert (Hrr : r = (TIMEDOUT, None)).
    { destruct Hr as [->|[->|(a & Ha & _)]]; [done|done|]. rewrite He2 in Ha. by apply elem_of_nil in Ha. }
    subst r. rewrite decide_False by done. rewrite wp_ret. split; [done|].
    assert (Hs : sends [] s s3).
    { apply (sends_trans [] [] _ s1); [done|]. by apply (sends_trans [] [] _ s2). }
    unfold conn, coming in *. rewrite <- El3 in Ec2, Er2.
    split; [split; [done|done|by eapply lib_ok_sends|done]|]. split; [done|].
    split; [lia|]. by rewrite Er2, Er1, Ek1.
  - intros Hour. unfold waitfor_acknak. rewrite wp_bind. eapply wp_mono; [apply Hturn; cbn; lia|].
    intros b s1 (_ & Hs1 & Ek1 & Er1 & Ec1 & He1). cbn in He1.
    assert (Hm1 : mbox_ok (acks s1)) by by eapply sends_acks.
    eapply wp_eq; [apply waitfor_loop_unfold|]. rewrite wp_bind, wp_bind, wp_gets.
    rewrite (proj2 (Z.eqb_neq _ 0)).
    2: { rewrite <- (entries_length _ Hm1), He1. done. }
    rewrite wp_ret, wp_bind. unfold on_acks. rewrite wp_bind, wp_zoom. apply scan_acks_spec; [done|].
    rewrite wp_bind, wp_zoom, wp_modify, wp_ret. rewrite He1. cbn [match_of fold_left].
    unfold match_of. cbn [fold_left]. unfold scan_one. cbn [fst snd]. rewrite Hour.
    rewrite decide_False by (cbn; apply IS_ACKNAK_not_none). rewrite wp_ret. split; [done|].
    assert (Hm0 : mbox_ok (set_ackbuflen 0 (acks s1))).
    { destruct Hm1. split; cbn; [done|unfold ACKBUFLEN; lia]. }
    split; [split; [done|done|exact (lib_ok_sends _ _ _ Hs1 Hl)|exact Ec1]|]. split; [|split; [cbn; lia|done]].
    apply (sends_trans [] [] _ s1); [done|].
    exists (cc_lib s1), (set_ackbuflen 0 (acks s1)), (syncs s1), []. rewrite app_nil_r.
    by destruct s1.
Qed.

Lemma send_net target dat len s : idle s ->
  wp (on_lib (can_send target dat len)) (fun _ s' =>
    (exists ps, sends ps s s') /\ mbox_ok (acks s') /\ entries (acks s') = [] /\
    lib_ok (cc_lib s') /\ syncs s' = syncs s /\
    (coming s', conn s') = answer_to (request_of target dat len (cc_lib s)) (conn s)) s.
Proof using Type.
  intros [Hm He Hl Hc]. unfold on_lib. rewrite wp_zoom.
  destruct (can_send_spec target dat len (cc_lib s) Hl) as (lb & E & Hlb & Es & Ew & d0 & Hd0 & Ewr).
  assert (E0 : d0 = lib_fd (cc_lib s)).
  { destruct Hd0 as [->|[a [= _ <-]]]; done. }
  subst d0. unfold wp. rewrite E.
  assert (En : lib_fd lb = net_write (request_of target dat len (cc_lib s)) (lib_fd (cc_lib s))).
  { injection Ewr as <-. done. }
  split; [|do 4 (split; [done|])].
  - exists [request_of target dat len (cc_lib s)], lb, (acks s), (syncs s), [].
    split; [by destruct s|]. split; [unfold sent; rewrite Ew, List.filter_app; done|]. done.
  - unfold coming, conn in *. cbn [cc_lib set_cc_lib]. rewrite En. unfold net_write.
    destruct (answer_to _ _) as [a r]. cbn. by rewrite Hc.
Qed.

Lemma try_net target dat len s : idle s ->
  match answer_to (request_of target dat len (cc_lib s)) (conn s) with
  | ([], r1) => wp (on_lib (can_send target dat len) ;; waitfor_acknak wait_fuel target) (fun r s' =>
      r = (TIMEDOUT, None) /\ after s s' (turn (S (syncs s)) (turn (syncs s) r1))) s
  | ([SignalAcknak e d], r1) => IS_OUR_ACKNAK e target = true ->
      wp (on_lib (can_send target dat len) ;; waitfor_acknak wait_fuel target) (fun r s' =>
      r = (IS_ACKNAK (fget Ext.type e), Some d) /\ after s s' (turn (syncs s) r1)) s
  | _ => True
  end.
Proof using Hfuel.
  intros Hi. pose proof (send_net target dat len s Hi) as Hs.
  destruct (answer_to _ _) as [a r1].
  assert (Hend : forall s1 s2, (exists ps, sends ps s s1) -> syncs s1 = syncs s ->
    sends [] s1 s2 -> idle s2 -> (syncs s1 < syncs s2)%nat -> after s s2 (conn s2)).
  { intros s1 s2 [ps H1] Ek H2 Hi2 Hk. split; [done|]. split; [|split; [done|lia]].
    eexists. by eapply sends_trans. }
  destruct a as [|[e d|] [|? ?]]; try done; [|intros Hour];
    rewrite wp_bind; (eapply wp_mono; [exact Hs|]);
    intros _ s1 (H1 & Hm1 & He1 & Hl1 & Ek1 & [= Ec1 Er1]);
    pose proof (wait_net target s1 Hm1 He1 Hl1) as Hw; rewrite Ec1 in Hw.
  - eapply wp_mono; [exact Hw|]. intros r s2 (-> & Hi2 & Hs2 & Hk2 & Er2). split; [done|].
    rewrite Ek1, Er1 in Er2. rewrite <- Er2. by apply (Hend s1).
  - eapply wp_mono; [exact (Hw Hour)|]. intros r s2 (-> & Hi2 & Hs2 & Hk2 & Er2). split; [done|].
    rewrite Ek1, Er1 in Er2. rewrite <- Er2. by apply (Hend s1).
Qed.

Lemma after_eprintf fmt args s s1 r (Q : unit -> cancon -> Prop) :
  after s s1 r -> fmt <> drop_msg -> (forall s2, after s s2 r -> Q tt s2) ->
  wp (eprintf fmt args) Q s1.
Proof using Type.
  intros (Hi & [ps Hs] & Er & Hk) Hf HQ.
  pose proof (sends_eprintf fmt args s1 (i_mbox _ Hi) Hf) as He. unfold eprintf in *.
  rewrite wp_modify in *. apply HQ. destruct Hi as [Hm Hem Hl Hc].
  split; [by split|]. split; [|done]. eexists. by eapply sends_trans.
Qed.

Lemma after_when b fmt args s s1 r (Q : unit -> cancon -> Prop) :
  after s s1 r -> fmt <> drop_msg -> (forall s2, after s s2 r -> Q tt s2) ->
  wp (when b (eprintf fmt args)) Q s1.
Proof using Type.
  intros Ha Hf HQ. apply wp_when. split; intros _; [by eapply after_eprintf|by apply HQ].
Qed.

(** An acknowledged request is sent once. *)
Lemma mysend_acked target dat len max s d r1 : idle s -> 0 <= max ->
  answer_to (request_of target dat len (cc_lib s)) (conn s) =
    ([SignalAcknak (fset Ext.type CANTYPE_ACK target) d], r1) ->
  wp (mysend wait_fuel target dat len max) (fun r s' =>
    r = (ACK, Some d) /\ after s s' (turn (syncs s) r1)) s.
Proof using Hfuel.
  intros Hi Hmax Ea. pose proof (try_net target dat len s Hi) as Ht. rewrite Ea in Ht.
  specialize (Ht (IS_OUR_reply _ _)). rewrite wp_bind in Ht.
  unfold mysend. rewrite wp_bind. cbn [mysend_loop]. rewrite wp_bind.
  eapply wp_mono; [exact Ht|]. cbn beta. intros _ s0 H0. rewrite wp_bind.
  eapply wp_mono; [exact H0|]. cbn beta. intros r s1 [-> Ha].
  assert (E : fget Ext.type (fset Ext.type CANTYPE_ACK target) = CANTYPE_ACK) by (by fld).
  rewrite E. change (IS_ACKNAK CANTYPE_ACK) with ACK. cbv zeta.
  change (bool_decide (ACK = TIMEDOUT)) with false. cbn [andb when]. rewrite wp_bind, wp_skip.
  change (bool_decide (ACK = ACK)) with true. cbn [negb andb]. rewrite wp_ret, wp_bind.
  cbn [when]. rewrite wp_skip. by rewrite wp_ret.
Qed.

(** A request nobody answers, sent without retries. *)
Lemma mysend_unanswered target dat len s r1 : idle s ->
  answer_to (request_of target dat len (cc_lib s)) (conn s) = ([], r1) ->
  wp (mysend wait_fuel target dat len 0) (fun r s' =>
    r = (TIMEDOUT, None) /\ after s s' (turn (S (syncs s)) (turn (syncs s) r1))) s.
Proof using Hfuel.
  intros Hi Ea. pose proof (try_net target dat len s Hi) as Ht. rewrite Ea in Ht.
  rewrite wp_bind in Ht.
  unfold mysend. rewrite wp_bind. cbn [mysend_loop Z.to_nat]. rewrite wp_bind.
  eapply wp_mono; [exact Ht|]. cbn beta. intros _ s0 H0. rewrite wp_bind.
  eapply wp_mono; [exact H0|]. cbn beta. intros r s1 [-> Ha]. cbv zeta.
  change (0 <? 0) with false. rewrite andb_false_r. cbn [when]. rewrite wp_bind, wp_skip.
  rewrite wp_ret, wp_bind, andb_false_r.
  cbn [when]. rewrite wp_skip. by rewrite wp_ret.
Qed.

(** *** The requests of the protocol *)

Lemma after_trans s s1 s2 r1 r2 : after s s1 r1 -> after s1 s2 r2 -> after s s2 r2.
Proof using Type.
  intros (_ & [ps H1] & _ & K1) (Hi & [ps2 H2] & E & K2). split; [done|].
  split; [eexists; by eapply sends_trans|]. split; [done|]. by eapply Nat.lt_trans.
Qed.

(** A read of CONSOLE_CONNECT gets the connection. *)
Lemma connect_read cons s : idle s ->
  wp (send_connect wait_fuel CANTYPE_RO cons) (fun r s' =>
    r = (ACK, Some (conn s)) /\ after s s' (turn (syncs s) (conn s))) s.
Proof using Hfuel.
  intros Hi. unfold send_connect. rewrite wp_bind, wp_gets, wp_bind, wp_gets, wp_bind.
  change (CANTYPE_RO =? CANTYPE_RO) with true. cbv iota.
  set (target := load_ext_ch _ _ _ _). destruct (load_fields (stack_word s) CANTYPE_RO
    CANOBJ_CONSOLE_CONNECT (target_ch s) ltac:(done) ltac:(done)) as [Et Eo].
  eapply wp_mono; [apply (mysend_acked _ _ _ _ _ (conn s) (conn s)); [done|done|]|].
  { unfold answer_to, console_node, extf. rewrite !request_ext. fold target in Et, Eo.
    by rewrite Et, Eo. }
  intros r s1 [-> Ha]. rewrite wp_bind. apply (after_when _ _ _ s s1 _ _ Ha); [done|].
  intros s2 Ha2. by rewrite wp_ret.
Qed.

(** A write of CONSOLE_CONNECT to a free console connects it. *)
Lemma connect_write cons s : idle s -> CANCON_UNCONNECTED (conn s) = true ->
  wp (send_connect wait_fuel CANTYPE_WO cons) (fun r s' =>
    r = (ACK, None) /\ after s s' (turn (syncs s) cons)) s.
Proof using Hfuel.
  intros Hi Hun. unfold send_connect. rewrite wp_bind, wp_gets, wp_bind, wp_gets, wp_bind.
  change (CANTYPE_WO =? CANTYPE_RO) with false. cbv iota. rewrite wp_bind.
  set (target := load_ext_ch _ _ _ _). destruct (load_fields (stack_word s) CANTYPE_WO
    CANOBJ_CONSOLE_CONNECT (target_ch s) ltac:(done) ltac:(done)) as [Et Eo].
  eapply wp_mono; [apply (mysend_acked _ _ _ _ _ cons cons); [done|done|]|].
  { unfold answer_to, console_node, extf. rewrite !request_ext. fold target in Et, Eo.
    by rewrite Et, Eo, Hun, request_dat. }
  intros r s1 [-> Ha]. rewrite wp_ret, wp_bind. apply (after_when _ _ _ s s1 _ _ Ha); [done|].
  intros s2 Ha2. by rewrite wp_ret.
Qed.

(** A write of CONSOLE_DISCONN disconnects a connected console. *)
Lemma disconnect_acked cons s : idle s -> CANCON_UNCONNECTED (conn s) = false ->
  wp (send_disconnect wait_fuel cons) (fun r s' =>
    r = ACK /\ after s s' (turn (syncs s) (disconnected (conn s)))) s.
Proof using Hfuel.
  intros Hi Hun. unfold send_disconnect. rewrite wp_bind, wp_gets, wp_bind, wp_gets, wp_bind.
  set (target := load_ext_ch _ _ _ _). destruct (load_fields (stack_word s) CANTYPE_WO
    CANOBJ_CONSOLE_DISCONN (target_ch s) ltac:(done) ltac:(done)) as [Et Eo].
  eapply wp_mono; [apply (mysend_acked _ _ _ _ _ cons (disconnected (conn s))); [done|done|]|].
  { unfold answer_to, console_node, extf. rewrite !request_ext. fold target in Et, Eo.
    by rewrite Et, Eo, Hun, request_dat. }
  intros r s1 [-> Ha]. rewrite wp_bind. apply (after_when _ _ _ s s1 _ _ Ha); [done|].
  intros s2 Ha2. by rewrite wp_ret.
Qed.

(** FORCE_DISCONN to the other client leaves the connection to it. *)
Lemma force_disconnect cons s : idle s ->
  wp (send_force_disconnect_nb wait_fuel cons) (fun r s' =>
    r = (if force_ack then ACK else TIMEDOUT) /\
    exists r', after s s' r' /\
      (r' = turn (syncs s) (conn s) \/ r' = turn (S (syncs s)) (turn (syncs s) (conn s)))) s.
Proof using Hfuel.
  intros Hi. unfold send_force_disconnect_nb. cbv zeta. set (target := fset Ext.object _ _).
  assert (Eo : fget Ext.object target = CANOBJ_FORCE_DISCONN) by (unfold target; by fld).
  rewrite wp_bind. destruct force_ack eqn:Ef.
  - eapply wp_mono; [apply (mysend_acked _ _ _ _ _ cons (conn s)); [done|done|]|].
    { unfold answer_to, extf. rewrite !request_ext, Eo, Ef. by rewrite request_dat. }
    intros r s1 [-> Ha]. rewrite wp_bind. apply (after_when _ _ _ s s1 _ _ Ha); [done|].
    intros s2 Ha2. rewrite wp_ret. split; [done|]. eexists. split; [exact Ha2|by left].
  - eapply wp_mono; [apply (mysend_unanswered _ _ _ _ (conn s)); [done|]|].
    { unfold answer_to, extf. rewrite !request_ext, Eo, Ef. done. }
    intros r s1 [-> Ha]. rewrite wp_bind. apply (after_when _ _ _ s s1 _ _ Ha); [done|].
    intros s2 Ha2. rewrite wp_ret. split; [done|]. eexists. split; [exact Ha2|by right].
Qed.

(** A request the node refuses is sent until the tries are used up. *)
Lemma mysend_loop_refused target dat len max d rmt lb : 
  answer_to (request_of target dat len lb) rmt = ([SignalAcknak (fset Ext.type CANTYPE_NAK target) d], rmt) ->
  (forall k, turn k rmt = rmt) ->
  forall fuel ack try s, idle s -> conn s = rmt -> lib_stack (cc_lib s) = lib_stack lb ->
  (Z.to_nat (max - try - 1) < fuel)%nat ->
  wp (mysend_loop wait_fuel fuel target dat len ack try max) (fun r s' =>
    r.1.1 = NAK /\ after s s' rmt) s.
Proof using Hfuel.
  intros Ea Hturn. induction fuel as [|fuel IH]; intros ack try s Hi Ec Es Hf; [lia|].
  pose proof (try_net target dat len s Hi) as Ht.
  rewrite (request_of_stack _ _ _ lb (cc_lib s) Es), Ec, Ea in Ht.
  specialize (Ht (IS_OUR_reply _ _)). rewrite wp_bind in Ht. cbn [mysend_loop]. rewrite wp_bind.
  eapply wp_mono; [exact Ht|]. cbn beta. intros _ s0 H0. rewrite wp_bind.
  eapply wp_mono; [exact H0|]. cbn beta. intros r s1 [-> Ha]. rewrite Hturn in Ha.
  assert (E : fget Ext.type (fset Ext.type CANTYPE_NAK target) = CANTYPE_NAK) by (by fld).
  rewrite E. change (IS_ACKNAK CANTYPE_NAK) with NAK. cbv zeta.
  change (bool_decide (NAK = TIMEDOUT)) with false. cbn [andb when]. rewrite wp_bind, wp_skip.
  change (bool_decide (NAK = ACK)) with false. cbn [negb andb].
  destruct (Z.ltb_spec (try + 1) max) as [Hlt|Hge]; [|by rewrite wp_ret].
  destruct Ha as (Hi1 & [ps Hs1] & Ec1 & Hk1).
  eapply wp_mono; [apply IH; [done|done|by rewrite (stack_sends _ _ _ Hs1)|lia]|].
  intros r s2 [Er Ha2]. split; [done|]. apply (after_trans s s1 s2 rmt rmt); [|done].
  split; [done|]. split; [by exists ps|done].
Qed.

Lemma disconnect_refused cons s : idle s -> CANCON_UNCONNECTED (conn s) = true ->
  (forall k, turn k (conn s) = conn s) ->
  wp (send_disconnect wait_fuel cons) (fun r s' => r <> ACK /\ after s s' (conn s)) s.
Proof using Hfuel.
  intros Hi Hun Hturn. unfold send_disconnect. rewrite wp_bind, wp_gets, wp_bind, wp_gets, wp_bind.
  set (target := load_ext_ch _ _ _ _). destruct (load_fields (stack_word s) CANTYPE_WO
    CANOBJ_CONSOLE_DISCONN (target_ch s) ltac:(done) ltac:(done)) as [Et Eo].
  unfold send, mysend. rewrite wp_bind.
  eapply wp_mono; [apply (mysend_loop_refused _ _ _ _ cons (conn s) (cc_lib s));
    [|done..|unfold MAX_RETRIES; lia]|].
  { unfold answer_to, console_node, extf. rewrite !request_ext. fold target in Et, Eo.
    by rewrite Et, Eo, Hun, request_dat. }
  intros [[r a] try] s1 [Er Ha]. cbn [fst] in Er. subst r. rewrite wp_bind.
  apply (after_when _ _ _ s s1 _ _ Ha); [done|]. intros s2 Ha2. rewrite wp_ret, wp_bind.
  apply (after_when _ _ _ s s2 _ _ Ha2); [done|]. intros s3 Ha3. by rewrite wp_ret.
Qed.

(** *** Stealing and connecting *)

Lemma heist_poll_spec : forall fuel oldcon try s, idle s -> held_or_left (conn s) ->
  try + Z.of_nat fuel = 5 -> (0 < fuel)%nat ->
  wp (heist_poll wait_fuel fuel oldcon try) (fun o s' => exists c t r,
    o = Some (c, t) /\ after s s' r /\ held_or_left r /\
    (t <> 5 -> CANCON_UNCONNECTED r = true)) s.
Proof using Hfuel old_connected.
  induction fuel as [|fuel IH]; intros oldcon try s Hi Hc Ht Hf; [lia|]. cbn [heist_poll].
  rewrite wp_bind. eapply wp_mono; [by apply connect_read|]. intros r s1 [-> Ha].
  change (bool_decide (ACK = ACK)) with true. cbn [negb stored]. cbv zeta.
  pose proof (turn_held (syncs s) _ Hc) as Hc1.
  destruct (CANCON_UNCONNECTED (conn s)) eqn:Hun; cbn [negb andb].
  - rewrite wp_ret. exists (conn s), (try + 1), (turn (syncs s) (conn s)).
    do 3 (split; [done|]). intros _. by rewrite turn_free.
  - destruct (Z.ltb_spec (try + 1) 5) as [Hlt|Hge].
    + pose proof Ha as (Hi1 & _ & Er1 & _).
      eapply wp_mono; [apply IH; [done|by rewrite Er1|lia|lia]|].
      intros o s2 (c & t & r & -> & Ha2 & Hr & Hun2). exists c, t, r.
      split; [done|]. split; [by eapply after_trans|done].
    + rewrite wp_ret. exists (conn s), (try + 1), (turn (syncs s) (conn s)).
      do 3 (split; [done|]). lia.
Qed.

(** The poll of a free console. *)
Lemma heist_poll_free oldcon s : idle s -> CANCON_UNCONNECTED (conn s) = true ->
  wp (heist_poll wait_fuel 5 oldcon 0) (fun o s' => exists c,
    o = Some (c, 1) /\ after s s' (conn s)) s.
Proof using Hfuel old_connected.
  intros Hi Hun. cbn [heist_poll]. rewrite wp_bind. eapply wp_mono; [by apply connect_read|].
  intros r s1 [-> Ha]. change (bool_decide (ACK = ACK)) with true. cbn [negb stored]. cbv zeta.
  rewrite Hun, turn_free in * by done. cbn [negb andb]. rewrite wp_ret. by eexists.
Qed.

(** A disconnect of the other client by this one works unless it has left. *)
Lemma disconnect_other cons s : idle s -> held_or_left (conn s) ->
  wp (send_disconnect wait_fuel cons) (fun r s' => exists r',
    after s s' r' /\ CANCON_UNCONNECTED r' = true /\
    (r = ACK \/ r <> ACK /\ exists k, leaves k = true)) s.
Proof using Hfuel old_connected.
  intros Hi [Ho|[Hun Hl]].
  - eapply wp_mono; [apply disconnect_acked; [done|by rewrite Ho]|]. intros r s1 [-> Ha].
    pose proof (unconnected_disconnected (conn s)) as Hd. rewrite turn_free in Ha by done.
    eexists. split; [exact Ha|]. split; [done|by left].
  - eapply wp_mono; [apply disconnect_refused; [done|done|]|].
    { intros k. by apply turn_free. }
    intros r s1 [Hr Ha]. eexists. split; [exact Ha|]. split; [done|by right].
Qed.

Lemma heist_spec oldcon s : idle s -> held_or_left (conn s) ->
  wp (heist_connection wait_fuel oldcon) (fun v s' => exists r,
    after s s' r /\ CANCON_UNCONNECTED r = true /\
    (v = 0 \/ v = -1 /\ exists k, leaves k = true)) s.
Proof using Hfuel old_connected.
  intros Hi Hc. unfold heist_connection. rewrite wp_bind.
  eapply wp_mono; [by apply force_disconnect|]. intros r s1 (-> & r1 & Ha1 & Hr1).
  pose proof Ha1 as (Hi1 & _ & Er1 & _).
  assert (Hh : held_or_left (conn s1)).
  { rewrite Er1. destruct Hr1 as [->| ->]; by repeat apply turn_held. }
  rewrite wp_bind. destruct force_ack.
  - change (bool_decide (ACK = ACK)) with true. cbn [negb]. rewrite wp_ret. cbn [negb]. rewrite wp_bind.
    eapply wp_mono; [apply heist_poll_spec; [done|done|lia|lia]|].
    intros o s2 (c & t & r & -> & Ha2 & Hr & Hun). destruct (Z.eqb_spec t 5) as [Et|Et].
    + rewrite wp_bind. pose proof Ha2 as (Hi2 & _ & Er2 & _).
      eapply wp_mono; [apply disconnect_other; [done|by rewrite Er2]|].
      intros v s3 (r3 & Ha3 & Hun3 & Hv). rewrite wp_ret. exists r3.
      split; [exact (after_trans _ _ _ _ _ Ha1 (after_trans _ _ _ _ _ Ha2 Ha3))|]. split; [done|].
      destruct Hv as [->|[Hv Hl]]; [by left|right]. by rewrite bool_decide_false.
    + rewrite wp_ret. exists r. split; [by eapply after_trans|]. split; [by apply Hun|by left].
  - change (bool_decide (TIMEDOUT = ACK)) with false. cbn [negb]. rewrite wp_bind.
    eapply wp_mono; [by apply disconnect_other|]. intros v s2 (r2 & Ha2 & Hun2 & Hv). rewrite wp_ret.
    destruct Hv as [->|[Hv Hl]].
    + change (bool_decide (ACK = ACK)) with true. cbn [negb]. rewrite wp_bind.
      pose proof Ha2 as (Hi2 & _ & Er2 & _).
      eapply wp_mono; [apply heist_poll_free; [done|by rewrite Er2]|].
      intros o s3 (c & -> & Ha3). change (1 =? 5) with false. cbv iota. rewrite wp_ret, Er2 in *.
      exists r2. split; [exact (after_trans _ _ _ _ _ Ha1 (after_trans _ _ _ _ _ Ha2 Ha3))|]. split; [done|by left].
    + rewrite (bool_decide_false _ Hv). cbn [negb]. rewrite wp_ret.
      exists r2. split; [by eapply after_trans|]. split; [done|by right].
Qed.

(** The word this client wants to be the connection. *)
Definition mine_word s : Z :=
  load_ext_nodeid (console_object s) CANTYPE_DAT (cc_consobj s) (cc_nodeid s).

Lemma after_fields s s' r : after s s' r ->
  fopt s' = fopt s /\ console_object s' = console_object s /\ mine_word s' = mine_word s.
Proof using Type. intros (_ & (ps & lb & m & k & l & -> & _) & _). done. Qed.

Lemma idle_eprintf fmt args s : idle s ->
  wp (eprintf fmt args) (fun _ s' => idle s' /\ conn s' = conn s /\ syncs s' = syncs s /\
    fopt s' = fopt s /\ mine_word s' = mine_word s /\ console_object s' = console_object s) s.
Proof using Type. intros [Hm He Hl Hc]. unfold eprintf. rewrite wp_modify. split; [by split|done]. Qed.

(** The last step: the write of the new connection to a free console. *)
Lemma connect_finish s : idle s -> CANCON_UNCONNECTED (conn s) = true -> mine_word s <> old ->
  wp (co ← gets console_object;
      obj ← gets cc_consobj;
      id ← gets cc_nodeid;
      let co := load_ext_nodeid co CANTYPE_DAT obj id in
      modify (set_console_object co) ;;
      '(response, _) ← send_connect wait_fuel CANTYPE_WO co;
      if negb (bool_decide (response = ACK)) then mret (-1)
      else
        ch ← gets target_ch;
        eprintf "Connected to %s (%-2.2x,%-2.2x,%-2.2x).  "
          [EStr (hostname ch); EInt (h_cluster ch); EInt (h_module ch); EInt (h_node ch)] ;;
        eprintf "Escape char is `%c'.\n" [EInt ESCAPE_CHAR] ;;
        mret 0) (fun v s' => v = 0 /\ idle s' /\ conn s' = mine_word s /\
    console_object s' = mine_word s) s.
Proof using Hfuel old_connected.
  intros Hi Hun Hne. rewrite wp_bind, wp_gets, wp_bind, wp_gets, wp_bind, wp_gets. cbv zeta.
  fold (mine_word s). rewrite wp_bind, wp_modify. set (s1 := set_console_object (mine_word s) s).
  assert (Hi1 : idle s1) by (destruct Hi; by split). rewrite wp_bind.
  eapply wp_mono; [by apply connect_write|]. intros r s2 [-> Ha]. rewrite turn_other in Ha by done.
  change (bool_decide (ACK = ACK)) with true. cbn [negb]. rewrite wp_bind, wp_gets, wp_bind.
  pose proof Ha as (Hi2 & _ & Er2 & _). destruct (after_fields _ _ _ Ha) as (_ & Eco & _).
  eapply wp_mono; [by apply idle_eprintf|]. intros _ s3 (Hi3 & Ec3 & _ & _ & _ & Eo3). rewrite wp_bind.
  eapply wp_mono; [by apply idle_eprintf|]. intros _ s4 (Hi4 & Ec4 & _ & _ & _ & Eo4). rewrite wp_ret.
  split; [done|]. split; [done|]. split; [congruence|]. rewrite Eo4, Eo3, Eco. done.
Qed.

(** The host name of a connection is looked up in the file. *)
Context (hosts_read : forall c m n, exists o, can_gethostbyaddr hosts_file c m n tt = Done o tt).

Lemma extaddr_to_str_spec x s : wp (extaddr_to_str x) (fun _ s' => s' = s) s.
Proof using hosts_read.
  unfold extaddr_to_str, can_gethostbyext. rewrite wp_bind, wp_bind. unfold with_files. rewrite wp_zoom.
  cbn [canhosts net_threads]. destruct (hosts_read (fget Ext.cluster x) (fget Ext.module x)
    (fget Ext.node x)) as [o Eo]. unfold wp at 1. by rewrite Eo, !wp_ret.
Qed.

(** What connecting gives, for an answer [v]. *)
Definition connect_outcome s (v : Z) s' : Prop :=
  let connected := v = 0 /\ conn s' = mine_word s /\ console_object s' = mine_word s in
  if CANCON_UNCONNECTED (conn s) then connected
  else if fopt s =? 0 then v = -1 /\ conn s' = turn (syncs s) old
  else connected \/
    v = -1 /\ CANCON_UNCONNECTED (conn s') = true /\ exists k, leaves k = true.

Lemma connect_protocol_spec s : idle s -> mine_word s <> old ->
  conn s = old \/ CANCON_UNCONNECTED (conn s) = true ->
  wp (connect_protocol wait_fuel) (fun v s' => idle s' /\ connect_outcome s v s') s.
Proof using Hfuel old_connected hosts_read.
  intros Hi Hne Hc. unfold connect_outcome, connect_protocol. rewrite wp_bind.
  eapply wp_mono; [by apply idle_eprintf|]. intros _ s1 (Hi1 & Ec1 & Ek1 & Ef1 & Em1 & _).
  rewrite wp_bind, wp_gets, wp_bind. eapply wp_mono; [by apply connect_read|]. intros r s2 [-> Ha].
  change (bool_decide (ACK = ACK)) with true. cbn [negb stored]. cbv zeta.
  destruct (after_fields _ _ _ Ha) as (Ef2 & _ & Em2). pose proof Ha as (Hi2 & _ & Er2 & _).
  rewrite Ec1 in *. rewrite <- Em1, <- Em2, Ek1 in *. rewrite wp_bind.
  destruct (CANCON_UNCONNECTED (conn s)) eqn:Hun; cbn [negb].
  - rewrite wp_ret. cbn [negb]. rewrite turn_free in Er2 by done.
    eapply wp_mono; [apply connect_finish; [done|by rewrite Er2|done]|].
    intros v s3 (Hv & Hi3 & H1 & H2). done.
  - destruct Hc as [Ho|Hc]; [|congruence]. rewrite Ho in *. rewrite wp_bind, wp_gets, wp_bind.
    eapply wp_mono; [apply extaddr_to_str_spec|]. intros who s3 ->. rewrite Ef2, Ef1.
    destruct (fopt s =? 0); cbn [negb].
    + rewrite wp_bind. eapply wp_mono; [by apply idle_eprintf|].
      intros _ s3 (Hi3 & Ec3 & _). rewrite wp_ret. cbn [negb]. rewrite wp_ret.
      split; [done|]. split; [done|]. congruence.
    + rewrite wp_bind. eapply wp_mono; [by apply idle_eprintf|].
      intros _ s3 (Hi3 & Ec3 & _ & _ & Em3 & _). rewrite wp_bind.
      assert (Hh : held_or_left (conn s3)) by (rewrite Ec3, Er2; apply turn_held; by left).
      eapply wp_mono; [by apply heist_spec|]. intros v s4 (r4 & Ha4 & Hun4 & Hv). rewrite wp_ret.
      destruct (after_fields _ _ _ Ha4) as (_ & _ & Em4). pose proof Ha4 as (Hi4 & _ & Er4 & _).
      destruct Hv as [->|[-> Hl]]; cbn [negb].
      * change (negb (0 =? -1)) with true. cbn [negb].
        eapply wp_mono; [apply connect_finish; [done|by rewrite Er4|congruence]|].
        intros v s5 (-> & Hi5 & H1 & H2). split; [done|]. left. rewrite H1, H2, Em4, Em3. done.
      * change (negb (-1 =? -1)) with false. cbn [negb]. rewrite wp_ret. split; [done|]. right.
        split; [done|]. split; [by rewrite Er4|done].
Qed.

(** C16. Connecting. With a network that loses nothing, connect_protocol() connects
    a free console: it returns 0 and the node's connection is the word of this
    client. A console another client has is left to it without -f. With -f
    the console is taken over, whether the other client answers or not;
    this fails only if the other client gives the console up
    at an unlucky time, and then nobody has it. *)
Theorem connect_protocol_connects s : idle s -> mine_word s <> old ->
  conn s = old \/ CANCON_UNCONNECTED (conn s) = true ->
  wp (connect_protocol wait_fuel) (fun v s' =>
    let connected := v = 0 /\ conn s' = mine_word s /\ console_object s' = mine_word s in
    if CANCON_UNCONNECTED (conn s) then connected
    else if fopt s =? 0 then v = -1 /\ conn s' = turn (syncs s) old
    else connected \/
      v = -1 /\ CANCON_UNCONNECTED (conn s') = true /\ exists k, leaves k = true) s.
Proof using Hfuel old_connected hosts_read.
  intros Hi Hne Hc. eapply wp_mono; [by apply connect_protocol_spec|]. by intros v s' [_ Hv].
Qed.
End network.

(** * Examples *)

(** The console is connected to object 0x105 of node 7. *)
Definition demo_old : Z := 0x30001d05.

(** A client that crashed: it neither answers nor leaves. *)
Definition crashed : OtherClient := {| old := demo_old; force_ack := false; leaves := fun _ => false;
  hosts_file := None |}.
(** A client that answers and gives the console up while it is polled for the
    fourth time. *)
Definition unlucky : OtherClient := {| old := demo_old; force_ack := true; leaves := Nat.eqb 5;
  hosts_file := None |}.

Definition demo_client (O : OtherClient) (f : Z) : cancon (F := net_fd (O := O)) :=
  Cancon net_fd (Lib net_fd 0 0 zero_packet (Net demo_old [] []))
    (Mbox (replicate 16 (0, 0)) 0) (Charq (replicate 1024 0) 0) 0 (CanHost 0 0 3 (str "node3")) 256 5
    (CanObject 0x3e8 (str "RESET")) f zero_packet 13 13 [] [] 0 0 0.

Lemma demo_client_idle O f : idle (demo_client O f).
Proof. split; [split; [done|cbn; unfold ACKBUFLEN; lia]|done|by left|done]. Qed.

(** With -f the console of a crashed client is taken over. *)
Lemma connect_protocol_connects_witness :
  wp (connect_protocol 3) (fun v s' => v = 0 /\ conn s' = mine_word (demo_client crashed 1))
    (demo_client crashed 1).
Proof.
  eapply wp_mono.
  - apply (connect_protocol_connects (O := crashed) eq_refl 3 (le_n 3)
      (fun _ _ _ => ex_intro _ None eq_refl) (demo_client crashed 1)
      (demo_client_idle crashed 1)).
    + vm_compute. discriminate.
    + left. reflexivity.
  - intros v s' [(Hv & Hc & _)|(_ & _ & k & Hk)]; [exact (conj Hv Hc)|discriminate Hk].
Defined.

(** A console that becomes free before the fifth look at it is disconnected
    all the same, which is refused: the take-over fails although nobody has
    the console. *)
Example heist_unlucky :
  match connect_protocol 3 (demo_client unlucky 1) with
  | Done v s' => v = -1 /\ CANCON_UNCONNECTED (conn s') = true
  | Fault _ => False
  end.
Proof. vm_compute. split; reflexivity. Qed.
