(* ===== verification/Getopt.v ===== *)
(** * Command line options

    getopt() of the C library as the tools use it: every option is an event,
    in order; what is no option is an operand, wherever it stands. *)

From stdpp Require Import prelude list numbers strings.
From Stdlib Require Import ZArith Lia.
From S2P Require Import Prelude Obp CanLib.

Definition dash : Z := 45.

(** One return value of getopt(): an option with its argument, or '?' for a
    character that is no option or lacks its argument. *)
Inductive optev :=
  | Opt (c : Z) (arg : option cstring)
  | BadOpt (c : Z) (lacks_arg : bool).

(** [spec c]: is c an option, and does it take an argument? For the string
    fc: the f stands for an option without, the c for one with an argument. *)
Definition optspec := Z -> option bool.

(** The characters of one argument behind the dash; the second result is an
    option that waits for its argument. *)
Fixpoint getopt_chars (spec : optspec) (s : cstring) : list optev * option Z :=
  match s with
  | [] => ([], None)
  | c :: s' =>
      match spec c with
      | Some true => match s' with [] => ([], Some c) | _ => ([Opt c (Some s')], None) end
      | Some false => let '(evs, w) := getopt_chars spec s' in (Opt c None :: evs, w)
      | None => let '(evs, w) := getopt_chars spec s' in (BadOpt c false :: evs, w)
      end
  end.

(** The arguments, for an option that waits for its argument or none: what
    getopt() returns until it returns EOF, and argv from optind on then. *)
Fixpoint getopt_args (spec : optspec) (wait : option Z) (args : list cstring)
    : list optev * list cstring :=
  match args with
  | [] => (match wait with Some c => [BadOpt c true] | None => [] end, [])
  | a :: args' =>
      match wait with
      | Some c => let '(evs, ops) := getopt_args spec None args' in (Opt c (Some a) :: evs, ops)
      | None =>
          match a with
          | d :: x :: s =>
              if negb (d =? dash) then
                let '(evs, ops) := getopt_args spec None args' in (evs, a :: ops)
              else if (x =? dash) && bool_decide (s = []) then ([], args')
              else
                let '(evs, w) := getopt_chars spec (x :: s) in
                let '(evs', ops) := getopt_args spec w args' in (evs ++ evs', ops)
          | _ => let '(evs, ops) := getopt_args spec None args' in (evs, a :: ops)
          end
      end
  end.

(** argv[0] is the name of the program. *)
Definition getopt (spec : optspec) (argv : list cstring) : list optev * list cstring :=
  match argv with [] => ([], []) | _ :: args => getopt_args spec None args end.

(** atoi() *)
Definition s32_clamp (v : Z) : Z := Z.max (- 2 ^ 31) (Z.min (2 ^ 31 - 1) v).
Fixpoint dec_value (acc : Z) (s : cstring) : Z :=
  match s with
  | c :: s' => if (48 <=? c) && (c <=? 57) then dec_value (acc * 10 + (c - 48)) s' else acc
  | [] => acc
  end.
Definition atoi (s : cstring) : Z :=
  let '(sign, s1) := scan_sign (skip_space s) in s32_clamp (sign * dec_value 0 s1).

(** * Properties *)

(** An argument getopt() takes for an operand. *)
Definition operand (a : cstring) : Prop := match a with d :: _ :: _ => d <> dash | _ => True end.

Lemma getopt_operand spec a args : operand a ->
  getopt_args spec None (a :: args) =
    ((getopt_args spec None args).1, a :: (getopt_args spec None args).2).
Proof.
  intros Ha. cbn [getopt_args]. destruct a as [|d [|x s]]; [by destruct (getopt_args _ _ _)..|].
  cbn in Ha. rewrite (proj2 (Z.eqb_neq d dash) Ha). cbn [negb]. by destruct (getopt_args _ _ _).
Qed.

(** An argument that holds options, complete in itself. *)
Definition options (spec : optspec) (a : cstring) (evs : list optev) : Prop :=
  exists x s, a = dash :: x :: s /\ a <> [dash; dash] /\ getopt_chars spec (x :: s) = (evs, None).

Lemma getopt_options spec a evs args : options spec a evs ->
  getopt_args spec None (a :: args) =
    (evs ++ (getopt_args spec None args).1, (getopt_args spec None args).2).
Proof.
  intros (x & s & -> & Hdd & E). cbn [getopt_args]. rewrite Z.eqb_refl. cbn [negb].
  destruct (Z.eqb_spec x dash) as [->|]; cbn [andb].
  - rewrite bool_decide_false by (intros ->; by apply Hdd). rewrite E. by destruct (getopt_args _ _ _).
  - rewrite E. by destruct (getopt_args _ _ _).
Qed.

(** Operands may stand anywhere: an operand before an argument with complete
    options makes no difference to the options and keeps its place among the
    operands. *)
Lemma getopt_permutes spec a b evs args : operand a -> options spec b evs ->
  getopt_args spec None (a :: b :: args) = getopt_args spec None (b :: a :: args).
Proof.
  intros Ha Hb. rewrite getopt_operand, (getopt_options _ b evs), (getopt_options _ b evs), getopt_operand
    by done. done.
Qed.

(** atoi() reads what printf() of a decimal number writes. *)
Fixpoint dec_string (fuel : nat) (v : Z) (acc : cstring) : cstring :=
  match fuel with
  | O => acc
  | S fuel' => if v =? 0 then acc else dec_string fuel' (v / 10) (48 + v mod 10 :: acc)
  end.

Lemma dec_value_string fuel v acc a : 0 <= v < 10 ^ Z.of_nat fuel ->
  exists k, 0 <= k /\ v < 10 ^ k /\
    dec_value a (dec_string fuel v acc) = dec_value (a * 10 ^ k + v) acc.
Proof.
  revert v acc a. induction fuel as [|fuel IH]; intros v acc a Hv.
  { cbn in Hv. exists 0. split; [lia|]. split; [cbn; lia|]. cbn [dec_string]. f_equal. cbn. lia. }
  cbn [dec_string]. destruct (Z.eqb_spec v 0) as [->|Hne].
  { exists 0. split; [lia|]. split; [cbn; lia|]. f_equal. cbn. lia. }
  rewrite Nat2Z.inj_succ, Z.pow_succ_r in Hv by lia.
  pose proof (Z.div_mod v 10 ltac:(lia)) as Hdm. pose proof (Z.mod_pos_bound v 10 ltac:(lia)) as Hm.
  destruct (IH (v / 10) (48 + v mod 10 :: acc) a) as (k & Hk & Hlt & E).
  { split; [by apply Z.div_pos; lia|]. apply Z.div_lt_upper_bound; lia. }
  exists (Z.succ k). rewrite Z.pow_succ_r by done. split; [lia|]. split; [lia|]. rewrite E. cbn [dec_value].
  rewrite (proj2 (Z.leb_le 48 _)), (proj2 (Z.leb_le _ 57)) by lia. cbn [andb]. f_equal. lia.
Qed.

Lemma dec_string_head fuel v acc : 0 < v < 10 ^ Z.of_nat fuel ->
  exists c s, dec_string fuel v acc = c :: s /\ 48 <= c <= 57.
Proof.
  revert v acc. induction fuel as [|fuel IH]; intros v acc Hv; [cbn in Hv; lia|].
  cbn [dec_string]. rewrite (proj2 (Z.eqb_neq v 0)) by lia.
  rewrite Nat2Z.inj_succ, Z.pow_succ_r in Hv by lia. pose proof (Z.mod_pos_bound v 10 ltac:(lia)).
  destruct (Z.eq_dec (v / 10) 0) as [E|].
  - rewrite E. exists (48 + v mod 10), acc. split; [by destruct fuel|lia].
  - apply IH. split; [pose proof (Z.div_pos v 10); lia|]. apply Z.div_lt_upper_bound; lia.
Qed.

Lemma atoi_dec v : 0 < v < 2 ^ 31 -> atoi (dec_string 10 v []) = v.
Proof.
  intros Hv. destruct (dec_string_head 10 v []) as (c & s & E & Hc); [cbn; lia|].
  destruct (dec_value_string 10 v [] 0) as (k & Hk & _ & Ev); [cbn; lia|]. unfold atoi.
  assert (Es : skip_space (dec_string 10 v []) = dec_string 10 v []).
  { rewrite E. cbn. unfold isspace. rewrite (proj2 (Z.eqb_neq c 32)), (proj2 (Z.leb_gt c 13)) by lia.
    by rewrite andb_false_r. }
  rewrite Es. assert (Eg : scan_sign (dec_string 10 v []) = (1, dec_string 10 v [])).
  { rewrite E. cbn. by rewrite (proj2 (Z.eqb_neq c 45)), (proj2 (Z.eqb_neq c 43)) by lia. }
  rewrite Eg, Ev. cbn [dec_value]. unfold s32_clamp. lia.
Qed.
