(* ===== verification/CanTools.v ===== *)
(** * The command line tools (cmd/canctrl.c, canping.c, canhb.c, cansnoop.c, candebug.c, canwhack.c)

    canctrl makes one transaction, canping writes sequence numbers to the
    TESTRW object of a node and checks the answers, canhb shows or sets the
    heartbeat, cansnoop prints packets, candebug switches the driver's
    messages, canwhack resets the chip. A tool's main() is a computation that
    returns the exit code; arguments and files are inputs. *)

From stdpp Require Import prelude list numbers strings.
From Stdlib Require Import ZArith Lia.
From S2P Require Import Prelude CanTypes Obp CanLib Getopt.

(** What a tool finds: does open() of a device succeed, does mmap() of the
    Elan's page, the files in /etc, the contents of uninitialised variables. *)
Class ToolEnv := {
  opens : string -> bool;
  elan_maps : bool;
  etc_canobj : option (list Z);
  etc_canhosts : option (list Z);
  req_stack : Z;
  dat_stack : Z
}.

(** errno after a system call on the descriptor failed. *)
Class Errno (F : CanFd) := { errno : fd_st -> Z }.

(** The library, and what was printed (last first). *)
Record tool {F : CanFd} := Tool {
  t_lib : lib_state;
  t_out : list (string * list earg);
  t_clock : nat
}.

(** elan_getclock(): the n-th reading, in nanoseconds. *)
Class ElanClock := { reading : nat -> Z }.

Section tools.
Context {F : CanFd} {E : Errno F} {T : ToolEnv} {C : ElanClock}.
Abbreviation M := (eff tool).
Implicit Types s : tool.

Definition with_lib {A} (m : eff lib_state A) : M A :=
  zoom t_lib (fun l s => Tool F l (t_out s) (t_clock s)) m.
Definition with_etc {A} (m : eff unit A) : M A := zoom (fun _ => tt) (fun _ s => s) m.
Definition printf (fmt : string) (args : list earg) : M unit :=
  modify (fun s => Tool F (t_lib s) ((fmt, args) :: t_out s) (t_clock s)).
Definition get_errno : M Z := gets (fun s => errno (lib_fd (t_lib s))).

(** fprintf(stderr, ..) or perror(), and exit(1) *)
Definition die (fmt : string) (args : list earg) : M Z := printf fmt args ;; mret 1.

(** ** canctrl *)

(** sscanf(s, "0x%x", ..), also for %lx: long has 32 bits *)
Definition scan_0x (s : cstring) : option Z :=
  match s with
  | z :: x :: r => if (z =? 48) && (x =? 120) then fst <$> scan_x r else None
  | _ => None
  end.

(** sscanf(s, "%ld", ..) stored in an unsigned word *)
Definition scan_ld (s : cstring) : option Z :=
  let '(sign, s1) := scan_sign (skip_space s) in
  match s1 with
  | c :: _ => if (48 <=? c) && (c <=? 57)
              then Some (u32 (s32_clamp (sign * dec_value 0 s1)))
              else None
  | [] => None
  end.

Definition str_to_type (s : cstring) (ext : Z) : option Z :=
  let t := can_str2type s in
  if 0 <=? t then Some (fset Ext.type t ext) else None.

Definition str_to_obj (s : cstring) (ext : Z) : M (option Z) :=
  o ← with_etc (can_getobjbyname etc_canobj s);
  mret (match o with
        | Some obj => Some (fset Ext.object (o_id obj) ext)
        | None => (fun o => fset Ext.object o ext) <$> scan_0x s
        end).

(** req_data.dat after both calls of sscanf(), [None] if one fails. *)
Definition data_arg (s : cstring) : option Z := _ ← scan_0x s; scan_ld s.

(** The bytes of the answer: one beyond the four of a can_dat is a fault. *)
Definition print_data (dat len : Z) : M unit :=
  if 4 <? len then fail OutOfBounds
  else printf ":  %-11.11s   '%-4.4s'\n" (map EInt (take (Z.to_nat len) (bytes_of 4 dat))).

Definition canctrl_transaction (fuel : nat) (req dat len : Z) : M Z :=
  bytes ← with_lib (can_send req (Some dat) len);
  e ← get_errno;
  if (bytes <? 0) && (e =? EINTR) then die "canctrl: can_send timeout\n" []
  else if negb (bytes =? PKTSIZE) then die "canctrl: can_send" []
  else
    let t := fget Ext.type req in
    if (t =? CANTYPE_WNA) || (t =? CANTYPE_ACK) || (t =? CANTYPE_NAK) || (t =? CANTYPE_SIG)
    then mret 0
    else
      '(bytes, got) ← with_lib (can_recv_ack fuel req);
      e ← get_errno;
      if (bytes <? 0) && (e =? EINTR) then die "canctrl: can_recv_ack timeout\n" []
      else if negb (bytes =? PKTSIZE) then die "canctrl: can_recv_ack" []
      else
        r ← the Uninit got;
        printf "%s" [EStr (str (if fget Ext.type (r_ext r) =? CANTYPE_ACK then "ACK" else "NAK"))] ;;
        (if 0 <? r_len r then print_data (r_dat r) (r_len r) else printf "\n" []) ;;
        mret 0.

Definition canctrl (fuel : nat) (argv : list cstring) : M Z :=
  match argv with
  | _ :: a1 :: a2 :: a3 :: rest =>
      if (1 <? Z.of_nat (length rest)) then die "Usage: canctrl type obj node [hex data]\n" []
      else if negb (opens "/dev/can") then die "/dev/can" []
      else
        match str_to_type a1 req_stack with
        | None => die "canctrl: %s: unknown type\n" [EStr a1]
        | Some req =>
            o ← str_to_obj a2 req;
            match o with
            | None => die "canctrl: %s: unknown object\n" [EStr a2]
            | Some req =>
                h ← with_etc (can_gethostbyname etc_canhosts a3);
                match h with
                | None => die "canctrl: %s: unknown can host\n" [EStr a3]
                | Some ch =>
                    let req := fset Ext.node (h_node ch) (fset Ext.module (h_module ch)
                                 (fset Ext.cluster (h_cluster ch) req)) in
                    match rest with
                    | [] => canctrl_transaction fuel req dat_stack 0
                    | a4 :: _ =>
                        match data_arg a4 with
                        | None => die "canctrl: %s: bad data\n" [EStr a4]
                        | Some d => canctrl_transaction fuel req d sizeof_can_dat
                        end
                    end
                end
            end
        end
  | _ => die "Usage: canctrl type obj node [hex data]\n" []
  end.

(** ** canping *)

Definition getclock : M Z :=
  run (fun s => (reading (t_clock s), Tool F (t_lib s) (t_out s) (S (t_clock s)))).

(** A line of output: the type of the answer, the sequence number, the time
    in nanoseconds, and what is wrong. *)
Definition ping_line (ack : bool) (ch : canhostname) (seq ns : Z) : M unit :=
  printf "%s from (0x%x,0x%x,0x%x) seq=%lu time=%1.3f ms"
    [EStr (str (if ack then "ACK" else "NAK")); EInt (h_cluster ch); EInt (h_module ch);
     EInt (h_node ch); EInt seq; EInt ns].

Definition ping_check (ack : bool) (seq recv ack_len : Z) : M unit :=
  if ack && negb (seq =? 0) && negb (recv =? u32 (seq - 1)) then
    printf " <-- response (%lu) != seq - 1 (%lu)\n" [EInt recv; EInt (u32 (seq - 1))]
  else if negb (ack_len =? sizeof_can_dat) then
    printf " <-- size of response (%d) != %d\n" [EInt ack_len; EInt sizeof_can_dat]
  else printf "\n" [].

(** What one round of the loop comes to: an answer, a time-out, or the exit
    code. *)
Inductive ping_end := Answered | NoAnswer | Failed (code : Z).

Definition ping_request (req : Z) (ch : canhostname) (obj : canobj) : Z :=
  fset Ext.object (o_id obj) (fset Ext.type CANTYPE_WO (fset Ext.node (h_node ch)
    (fset Ext.module (h_module ch) (fset Ext.cluster (h_cluster ch) req)))).

(** The result is [req] after the round too. *)
Definition ping_once (fuel : nat) (req : Z) (ch : canhostname) (obj : canobj) (seq : Z)
    : M (ping_end * Z) :=
  let req := ping_request req ch obj in
  t1 ← getclock;
  bytes ← with_lib (can_send req (Some seq) sizeof_can_dat);
  if bytes <? 0 then c ← die "can_send" []; mret (Failed c, req)
  else
    '(bytes, got) ← with_lib (can_recv_ack fuel req);
    e ← get_errno;
    if (bytes <? 0) && (e =? EINTR) then mret (NoAnswer, req)
    else
      t2 ← getclock;
      if negb (bytes =? PKTSIZE) then c ← die "can_recv_ack" []; mret (Failed c, req)
      else
        r ← the Uninit got;
        let ack := fget Ext.type (r_ext r) =? CANTYPE_ACK in
        ping_line ack ch seq ((t2 - t1) mod 2 ^ 64) ;;
        ping_check ack seq (r_dat r) (r_len r) ;;
        mret (Answered, r_ext r).

(** The loop; [rounds] bounds its rounds. *)
Fixpoint canping_loop (rounds fuel : nat) (req : Z) (ch : canhostname) (obj : canobj)
    (copt count seq responses : Z) : M Z :=
  if negb ((copt =? 0) || (0 <? count)) then mret (if 0 <? responses then 0 else 1)
  else
    match rounds with
    | O => fail OutOfFuel
    | S rounds' =>
        '(e, req) ← ping_once fuel req ch obj seq;
        match e with
        | Failed c => mret c
        | NoAnswer =>
            canping_loop rounds' fuel req ch obj copt (s32 (count - 1)) (u32 (seq + 1)) responses
        | Answered =>
            canping_loop rounds' fuel req ch obj copt (s32 (count - 1)) (u32 (seq + 1))
              (responses + 1)
        end
    end.

(** main() after the options: [copt] counts the options -c, [count] is the
    last one's argument. *)
Definition canping (rounds fuel : nat) (copt count : Z) (target_host : cstring) : M Z :=
  o ← with_etc (can_getobjbyname etc_canobj (str "TESTRW"));
  match o with
  | None => die "canping: could not look up TESTRW object\n" []
  | Some obj =>
      if negb (opens "/dev/elan") then die "/dev/elan" []
      else if negb elan_maps then die "mmap /dev/elan" []
      else if negb (opens "/dev/can") then die "/dev/can" []
      else
        h ← with_etc (can_gethostbyname etc_canhosts target_host);
        match h with
        | None => die "canping: unknown can host %s\n" [EStr target_host]
        | Some ch =>
            printf "PING %s: (0x%x,0x%x,0x%x):  WO TESTRW\n"
              [EStr (hostname ch); EInt (h_cluster ch); EInt (h_module ch); EInt (h_node ch)] ;;
            canping_loop rounds fuel req_stack ch obj copt count 0 0
        end
  end.

(** What getopt() prints on stderr for what it does not know. *)
Definition getopt_complains (c : Z) (lacks_arg : bool) : M unit :=
  printf (if lacks_arg then "%s: option requires an argument -- '%c'\n"
          else "%s: invalid option -- '%c'\n") [EInt c].

(** getopt(argc, argv, "fc:") *)
Definition ping_spec : optspec := fun c =>
  if c =? 102 then Some false else if c =? 99 then Some true else None.

(** fopt, copt and count after the options, or usage(). *)
Fixpoint ping_opts (evs : list optev) (fopt copt count : Z) : M (option (Z * Z * Z)) :=
  match evs with
  | [] => mret (Some (fopt, copt, count))
  | Opt c arg :: evs' =>
      if c =? 102 then ping_opts evs' (fopt + 1) copt count
      else ping_opts evs' fopt (copt + 1) (atoi (default [] arg))
  | BadOpt c lacks :: _ => getopt_complains c lacks ;; mret None
  end.

Definition ping_usage : M Z := die "Usage: canping [-f] [-c count] node\n" [].

(** main(); the option -f only leaves out the second's rest between rounds. *)
Definition canping_main (rounds fuel : nat) (argv : list cstring) : M Z :=
  let '(evs, ops) := getopt ping_spec argv in
  o ← ping_opts evs 0 0 (s32 dat_stack);
  match o, ops with
  | Some (_, copt, count), [target_host] => canping rounds fuel copt count target_host
  | _, _ => ping_usage
  end.

(** ** canhb *)

(** usage(): the names of the states, and exit(1). The quotes around the word
    string are left out. *)
Fixpoint hb_usage_loop (n : nat) (i : Z) : M unit :=
  match n with
  | O => skip
  | S n' =>
      o ← with_etc (can_hb2str (Z.shiftl i 2));
      match o with
      | None => skip
      | Some name => printf "\t%s\n" [EStr name] ;; hb_usage_loop n' (i + 1)
      end
  end.

Definition hb_usage : M Z :=
  printf "Usage:  canhb string\n" [] ;;
  printf "where string is one of:\n" [] ;;
  hb_usage_loop 0x20 0 ;;
  mret 1.

(** ioctl() with CAN_GET_HEARTBEAT and CAN_SET_HEARTBEAT on the descriptor. *)
Definition canhb (get : eff fd_st (option Z)) (set : Z -> eff fd_st bool) (argv : list cstring) : M Z :=
  if negb (opens "/dev/can") then die "canhb: /dev/can" []
  else
    match argv with
    | [_] =>
        o ← with_lib (on_fd get);
        match o with
        | None => die "canhb: ioctl" []
        | Some val =>
            name ← with_etc (can_hb2str val);
            printf "canhb: %s\n" [EStr (default (str "bad heartbeat val") name)] ;;
            mret 0
        end
    | [_; a] =>
        match can_str2hb a with
        | Some val =>
            ok ← with_lib (on_fd (set val));
            if (ok : bool) then mret 0 else die "canhb: ioctl" []
        | None => hb_usage
        end
    | _ => hb_usage
    end.

(** ** cansnoop *)

(** The static variables of decode(). *)
Record snoop := Snoop { last_stamp : Z; first_stamp : Z }.

Definition obj_to_str (type id : Z) : M (list earg) :=
  if (type =? CANTYPE_ACK) || (type =? CANTYPE_NAK) || (type =? CANTYPE_DAT) then mret [EInt id]
  else
    o ← with_etc (can_getobjbyid etc_canobj id);
    mret (match o with Some obj => [EStr (o_name obj)] | None => [EInt id] end).

(** decode(); the time is printed in units of 1 / HZ. *)
Definition decode (pkt : can_packet) (no_heartbeat : bool) (st : snoop) : M snoop :=
  if no_heartbeat && (extf Ext.object pkt =? CANOBJ_HEARTBEAT) then mret st
  else
    let first := if first_stamp st =? 0 then timestamp pkt else first_stamp st in
    printf "%-.3f %3.3x->%3.3x  "
      [EInt (u32 (timestamp pkt - first)); EInt (canf Can.src pkt); EInt (canf Can.dest pkt)] ;;
    let len := canf Can.length pkt in
    if len <? 4 then
      printf "len=%d - ERROR bad packet length\n" [EInt len] ;; mret (Snoop (last_stamp st) first)
    else if timestamp pkt <? last_stamp st then fail Panic
    else
      printf "%-3.3s " [EStr (can_type2str (extf Ext.type pkt))] ;;
      o ← with_etc (can_gethostbyaddr etc_canhosts (extf Ext.cluster pkt) (extf Ext.module pkt)
                      (extf Ext.node pkt));
      (match o with
       | None => printf "%2.2x,%2.2x,%2.2x " [EInt (extf Ext.cluster pkt); EInt (extf Ext.module pkt);
                                              EInt (extf Ext.node pkt)]
       | Some ch => printf "%-8.8s " [EStr (hostname ch)]
       end) ;;
      name ← obj_to_str (extf Ext.type pkt) (extf Ext.object pkt);
      printf "%-12.12s" name ;;
      if 8 <? len then fail OutOfBounds
      else
        printf "  %-11.11s %-4.4s\n" (map EInt (take (Z.to_nat (len - 4)) (bytes_of 4 (dat pkt)))) ;;
        mret (Snoop (timestamp pkt) first).

(** The loop of main(); the result of read() is divided as an unsigned
    number. *)
Fixpoint cansnoop_loop (fuel : nat) (no_heartbeat : bool) (st : snoop) : M Z :=
  match fuel with
  | O => fail OutOfFuel
  | S fuel' =>
      '(bytes, pkt) ← with_lib (on_fd fd_read);
      if negb (u32 bytes mod PKTSIZE =? 0) then fail Panic
      else if u32 bytes / PKTSIZE =? 0 then mret 0
      else st ← decode pkt no_heartbeat st; cansnoop_loop fuel' no_heartbeat st
  end.

(** The arguments; the second result is no_heartbeat, [None] for the message
    about the usage. [promisc]: ioctl(fd, CAN_SET_PROMISCUOUS). *)
Fixpoint snoop_args (promisc : eff fd_st bool) (args : list cstring) (no_heartbeat : bool)
    : M (option bool) :=
  match args with
  | [] => mret (Some no_heartbeat)
  | a :: args' =>
      if bool_decide (a = str "-p") then
        ok ← with_lib (on_fd promisc);
        when (negb ok) (printf "ioctl" []) ;;
        snoop_args promisc args' no_heartbeat
      else if bool_decide (a = str "-h") then snoop_args promisc args' true
      else mret None
  end.

(** [snoopy]: ioctl(fd, CAN_SET_SNOOPY) *)
Definition cansnoop (fuel : nat) (snoopy promisc : eff fd_st bool) (argv : list cstring) : M Z :=
  if negb (opens "/dev/can") then die "/dev/can" []
  else
    ok ← with_lib (on_fd snoopy);
    if negb ok then die "ioctl" []
    else
      o ← snoop_args promisc (tail argv) false;
      match o with
      | None => die "Usage: cansnoop [-p] [-h]\n" []
      | Some no_heartbeat => cansnoop_loop fuel no_heartbeat (Snoop 0 0)
      end.

(** ** candebug *)

(** getopt(argc, argv, "yn") *)
Definition debug_spec : optspec := fun c => if (c =? 121) || (c =? 110) then Some false else None.

Definition debug_usage : M Z := die "Usage: candebug -y|-n\n" [].

(** Only the first option counts. *)
Definition candebug (set_debug clr_debug : eff fd_st bool) (argv : list cstring) : M Z :=
  if negb (opens "/dev/can") then die "open /dev/can" []
  else
    match (getopt debug_spec argv).1 with
    | [] => debug_usage
    | BadOpt c lacks :: _ => getopt_complains c lacks ;; debug_usage
    | Opt c _ :: _ =>
        if c =? 121 then
          ok ← with_lib (on_fd set_debug);
          (if (ok : bool) then printf "candebug: debugging on\n" [] else printf "ioctl CAN_SET_DEBUG" []) ;;
          mret 0
        else
          ok ← with_lib (on_fd clr_debug);
          (if (ok : bool) then printf "candebug: debugging off\n" [] else printf "ioctl CAN_CLR_DEBUG" []) ;;
          mret 0
    end.

(** ** canwhack *)

Definition canwhack (reset : eff fd_st bool) : M Z :=
  if negb (opens "/dev/can") then die "open /dev/can" []
  else
    ok ← with_lib (on_fd reset);
    if negb ok then die "ioctl CAN_SET_RESET" []
    else printf "canwhack: can chip has been reset\n" [] ;; mret 0.
End tools.
