(* ===== verification/CanToolsProps.v ===== *)
(** * What the command line tools do

    canping against a node with a TESTRW object that other nodes use too, the data argument of canctrl,
    the packets cansnoop can print. *)

From stdpp Require Import prelude list numbers strings.
From Stdlib Require Import ZArith Lia.
From S2P Require Import Prelude CanTypes Obp CanLib Getopt CanTools.

(** ** canctrl *)

(** The two conversions of the data argument: the second stops at the x. *)
Lemma data_arg_spec a : data_arg a = if scan_0x a is Some _ then Some 0 else None.
Proof.
  unfold data_arg. destruct (scan_0x a) as [v|] eqn:E; [|done].
  unfold scan_0x in E. destruct a as [|z [|x r]]; try done.
  destruct (Z.eqb_spec z 48) as [->|]; [|done]. destruct (Z.eqb_spec x 120) as [->|]; [|done].
  reflexivity.
Qed.

Section canctrl.
Context {F : CanFd} {E : Errno F} {T : ToolEnv} {C : ElanClock}.
Implicit Types s : tool (F := F).

(** A computation that leaves the library and its descriptor alone. *)
Definition quietly {A} (m : eff tool A) (Q : A -> Prop) : Prop :=
  forall s a s', m s = Done a s' -> Q a /\ t_lib s' = t_lib s.

Lemma quietly_die fmt args : quietly (die fmt args) (fun c => c = 1).
Proof. intros s a s' [= <- <-]. done. Qed.
Lemma quietly_etc {A B} (m : eff unit A) (f : A -> eff tool B) Q :
  (forall a, quietly (f a) Q) -> quietly (with_etc m ≫= f) Q.
Proof.
  intros Hf s b s'. unfold with_etc, zoom, mbind, eff_bind. destruct (m tt); [|done].
  intros Hs. by apply Hf in Hs.
Qed.
Lemma quietly_obj {B} a2 req (f : option Z -> eff tool B) Q :
  (forall o, quietly (f o) Q) -> quietly (str_to_obj a2 req ≫= f) Q.
Proof.
  intros Hf s b s'. unfold str_to_obj, with_etc, zoom, mbind, eff_bind.
  destruct (can_getobjbyname _ _ _); [|done]. intros Hs. by apply Hf in Hs.
Qed.

(** C40. The data of a canctrl request is lost. If the argument is written 0x...,
    canctrl does exactly what it does for the argument 0x0, whatever the
    number: the value is overwritten by a second conversion of the same
    argument as a decimal number, which stops at the x. Any other argument,
    decimal ones too, ends the program with 1 before anything is sent. *)
Theorem canctrl_data_lost fuel prog type obj node a s :
  match scan_0x a with
  | Some _ => canctrl fuel [prog; type; obj; node; a] s = canctrl fuel [prog; type; obj; node; str "0x0"] s
  | None => forall c s', canctrl fuel [prog; type; obj; node; a] s = Done c s' ->
      c = 1 /\ t_lib s' = t_lib s
  end.
Proof.
  unfold canctrl. cbn [length]. change (1 <? Z.of_nat 1) with false. cbv iota. rewrite !data_arg_spec.
  destruct (scan_0x a) as [v|].
  - change (scan_0x (str "0x0")) with (Some 0). done.
  - intros c s'. revert s c s'. change (quietly (if negb (opens "/dev/can") then die "/dev/can" [] else
      match str_to_type type req_stack with
      | None => die "canctrl: %s: unknown type\n" [EStr type]
      | Some req => o ← str_to_obj obj req;
          match o with
          | None => die "canctrl: %s: unknown object\n" [EStr obj]
          | Some req => h ← with_etc (can_gethostbyname etc_canhosts node);
              match h with
              | None => die "canctrl: %s: unknown can host\n" [EStr node]
              | Some ch => die "canctrl: %s: bad data\n" [EStr a]
              end
          end
      end) (fun c => c = 1)).
    destruct (negb _); [apply quietly_die|]. destruct (str_to_type _ _) as [req|]; [|apply quietly_die].
    apply quietly_obj. intros [req'|]; [|apply quietly_die].
    apply quietly_etc. intros [ch|]; apply quietly_die.
Qed.
End canctrl.

(** ** canping *)

(** The node: the word of its TESTRW object, the packets on their way back,
    and what other nodes will write to the word before the requests to come, if
    anything. A write is answered with the word before it. *)
Record tr_net := TrNet { tr_val : Z; tr_back : list can_packet; tr_others : list (option Z) }.

Definition tr_reply (p : can_packet) (old : Z) : can_packet :=
  set_dat old (set_extf Ext.type CANTYPE_ACK (set_canf Can.length 8 p)).

Definition word_before (val : Z) (others : list (option Z)) : Z :=
  match others with Some v :: _ => v | _ => val end.

Definition tr_write (p : can_packet) (n : tr_net) : tr_net :=
  if (extf Ext.type p =? CANTYPE_WO) && (extf Ext.object p =? CANOBJ_TESTRW)
  then TrNet (dat p) (tr_back n ++ [tr_reply p (word_before (tr_val n) (tr_others n))]) (tail (tr_others n))
  else n.

#[local] Instance tr_fd : CanFd := {|
  fd_st := tr_net;
  fd_ioctl_addr := mret (Some 5);
  fd_write := fun p => modify (tr_write p) ;; mret PKTSIZE;
  fd_read := fun n => match tr_back n with
                      | p :: l => Done (PKTSIZE, p) (TrNet (tr_val n) l (tr_others n))
                      | [] => Fault Blocked
                      end
|}.

Section canping.
Context {E : Errno tr_fd} {T : ToolEnv} {C : ElanClock}.
Implicit Types s : tool (F := tr_fd).

Definition tr_ready (lb : lib_state (F := tr_fd)) : Prop := initialized lb = 0 \/ nodeid lb = 5.

Lemma can_send_testrw target seq (lb : lib_state (F := tr_fd)) : tr_ready lb ->
  exists lb' p, can_send target (Some seq) 4 lb = Done PKTSIZE lb' /\ tr_ready lb' /\
    initialized lb' <> 0 /\
    ext p = target /\ dat p = seq /\ lib_fd lb' = tr_write p (lib_fd lb).
Proof.
  intros Hr. unfold can_send, initialize_once, mbind, eff_bind, gets, when.
  assert (Hinit : exists lb0, (if initialized lb =? 0 then _initialize else skip) lb = Done tt lb0 /\
    nodeid lb0 = 5 /\ lib_fd lb0 = lib_fd lb /\ initialized lb0 <> 0).
  { destruct (Z.eqb_spec (initialized lb) 0) as [Ei|Ei].
    - eexists. split; [reflexivity|done].
    - exists lb. split; [done|]. by destruct Hr. }
  destruct Hinit as (lb0 & -> & En & Ef & Hi0). unfold write_pkt, mbind, eff_bind, on_fd, zoom. cbn.
  eexists _, _. split; [reflexivity|]. split; [by right|].
  split; [exact Hi0|]. split; [|split]; [| |by rewrite Ef]; reflexivity.
Qed.

(** The answer comes back. *)
Lemma recv_ack_testrw fuel target p old (lb : lib_state (F := tr_fd)) : tr_ready lb ->
  initialized lb <> 0 -> tr_back (lib_fd lb) = [tr_reply p old] -> ext p = target ->
  exists lb', can_recv_ack (S fuel) target lb =
    Done (PKTSIZE, Some (Received (fset Ext.type CANTYPE_ACK target) old 4)) lb' /\
    tr_ready lb' /\ lib_fd lb' = TrNet (tr_val (lib_fd lb)) [] (tr_others (lib_fd lb)).
Proof.
  intros Hr Hi Hb Hp. unfold can_recv_ack, initialize_once, mbind, eff_bind, gets, when.
  rewrite (proj2 (Z.eqb_neq _ 0) Hi). unfold skip. cbn [can_recv_ack_loop].
  unfold can_recv, initialize_once, mbind, eff_bind, gets, when, on_fd, zoom.
  rewrite (proj2 (Z.eqb_neq _ 0) Hi). unfold skip. cbn [fd_read tr_fd]. rewrite Hb.
  unfold negb. rewrite Z.eqb_refl, orb_true_r. change (PKTSIZE =? -1) with false. cbv iota.
  unfold mret, eff_ret. cbn [the]. unfold mret, eff_ret. cbn [r_ext].
  assert (Ex : ext (tr_reply p old) = fset Ext.type CANTYPE_ACK target).
  { unfold tr_reply. cbn. by rewrite Hp. }
  rewrite Ex. assert (Ea : answers target (fset Ext.type CANTYPE_ACK target) = true).
  { unfold answers. fld. by rewrite !Z.eqb_refl. }
  rewrite Ea. cbn [r_dat r_len].
  assert (El : canf Can.length (tr_reply p old) - sizeof_can_header_ext = 4).
  { unfold tr_reply, canf, set_extf, set_canf. cbn [can set_can set_dat set_ext ext]. by fld. }
  assert (Ety : fget Ext.type (fset Ext.type CANTYPE_ACK target) = CANTYPE_ACK) by (by fld).
  rewrite El, Ety. eexists. split; [reflexivity|]. split; [exact Hr|done].
Qed.

(** What canping should print of [n] answered requests from the sequence number
    [seq] on, when the word was [val] before and others write [others]; the
    clock has been read [clock] times. A complaint follows when the word
    was not what the request before had left. *)
Fixpoint report (ch : canhostname) (n : nat) (seq val : Z) (others : list (option Z)) (clock : nat)
    : list (string * list earg) :=
  match n with
  | O => []
  | S n' =>
      let v := word_before val others in
      ("%s from (0x%x,0x%x,0x%x) seq=%lu time=%1.3f ms",
        [EStr (str "ACK"); EInt (h_cluster ch); EInt (h_module ch); EInt (h_node ch); EInt seq;
         EInt ((reading (S clock) - reading clock) mod 2 ^ 64)]) ::
      (if (seq =? 0) || (v =? seq - 1) then ("\n", [])
       else (" <-- response (%lu) != seq - 1 (%lu)\n", [EInt v; EInt (seq - 1)])) ::
      report ch n' (seq + 1) seq (tail others) (S (S clock))
  end.

Lemma ping_once_answered fuel req ch obj seq s :
  tr_ready (t_lib s) -> tr_back (lib_fd (t_lib s)) = [] ->
  o_id obj mod 2 ^ 10 = CANOBJ_TESTRW -> 0 <= seq < 2 ^ 32 ->
  wp (ping_once (S fuel) req ch obj seq) (fun r s' => exists req',
    let n := lib_fd (t_lib s) in
    r = (Answered, req') /\ tr_ready (t_lib s') /\ lib_fd (t_lib s') = TrNet seq [] (tail (tr_others n)) /\
    t_clock s' = S (S (t_clock s)) /\
    t_out s' = rev (report ch 1 seq (tr_val n) (tr_others n) (t_clock s)) ++ t_out s) s.
Proof.
  intros Hr Hb Ho Hseq. unfold ping_once. cbv zeta. set (target := ping_request _ _ _).
  assert (Et : fget Ext.type target = CANTYPE_WO) by (unfold target, ping_request; by fld).
  assert (Eo : fget Ext.object target = CANOBJ_TESTRW) by (unfold target, ping_request; by fld).
  rewrite wp_bind. unfold getclock at 1. rewrite wp_run. cbn [fst snd].
  rewrite wp_bind. unfold with_lib at 1. rewrite wp_zoom. cbn [t_lib].
  destruct (can_send_testrw target seq (t_lib s) Hr) as (lb & p & Es & Hr1 & Hi1 & Ep & Ed & Ef).
  unfold wp at 1. change sizeof_can_dat with 4. rewrite Es. change (PKTSIZE <? 0) with false. cbv iota.
  set (n := lib_fd (t_lib s)) in *. set (v := word_before (tr_val n) (tr_others n)).
  assert (Ew : lib_fd lb = TrNet seq [tr_reply p v] (tail (tr_others n))).
  { rewrite Ef. unfold tr_write, extf. by rewrite Ep, Et, Eo, Hb, Ed. }
  rewrite wp_bind. unfold with_lib at 1. rewrite wp_zoom. cbn [t_lib].
  destruct (recv_ack_testrw fuel target p v lb Hr1 Hi1) as
    (lb2 & E2 & Hr2 & Ef2); [by rewrite Ew|done|].
  unfold wp at 1. rewrite E2, wp_bind. unfold get_errno. rewrite wp_gets.
  change (PKTSIZE <? 0) with false. cbn [andb]. rewrite wp_bind. unfold getclock. rewrite wp_run.
  cbn [fst snd]. change (negb (PKTSIZE =? PKTSIZE)) with false. cbv iota. rewrite wp_bind. cbn [the].
  rewrite wp_ret. cbv zeta. cbn [r_ext r_dat r_len].
  assert (Ea : fget Ext.type (fset Ext.type CANTYPE_ACK target) = CANTYPE_ACK) by (by fld).
  rewrite Ea. change (CANTYPE_ACK =? CANTYPE_ACK) with true.
  unfold ping_line, ping_check, printf. rewrite wp_bind, wp_modify, wp_bind.
  assert (Ec : true && negb (seq =? 0) && negb (v =? u32 (seq - 1)) = negb ((seq =? 0) || (v =? seq - 1))).
  { cbn [andb]. rewrite negb_orb. destruct (Z.eqb_spec seq 0) as [->|]; [done|]. by rewrite (u32_id (seq - 1)) by lia. }
  rewrite Ec. change (negb (4 =? sizeof_can_dat)) with false. cbv iota.
  eapply (wp_mono _ (fun _ s' => t_lib s' = lb2 /\ t_clock s' = S (S (t_clock s)) /\
    t_out s' = rev (report ch 1 seq (tr_val n) (tr_others n) (t_clock s)) ++ t_out s)).
  - cbn [report]. fold v. destruct ((seq =? 0) || (v =? seq - 1)) eqn:Es2; cbn [negb]; rewrite wp_modify; cbn [t_lib t_out t_clock];
      (split; [done|]); (split; [done|]); [done|].
    rewrite (u32_id (seq - 1)); [done|]. apply orb_false_iff in Es2 as [?%Z.eqb_neq _]. lia.
  - intros [] s1 (E1 & Ek & Eo1). rewrite wp_ret. eexists. cbv zeta. split; [reflexivity|]. rewrite E1.
    split; [exact Hr2|]. split; [by rewrite Ef2, Ew|]. by split.
Qed.

Lemma report_app ch n seq val others clock :
  report ch (S n) seq val others clock =
  report ch 1 seq val others clock ++ report ch n (seq + 1) seq (tail others) (S (S clock)).
Proof. done. Qed.

Lemma canping_loop_answered ch obj fuel : o_id obj mod 2 ^ 10 = CANOBJ_TESTRW ->
  forall rounds req count seq responses s,
  let n := lib_fd (t_lib s) in
  tr_ready (t_lib s) -> tr_back n = [] ->
  0 <= count <= Z.of_nat rounds -> count < 2 ^ 31 -> 0 <= seq -> seq + count < 2 ^ 32 -> 0 <= responses ->
  wp (canping_loop rounds (S fuel) req ch obj 1 count seq responses) (fun code s' =>
    code = (if 0 <? responses + count then 0 else 1) /\
    tr_val (lib_fd (t_lib s')) = (if 0 <? count then seq + count - 1 else tr_val n) /\
    t_out s' = rev (report ch (Z.to_nat count) seq (tr_val n) (tr_others n) (t_clock s)) ++ t_out s) s.
Proof.
  intros Ho. induction rounds as [|rounds IH]; intros req count seq responses s n Hr Hb Hc Hc31 Hs Hs32 Hresp;
    unfold canping_loop; fold canping_loop; change (1 =? 0) with false; cbn [orb];
    (destruct (Z.ltb_spec 0 count) as [Hpos|Hz]; cbn [negb]); try lia.
  1, 3: rewrite wp_ret; replace count with 0 by lia; by rewrite Z.add_0_r.
  rewrite wp_bind. eapply wp_mono; [apply ping_once_answered; [done|done|done|lia]|].
  intros [e req'] s1 (req2 & [= -> ->] & Hr1 & Ef & Ek & Eo).
  replace (s32 (count - 1)) with (count - 1) by (unfold s32; rewrite Z.mod_small by lia; lia).
  rewrite (u32_id (seq + 1)) by lia.
  eapply wp_mono; [apply IH; try done; try lia; by rewrite Ef|].
  intros code s2 (-> & Ev & Eo2).
  replace (responses + 1 + (count - 1)) with (responses + count) by lia. split; [done|]. split.
  - rewrite Ev, Ef. cbn [tr_val]. destruct (Z.ltb_spec 0 (count - 1)); lia.
  - rewrite Eo2, Eo, Ef, Ek. cbn [tr_val tr_others].
    replace (Z.to_nat count) with (S (Z.to_nat (count - 1))) by lia.
    by rewrite (report_app ch (Z.to_nat (count - 1))), rev_app_distr, app_assoc.
Qed.

(** The lines of the whole program. *)
Definition ping_output (ch : canhostname) (n : nat) (net : tr_net) (clock : nat) : list (string * list earg) :=
  ("PING %s: (0x%x,0x%x,0x%x):  WO TESTRW\n",
    [EStr (hostname ch); EInt (h_cluster ch); EInt (h_module ch); EInt (h_node ch)]) ::
  report ch n 0 (tr_val net) (tr_others net) clock.

(** The program behind its options. *)
Lemma canping_answered rounds fuel n host obj ch s :
  let net := lib_fd (t_lib s) in
  opens "/dev/elan" = true -> elan_maps = true -> opens "/dev/can" = true ->
  can_getobjbyname etc_canobj (str "TESTRW") tt = Done (Some obj) tt ->
  can_gethostbyname etc_canhosts host tt = Done (Some ch) tt ->
  o_id obj mod 2 ^ 10 = CANOBJ_TESTRW -> tr_ready (t_lib s) -> tr_back net = [] ->
  0 < n < 2 ^ 31 -> n <= Z.of_nat rounds ->
  wp (canping rounds (S fuel) 1 n host) (fun code s' =>
    code = 0 /\ tr_val (lib_fd (t_lib s')) = n - 1 /\
    t_out s' = rev (ping_output ch (Z.to_nat n) net (t_clock s)) ++ t_out s) s.
Proof.
  intros net Hop1 Hmap Hop2 Hobj Hhost Ho Hr Hb Hn Hrounds. unfold canping, with_etc. rewrite wp_bind, wp_zoom.
  unfold wp at 1. rewrite Hobj, Hop1, Hmap, Hop2. cbn [negb]. rewrite wp_bind, wp_zoom. unfold wp at 1. rewrite Hhost.
  rewrite wp_bind. unfold printf. rewrite wp_modify.
  eapply wp_mono; [apply canping_loop_answered; try done; lia|].
  intros code s' (-> & Ev & Eo). rewrite (proj2 (Z.ltb_lt 0 n)) in Ev by lia.
  rewrite (proj2 (Z.ltb_lt _ _)) by lia. split; [done|]. split; [rewrite Ev; lia|].
  rewrite Eo. unfold ping_output. cbn [rev t_out t_lib t_clock]. by rewrite <- app_assoc.
Qed.

(** The three ways to write the option with its argument. *)
Definition count_argv (prog host d : cstring) : list (list cstring) :=
  [[prog; str "-c"; d; host]; [prog; str "-c" ++ d; host]; [prog; host; str "-c"; d]].

Lemma count_getopt prog host n argv : operand host -> 0 < n < 2 ^ 31 ->
  argv ∈ count_argv prog host (dec_string 10 n []) ->
  getopt ping_spec argv = ([Opt 99 (Some (dec_string 10 n []))], [host]).
Proof.
  intros Hh Hn Hin. destruct (dec_string_head 10 n []) as (c & d & Ed & Hc); [cbn; lia|].
  assert (Ehost : getopt_args ping_spec None [host] = ([], [host])) by (by rewrite getopt_operand).
  unfold count_argv in Hin. rewrite !elem_of_cons in Hin. unfold getopt.
  destruct Hin as [->|[->|[->|[]%elem_of_nil]]].
  - change (str "-c") with [45; 99]. cbn [getopt_args]. change (45 =? dash) with true.
    change (99 =? dash) with false. change (getopt_chars ping_spec [99]) with (@nil optev, Some 99).
    cbn [negb andb]. cbn [getopt_args] in Ehost |- *. by rewrite Ehost.
  - rewrite Ed. change (str "-c" ++ c :: d) with (45 :: 99 :: c :: d).
    rewrite (getopt_options _ _ [Opt 99 (Some (c :: d))]); [by rewrite Ehost|].
    exists 99, (c :: d). split; [done|]. split; [done|]. reflexivity.
  - rewrite getopt_operand by done. reflexivity.
Qed.

(** C35. Pinging a node. If the node answers TESTRW, canping with the option -c
    and a number n, however the two are written and wherever they stand, prints
    a heading and n lines with the sequence numbers 0 to n - 1 and the times
    between two readings of the clock. A line ends with a complaint, which shows
    both numbers, exactly when the word the node had was not the sequence number
    before because another node had written it meanwhile. The program leaves
    n - 1 in the node's word and exits with 0. *)
Theorem canping_counts rounds fuel n prog host argv obj ch s :
  let net := lib_fd (t_lib s) in
  argv ∈ count_argv prog host (dec_string 10 n []) -> operand host ->
  opens "/dev/elan" = true -> elan_maps = true -> opens "/dev/can" = true ->
  can_getobjbyname etc_canobj (str "TESTRW") tt = Done (Some obj) tt ->
  can_gethostbyname etc_canhosts host tt = Done (Some ch) tt ->
  o_id obj mod 2 ^ 10 = CANOBJ_TESTRW -> tr_ready (t_lib s) -> tr_back net = [] ->
  0 < n < 2 ^ 31 -> n <= Z.of_nat rounds ->
  wp (canping_main rounds (S fuel) argv) (fun code s' =>
    code = 0 /\ tr_val (lib_fd (t_lib s')) = n - 1 /\
    t_out s' = rev (ping_output ch (Z.to_nat n) net (t_clock s)) ++ t_out s) s.
Proof.
  intros net Hargv Hop ? ? ? ? ? ? ? ? Hn ?. unfold canping_main.
  rewrite (count_getopt prog host n argv Hop Hn Hargv). cbn [ping_opts].
  change (99 =? 102) with false. cbv iota. rewrite wp_bind, wp_ret. cbn [default].
  unfold default, id. rewrite atoi_dec by lia. by apply (canping_answered rounds fuel n host obj ch).
Qed.
End canping.

(** ** cansnoop *)

(** Packets cansnoop cannot print. With readable tables in /etc, decode()
    prints every packet of at most eight bytes that is not older than the one
    before and remembers its time; a packet whose header announces more is
    read beyond its end, and a smaller time stamp, as after a wrap-around of
    the driver's clock, ends the program by its assertion. *)
Theorem decode_outcome {F : CanFd} {E : Errno F} {T : ToolEnv} pkt nohb st (s : tool (F := F)) :
  (forall c m n, exists o, can_gethostbyaddr etc_canhosts c m n tt = Done o tt) ->
  (forall id, exists o, can_getobjbyid etc_canobj id tt = Done o tt) ->
  nohb && (extf Ext.object pkt =? CANOBJ_HEARTBEAT) = false -> 4 <= canf Can.length pkt ->
  match decode pkt nohb st s with
  | Done st' s' => last_stamp st <= timestamp pkt /\ canf Can.length pkt <= 8 /\
      last_stamp st' = timestamp pkt /\ (length (t_out s') = length (t_out s) + 5)%nat /\
      t_lib s' = t_lib s
  | Fault f => timestamp pkt < last_stamp st /\ f = Panic \/
      last_stamp st <= timestamp pkt /\ 8 < canf Can.length pkt /\ f = OutOfBounds
  end.
Proof.
  intros Hh Ho Hn Hl. unfold decode. rewrite Hn. cbv zeta.
  rewrite (proj2 (Z.ltb_ge _ 4)) by done.
  unfold mbind, eff_bind, printf, modify, with_etc, zoom.
  destruct (Z.ltb_spec (timestamp pkt) (last_stamp st)); [by left|].
  destruct (Hh (extf Ext.cluster pkt) (extf Ext.module pkt) (extf Ext.node pkt)) as [h ->].
  unfold obj_to_str, mbind, eff_bind, with_etc, zoom.
  destruct (Ho (extf Ext.object pkt)) as [o Eo].
  destruct h as [ch|], (_ || _ || _); rewrite ?Eo; unfold mret, eff_ret; cbn [t_out t_lib];
    (destruct (Z.ltb_spec 8 (canf Can.length pkt)); [by right|]);
    cbn [t_out t_lib last_stamp length]; (split; [lia|split; [lia|split; [reflexivity|split; [lia|reflexivity]]]]).
Qed.

(** * Example: three pings of node3 *)

#[local] Instance no_errno : Errno tr_fd := {| errno := fun _ => 0 |}.
#[local] Instance every_millisecond : ElanClock := {| reading := fun n => 1000000 * Z.of_nat n |}.
#[local] Instance demo_etc : ToolEnv := {|
  opens := fun _ => true; elan_maps := true;
  etc_canobj := Some (str "0x3ff TESTRW" ++ [10]);
  etc_canhosts := Some (str "0,0,3 node3" ++ [10]);
  req_stack := 0;
  dat_stack := 0
|}.

(** Another node writes 40 before the third request. *)
Lemma canping_counts_witness :
  wp (canping_main 3 1 [str "canping"; str "node3"; str "-c"; str "3"]) (fun code s' =>
      code = 0 /\ tr_val (lib_fd (t_lib s')) = 2 /\
      map fst (t_out s') = [" <-- response (%lu) != seq - 1 (%lu)\n"; "%s from (0x%x,0x%x,0x%x) seq=%lu time=%1.3f ms";
        "\n"; "%s from (0x%x,0x%x,0x%x) seq=%lu time=%1.3f ms"; "\n"; "%s from (0x%x,0x%x,0x%x) seq=%lu time=%1.3f ms";
        "PING %s: (0x%x,0x%x,0x%x):  WO TESTRW\n"]%string)
    (Tool tr_fd (Lib tr_fd 0 0 zero_packet (TrNet 77 [] [None; None; Some 40])) [] 0).
Proof.
  eapply wp_mono.
  - apply (canping_counts 3 0 3 (str "canping") (str "node3") [str "canping"; str "node3"; str "-c"; str "3"]
      (CanObject 0x3ff (str "TESTRW")) (CanHost 0 0 3 (str "node3"))); try reflexivity; try lia.
    + right. right. left.
    + discriminate.
    + left. reflexivity.
  - intros code s' (Hc & Ef & Eo). split; [exact Hc|]. split; [exact Ef|]. rewrite Eo. reflexivity.
Defined.

Definition no_etc : ToolEnv := {|
  opens := fun _ => true; elan_maps := true; etc_canobj := None; etc_canhosts := None; req_stack := 0; dat_stack := 0
|}.

Lemma decode_outcome_witness :
  match decode (T := no_etc) (CanPacket 9 (fset Can.length 8 0) 0 0) true (Snoop 7 3)
    (Tool tr_fd (Lib tr_fd 0 0 zero_packet (TrNet 0 [] [])) [] 0) with
  | Done st' s' => 7 <= 9 /\ 8 <= 8 /\ last_stamp st' = 9 /\ (length (t_out s') = 5)%nat /\
      t_lib s' = Lib tr_fd 0 0 zero_packet (TrNet 0 [] [])
  | Fault f => 9 < 7 /\ f = Panic \/ 7 <= 9 /\ 8 < 8 /\ f = OutOfBounds
  end.
Proof.
  apply (decode_outcome (T := no_etc) (CanPacket 9 (fset Can.length 8 0) 0 0) true (Snoop 7 3)
    (Tool tr_fd (Lib tr_fd 0 0 zero_packet (TrNet 0 [] [])) [] 0)).
  - intros c m n. exists None. reflexivity.
  - intros id. exists None. reflexivity.
  - reflexivity.
  - vm_compute. discriminate.
Defined.

Lemma canctrl_data_lost_witness :
  canctrl (F := tr_fd) 1 [str "canctrl"; str "wo"; str "TESTRW"; str "node3"; str "0x77"]
    (Tool tr_fd (Lib tr_fd 0 0 zero_packet (TrNet 77 [] [])) [] 0) =
  canctrl (F := tr_fd) 1 [str "canctrl"; str "wo"; str "TESTRW"; str "node3"; str "0x0"]
    (Tool tr_fd (Lib tr_fd 0 0 zero_packet (TrNet 77 [] [])) [] 0).
Proof. exact (canctrl_data_lost 1 (str "canctrl") (str "wo") (str "TESTRW") (str "node3") (str "0x77") _). Defined.
