(* ===== verification/CanToolsDriver.v ===== *)
(** * The command line tools over the driver

    The heartbeat a user sets by name is the one the driver stores and the
    one that is shown by name; what canwhack does to cansnoop. *)

From stdpp Require Import prelude list numbers gmap strings.
From Stdlib Require Import ZArith Lia.
From S2P Require Import Prelude CanTypes Ring Obp World Demo CanSend CanChip Console CanObj CanMain DriverInv DriverTotal DriverFiles DriverSteps FileProps CanLib CanLibProps CanLibDriver CanTools.

Section canhb.
Context {P : Prom} {H : CanHw} {K : Kernel} {T : ToolEnv}.

(** ioctl(fd, CAN_GET_HEARTBEAT, &val) and ioctl(fd, CAN_SET_HEARTBEAT, &val)
    on the open file [p]. *)
Definition hb_get (p : Z) : eff world (option Z) :=
  '(r, v) ← can_ioctl p CAN_GET_HEARTBEAT (Some 0);
  mret (if r <? 0 then None else v).
Definition hb_set (p v : Z) : eff world bool :=
  '(r, _) ← can_ioctl p CAN_SET_HEARTBEAT (Some v); mret (negb (r <? 0)).

Definition canhb_dev (p : Z) (argv : list cstring) : eff (tool (F := dev_can p)) Z :=
  canhb (F := dev_can p) (hb_get p) (hb_set p) argv.

Lemma str2hb_range a v : can_str2hb a = Some v -> 0 <= v < 2 ^ 32.
Proof.
  intros (k & t & Hk & _ & ->)%str2hb_loop_spec.
  assert (Hlt : (k < 32)%nat) by (apply lookup_lt_Some in Hk; exact Hk).
  unfold STATUS_TO_HB. rewrite Z.shiftl_mul_pow2 by lia. lia.
Qed.

Lemma hb_set_spec p v w : hb_set p v w = Done true (set_can_hb_val (u32 v) w).
Proof. reflexivity. Qed.
Lemma hb_get_spec p w : hb_get p w = Done (Some (can_hb_val w)) w.
Proof. reflexivity. Qed.

(** Setting and showing the heartbeat. After canhb with the name of a state,
    in any letter case, the driver's heartbeat is that state, and canhb
    without argument prints its name; both exit with 0. *)
Theorem canhb_roundtrip p prog a v (s : tool (F := dev_can p)) :
  opens "/dev/can" = true -> can_str2hb a = Some v ->
  wp (c ← canhb_dev p [prog; a]; c' ← canhb_dev p [prog]; mret (c, c')) (fun r s' =>
    r = (0, 0) /\ can_hb_val (lib_fd (t_lib s')) = v /\
    exists t, strcaseeq a t = true /\ t_out s' = ("canhb: %s\n", [EStr t]) :: t_out s) s.
Proof.
  intros Hop Ha. pose proof (str2hb_range a v Ha) as Hv.
  destruct (proj2 (hb_names_inverse v a v) Ha) as (t & Et & Heq).
  unfold canhb_dev, canhb. rewrite Hop, Ha. cbn [negb].
  rewrite wp_bind, wp_bind. unfold with_lib at 1, on_fd at 1. rewrite !wp_zoom. unfold wp at 1.
  rewrite hb_set_spec, u32_id by done. rewrite wp_ret, wp_bind, wp_bind.
  unfold with_lib, on_fd. rewrite !wp_zoom. unfold wp at 1.
  cbn [t_lib lib_fd]. rewrite hb_get_spec, wp_bind. unfold with_etc. rewrite wp_zoom. unfold wp at 1.
  change (can_hb_val (set_can_hb_val v (lib_fd (t_lib s)))) with v. rewrite Et.
  unfold printf. rewrite wp_bind, wp_modify, !wp_ret. split; [done|]. split; [done|].
  exists t. by split.
Qed.
End canhb.

(** ** cansnoop -p and canwhack

    Two tools on two open files of the same device. *)
Section snoop.
Context {P : Prom} {PS : PromStrings P} {H : CanHw} {K : Kernel} {T : ToolEnv}.
Implicit Types w : world.

(** ioctl(fd, cmd) on the open file [p]. *)
Definition dev_do (p : Z) (cmd : can_cmd) : eff world bool :=
  '(r, _) ← can_ioctl p cmd (Some 0); mret (negb (r <? 0)).

Lemma set_snoopy_spec p fs w : heap w !! p = Some fs ->
  dev_do p CAN_SET_SNOOPY w = Done true (set_heap (<[p := set_snoopy 1 fs]> (heap w)) w).
Proof.
  intros Hh. unfold dev_do, can_ioctl, get_fs, put_fs, mbind, eff_bind, gets. by rewrite Hh.
Qed.

(** The first file in promiscuous mode opens the filter of the chip. *)
Lemma dev_set_promiscuous_spec p fs w f : heap w !! p = Some fs -> promiscuous_usecount w = 0 ->
  frame_ok f -> irq_installed w = true ->
  wp (dev_do p CAN_SET_PROMISCUOUS) (fun ok w' => ok = true /\
    heap w' = <[p := set_promiscuous 1 fs]> (heap w) /\ can_nodeid w' = can_nodeid w /\
    promiscuous_usecount w' = 1 /\ accepts (io w') f = true /\ irq_installed w' = true) w.
Proof.
  intros Hh Hn Hf Hi. unfold dev_do, can_ioctl.
  rewrite wp_bind, wp_bind, wp_get_fs. exists fs. split; [done|].
  rewrite wp_bind, wp_put_fs, wp_bind, wp_gets, wp_bind, wp_modify. ws. rewrite Hn. cbn [Z.eqb].
  set (w1 := set_promiscuous_usecount _ _). rewrite wp_bind. cbn [when]. rewrite wp_bind.
  eapply wp_mono; [apply wp_and; [apply (can_init_filter 1 w1 f Hf); done|apply can_init_82c200_ends]|].
  intros r w' [[Ha _] (_ & Hirq & tr & i & ft & ->)]. rewrite wp_skip, !wp_ret.
  split; [done|]. split; [done|]. split; [done|]. split; [done|]. split; [exact Ha|]. by apply Hirq.
Qed.

(** Resetting the chip closes it again, whoever asked for it to be open. *)
Lemma set_reset_spec q w f : frame_ok f -> irq_installed w = true ->
  wp (dev_do q CAN_SET_RESET) (fun ok w' => ok = true /\ heap w' = heap w /\
    promiscuous_usecount w' = promiscuous_usecount w /\
    accepts (io w') f = (fget Can.dest f.1.1 =? UNPACK_NODE (can_nodeid w))) w.
Proof.
  intros Hf Hi. unfold dev_do, can_ioctl. rewrite wp_bind, wp_bind.
  eapply wp_mono; [apply wp_and; [apply (can_init_filter 0 w f Hf); done|apply can_init_82c200_frame]|].
  intros r w' [[Ha _] (tr & i & ft & ->)]. rewrite !wp_ret. done.
Qed.

(** canwhack blinds cansnoop. After the set-up of cansnoop -p, the first
    user of promiscuous mode, the chip takes every frame off the bus and every
    packet the driver delivers goes to cansnoop's file. If canwhack then runs
    on another open file, which resets the chip and reports success, only
    frames for this node are taken, although cansnoop's file is still marked
    promiscuous and still counted. *)
Theorem canwhack_blinds_snoop p q fs f (s : tool (F := dev_can p)) :
  let w := lib_fd (t_lib s) in
  opens "/dev/can" = true -> heap w !! p = Some fs -> promiscuous_usecount w = 0 ->
  irq_installed w = true -> frame_ok f ->
  wp (ok ← with_lib (on_fd (F := dev_can p) (dev_do p CAN_SET_SNOOPY));
      o ← snoop_args (F := dev_can p) (dev_do p CAN_SET_PROMISCUOUS) [str "-p"] false; mret (ok, o))
    (fun r s1 => let w1 := lib_fd (t_lib s1) in
      r = (true, Some false) /\ accepts (io w1) f = true /\
      (exists fs1, heap w1 !! p = Some fs1 /\ forall pkt, wants w1 pkt fs1 = true) /\
      forall s2 : tool (F := dev_can q), lib_fd (t_lib s2) = w1 ->
        wp (canwhack (F := dev_can q) (dev_do q CAN_SET_RESET)) (fun c s3 =>
          let w3 := lib_fd (t_lib s3) in
          c = 0 /\ accepts (io w3) f = (fget Can.dest f.1.1 =? UNPACK_NODE (can_nodeid w1)) /\
          heap w3 = heap w1 /\ promiscuous_usecount w3 = 1) s2) s.
Proof.
  cbv zeta. intros Hop Hh Hn Hi Hf. rewrite wp_bind. unfold with_lib at 1, on_fd at 1. rewrite !wp_zoom.
  unfold wp at 1. rewrite (set_snoopy_spec p fs) by done. cbn [snoop_args].
  rewrite bool_decide_true by done. rewrite wp_bind, wp_bind. unfold with_lib, on_fd. rewrite !wp_zoom.
  set (w1 := set_heap _ _).
  assert (Hp : heap w1 !! p = Some (set_snoopy 1 fs)) by (unfold w1; ws; apply lookup_insert_eq).
  eapply wp_mono; [by apply (dev_set_promiscuous_spec p (set_snoopy 1 fs) w1 f)|].
  intros ok w2 (-> & Hw2 & Hid & Hn2 & Ha & Hi2). cbn [negb when].
  rewrite wp_bind, wp_skip, wp_ret, wp_ret. cbn [t_lib lib_fd].
  split; [done|]. split; [done|]. split.
  { exists (set_promiscuous 1 (set_snoopy 1 fs)). rewrite Hw2, lookup_insert_eq. split; [done|].
    intros pkt. unfold wants. cbn. by rewrite orb_true_r. }
  intros s2 E2. unfold canwhack. rewrite Hop. cbn [negb]. rewrite wp_bind. unfold with_lib, on_fd.
  rewrite !wp_zoom, E2. eapply wp_mono; [by apply (set_reset_spec q w2 f)|].
  intros ok w3 (-> & Hh3 & Hn3 & Ha3). cbn [negb]. rewrite wp_bind. unfold printf. rewrite wp_modify, wp_ret.
  cbn [t_lib lib_fd]. split; [done|]. split; [done|]. split; [done|]. by rewrite Hn3.
Qed.
End snoop.

(** * Example *)
#[local] Instance demo_tool_env : ToolEnv := {|
  opens := fun _ => true; elan_maps := true; etc_canobj := None; etc_canhosts := None; req_stack := 0; dat_stack := 0
|}.

Lemma canhb_roundtrip_witness :
  wp (c ← canhb_dev 4096 [str "canhb"; str "OS called PANIC"]; c' ← canhb_dev 4096 [str "canhb"];
      mret (c, c')) (fun r s' => r = (0, 0) /\ can_hb_val (lib_fd (t_lib s')) = 20)
    (Tool (dev_can (P := demo_prom) (H := ready_chip) (K := demo_kernel) 4096)
       (Lib (dev_can (P := demo_prom) (H := ready_chip) (K := demo_kernel) 4096) 0 0 zero_packet demo_world) [] 0).
Proof.
  eapply wp_mono.
  - apply (canhb_roundtrip (P := demo_prom) (H := ready_chip) (K := demo_kernel) (T := demo_tool_env) 4096 (str "canhb")
      (str "OS called PANIC") 20 _ eq_refl).
    vm_compute. reflexivity.
  - intros r s' (Hr & Hv & _). exact (conj Hr Hv).
Defined.

Definition whack_world : @world demo_prom := set_irq_installed true demo_two.

Definition whack_tool : tool (F := dev_can (H := quiet_chip) (K := demo_kernel) 4096) :=
  Tool (dev_can (H := quiet_chip) (K := demo_kernel) 4096)
    (Lib (dev_can (H := quiet_chip) (K := demo_kernel) 4096) 0 0 zero_packet whack_world) [] 0.

Lemma heap_irq v (w : @world demo_prom) : heap (set_irq_installed v w) = heap w.
Proof. reflexivity. Qed.
Lemma whack_world_file : exists fs, heap whack_world !! 4096 = Some fs.
Proof.
  destruct (demo_held 4096 256) as (fs & Efs & _); [vm_compute; reflexivity|].
  exists fs. unfold whack_world. rewrite heap_irq. exact Efs.
Qed.
Lemma whack_world_count : promiscuous_usecount whack_world = 0.
Proof. vm_compute. reflexivity. Qed.

(** A frame for node 9 while this is node 5. *)
Lemma canwhack_blinds_snoop_witness :
  wp (ok ← with_lib (on_fd (F := dev_can (H := quiet_chip) (K := demo_kernel) 4096)
             (dev_do (H := quiet_chip) (K := demo_kernel) 4096 CAN_SET_SNOOPY));
      o ← snoop_args (F := dev_can (H := quiet_chip) (K := demo_kernel) 4096)
            (dev_do (H := quiet_chip) (K := demo_kernel) 4096 CAN_SET_PROMISCUOUS) [str "-p"] false; mret (ok, o))
    (fun r s1 => r = (true, Some false) /\
       accepts (io (lib_fd (t_lib s1))) (fset Can.dest 9 0, 0, 0) = true) whack_tool.
Proof.
  destruct whack_world_file as [fs Efs]. eapply wp_mono.
  - apply (canwhack_blinds_snoop (H := quiet_chip) (K := demo_kernel) (T := demo_tool_env) 4096 8192 fs
      (fset Can.dest 9 0, 0, 0) whack_tool); [reflexivity|exact Efs|exact whack_world_count|reflexivity|].
    vm_compute. repeat split; discriminate || reflexivity.
  - intros r s1 (Hr & Ha & _). exact (conj Hr Ha).
Defined.
