(* ===== verification/CanconMain.v ===== *)
(** * The console client from main() (cmd/cancon.c)

    The options, the set-up of the static variables, the connection, and the
    terminal, up to where main() waits for the tty reader; then the process as
    a transition system: the rounds of the three threads, the signals, the
    disconnect() threads with the signals they send, and what main() does as
    the threads end. *)

From stdpp Require Import prelude list numbers strings.
From Stdlib Require Import ZArith Lia.
From S2P Require Import Prelude CanTypes Obp CanLib Getopt CanTools Cancon.

(** ** Terminals *)

Definition MAXFD : Z := 8.

(** The attributes of a terminal, and the functions of the C library on them;
    [min_time]: the entries VMIN and VTIME of c_cc. *)
Class Termios := {
  termios : Type;
  isatty : Z -> bool;
  cfmakeraw : termios -> termios;
  min_time : Z -> Z -> termios -> termios
}.

(** The attributes of the terminal behind each descriptor, and the static
    array of saved ones. *)
Record ttys {X : Termios} := Ttys { tattr : Z -> termios; saved : list termios }.

Section tty_mode.
Context {X : Termios}.

(** tcsetattr(fd, TCSAFLUSH, ..) *)
Definition tcsetattr (fd : Z) (t : termios) : eff ttys unit :=
  modify (fun s => Ttys _ (fun d => if d =? fd then t else tattr s d) (saved s)).

Definition set_tty_mode (fd raw : Z) : eff ttys unit :=
  if negb (isatty fd) then skip
  else if negb ((0 <=? fd) && (fd <? MAXFD)) then fail Panic
  else if negb (raw =? 0) then
    t ← gets (fun s => tattr s fd);
    modify (fun s => Ttys _ (tattr s) (<[Z.to_nat fd := t]> (saved s))) ;;
    tcsetattr fd (min_time 4 1 (cfmakeraw t))
  else
    l ← gets saved;
    t ← the OutOfBounds (l !! Z.to_nat fd);
    tcsetattr fd t.
End tty_mode.

(** ** The process *)

Inductive thread := ReaderThread | TtyReaderThread | WriterThread.
Definition SIGHUP : Z := 1.
Definition SIGINT : Z := 2.
Definition SIGTERM : Z := 15.

(** The static variables and what the threads share, the terminals, the
    signals caught by sighandler(), the threads started (last first). *)
Record process {F : CanFd} {X : Termios} := Process {
  p_con : cancon (F := F);
  p_ttys : ttys;
  p_signals : list Z;
  p_threads : list thread
}.

Section setters.
Context {F : CanFd}.
Implicit Types s : cancon.
Definition set_fopt (v : Z) s : cancon :=
  Cancon F (cc_lib s) (acks s) (chars s) (console_object s) (target_ch s) (cc_consobj s) (cc_nodeid s) (resetobj s) v (cc_ack s) (hist0 s) (hist1 s) (out s) (err s) (disconnects s) (syncs s) (stack_word s).
Definition set_resetobj (v : canobj) s : cancon :=
  Cancon F (cc_lib s) (acks s) (chars s) (console_object s) (target_ch s) (cc_consobj s) (cc_nodeid s) v (fopt s) (cc_ack s) (hist0 s) (hist1 s) (out s) (err s) (disconnects s) (syncs s) (stack_word s).
Definition set_cc_nodeid (v : Z) s : cancon :=
  Cancon F (cc_lib s) (acks s) (chars s) (console_object s) (target_ch s) (cc_consobj s) v (resetobj s) (fopt s) (cc_ack s) (hist0 s) (hist1 s) (out s) (err s) (disconnects s) (syncs s) (stack_word s).
Definition set_cc_consobj (v : Z) s : cancon :=
  Cancon F (cc_lib s) (acks s) (chars s) (console_object s) (target_ch s) v (cc_nodeid s) (resetobj s) (fopt s) (cc_ack s) (hist0 s) (hist1 s) (out s) (err s) (disconnects s) (syncs s) (stack_word s).
Definition set_target_ch (v : canhostname) s : cancon :=
  Cancon F (cc_lib s) (acks s) (chars s) (console_object s) v (cc_consobj s) (cc_nodeid s) (resetobj s) (fopt s) (cc_ack s) (hist0 s) (hist1 s) (out s) (err s) (disconnects s) (syncs s) (stack_word s).
End setters.

Section main.
Context {F : CanFd} {X : Termios} {T : ToolEnv} {Th : Threads F} (wait_fuel : nat).
Abbreviation M := (eff process).
Implicit Types s : process.

Definition on_con {A} (m : eff cancon A) : M A :=
  zoom p_con (fun c s => Process _ _ c (p_ttys s) (p_signals s) (p_threads s)) m.
Definition on_ttys {A} (m : eff ttys A) : M A :=
  zoom p_ttys (fun t s => Process _ _ (p_con s) t (p_signals s) (p_threads s)) m.

(** sighandler() starts the disconnect() thread. *)
Definition xsignal (signal : Z) : M unit :=
  modify (fun s => Process _ _ (p_con s) (p_ttys s) (signal :: p_signals s) (p_threads s)).
Definition sighandler : eff cancon unit := start_disconnect.
Definition pthread_create (t : thread) : M unit :=
  modify (fun s => Process _ _ (p_con s) (p_ttys s) (p_signals s) (t :: p_threads s)).

(** A message on stderr and the exit code. *)
Definition leave (code : Z) (fmt : string) (args : list earg) : M Z :=
  on_con (eprintf fmt args) ;; mret code.
Definition usage : M Z := leave 1 "Usage:  cancon [-f] node\n" [].

(** getopt(argc, argv, "f"); false for usage() *)
Definition con_spec : optspec := fun c => if c =? 102 then Some false else None.
Fixpoint con_opts (evs : list optev) : M bool :=
  match evs with
  | [] => mret true
  | Opt _ _ :: evs' => on_con (modify (set_fopt 1)) ;; con_opts evs'
  | BadOpt c lacks :: _ =>
      on_con (eprintf (if lacks then "%s: option requires an argument -- '%c'\n"
                       else "%s: invalid option -- '%c'\n") [EInt c]) ;;
      mret false
  end.

(** The static variables: [None] when they are set up, else the exit code.
    [get_consobj]: ioctl(fd, CAN_GET_CONSOBJ, ..). The message about an unknown
    host names argv[1]. *)
Definition con_setup (get_consobj : eff fd_st (option Z)) (argv : list cstring) (host : cstring)
    : M (option Z) :=
  o ← on_con (with_files (can_getobjbyname etc_canobj (str "RESET")));
  match o with
  | None => c ← leave 1 "cancon: could not look up RESET CAN object\n" []; mret (Some c)
  | Some obj =>
      on_con (modify (set_resetobj obj)) ;;
      if negb (opens "/dev/can") then c ← leave 1 "/dev/can" []; mret (Some c)
      else
        id ← on_con (on_lib (on_fd fd_ioctl_addr));
        match id with
        | None => c ← leave (-1) "ioctl CAN_GET_ADDR" []; mret (Some c)
        | Some id =>
            on_con (modify (set_cc_nodeid id)) ;;
            obj ← on_con (on_lib (on_fd get_consobj));
            match obj with
            | None => c ← leave (-1) "ioctl CAN_GET_CONSOBJ" []; mret (Some c)
            | Some obj =>
                on_con (modify (set_cc_consobj obj)) ;;
                ch ← on_con (with_files (can_gethostbyname canhosts host));
                match ch with
                | None =>
                    a ← the NullDeref (argv !! 1%nat);
                    c ← leave 1 "cancon: %s: unknown can host\n" [EStr a]; mret (Some c)
                | Some ch =>
                    on_con (modify (set_target_ch ch)) ;;
                    on_con (modify (fun c => set_out (out c ++ str "hostname " ++ hostname ch ++ [10]) c)) ;;
                    mret None
                end
            end
        end
  end.

(** main() up to the first pthread_join(): the exit code, or [None] when
    main() waits for the tty reader. *)
Definition cancon_start (get_consobj : eff fd_st (option Z)) (argv : list cstring) : M (option Z) :=
  let '(evs, ops) := getopt con_spec argv in
  ok ← con_opts evs;
  match ok, ops with
  | true, [host] =>
      c ← con_setup get_consobj argv host;
      match c with
      | Some code => mret (Some code)
      | None =>
          pthread_create ReaderThread ;;
          r ← on_con (connect_protocol wait_fuel);
          if negb (r =? -1) then
            xsignal SIGINT ;;
            xsignal SIGHUP ;;
            on_ttys (set_tty_mode 0 1) ;;
            pthread_create TtyReaderThread ;;
            pthread_create WriterThread ;;
            mret None
          else mret (Some 0)
      end
  | _, _ => c ← usage; mret (Some c)
  end.
End main.

(** ** The life of the process *)

#[export] Instance thread_eq_dec : EqDecision thread.
Proof. solve_decision. Defined.

Inductive ending := Exited (code : Z) | Killed (sig : Z).

(** The pthread_join() main() is in. *)
Inductive join := JoinTtyReader | JoinWriter | JoinReader.
#[export] Instance join_eq_dec : EqDecision join.
Proof. solve_decision. Defined.

(** The process, the threads that have ended, where main() waits, the signals
    sent to threads of the process that nobody catches, the number of
    disconnect() threads that have run, and how the process ended. *)
Record life {F : CanFd} {X : Termios} := Life {
  l_proc : process (F := F);
  l_ended : list thread;
  l_main : join;
  l_fatal : list Z;
  l_ran : Z;
  l_end : option ending
}.

(** What can happen: a signal from outside; a round of tty_reader() with what
    read() returned, its end; a round of writer(), of reader(); a disconnect()
    thread runs; a signal takes its default action, which ends the process;
    the thread main() waits for has ended. *)
Inductive life_event :=
  | Signalled (sig : Z) | TtyRound (buf : list Z) | TtyEnd | WriterRound | ReaderRound
  | Disconnect | Dies (sig : Z) | Joined.

Section life.
Context {F : CanFd} {X : Termios} {Th : Threads F} (wait_fuel : nat).
Abbreviation L := (eff life).
Implicit Types s : life (F := F).

Definition set_proc (p : process) s : life := Life _ _ p (l_ended s) (l_main s) (l_fatal s) (l_ran s) (l_end s).
Definition set_ended v s : life := Life _ _ (l_proc s) v (l_main s) (l_fatal s) (l_ran s) (l_end s).
Definition set_main v s : life := Life _ _ (l_proc s) (l_ended s) v (l_fatal s) (l_ran s) (l_end s).
Definition set_fatal v s : life := Life _ _ (l_proc s) (l_ended s) (l_main s) v (l_ran s) (l_end s).
Definition set_ran v s : life := Life _ _ (l_proc s) (l_ended s) (l_main s) (l_fatal s) v (l_end s).
Definition set_end v s : life := Life _ _ (l_proc s) (l_ended s) (l_main s) (l_fatal s) (l_ran s) v.

Definition in_proc {A} (m : eff process A) : L A := zoom l_proc set_proc m.
Definition in_con {A} (m : eff cancon A) : L A := in_proc (on_con m).

(** Only a state with [b] goes on. *)
Definition await (b : life -> bool) : L unit := fun s => if b s then Done tt s else Fault Blocked.

(** A signal to the process or one of its threads: the handler runs, or the
    default action, which is to end the process, is under way. *)
Definition send_signal (sig : Z) : L unit :=
  caught ← gets (fun s => p_signals (l_proc s));
  if bool_decide (sig ∈ caught) then in_con sighandler
  else modify (fun s => set_fatal (sig :: l_fatal s) s).

(** pthread_kill(): ESRCH for a thread that has ended. *)
Definition pthread_kill (t : thread) (sig : Z) : L unit :=
  started ← gets (fun s => p_threads (l_proc s));
  ended ← gets l_ended;
  if negb (bool_decide (t ∈ started)) then fail Uninit
  else if bool_decide (t ∈ ended) then skip
  else send_signal sig.

Definition disconnect : L unit :=
  in_con (eprintf "\r\nCleaning up..." []) ;;
  pthread_kill TtyReaderThread SIGTERM ;;
  pthread_kill WriterThread SIGTERM ;;
  in_con (co ← gets console_object; send_disconnect wait_fuel co ;; skip) ;;
  pthread_kill ReaderThread SIGTERM.

Definition runs (t : thread) : L unit := await (fun s => negb (bool_decide (t ∈ l_ended s))).
Definition ends (t : thread) : L unit := modify (fun s => set_ended (t :: l_ended s) s).

(** main() behind each pthread_join(). *)
Definition main_goes_on : L unit :=
  m ← gets l_main;
  match m with
  | JoinTtyReader =>
      await (fun s => bool_decide (TtyReaderThread ∈ l_ended s)) ;;
      in_proc (on_ttys (set_tty_mode 0 0)) ;;
      modify (set_main JoinWriter)
  | JoinWriter =>
      await (fun s => bool_decide (WriterThread ∈ l_ended s)) ;;
      modify (set_main JoinReader)
  | JoinReader =>
      await (fun s => bool_decide (ReaderThread ∈ l_ended s)) ;;
      modify (set_end (Some (Exited 0)))
  end.

Definition life_handle (e : life_event) : L unit :=
  await (fun s => if l_end s is None then true else false) ;;
  match e with
  | Signalled sig => send_signal sig
  | TtyRound buf => runs TtyReaderThread ;; in_con (tty_read wait_fuel buf)
  | TtyEnd => runs TtyReaderThread ;; ends TtyReaderThread
  | WriterRound => runs WriterThread ;; in_con (writer_once wait_fuel)
  | ReaderRound =>
      runs ReaderThread ;;
      go ← in_con reader_once;
      if (go : bool) then skip else ends ReaderThread
  | Disconnect =>
      await (fun s => l_ran s <? disconnects (p_con (l_proc s))) ;;
      modify (fun s => set_ran (l_ran s + 1) s) ;;
      disconnect
  | Dies sig =>
      await (fun s => bool_decide (sig ∈ l_fatal s)) ;;
      modify (set_end (Some (Killed sig)))
  | Joined => main_goes_on
  end.

Definition life_step s s' : Prop := exists e, life_handle e s = Done tt s'.

(** The process when main() has started the threads. *)
Definition born (p : process) : life := Life _ _ p [] JoinTtyReader [] 0 None.
End life.
