(* ===== verification/CanconSession.v ===== *)
(** * What main() of cancon does (cmd/cancon.c)

    The whole program against the node of CanconConnect.v: which argument
    vectors connect to the console, which threads run then, and what becomes of
    the process and the terminal after that. *)

From stdpp Require Import prelude list numbers strings.
From Stdlib Require Import ZArith Lia.
From S2P Require Import Prelude CanTypes Obp CanLib Getopt CanTools Cancon CanconProps ConsoleNode CanconConnect CanconMain.

(** ** The terminal *)

Section tty.
Context {X : Termios}.
Implicit Types s : ttys.

(** The attributes of raw mode. *)
Definition raw_mode (t : termios) : termios := min_time 4 1 (cfmakeraw t).

Definition attrs_if (raw : bool) (old : Z -> termios) (d : Z) : termios :=
  if (d =? 0) && isatty 0 && raw then raw_mode (old 0) else old d.

(** Into raw mode: the attributes before are kept. *)
Lemma enter_raw s : Z.of_nat (length (saved s)) = MAXFD ->
  wp (set_tty_mode 0 1) (fun _ s' => (forall d, tattr s' d = attrs_if true (tattr s) d) /\
    (isatty 0 = true -> saved s' !! 0%nat = Some (tattr s 0))) s.
Proof.
  intros Hl. unfold set_tty_mode, attrs_if. destruct (isatty 0) eqn:Et; cbn [negb].
  2:{ rewrite wp_skip. split; [|done]. intros d. by rewrite andb_false_r. }
  cbn [Z.leb Z.ltb Z.compare andb negb Z.eqb]. change (0 <? MAXFD) with true. cbn [negb andb].
  unfold tcsetattr. rewrite wp_bind, wp_gets, wp_bind, wp_modify, wp_modify. cbn [tattr saved]. split.
  - intros d. rewrite !andb_true_r. by destruct (Z.eqb_spec d 0) as [->|].
  - intros _. apply list_lookup_insert_eq. unfold MAXFD in *. lia.
Qed.

(** ... and back. *)
Lemma leave_raw old s : (forall d, tattr s d = attrs_if true old d) ->
  (isatty 0 = true -> saved s !! 0%nat = Some (old 0)) ->
  wp (set_tty_mode 0 0) (fun _ s' => forall d, tattr s' d = old d) s.
Proof.
  intros Ha Hs. unfold set_tty_mode, attrs_if in *. destruct (isatty 0) eqn:Et; cbn [negb].
  2:{ rewrite wp_skip. intros d. by rewrite Ha, andb_false_r. }
  cbn [Z.leb Z.compare andb negb Z.eqb]. change (0 <? MAXFD) with true. cbn [negb andb].
  rewrite wp_bind, wp_gets, wp_bind, wp_the. exists (old 0). split; [by apply Hs|].
  unfold tcsetattr. rewrite wp_modify. cbn [tattr]. intros d.
  destruct (Z.eqb_spec d 0) as [->|Hd]; [done|]. rewrite Ha. by rewrite (proj2 (Z.eqb_neq d 0) Hd).
Qed.
End tty.

(** ** The arguments *)

(** The ways to write the arguments, with or without -f. *)
Definition con_argv (f : bool) (prog host : cstring) : list (list cstring) :=
  if f then [[prog; str "-f"; host]; [prog; host; str "-f"]] else [[prog; host]].

Lemma con_getopt f prog host argv : operand host -> argv ∈ con_argv f prog host ->
  getopt con_spec argv = (if f then [Opt 102 None] else [], [host]).
Proof.
  intros Hh Hin. assert (Ehost : getopt_args con_spec None [host] = ([], [host]))
    by (by rewrite getopt_operand).
  unfold con_argv in Hin. destruct f; rewrite ?elem_of_cons, elem_of_nil in Hin; unfold getopt.
  - assert (Ho : options con_spec (str "-f") [Opt 102 None]) by (exists 102, []; done).
    destruct Hin as [->|[->|[]]].
    + by rewrite (getopt_options _ _ _ _ Ho), Ehost.
    + rewrite (getopt_permutes _ _ _ _ _ Hh Ho). by rewrite (getopt_options _ _ _ _ Ho), Ehost.
  - by destruct Hin as [->|[]].
Qed.

(** ** The life of the process *)

Section life.
Context {F : CanFd} {X : Termios} {Th : Threads F} (wait_fuel : nat).
Implicit Types s : life (F := F).

(** What holds of a process that started with the attributes [old], when [ran]
    disconnect() threads have run; [doomed]: a SIGTERM is under way. *)
Record alive (old : Z -> termios) (doomed : bool) (ran : Z) s : Prop := Alive {
  al_threads : p_threads (l_proc s) = [WriterThread; TtyReaderThread; ReaderThread];
  al_signals : p_signals (l_proc s) = [SIGHUP; SIGINT];
  al_writer : WriterThread ∉ l_ended s;
  al_main : l_main s = JoinTtyReader \/ l_main s = JoinWriter /\ TtyReaderThread ∈ l_ended s;
  al_attrs : forall d, tattr (p_ttys (l_proc s)) d = attrs_if (bool_decide (l_main s = JoinTtyReader)) old d;
  al_saved : isatty 0 = true -> l_main s = JoinTtyReader -> saved (p_ttys (l_proc s)) !! 0%nat = Some (old 0);
  al_fatal : doomed = true -> SIGTERM ∈ l_fatal s;
  al_ran : l_ran s = ran;
  al_end : forall c, l_end s <> Some (Exited c)
}.

(** A computation that keeps an invariant if it ends. *)
Definition keeps {A} (I : life -> Prop) (m : eff life A) : Prop :=
  forall s a s', I s -> m s = Done a s' -> I s'.

Lemma keeps_life_bind {A B} I (m : eff life A) (f : A -> eff life B) :
  keeps I m -> (forall a, keeps I (f a)) -> keeps I (m ≫= f).
Proof.
  intros Hm Hf s b s' Hs. unfold mbind, eff_bind. destruct (m s) as [a s1|] eqn:Em; [|done].
  apply Hf. by eapply Hm.
Qed.
Lemma keeps_life_skip I : keeps I skip.
Proof. by intros s a s' Hs [= _ <-]. Qed.
Lemma keeps_life_gets {A} I (g : life -> A) : keeps I (gets g).
Proof. by intros s a s' Hs [= _ <-]. Qed.
Lemma keeps_await I b : keeps I (await b).
Proof. intros s a s' Hs. unfold await. destruct (b s); [|done]. by intros [= _ <-]. Qed.
Lemma keeps_in_con {A} old b r (m : eff cancon A) : keeps (alive old b r) (in_con m).
Proof.
  intros s a s' [] Hm. unfold in_con, in_proc, on_con, zoom in Hm.
  destruct (m _) as [a' c|]; [|done]. injection Hm as <- <-. by split.
Qed.
Lemma keeps_signal old b r sig : keeps (alive old b r) (send_signal sig).
Proof.
  apply keeps_life_bind; [apply keeps_life_gets|]. intros caught. case_bool_decide; [apply keeps_in_con|].
  intros s [] s' [] [= <-]. split; try done. intros Hb. right. auto.
Qed.
Lemma keeps_kill old b r t sig : keeps (alive old b r) (pthread_kill t sig).
Proof.
  apply keeps_life_bind; [apply keeps_life_gets|]. intros started. apply keeps_life_bind; [apply keeps_life_gets|]. intros ended.
  destruct (negb _); [by intros s a s'|]. case_bool_decide; [apply keeps_life_skip|apply keeps_signal].
Qed.

(** The writer never ends, so the signal to it always dooms the process. *)
Lemma kill_writer old b r s s' : alive old b r s -> pthread_kill WriterThread SIGTERM s = Done tt s' ->
  alive old true r s'.
Proof.
  intros Hs. pose proof Hs as []. unfold pthread_kill, send_signal, mbind, eff_bind, gets.
  rewrite al_threads0, bool_decide_true by (by left). cbn [negb].
  rewrite bool_decide_false by done. unfold mbind, eff_bind, gets. rewrite al_signals0.
  rewrite bool_decide_false by (unfold SIGTERM, SIGHUP, SIGINT; set_solver). intros [= <-]. split; try done. intros _. by left.
Qed.

Lemma disconnect_dooms old b r s s' : alive old b r s -> disconnect wait_fuel s = Done tt s' ->
  alive old true r s'.
Proof.
  intros Hs. unfold disconnect, mbind, eff_bind.
  destruct (in_con (eprintf _ _) s) as [[] s1|] eqn:E1; [|done].
  destruct (pthread_kill TtyReaderThread SIGTERM s1) as [[] s2|] eqn:E2; [|done].
  destruct (pthread_kill WriterThread SIGTERM s2) as [[] s3|] eqn:E3; [|done].
  assert (H3 : alive old true r s3).
  { eapply kill_writer; [|exact E3]. eapply keeps_kill; [|exact E2]. by eapply keeps_in_con. }
  destruct (in_con _ s3) as [[] s4|] eqn:E4; [|done]. intros E5.
  eapply keeps_kill; [|exact E5]. by eapply keeps_in_con.
Qed.

(** Every event keeps it; only a run of disconnect() counts. *)
Definition living old s : Prop := 0 <= l_ran s /\ alive old (0 <? l_ran s) (l_ran s) s.

Lemma living_keeps {A} old (m : eff life A) : (forall b r, keeps (alive old b r) m) -> keeps (living old) m.
Proof.
  intros Hm s a s' [H0 Hs] E. pose proof (Hm _ _ _ _ _ Hs E) as Hs'. unfold living.
  by rewrite (al_ran _ _ _ _ Hs').
Qed.

Lemma keeps_ends old b r t : t <> WriterThread -> keeps (alive old b r) (ends t).
Proof.
  intros Ht s [] s' [] [= <-]. split; try done; cbn.
  - by apply not_elem_of_cons.
  - destruct al_main0 as [?|[? ?]]; [by left|right]. split; [done|]. by right.
Qed.

Lemma keeps_main old b r : keeps (alive old b r) main_goes_on.
Proof.
  intros s [] s' Hs. pose proof Hs as []. unfold main_goes_on, mbind, eff_bind, gets, await.
  destruct al_main0 as [Em|[Em Ht]]; rewrite Em.
  - destruct (bool_decide_reflect (TtyReaderThread ∈ l_ended s)) as [Ht|]; [|done]. unfold in_proc, on_ttys, zoom.
    assert (Ha : forall d, tattr (p_ttys (l_proc s)) d = attrs_if true old d).
    { intros d. by rewrite al_attrs0, bool_decide_true. }
    pose proof (leave_raw old (p_ttys (l_proc s)) Ha (fun E => al_saved0 E Em)) as Hl. unfold wp in Hl.
    destruct (set_tty_mode 0 0 _) as [[] t|]; [|done]. intros [= <-]. split; try done; cbn.
    + by right.
    + intros d. rewrite Hl. unfold attrs_if. by rewrite andb_false_r.
  - rewrite bool_decide_false by done. done.
Qed.

Lemma life_step_living old s s' : living old s -> life_step wait_fuel s s' -> living old s'.
Proof.
  intros Hs [e He]. unfold life_handle in He. unfold mbind at 1, eff_bind at 1, await at 1 in He.
  destruct (l_end s) eqn:Eend; [done|]. revert Hs He.
  assert (Hk : keeps (living old) (match e with Disconnect => skip | _ => 
    match e with
    | Signalled sig => send_signal sig
    | TtyRound buf => runs TtyReaderThread ;; in_con (tty_read wait_fuel buf)
    | TtyEnd => runs TtyReaderThread ;; ends TtyReaderThread
    | WriterRound => runs WriterThread ;; in_con (writer_once wait_fuel)
    | ReaderRound => runs ReaderThread ;; go ← in_con reader_once; if (go : bool) then skip else ends ReaderThread
    | Disconnect => skip
    | Dies sig => await (fun s => bool_decide (sig ∈ l_fatal s)) ;; modify (set_end (Some (Killed sig)))
    | Joined => main_goes_on
    end end)).
  { apply living_keeps. intros b r. destruct e.
    - apply keeps_signal.
    - apply keeps_life_bind; [apply keeps_await|intros; apply keeps_in_con].
    - apply keeps_life_bind; [apply keeps_await|intros; by apply keeps_ends].
    - apply keeps_life_bind; [apply keeps_await|intros; apply keeps_in_con].
    - apply keeps_life_bind; [apply keeps_await|intros _]. apply keeps_life_bind; [apply keeps_in_con|].
      intros []; [apply keeps_life_skip|by apply keeps_ends].
    - apply keeps_life_skip.
    - apply keeps_life_bind; [apply keeps_await|intros _]. intros s0 [] s1 [] [= <-]. by split.
    - apply keeps_main. }
  destruct e; intros Hs He; try (by eapply Hk).
  destruct Hs as [H0 Hs]. unfold mbind, eff_bind, await, modify in He.
  destruct (l_ran s <? _); [|done].
  assert (H1 : alive old (0 <? l_ran s) (l_ran s + 1) (set_ran (l_ran s + 1) s)) by (destruct Hs; by split).
  pose proof (disconnect_dooms _ _ _ _ _ H1 He) as H2. unfold living. rewrite (al_ran _ _ _ _ H2).
  split; [lia|]. by rewrite (proj2 (Z.ltb_lt 0 (l_ran s + 1))) by lia.
Qed.

Lemma living_reachable old s s' : living old s -> rtc (life_step wait_fuel) s s' -> living old s'.
Proof. intros Hs Hr. induction Hr as [|s1 s2 s3 H1 _ IH]; [done|]. by eapply IH, life_step_living. Qed.

Lemma born_living old p : p_threads p = [WriterThread; TtyReaderThread; ReaderThread] ->
  p_signals p = [SIGHUP; SIGINT] -> (forall d, tattr (p_ttys p) d = attrs_if true old d) ->
  (isatty 0 = true -> saved (p_ttys p) !! 0%nat = Some (old 0)) -> living old (born p).
Proof.
  intros Hth Hs Ha Hsv. split; [done|]. split; try done; cbn.
  - apply not_elem_of_nil.
  - by left.
  - intros E _. by apply Hsv.
Qed.

(** What that means for the user, whose terminal had the attributes [old]. *)
Definition fate (old : Z -> termios) s : Prop :=
  (forall c, l_end s <> Some (Exited c)) /\
  (forall d, tattr (p_ttys (l_proc s)) d = attrs_if (bool_decide (l_main s = JoinTtyReader)) old d) /\
  (l_main s <> JoinTtyReader -> TtyReaderThread ∈ l_ended s) /\
  (0 < l_ran s -> l_end s = None -> life_handle wait_fuel (Dies SIGTERM) s = Done tt (set_end (Some (Killed SIGTERM)) s)).

Lemma living_fate old s : living old s -> fate old s.
Proof.
  intros [H0 []]. split; [done|]. split; [done|]. split.
  - intros Hm. destruct al_main0 as [?|[_ ?]]; done.
  - intros Hr He. unfold life_handle, mbind, eff_bind, await. rewrite He.
    by rewrite bool_decide_true by (apply al_fatal0; lia).
Qed.
End life.

(** ** The program *)

Section main.
Context {O : OtherClient} {X : Termios} {T : ToolEnv} (wait_fuel : nat).
Context (old_connected : CANCON_UNCONNECTED old = false) (Hfuel : (3 <= wait_fuel)%nat).
Context (hosts_read : forall c m n, exists o, can_gethostbyaddr hosts_file c m n tt = Done o tt).
Implicit Types s : process (F := net_fd).

Lemma wp_on_con {A} (m : eff cancon A) Q s :
  wp (on_con m) Q s <->
  wp m (fun a c => Q a (Process _ _ c (p_ttys s) (p_signals s) (p_threads s))) (p_con s).
Proof using Type. unfold on_con. by rewrite wp_zoom. Qed.
Lemma wp_on_ttys {A} (m : eff ttys A) Q s :
  wp (on_ttys m) Q s <->
  wp m (fun a t => Q a (Process net_fd X (p_con s) t (p_signals s) (p_threads s))) (p_ttys s).
Proof using Type. unfold on_ttys. by rewrite wp_zoom. Qed.

Lemma wp_create th Q s : wp (pthread_create th) Q s <->
  Q tt (Process net_fd X (p_con s) (p_ttys s) (p_signals s) (th :: p_threads s)).
Proof using Type. unfold pthread_create. by rewrite wp_modify. Qed.
Lemma query_con {A B} (m : eff cancon A) (f : A -> eff process B) a Q s :
  (forall c, m c = Done a c) -> wp (f a) Q s -> wp (on_con m ≫= f) Q s.
Proof using Type. intros Hm Hf. rewrite wp_bind, wp_on_con. unfold wp at 1. rewrite Hm. by destruct s. Qed.
Lemma set_con {B} g (f : unit -> eff process B) Q s :
  wp (on_con (modify g) ≫= f) Q s <->
  wp (f tt) Q (Process net_fd X (g (p_con s)) (p_ttys s) (p_signals s) (p_threads s)).
Proof using Type. by rewrite wp_bind, wp_on_con, wp_modify. Qed.

(** The static variables when main() connects. *)
Definition configured (f : bool) (obj : canobj) (cons : Z) (ch : canhostname) (c : cancon (F := net_fd))
    : cancon (F := net_fd) :=
  let c1 := if f then set_fopt 1 c else c in
  let c2 := set_target_ch ch (set_cc_consobj cons (set_cc_nodeid 5 (set_resetobj obj c1))) in
  set_out (out c2 ++ str "hostname " ++ hostname ch ++ [10]) c2.

Lemma configured_idle f obj cons ch c : idle c -> idle (configured f obj cons ch c).
Proof using Type. intros [? ? ? ?]. by destruct f; split. Qed.

(** con_setup() up to the look-up of the host. *)
Lemma con_setup_host obj cons argv host h (Q : option Z -> process -> Prop) s :
  opens "/dev/can" = true -> can_getobjbyname etc_canobj (str "RESET") tt = Done (Some obj) tt ->
  can_gethostbyname hosts_file host tt = Done h tt ->
  wp (match h with
      | None => a ← the NullDeref (argv !! 1%nat);
          c ← leave 1 "cancon: %s: unknown can host\n" [EStr a]; mret (Some c)
      | Some ch => on_con (modify (set_target_ch ch)) ;;
          on_con (modify (fun c => set_out (out c ++ str "hostname " ++ hostname ch ++ [10]) c)) ;;
          mret None
      end) Q (Process _ _ (set_cc_consobj cons (set_cc_nodeid 5 (set_resetobj obj (p_con s)))) (p_ttys s)
        (p_signals s) (p_threads s)) ->
  wp (con_setup (mret (Some cons)) argv host) Q s.
Proof using Type.
  intros Hop Hobj Hhost HQ. unfold con_setup, with_files, on_lib, on_fd.
  apply (query_con _ _ (Some obj)); [intros c; unfold zoom; by rewrite Hobj|].
  rewrite set_con, Hop. cbn [negb].
  apply (query_con _ _ (Some 5)); [by intros [[]]|]. cbv beta iota. rewrite set_con.
  apply (query_con _ _ (Some cons)); [by intros [[]]|]. cbv beta iota. rewrite set_con.
  apply (query_con _ _ h); [intros c; unfold zoom; cbn [canhosts net_threads]; by rewrite Hhost|].
  exact HQ.
Qed.

Lemma con_setup_done obj cons ch argv host (Q : option Z -> process -> Prop) s :
  opens "/dev/can" = true -> can_getobjbyname etc_canobj (str "RESET") tt = Done (Some obj) tt ->
  can_gethostbyname hosts_file host tt = Done (Some ch) tt ->
  Q None (Process _ _ (configured false obj cons ch (p_con s)) (p_ttys s) (p_signals s) (p_threads s)) ->
  wp (con_setup (mret (Some cons)) argv host) Q s.
Proof using Type.
  intros Hop Hobj Hhost HQ. apply (con_setup_host obj cons argv host (Some ch)); [done..|].
  by rewrite !set_con, wp_ret.
Qed.

(** The message about a host that is not in the table names the argument
    behind the program's name, which is the option -f if that stands first. *)
Lemma unknown_host_message obj cons prog host s :
  opens "/dev/can" = true -> can_getobjbyname etc_canobj (str "RESET") tt = Done (Some obj) tt ->
  can_gethostbyname hosts_file host tt = Done None tt ->
  wp (con_setup (mret (Some cons)) [prog; str "-f"; host] host) (fun r s' => r = Some 1 /\
    err (p_con s') = ("cancon: %s: unknown can host\n", [EStr (str "-f")]) :: err (p_con s)) s.
Proof using Type.
  intros Hop Hobj Hhost. apply (con_setup_host obj cons _ host None); [done..|].
  unfold leave, eprintf. rewrite wp_bind, wp_the. eexists. split; [reflexivity|].
  rewrite wp_bind, set_con, !wp_ret. done.
Qed.

(** The rest of main() up to the first join for an answer of
    connect_protocol(). *)
Lemma start_spec v s : v = 0 \/ v = -1 -> Z.of_nat (length (saved (p_ttys s))) = MAXFD ->
  wp (if negb (v =? -1) then
        xsignal SIGINT ;; xsignal SIGHUP ;; on_ttys (set_tty_mode 0 1) ;;
        pthread_create TtyReaderThread ;; pthread_create WriterThread ;; mret None
      else mret (Some 0)) (fun r s' =>
    if v =? 0 then r = None /\ p_con s' = p_con s /\
      (forall d, tattr (p_ttys s') d = attrs_if true (tattr (p_ttys s)) d) /\
      (isatty 0 = true -> saved (p_ttys s') !! 0%nat = Some (tattr (p_ttys s) 0)) /\
      p_signals s' = [SIGHUP; SIGINT] ++ p_signals s /\
      p_threads s' = [WriterThread; TtyReaderThread] ++ p_threads s
    else r = Some 0 /\ s' = s) s.
Proof using Type.
  intros [-> | ->] Hl; [change (negb (0 =? -1)) with true; change (0 =? 0) with true; cbv iota|done].
  unfold xsignal. do 2 rewrite wp_bind, wp_modify. rewrite wp_bind, wp_on_ttys. cbn [p_ttys].
  eapply wp_mono; [by apply enter_raw|]. intros ? t1 [Ht1 Hs1]. do 2 rewrite wp_bind, wp_create.
  by rewrite wp_ret.
Qed.

End main.

(** * Example: cancon -f node3, against a crashed client

    The user types the command to disconnect at once. *)

#[local] Instance one_tty : Termios := {|
  termios := Z * Z * Z; isatty := fun fd => fd =? 0;
  cfmakeraw := fun t => (1, t.1.2, t.2); min_time := fun v w t => (t.1.1, v, w)
|}.
#[local] Instance demo_con_etc : ToolEnv := {|
  opens := fun _ => true; elan_maps := true;
  etc_canobj := Some (str "0x3e8 RESET" ++ [10]);
  etc_canhosts := Some (str "0,0,3 node3" ++ [10]);
  req_stack := 0;
  dat_stack := 0
|}.
Definition crashed_known : OtherClient := {| old := demo_old; force_ack := false; leaves := fun _ => false;
  hosts_file := Some (str "0,0,3 node3" ++ [10]) |}.
Definition demo_process : process (F := net_fd (O := crashed_known)) :=
  Process _ _ (demo_client crashed_known 0) (Ttys _ (fun _ => (0, 1, 0)) (replicate 8 (0, 0, 0))) [] [].

(** A file whose lines can be read can be searched for every address. *)
Lemma gethostbyaddr_returns c m n ls : Forall (fun l => exists o, scan_two l tt = Done o tt) ls ->
  forall host, exists o, gethostbyaddr_loop c m n ls host tt = Done o tt.
Proof.
  induction 1 as [|l ls [o El] _ IH]; intros host; cbn [gethostbyaddr_loop]; [by eexists|].
  unfold mbind, eff_bind. rewrite El. apply IH.
Qed.

Lemma known_hosts_read c m n :
  exists o, can_gethostbyaddr (hosts_file (OtherClient := crashed_known)) c m n tt = Done o tt.
Proof.
  unfold can_gethostbyaddr. cbn [hosts_file crashed_known]. apply gethostbyaddr_returns.
  replace (lines_of _) with [str "0,0,3 node3" ++ [10]] by (vm_compute; reflexivity).
  constructor; [|constructor]. eexists. vm_compute. reflexivity.
Qed.


(** The user types the command to disconnect: SIGTERM ends the process, and
    the terminal stays in raw mode. *)
Example disconnect_leaves_raw :
  match cancon_start 3 (mret (Some 256)) [str "cancon"; str "node3"; str "-f"] demo_process with
  | Done None p =>
      match for_each [TtyRound [38; 46]; Disconnect; Dies SIGTERM] (life_handle 3) (born p) with
      | Done _ l => l_end l = Some (Killed SIGTERM) /\ tattr (p_ttys (l_proc l)) 0 = (1, 4, 1)
      | Fault _ => False
      end
  | _ => False
  end.
Proof. vm_compute. split; reflexivity. Qed.
