(* ===== verification/Iommu.v ===== *)
(** * The IOMMU (arch/sparc/meiko/iommu.c)

    The page table that maps the SBus address window 0xfe000000 - 0xffffffff
    to physical pages: SCSI buffers get single pages in the segment from
    IOMMU_VADDR to IOMMU_END, other DMA areas get runs of pages. *)

From stdpp Require Import prelude list numbers.
From Stdlib Require Import ZArith Lia.
From S2P Require Import Prelude.

(** ** Constants of iommu.h and of the kernel *)

Definition PAGE_SHIFT : Z := 12.
Definition PAGE_SIZE : Z := 4096.
Definition IOMMU40_ADDR_TLB : Z := 0xff.
Definition IOMMU40_CTRL_ENABLE : Z := 0x1.
Definition IOMMU40_CTRL_2TO1 : Z := 0x8.
Definition IOMMU40_ID_VENDOR : Z := 0xf.
Definition IOMMU40_ID_DEVNO : Z := 0xff00.
Definition IOMMU40_BASE_ADDR : Z := 0xfe000000.
Definition IOPTE40_PAGE : Z := 0xffffff00.
Definition IOPTE40_WRITE : Z := 0x7.
Definition IOPTE40_VALID : Z := 0x8.
Definition sizeof_iopte : Z := 4.

Definition IOPERM : Z := Z.lor IOPTE40_WRITE IOPTE40_VALID.
Definition MKIOPTE (phys : Z) : Z := Z.lor (Z.land (Z.shiftr phys 4) IOPTE40_PAGE) IOPERM.

(** The part of the kernel this code uses: the bounds of the SCSI segment
    (asm/vaddrs.h) and the translation of the CPU's own MMU. *)
Class IommuEnv := {
  IOMMU_VADDR : Z;
  IOMMU_END : Z;
  mmu_v2p : Z -> Z
}.

(** The SCSI segment consists of whole pages of the window; the CPU's MMU
    keeps the offset in the page. *)
Class IommuEnvLaws (E : IommuEnv) := {
  vaddr_window : IOMMU40_BASE_ADDR <= IOMMU_VADDR /\ IOMMU_VADDR <= IOMMU_END /\
                 IOMMU_END < 2 ^ 32;
  vaddr_aligned : IOMMU_VADDR mod PAGE_SIZE = 0 /\ IOMMU_END mod PAGE_SIZE = 0;
  v2p_offset : forall v, mmu_v2p v mod PAGE_SIZE = v mod PAGE_SIZE;
  v2p_range : forall v, 0 <= mmu_v2p v < 2 ^ 32
}.

(** Writes to registers, cache and TLB flushes, CPU page table entries. *)
Inductive iomev :=
  | WrControl (v : Z)
  | WrBase (v : Z)
  | IommuInvalidate (tlb : Z)      (* lda [tlb] ASI_M_SBUS *)
  | FlushCacheAll
  | FlushTlbAll
  | SetPte (iovaddr page : Z).

(** [struct iommu40], the entries of its page table, the log of the above,
    and what get_free_page() will return. *)
Record iommu40 := Iommu40 {
  tlb : Z;
  page_table : list Z;
  plow : Z;
  start : Z;
  end_ : Z;
  iom_log : list iomev;
  free_pages : list Z
}.

(** One element of a [struct mmu_sglist] array. *)
Record mmu_sglist := Sg { sg_addr : Z; sg_len : Z; dvma_addr : Z }.

Section iommu.
Context {E : IommuEnv}.
Abbreviation M := (eff iommu40).
Implicit Types st : iommu40.

Definition set_page_table (pt : list Z) st : iommu40 :=
  Iommu40 (tlb st) pt (plow st) (start st) (end_ st) (iom_log st) (free_pages st).
Definition set_iom_log (l : list iomev) st : iommu40 :=
  Iommu40 (tlb st) (page_table st) (plow st) (start st) (end_ st) l (free_pages st).
Definition set_free_pages (l : list Z) st : iommu40 :=
  Iommu40 (tlb st) (page_table st) (plow st) (start st) (end_ st) (iom_log st) l.

Definition iom_ev (e : iomev) : M unit := modify (fun st => set_iom_log (e :: iom_log st) st).

Definition iopte_get (i : Z) : M Z :=
  l ← gets (fun st => page_table st);
  if 0 <=? i then the OutOfBounds (l !! Z.to_nat i) else fail OutOfBounds.
Definition iopte_set (i v : Z) : M unit :=
  l ← gets (fun st => page_table st);
  if (0 <=? i) && (i <? Z.of_nat (length l))
  then modify (set_page_table (<[Z.to_nat i := v]> l)) else fail OutOfBounds.

Definition iommu40_invalidate : M unit :=
  t ← gets (fun st => tlb st); iom_ev (IommuInvalidate t).

(** [iommu], [regs] and [pt]: what kmalloc() returns for the structure,
    sparc_alloc_io() for the registers and kmalloc() for the page table; [id],
    [address]: the registers read. The first result is not checked: the
    address of the registers is stored through it. *)
Definition iommu40_init (iommu regs pt id address : Z) : M unit :=
  if iommu =? 0 then fail NullDeref
  else if regs =? 0 then fail Panic
  else
    let devno := Z.shiftr (Z.land id IOMMU40_ID_DEVNO) 8 in
    let vendor := Z.land id IOMMU40_ID_VENDOR in
    if negb (devno =? 0x52) || negb (vendor =? 0x03) then fail Panic
    else
      let t := u32 (Z.shiftl (Z.land address IOMMU40_ADDR_TLB) 28) in
      modify (fun st => Iommu40 t (page_table st) IOMMU40_BASE_ADDR IOMMU40_BASE_ADDR
                          0xffffffff (iom_log st) (free_pages st)) ;;
      iom_ev (WrControl (Z.lor IOMMU40_CTRL_ENABLE IOMMU40_CTRL_2TO1)) ;;
      iommu40_invalidate ;;
      s ← gets (fun st => start st);
      e ← gets (fun st => end_ st);
      let ptsize := u32 (e - s + 1) in
      let ptsize := u32 (Z.shiftr ptsize PAGE_SHIFT * sizeof_iopte) in
      if pt =? 0 then fail Panic
      else if negb (pt mod ptsize =? 0) then fail Panic
      else
        iom_ev FlushCacheAll ;;
        modify (set_page_table (replicate (Z.to_nat (ptsize / sizeof_iopte)) 0)) ;;
        iom_ev FlushTlbAll ;;
        iom_ev (WrBase (Z.shiftr (mmu_v2p pt) 4)) ;;
        iommu40_invalidate.

(** The search for a free entry; its result is [iovpage] at the end. *)
Fixpoint free_slot_loop (fuel : nat) (iovpage : Z) : M Z :=
  match fuel with
  | O => fail OutOfFuel
  | S fuel' =>
      if iovpage <? IOMMU_END then
        pte ← iopte_get (Z.shiftr (u32 (iovpage - IOMMU40_BASE_ADDR)) PAGE_SHIFT);
        if has pte IOPTE40_VALID then free_slot_loop fuel' (u32 (iovpage + PAGE_SIZE))
        else mret iovpage
      else mret iovpage
  end.
Definition window_fuel : nat := S (Z.to_nat ((IOMMU_END - IOMMU_VADDR) / PAGE_SIZE)).

Definition iommu40_get_area (vaddr len : Z) : M Z :=
  let offset := Z.land vaddr (PAGE_SIZE - 1) in
  let physpage := mmu_v2p vaddr in
  if PAGE_SIZE <? len then fail Panic
  else
    iovpage ← free_slot_loop window_fuel IOMMU_VADDR;
    if IOMMU_END <=? iovpage then fail Panic
    else
      iopte_set (Z.shiftr (u32 (iovpage - IOMMU40_BASE_ADDR)) PAGE_SHIFT) (MKIOPTE physpage) ;;
      mret (u32 (iovpage + offset)).

Definition iommu40_get_scsi_one (vaddr len : Z) : M Z :=
  iovaddr ← iommu40_get_area vaddr len;
  iom_ev FlushCacheAll ;;
  iommu40_invalidate ;;
  mret iovaddr.

(** The loop over sg[sz] .. sg[0], for the first [n = sz + 1] elements. *)
Fixpoint get_sgl_loop (n : nat) (sg : list mmu_sglist) : M (list mmu_sglist) :=
  match n with
  | O => mret sg
  | S n' =>
      x ← the OutOfBounds (sg !! n');
      a ← iommu40_get_area (sg_addr x) (sg_len x);
      get_sgl_loop n' (<[n' := Sg (sg_addr x) (sg_len x) a]> sg)
  end.

Definition iommu40_get_scsi_sgl (sg : list mmu_sglist) (sz : Z) : M (list mmu_sglist) :=
  sg ← get_sgl_loop (Z.to_nat (sz + 1)) sg;
  iom_ev FlushCacheAll ;;
  iommu40_invalidate ;;
  mret sg.

Definition iommu40_release_scsi_one (vaddr len : Z) : M unit :=
  let iopte_index := Z.shiftr (u32 (vaddr - IOMMU40_BASE_ADDR)) PAGE_SHIFT in
  pte ← iopte_get iopte_index;
  if has pte IOPTE40_VALID
  then iopte_set iopte_index (Z.land pte (Z.lxor (2 ^ 32 - 1) IOPTE40_VALID))
  else fail Panic.

Fixpoint release_sgl_loop (n : nat) (sg : list mmu_sglist) : M unit :=
  match n with
  | O => skip
  | S n' =>
      x ← the OutOfBounds (sg !! n');
      iommu40_release_scsi_one (dvma_addr x) (sg_len x) ;;
      release_sgl_loop n' sg
  end.
Definition iommu40_release_scsi_sgl (sg : list mmu_sglist) (sz : Z) : M unit :=
  release_sgl_loop (Z.to_nat (sz + 1)) sg.

Definition get_free_page : M Z :=
  l ← gets (fun st => free_pages st);
  match l with
  | [] => mret 0
  | p :: l' => modify (set_free_pages l') ;; mret p
  end.

Definition PAGE_ALIGN (a : Z) : Z := Z.land (u32 (a + (PAGE_SIZE - 1))) (2 ^ 32 - PAGE_SIZE).

(** The loop of iommu40_map_dma_area(): one page per turn, [i] is the index
    of [*iopte]. *)
Fixpoint map_dma_loop (fuel : nat) (iovaddr end_a i : Z) : M unit :=
  match fuel with
  | O => fail OutOfFuel
  | S fuel' =>
      if iovaddr <? end_a then
        page ← get_free_page;
        if page =? 0 then fail Panic
        else
          iom_ev (SetPte iovaddr page) ;;
          iopte_set i (MKIOPTE (mmu_v2p page)) ;;
          map_dma_loop fuel' (u32 (iovaddr + PAGE_SIZE)) end_a (i + 1)
      else skip
  end.

Definition iommu40_map_dma_area (iovaddr len : Z) : M unit :=
  s ← gets (fun st => start st);
  if iovaddr <? s then fail Panic
  else
    let end_a := PAGE_ALIGN (u32 (iovaddr + len)) in
    map_dma_loop (S (Z.to_nat ((end_a - iovaddr + PAGE_SIZE - 1) / PAGE_SIZE))) iovaddr end_a
      (Z.shiftr (u32 (iovaddr - s)) PAGE_SHIFT) ;;
    iom_ev FlushCacheAll ;;
    iom_ev FlushTlbAll ;;
    iommu40_invalidate.

Definition iommu40_lockarea (vaddr len : Z) : Z := vaddr.
Definition iommu40_unlockarea (vaddr len : Z) : unit := tt.

(** ** The patched calls

    ld_mmu_iommu40(): the kernel's references to the left functions become
    calls of the right ones, or, where the call would do nothing, instructions:
    BTFIXUPCALL_NOP leaves the register with the first argument alone, and
    BTFIXUPCALL_RETO0 returns it. *)
Inductive fixup := BTFIXUPCALL_NORM | BTFIXUPCALL_NOP | BTFIXUPCALL_RETO0.
Inductive mmu_op := LockArea | UnlockArea | GetScsiOne | GetScsiSgl | ReleaseScsiOne
  | ReleaseScsiSgl | MapDmaArea.

Definition ld_mmu_iommu40 (CONFIG_SBUS : bool) : list (mmu_op * fixup) :=
  [(LockArea, BTFIXUPCALL_RETO0); (UnlockArea, BTFIXUPCALL_NOP); (GetScsiOne, BTFIXUPCALL_NORM);
   (GetScsiSgl, BTFIXUPCALL_NORM); (ReleaseScsiOne, BTFIXUPCALL_NORM);
   (ReleaseScsiSgl, BTFIXUPCALL_NORM)] ++
  if CONFIG_SBUS then [(MapDmaArea, BTFIXUPCALL_NORM)] else [].

(** The result of a patched call with the first argument [o0], where the
    function itself would return [r]. *)
Definition patched (k : fixup) (o0 r : Z) : Z :=
  match k with BTFIXUPCALL_NORM => r | _ => o0 end.
End iommu.
