(* ===== verification/IommuProps.v ===== *)
(** * What the IOMMU code maps

    Properties of Iommu.v in terms of the translation the hardware does with
    the page table. *)

From stdpp Require Import prelude list numbers.
From Stdlib Require Import ZArith Lia.
From S2P Require Import Prelude Iommu.

(** ** The translation

    A valid entry holds the bits 12 to 35 of the physical address in its bits
    8 to 31 (IOPTE40_PAGE in iommu.h). *)
Definition slot (a : Z) : Z := (a - IOMMU40_BASE_ADDR) / PAGE_SIZE.

Definition iopte_frame (pte : Z) : Z := Z.shiftl (Z.land pte IOPTE40_PAGE) 4.

Definition translate (pt : list Z) (a : Z) : option Z :=
  if (IOMMU40_BASE_ADDR <=? a) && (a <? 2 ^ 32) then
    pte ← pt !! Z.to_nat (slot a);
    if has pte IOPTE40_VALID then Some (iopte_frame pte + a mod PAGE_SIZE) else None
  else None.

(** Is the entry of [a]'s page in use? *)
Definition mapped (pt : list Z) (a : Z) : bool :=
  match pt !! Z.to_nat (slot a) with Some pte => has pte IOPTE40_VALID | None => false end.

Definition PT_ENTRIES : Z := 8192.
Definition iommu_ok (st : iommu40) : Prop :=
  Z.of_nat (length (page_table st)) = PT_ENTRIES /\ start st = IOMMU40_BASE_ADDR.

(** ** Words *)

Lemma has_testbit x k : 0 <= k -> has x (2 ^ k) = Z.testbit x k.
Proof.
  intros Hk. unfold has. destruct (Z.testbit x k) eqn:E.
  - destruct (Z.eqb_spec (Z.land x (2 ^ k)) 0) as [E0|]; [|done].
    assert (Hf : Z.testbit (Z.land x (2 ^ k)) k = false) by (rewrite E0; apply Z.bits_0).
    rewrite Z.land_spec, Z.pow2_bits_true, E in Hf by done. done.
  - destruct (Z.eqb_spec (Z.land x (2 ^ k)) 0) as [|Hne]; [done|]. destruct Hne.
    apply Z.bits_inj'. intros i Hi. rewrite Z.land_spec, Z.bits_0.
    destruct (Z.eqb_spec i k) as [->|Hik]; [by rewrite E|].
    rewrite Z.pow2_bits_false by congruence. apply andb_false_r.
Qed.

Lemma mkiopte_valid phys : has (MKIOPTE phys) IOPTE40_VALID = true.
Proof.
  change IOPTE40_VALID with (2 ^ 3). rewrite has_testbit by lia. unfold MKIOPTE.
  rewrite Z.lor_spec. change (Z.testbit IOPERM 3) with true. apply orb_true_r.
Qed.

Lemma page_mask_bits i : 0 <= i -> Z.testbit IOPTE40_PAGE i = (8 <=? i) && (i <? 32).
Proof.
  intros Hi. change IOPTE40_PAGE with (Z.shiftl (Z.ones 24) 8).
  destruct (Z.leb_spec 8 i).
  - rewrite Z.shiftl_spec, ones_testbit by lia.
    destruct (Z.ltb_spec (i - 8) 24), (Z.ltb_spec i 32); cbn; lia.
  - rewrite Z.shiftl_spec_low by lia. done.
Qed.

Lemma ioperm_bits i : 4 <= i -> Z.testbit IOPERM i = false.
Proof.
  intros Hi. change IOPERM with (Z.ones 4). rewrite ones_testbit by lia.
  apply Z.ltb_ge. lia.
Qed.

Lemma mkiopte_frame phys : 0 <= phys < 2 ^ 32 ->
  iopte_frame (MKIOPTE phys) = phys - phys mod PAGE_SIZE.
Proof.
  intros Hp. assert (E : phys - phys mod PAGE_SIZE = Z.shiftl (Z.shiftr phys 12) 12).
  { rewrite Z.shiftl_mul_pow2, Z.shiftr_div_pow2 by lia. change (2 ^ 12) with PAGE_SIZE.
    pose proof (Z.div_mod phys PAGE_SIZE ltac:(done)). lia. }
  rewrite E. unfold iopte_frame, MKIOPTE. apply Z.bits_inj'. intros i Hi.
  destruct (Z.ltb_spec i 12).
  - rewrite (Z.shiftl_spec_low _ 12) by lia. destruct (Z.ltb_spec i 4).
    { by rewrite Z.shiftl_spec_low. }
    rewrite Z.shiftl_spec, Z.land_spec, page_mask_bits by lia.
    destruct (Z.leb_spec 8 (i - 4)); [lia|]. apply andb_false_r.
  - rewrite !Z.shiftl_spec, Z.land_spec, Z.lor_spec, Z.land_spec, !Z.shiftr_spec by lia.
    rewrite page_mask_bits, ioperm_bits by lia.
    replace (i - 4 + 4) with i by lia. replace (i - 12 + 12) with i by lia.
    destruct (Z.leb_spec 8 (i - 4)); [|lia]. rewrite orb_false_r. cbn [andb].
    destruct (Z.ltb_spec (i - 4) 32); rewrite ?andb_true_r; [done|].
    rewrite andb_false_r. symmetry. destruct (Z.eqb_spec phys 0) as [->|].
    + apply Z.bits_0.
    + apply Z.bits_above_log2; [lia|]. apply Z.log2_lt_pow2; [lia|].
      eapply Z.lt_le_trans; [apply Hp|]. apply Z.pow_le_mono_r; lia.
Qed.

Lemma clear_valid pte :
  has (Z.land pte (Z.lxor (2 ^ 32 - 1) IOPTE40_VALID)) IOPTE40_VALID = false.
Proof.
  change IOPTE40_VALID with (2 ^ 3). rewrite has_testbit by lia.
  rewrite Z.land_spec. apply andb_false_r.
Qed.

(** ** Slots *)

Definition in_window (a : Z) : Prop := IOMMU40_BASE_ADDR <= a < 2 ^ 32.

Lemma slot_index a : in_window a ->
  Z.shiftr (u32 (a - IOMMU40_BASE_ADDR)) PAGE_SHIFT = slot a /\ 0 <= slot a < PT_ENTRIES.
Proof.
  unfold in_window, slot, IOMMU40_BASE_ADDR, PT_ENTRIES. intros Ha.
  rewrite u32_id by lia. rewrite Z.shiftr_div_pow2 by (unfold PAGE_SHIFT; lia).
  change (2 ^ PAGE_SHIFT) with PAGE_SIZE. unfold PAGE_SIZE. split; [done|].
  Z.to_euclidean_division_equations. lia.
Qed.

(** The page of [a] plus an offset that stays in it. *)
Lemma slot_offset a k : a mod PAGE_SIZE = 0 -> 0 <= k < PAGE_SIZE ->
  slot (a + k) = slot a /\ (a + k) mod PAGE_SIZE = k.
Proof.
  unfold slot, PAGE_SIZE, IOMMU40_BASE_ADDR. intros Ha Hk.
  split; Z.to_euclidean_division_equations; lia.
Qed.

Lemma slot_inj a b : a mod PAGE_SIZE = 0 -> b mod PAGE_SIZE = 0 -> slot a = slot b -> a = b.
Proof. unfold slot, PAGE_SIZE, IOMMU40_BASE_ADDR. intros. Z.to_euclidean_division_equations. lia. Qed.

Lemma translate_insert pt p v a :
  Z.of_nat (length pt) = PT_ENTRIES -> in_window p -> in_window a ->
  translate (<[Z.to_nat (slot p) := v]> pt) a =
  if slot a =? slot p
  then if has v IOPTE40_VALID then Some (iopte_frame v + a mod PAGE_SIZE) else None
  else translate pt a.
Proof.
  intros Hl Hp Ha. unfold translate.
  destruct (slot_index _ Hp) as [_ Hsp], (slot_index _ Ha) as [_ Hsa].
  unfold in_window in *.
  rewrite (proj2 (Z.leb_le _ a)), (proj2 (Z.ltb_lt a _)) by lia. cbn [andb].
  destruct (Z.eqb_spec (slot a) (slot p)) as [E|E].
  - rewrite E, list_lookup_insert_eq by lia. done.
  - by rewrite list_lookup_insert_ne by lia.
Qed.

Lemma mapped_insert pt p v a :
  Z.of_nat (length pt) = PT_ENTRIES -> in_window p -> in_window a ->
  mapped (<[Z.to_nat (slot p) := v]> pt) a =
  if slot a =? slot p then has v IOPTE40_VALID else mapped pt a.
Proof.
  intros Hl Hp Ha. unfold mapped.
  destruct (slot_index _ Hp) as [_ Hsp], (slot_index _ Ha) as [_ Hsa].
  destruct (Z.eqb_spec (slot a) (slot p)) as [E|E].
  - rewrite E, list_lookup_insert_eq by lia. done.
  - by rewrite list_lookup_insert_ne by lia.
Qed.

#[local] Set Default Proof Using "Type*".

Section iommu_props.
Context {E : IommuEnv} `{!IommuEnvLaws E}.
Implicit Types st : iommu40.

(** A page of the SCSI segment. *)
Definition scsi_page (a : Z) : Prop :=
  IOMMU_VADDR <= a < IOMMU_END /\ a mod PAGE_SIZE = 0.

Lemma scsi_window a : scsi_page a -> in_window a.
Proof. destruct vaddr_window as (? & ? & ?). unfold in_window. intros [? _]. lia. Qed.

Lemma scsi_next a : scsi_page a ->
  u32 (a + PAGE_SIZE) = a + PAGE_SIZE /\ (a + PAGE_SIZE) mod PAGE_SIZE = 0 /\
  a + PAGE_SIZE <= IOMMU_END.
Proof.
  intros [Ha Hm]. destruct vaddr_window as (Hb & ? & ?), vaddr_aligned as [_ He].
  assert (a + PAGE_SIZE <= IOMMU_END).
  { unfold PAGE_SIZE in *. Z.to_euclidean_division_equations. lia. }
  unfold IOMMU40_BASE_ADDR in *.
  split_and!; [apply u32_id; unfold PAGE_SIZE in *; lia| |done].
  unfold PAGE_SIZE in *. Z.to_euclidean_division_equations. lia.
Qed.

Lemma iopte_get_spec a st : iommu_ok st -> in_window a ->
  wp (iopte_get (Z.shiftr (u32 (a - IOMMU40_BASE_ADDR)) PAGE_SHIFT)) (fun pte st' =>
    st' = st /\ page_table st !! Z.to_nat (slot a) = Some pte) st.
Proof.
  intros [Hl _] Ha. destruct (slot_index _ Ha) as [-> Hs]. unfold iopte_get.
  rewrite wp_bind, wp_gets, (proj2 (Z.leb_le 0 _)) by lia.
  destruct (lookup_lt_is_Some_2 (page_table st) (Z.to_nat (slot a))) as [pte Hpte]; [lia|].
  rewrite wp_the. by exists pte.
Qed.

Lemma iopte_set_spec a v st : iommu_ok st -> in_window a ->
  wp (iopte_set (Z.shiftr (u32 (a - IOMMU40_BASE_ADDR)) PAGE_SHIFT) v) (fun _ st' =>
    st' = set_page_table (<[Z.to_nat (slot a) := v]> (page_table st)) st) st.
Proof.
  intros [Hl _] Ha. destruct (slot_index _ Ha) as [-> Hs]. unfold iopte_set.
  rewrite wp_bind, wp_gets, (proj2 (Z.leb_le 0 _)), (proj2 (Z.ltb_lt _ _)) by lia.
  cbn [andb]. by rewrite wp_modify.
Qed.

Lemma iommu_ok_set i v st : iommu_ok st -> iommu_ok (set_page_table (<[i := v]> (page_table st)) st).
Proof. intros [Hl Hs]. split; [cbn; by rewrite length_insert|done]. Qed.

(** The search finds the first free page of the segment, if there is one. *)
Lemma free_slot_spec fuel p st :
  iommu_ok st -> IOMMU_VADDR <= p <= IOMMU_END -> p mod PAGE_SIZE = 0 ->
  (IOMMU_END - p) / PAGE_SIZE < Z.of_nat fuel ->
  wp (free_slot_loop fuel p) (fun r st' => st' = st /\
    (forall a, scsi_page a -> p <= a < r -> mapped (page_table st) a = true) /\
    (r = IOMMU_END \/ scsi_page r /\ mapped (page_table st) r = false)) st.
Proof.
  intros Hok. revert p. induction fuel as [|fuel IH]; intros p Hp Hm Hf.
  { assert (0 <= (IOMMU_END - p) / PAGE_SIZE) by (apply Z.div_pos; [lia|done]). lia. }
  cbn [free_slot_loop]. destruct (Z.ltb_spec p IOMMU_END) as [Hlt|].
  2:{ rewrite wp_ret. split; [done|]. split; [intros; lia|left; lia]. }
  assert (Hpage : scsi_page p) by (split; [lia|done]).
  rewrite wp_bind. eapply wp_mono; [apply iopte_get_spec; [done|by apply scsi_window]|].
  intros pte st' [-> Hpte].
  assert (Emap : mapped (page_table st) p = has pte IOPTE40_VALID)
    by (unfold mapped; by rewrite Hpte).
  destruct (has pte IOPTE40_VALID).
  - destruct (scsi_next p Hpage) as (-> & Hm' & Hle).
    assert (Hd : (IOMMU_END - (p + PAGE_SIZE)) / PAGE_SIZE < Z.of_nat fuel).
    { replace (IOMMU_END - p) with (IOMMU_END - (p + PAGE_SIZE) + 1 * PAGE_SIZE) in Hf by lia.
      rewrite Z.div_add in Hf by done. lia. }
    eapply wp_mono; [apply IH; unfold PAGE_SIZE in *; (lia || done)|].
    intros r st' (-> & Hall & Hr). split; [done|]. split; [|done].
    intros a Ha Hpa. destruct (Z.eqb_spec a p) as [->|Hne]; [done|].
    apply Hall; [done|]. split; [|lia]. destruct Ha as [_ Ham].
    unfold PAGE_SIZE in *. Z.to_euclidean_division_equations. lia.
  - rewrite wp_ret. split; [done|]. split; [intros a Ha Hpa|by right].
    destruct Ha as [_ Ham]. unfold PAGE_SIZE in *. lia.
Qed.

(** ** One buffer *)

(** What a successful iommu40_get_area() leaves: the page of the result was
    free and now maps the buffer's first page. *)
Definition area_post (vaddr : Z) st (iova : Z) st' : Prop :=
  exists p, scsi_page p /\ iova = p + vaddr mod PAGE_SIZE /\
    mapped (page_table st) p = false /\
    st' = set_page_table (<[Z.to_nat (slot p) := MKIOPTE (mmu_v2p vaddr)]> (page_table st)) st.

Lemma get_area_spec vaddr len st :
  iommu_ok st -> len <= PAGE_SIZE -> 0 <= vaddr ->
  match iommu40_get_area vaddr len st with
  | Done iova st' => area_post vaddr st iova st'
  | Fault f => f = Panic /\ forall a, scsi_page a -> mapped (page_table st) a = true
  end.
Proof.
  intros Hok Hlen Hv. unfold iommu40_get_area.
  rewrite (proj2 (Z.ltb_ge PAGE_SIZE len)) by lia.
  destruct vaddr_window as (Hb & Hle & Hend), vaddr_aligned as [Ham _].
  assert (Hfuel : (IOMMU_END - IOMMU_VADDR) / PAGE_SIZE < Z.of_nat window_fuel).
  { unfold window_fuel. rewrite Nat2Z.inj_succ, Z2Nat.id; [lia|]. apply Z.div_pos; [lia|done]. }
  pose proof (free_slot_spec window_fuel IOMMU_VADDR st Hok (conj (Z.le_refl _) Hle) Ham Hfuel) as Hs.
  apply wp_done in Hs as (p & st1 & Es & -> & Hall & Hp).
  unfold mbind at 1, eff_bind. rewrite Es. destruct Hp as [->|[Hp Hfree]].
  { rewrite (proj2 (Z.leb_le _ _)) by lia. cbn. split; [done|].
    intros a Ha. apply Hall; [done|]. destruct Ha as [Ha _]. lia. }
  rewrite (proj2 (Z.leb_gt _ _)) by (destruct Hp; lia).
  pose proof (iopte_set_spec p (MKIOPTE (mmu_v2p vaddr)) st Hok (scsi_window _ Hp)) as Hset.
  apply wp_done in Hset as ([] & st2 & E2 & ->). unfold mbind at 1, eff_bind. rewrite E2.
  cbn [mret eff_ret]. exists p. split; [done|]. split; [|done].
  change (PAGE_SIZE - 1) with (Z.ones 12). rewrite Z.land_ones by lia. change (2 ^ 12) with PAGE_SIZE.
  apply u32_id. pose proof (Z.mod_pos_bound vaddr PAGE_SIZE ltac:(done)).
  destruct (scsi_next p Hp) as (_ & _ & ?). destruct Hp as [? _].
  unfold IOMMU40_BASE_ADDR, PAGE_SIZE in *. lia.
Qed.

Lemma area_post_ok vaddr st iova st' :
  iommu_ok st -> area_post vaddr st iova st' -> iommu_ok st'.
Proof. intros Hok (p & _ & _ & _ & ->). by apply iommu_ok_set. Qed.

(** The translation after iommu40_get_area(). *)
Lemma area_translate vaddr st iova st' a :
  iommu_ok st -> area_post vaddr st iova st' -> in_window a ->
  translate (page_table st') a =
  if slot a =? slot iova
  then Some (mmu_v2p vaddr - vaddr mod PAGE_SIZE + a mod PAGE_SIZE)
  else translate (page_table st) a.
Proof.
  intros [Hl Hs] (p & Hp & -> & _ & ->) Ha. cbn [page_table set_page_table].
  rewrite (proj1 (slot_offset p (vaddr mod PAGE_SIZE) (proj2 Hp) ltac:(by apply Z.mod_pos_bound))).
  rewrite translate_insert by (done || by apply scsi_window).
  rewrite mkiopte_valid, mkiopte_frame, v2p_offset by apply v2p_range. done.
Qed.

Lemma area_mapped vaddr st iova st' a :
  iommu_ok st -> area_post vaddr st iova st' -> in_window a ->
  mapped (page_table st') a = (slot a =? slot iova) || mapped (page_table st) a.
Proof.
  intros [Hl Hs] (p & Hp & -> & _ & ->) Ha. cbn [page_table set_page_table].
  rewrite (proj1 (slot_offset p (vaddr mod PAGE_SIZE) (proj2 Hp) ltac:(by apply Z.mod_pos_bound))).
  rewrite mapped_insert by (done || by apply scsi_window). rewrite mkiopte_valid.
  by destruct (slot a =? slot p).
Qed.

(** ** Initialisation

    iommu40_init() runs through exactly when kmalloc() gave the structure and
    an aligned page table, the registers are mapped and the chip is an
    L64852; the window is then all unmapped, and the TLB was flushed after the
    base was written. Without the structure it stores through NULL; all
    other failures panic. *)
Lemma iommu40_init_spec iommu regs pt id address st :
  let good := negb (iommu =? 0) && negb (regs =? 0) && (Z.shiftr (Z.land id IOMMU40_ID_DEVNO) 8 =? 0x52) &&
              (Z.land id IOMMU40_ID_VENDOR =? 0x03) && negb (pt =? 0) && (pt mod 32768 =? 0) in
  match iommu40_init iommu regs pt id address st with
  | Done _ st' => good = true /\ iommu_ok st' /\ (forall a, mapped (page_table st') a = false) /\
      tlb st' = u32 (Z.shiftl (Z.land address IOMMU40_ADDR_TLB) 28) /\
      take 2 (iom_log st') = [IommuInvalidate (tlb st'); WrBase (Z.shiftr (mmu_v2p pt) 4)]
  | Fault f => f = (if iommu =? 0 then NullDeref else Panic) /\ good = false
  end.
Proof.
  unfold iommu40_init. destruct (iommu =? 0); [by split|]. destruct (regs =? 0); [by split|].
  destruct (Z.shiftr _ 8 =? 0x52); [|by split].
  destruct (Z.land id IOMMU40_ID_VENDOR =? 0x03); [|by split].
  unfold iommu40_invalidate, iom_ev, mbind, eff_bind, modify, gets.
  cbn -[u32 replicate Z.modulo Z.shiftl Z.shiftr Z.land IOMMU40_BASE_ADDR].
  destruct (pt =? 0); [by split|].
  replace (u32 (Z.shiftr (u32 (4294967295 - IOMMU40_BASE_ADDR + 1)) PAGE_SHIFT * sizeof_iopte))
    with 32768 by done.
  destruct (pt mod 32768 =? 0); [|by split].
  change (Z.to_nat (32768 / sizeof_iopte)) with (Z.to_nat PT_ENTRIES).
  cbn -[replicate Z.shiftl Z.shiftr PT_ENTRIES].
  split; [done|]. split; [split; [|done]|].
  { cbn -[replicate PT_ENTRIES]. rewrite length_replicate. apply Z2Nat.id. done. }
  split; [|done]. intros a. unfold mapped.
  destruct (_ !! _) as [pte|] eqn:Ep; [|done]. apply lookup_replicate in Ep as [-> _]. done.
Qed.

(** C25. Mapping one SCSI buffer. iommu40_get_scsi_one() takes a free page of
    the SCSI segment and panics exactly when there is none; the SBus address
    it returns leads to the buffer, byte for byte, up to the end of the
    buffer's first page; beyond that nothing is mapped: an address there
    translates as it did before. All other addresses translate as before, and
    the IOMMU's TLB is flushed after the change. *)
Theorem get_scsi_one_maps vaddr len st :
  iommu_ok st -> 0 <= vaddr -> 0 < len <= PAGE_SIZE ->
  match iommu40_get_scsi_one vaddr len st with
  | Done iova st' =>
      iommu_ok st' /\ IOMMU_VADDR <= iova < IOMMU_END /\
      mapped (page_table st) iova = false /\
      (forall k, 0 <= k < len ->
         translate (page_table st') (iova + k) =
         if vaddr mod PAGE_SIZE + k <? PAGE_SIZE then Some (mmu_v2p vaddr + k)
         else translate (page_table st) (iova + k)) /\
      (forall a, in_window a -> slot a <> slot iova ->
         translate (page_table st') a = translate (page_table st) a) /\
      head (iom_log st') = Some (IommuInvalidate (tlb st))
  | Fault f => f = Panic /\ forall a, scsi_page a -> mapped (page_table st) a = true
  end.
Proof.
  intros Hok Hv Hlen. pose proof (get_area_spec vaddr len st Hok ltac:(lia) Hv) as Ha.
  unfold iommu40_get_scsi_one, mbind at 1, eff_bind.
  destruct (iommu40_get_area vaddr len st) as [iova st1|f]; [|exact Ha].
  unfold iommu40_invalidate, iom_ev. cbn.
  pose proof (fun a => area_translate _ _ _ _ a Hok Ha) as Ht.
  split; [exact (area_post_ok _ _ _ _ Hok Ha)|].
  destruct Ha as (p & Hp & Eio & Hfree & Est).
  pose proof (Z.mod_pos_bound vaddr PAGE_SIZE ltac:(done)) as Hoff.
  destruct (slot_offset p (vaddr mod PAGE_SIZE) (proj2 Hp) Hoff) as [Eslot Emod].
  rewrite <- Eio in Eslot, Emod.
  destruct (scsi_next p Hp) as (_ & _ & Hnext), vaddr_window as (Hb & _ & Hend).
  destruct vaddr_aligned as [_ Hea].
  assert (Hend' : IOMMU_END + PAGE_SIZE <= 2 ^ 32).
  { unfold PAGE_SIZE in *. Z.to_euclidean_division_equations. lia. }
  assert (Hr : IOMMU_VADDR <= iova < IOMMU_END) by (destruct Hp; lia).
  split; [exact Hr|]. split; [by unfold mapped in *; rewrite Eslot|].
  split; [|split; [|by rewrite Est]].
  - intros k Hk. rewrite Ht by (unfold in_window; unfold PAGE_SIZE in *; lia).
    destruct (Z.ltb_spec (vaddr mod PAGE_SIZE + k) PAGE_SIZE).
    + replace (iova + k) with (p + (vaddr mod PAGE_SIZE + k)) by lia.
      destruct (slot_offset p (vaddr mod PAGE_SIZE + k) (proj2 Hp) ltac:(lia)) as [-> ->].
      rewrite Eslot, Z.eqb_refl. f_equal. lia.
    + rewrite (proj2 (Z.eqb_neq _ _)); [done|]. rewrite Eslot.
      replace (iova + k) with (p + PAGE_SIZE + (vaddr mod PAGE_SIZE + k - PAGE_SIZE)) by lia.
      assert (Hk' : 0 <= vaddr mod PAGE_SIZE + k - PAGE_SIZE < PAGE_SIZE) by lia.
      rewrite (proj1 (slot_offset (p + PAGE_SIZE) _ (proj1 (proj2 (scsi_next p Hp))) Hk')).
      intros Es. apply slot_inj in Es; [unfold PAGE_SIZE in *; lia| |apply Hp].
      apply (scsi_next p Hp).
  - intros a Ha Hne. rewrite Ht by done. by rewrite (proj2 (Z.eqb_neq _ _)).
Qed.

(** ** Scatter-gather lists *)

(** Is [a] on a page that one of the first [n] segments got? *)
Definition in_sgl (sg : list mmu_sglist) (n : nat) (a : Z) : bool :=
  existsb (fun x => slot (dvma_addr x) =? slot a) (take n sg).

(** The buffer of a segment and what the caller knows about it. *)
Definition sg_buffer (x : mmu_sglist) : Z * Z := (sg_addr x, sg_len x).
Definition good_buffer (x : mmu_sglist) : Prop := 0 <= sg_addr x /\ 0 < sg_len x <= PAGE_SIZE.

Lemma area_window vaddr st iova st' : area_post vaddr st iova st' ->
  in_window iova /\ mapped (page_table st) iova = false.
Proof.
  intros (p & Hp & -> & Hfree & _).
  pose proof (Z.mod_pos_bound vaddr PAGE_SIZE ltac:(done)) as Ho.
  destruct (slot_offset p _ (proj2 Hp) Ho) as [Es _].
  split; [|unfold mapped in *; by rewrite Es].
  destruct (scsi_next p Hp) as (_ & _ & ?), vaddr_window as (? & _ & ?).
  destruct Hp. unfold in_window. lia.
Qed.

(** The address of a fresh area leads to the buffer. *)
Lemma area_address vaddr st iova st' : iommu_ok st -> area_post vaddr st iova st' ->
  translate (page_table st') iova = Some (mmu_v2p vaddr).
Proof.
  intros Hok Ha. destruct (area_window _ _ _ _ Ha) as [Hw _].
  rewrite (area_translate _ _ _ _ _ Hok Ha Hw), Z.eqb_refl.
  destruct Ha as (p & Hp & -> & _ & _).
  rewrite (proj2 (slot_offset p _ (proj2 Hp) (Z.mod_pos_bound vaddr PAGE_SIZE ltac:(done)))).
  f_equal. lia.
Qed.

(** What the loop over the first [n] segments does to the list and to the
    page table. *)
Record sgl_mapped (n : nat) (sg : list mmu_sglist) st (sg' : list mmu_sglist) st' : Prop := {
  sgl_ok : iommu_ok st';
  sgl_buffers : map sg_buffer sg' = map sg_buffer sg;
  sgl_rest : drop n sg' = drop n sg;
  sgl_disjoint : NoDup (map (fun x => slot (dvma_addr x)) (take n sg'));
  sgl_fresh : Forall (fun x => in_window (dvma_addr x) /\
                mapped (page_table st) (dvma_addr x) = false /\
                translate (page_table st') (dvma_addr x) = Some (mmu_v2p (sg_addr x)))
                (take n sg');
  sgl_pages : forall a, in_window a ->
    mapped (page_table st') a = mapped (page_table st) a || in_sgl sg' n a;
  sgl_others : forall a, in_window a -> in_sgl sg' n a = false ->
    translate (page_table st') a = translate (page_table st) a
}.

Lemma in_sgl_snoc n sg x a : sg !! n = Some x ->
  in_sgl sg (S n) a = in_sgl sg n a || (slot (dvma_addr x) =? slot a).
Proof.
  intros Hx. unfold in_sgl. rewrite (take_S_r _ _ _ Hx), existsb_app. cbn.
  by rewrite orb_false_r.
Qed.

Lemma in_sgl_In sg n a : in_sgl sg n a = true <->
  slot a ∈ map (fun x => slot (dvma_addr x)) (take n sg).
Proof.
  unfold in_sgl. rewrite existsb_exists, list_elem_of_In, in_map_iff.
  split; intros (x & Hx & E'); exists x; (split; [|try done]); try done; by apply Z.eqb_eq.
Qed.

Lemma mapped_slot pt a b : slot a = slot b -> mapped pt a = mapped pt b.
Proof. intros E'. unfold mapped. by rewrite E'. Qed.

(** One more segment, mapped before the others. *)
Lemma sgl_mapped_S n sg x a st st1 sg' st' :
  iommu_ok st -> sg !! n = Some x ->
  area_post (sg_addr x) st a st1 ->
  sgl_mapped n (<[n := Sg (sg_addr x) (sg_len x) a]> sg) st1 sg' st' ->
  sgl_mapped (S n) sg st sg' st'.
Proof.
  intros Hok Hx Ha [Ok Buf Rest Dis Fresh Pages Others].
  assert (Hn : (n < length sg)%nat) by by eapply lookup_lt_Some.
  destruct (area_window _ _ _ _ Ha) as [Hw Hfree].
  assert (Hy : sg' !! n = Some (Sg (sg_addr x) (sg_len x) a)).
  { replace n with (n + 0)%nat by lia.
    rewrite <- lookup_drop, Rest, lookup_drop, Nat.add_0_r. by rewrite list_lookup_insert_eq. }
  assert (Hnew : mapped (page_table st1) a = true).
  { rewrite (area_mapped _ _ _ _ _ Hok Ha Hw), Z.eqb_refl. done. }
  assert (Hnot : in_sgl sg' n a = false).
  { destruct (in_sgl sg' n a) eqn:E'; [|done]. unfold in_sgl in E'.
    apply existsb_exists in E' as (y & Hin & Ey).
    rewrite Forall_forall in Fresh.
    destruct (Fresh y Hin) as (_ & Hm & _). apply Z.eqb_eq in Ey.
    rewrite (mapped_slot _ _ _ Ey), Hnew in Hm. done. }
  split.
  - done.
  - rewrite Buf. etrans; [apply (list_fmap_insert sg_buffer)|]. apply list_insert_id.
    apply list_lookup_fmap_Some. by exists x.
  - replace (S n) with (n + 1)%nat by lia. rewrite <- !drop_drop, Rest.
    rewrite !drop_drop. by rewrite drop_insert_lt by lia.
  - rewrite (take_S_r _ _ _ Hy), map_app. apply list.NoDup_app. split; [done|].
    split; [|apply NoDup_singleton].
    intros s Hs Hs'. apply list_elem_of_singleton in Hs'. cbn in Hs'. subst s.
    apply in_sgl_In in Hs. congruence.
  - rewrite (take_S_r _ _ _ Hy), list.Forall_app, list.Forall_singleton. split.
    + eapply list.Forall_impl; [exact Fresh|]. intros y (Hwy & Hm & Ht). split; [done|].
      split; [|done]. rewrite (area_mapped _ _ _ _ _ Hok Ha Hwy) in Hm.
      by apply orb_false_iff in Hm as [_ ?].
    + split; [done|]. split; [done|]. cbn [dvma_addr sg_addr].
      rewrite Others by done. by apply (area_address _ _ _ _ Hok Ha).
  - intros b Hb. rewrite Pages, (area_mapped _ _ _ _ _ Hok Ha Hb), (in_sgl_snoc _ _ _ _ Hy) by done.
    cbn [dvma_addr]. rewrite (Z.eqb_sym (slot a)).
    by destruct (slot b =? slot a), (mapped (page_table st) b), (in_sgl sg' n b).
  - intros b Hb. rewrite (in_sgl_snoc _ _ _ _ Hy). cbn [dvma_addr].
    intros [H1 H2]%orb_false_iff. rewrite Others by done.
    rewrite (area_translate _ _ _ _ _ Hok Ha Hb), Z.eqb_sym, H2. done.
Qed.

Lemma get_sgl_loop_spec n sg st :
  iommu_ok st -> (n <= length sg)%nat -> Forall good_buffer (take n sg) ->
  match get_sgl_loop n sg st with
  | Done sg' st' => sgl_mapped n sg st sg' st'
  | Fault f => f = Panic
  end.
Proof.
  revert sg st. induction n as [|n IH]; intros sg st Hok Hn Hgood; cbn [get_sgl_loop].
  { split; [done|done|done|by apply list.NoDup_nil|by apply list.Forall_nil| |done].
    intros. by rewrite orb_false_r. }

  destruct (lookup_lt_is_Some_2 sg n) as [x Hx]; [lia|].
  rewrite (take_S_r _ _ _ Hx), list.Forall_app, list.Forall_singleton in Hgood.
  destruct Hgood as [Hgood [Hx0 Hx1]].
  rewrite Hx. unfold mbind at 1, eff_bind, the at 1. cbn [mret eff_ret].
  unfold mbind at 1, eff_bind.
  pose proof (get_area_spec (sg_addr x) (sg_len x) st Hok (proj2 Hx1) Hx0) as Ha.
  destruct (iommu40_get_area (sg_addr x) (sg_len x) st) as [a st1|f]; [|apply Ha].
  specialize (IH (<[n := Sg (sg_addr x) (sg_len x) a]> sg) st1 (area_post_ok _ _ _ _ Hok Ha)).
  rewrite length_insert, take_insert_ge in IH by lia. specialize (IH ltac:(lia) Hgood).
  destruct (get_sgl_loop _ _ st1) as [sg' st'|f]; [|done].
  by apply (sgl_mapped_S n sg x a st st1 sg' st' Hok Hx Ha).
Qed.

(** The segments of a mapped list are released one after the other; each
    entry still is valid when its turn comes, for no two share a page. *)
Lemma release_one_spec a len st : iommu_ok st -> in_window a ->
  mapped (page_table st) a = true ->
  wp (iommu40_release_scsi_one a len) (fun _ st' => iommu_ok st' /\
    forall b, in_window b ->
      mapped (page_table st') b = mapped (page_table st) b && negb (slot a =? slot b)) st.
Proof.
  intros Hok Ha Hm. unfold iommu40_release_scsi_one. rewrite wp_bind.
  eapply wp_mono; [by apply iopte_get_spec|]. intros pte st' [-> Hpte].
  unfold mapped in Hm. rewrite Hpte in Hm. rewrite Hm.
  eapply wp_mono; [by apply iopte_set_spec|]. cbv beta. intros _ st' ->.
  split; [by apply iommu_ok_set|]. intros b Hb. cbn [page_table set_page_table].
  rewrite mapped_insert by (done || apply Hok). rewrite clear_valid, (Z.eqb_sym (slot a)).
  destruct (slot b =? slot a); cbn; by rewrite ?andb_true_r, ?andb_false_r.
Qed.

Lemma release_sgl_loop_spec n sg st :
  iommu_ok st -> (n <= length sg)%nat ->
  NoDup (map (fun x => slot (dvma_addr x)) (take n sg)) ->
  Forall (fun x => in_window (dvma_addr x) /\ mapped (page_table st) (dvma_addr x) = true)
    (take n sg) ->
  wp (release_sgl_loop n sg) (fun _ st' => iommu_ok st' /\
    forall b, in_window b ->
      mapped (page_table st') b = mapped (page_table st) b && negb (in_sgl sg n b)) st.
Proof.
  revert st. induction n as [|n IH]; intros st Hok Hn Hdis Hall; cbn [release_sgl_loop].
  { rewrite wp_skip. split; [done|]. intros b _. by rewrite andb_true_r. }
  destruct (lookup_lt_is_Some_2 sg n) as [x Hx]; [lia|].
  rewrite (take_S_r _ _ _ Hx) in Hdis, Hall. rewrite map_app, list.NoDup_app in Hdis.
  rewrite list.Forall_app, list.Forall_singleton in Hall.
  destruct Hdis as (Hdis & Hne & _), Hall as (Hall & Hw & Hm).
  rewrite Hx, wp_bind, wp_the. exists x. split; [done|].
  rewrite wp_bind.
  eapply wp_mono; [by apply release_one_spec|]. cbv beta. intros _ st1 [Hok1 H1].
  eapply wp_mono; [apply IH; [done|lia|done|]|].
  - rewrite Forall_forall in Hall |- *. intros y Hy. destruct (Hall y Hy) as [Hwy Hmy].
    split; [done|]. rewrite H1, Hmy by done. cbn. apply negb_true_iff, Z.eqb_neq. intros Es.
    apply (Hne (slot (dvma_addr y))); [|rewrite <- Es; by apply list_elem_of_singleton].
    apply list_elem_of_In, in_map_iff. by exists y.
  - cbv beta. intros _ st2 [Hok2 H2]. split; [done|]. intros b Hb.
    rewrite H2, H1, (in_sgl_snoc _ _ _ _ Hx) by done.
    by destruct (mapped (page_table st) b), (in_sgl sg n b), (slot (dvma_addr x) =? slot b).
Qed.

(** C24. Scatter-gather lists. iommu40_get_scsi_sgl() panics (the theorem on
    one buffer says when), or it keeps the buffers, gives the segments
    SBus addresses on pairwise different pages none of which was in use, each
    leading to its buffer, and touches no other translation; and
    iommu40_release_scsi_sgl() of its result gives back exactly these pages:
    the pages in use are then those that were before. *)
Theorem scsi_sgl_roundtrip sg sz st :
  iommu_ok st -> -1 <= sz < Z.of_nat (length sg) -> Forall good_buffer (take (Z.to_nat (sz + 1)) sg) ->
  match iommu40_get_scsi_sgl sg sz st with
  | Done sg' st' => sgl_mapped (Z.to_nat (sz + 1)) sg st sg' st' /\
      wp (iommu40_release_scsi_sgl sg' sz) (fun _ st'' => iommu_ok st'' /\
        forall b, in_window b -> mapped (page_table st'') b = mapped (page_table st) b) st'
  | Fault f => f = Panic
  end.
Proof.
  intros Hok Hsz Hgood. assert (Hn : (Z.to_nat (sz + 1) <= length sg)%nat) by lia.
  pose proof (get_sgl_loop_spec _ sg st Hok Hn Hgood) as Hget.
  unfold iommu40_get_scsi_sgl, iommu40_release_scsi_sgl.
  set (n := Z.to_nat (sz + 1)) in *. unfold mbind at 1, eff_bind.
  destruct (get_sgl_loop n sg st) as [sg' st1|f]; [|done].
  unfold iommu40_invalidate, iom_ev. cbn.
  destruct Hget as [Ok Buf Rest Dis Fresh Pages Others]. split; [by split|].
  assert (Hlen : length sg' = length sg).
  { apply (f_equal length) in Buf. by rewrite !length_map in Buf. }
  eapply wp_mono; [apply release_sgl_loop_spec; [done|lia|done|]|].
  - rewrite Forall_forall in Fresh |- *. intros x Hx. destruct (Fresh x Hx) as (Hw & _ & _).
    split; [done|]. cbn [page_table set_iom_log]. rewrite Pages by done. apply orb_true_iff. right.
    apply in_sgl_In, list_elem_of_In, in_map_iff. by exists x.
  - cbv beta. intros _ st2 [Hok2 H2]. split; [done|]. intros b Hb.
    rewrite H2 by done. cbn [page_table set_iom_log]. rewrite Pages by done.
    destruct (in_sgl sg' n b) eqn:Eb; [|by rewrite orb_false_r, andb_true_r].
    rewrite andb_false_r. symmetry. unfold in_sgl in Eb. apply existsb_exists in Eb as (x & Hx & Ex).
    rewrite Forall_forall in Fresh. destruct (Fresh x Hx) as (_ & Hm & _).
    apply Z.eqb_eq in Ex. by rewrite <- (mapped_slot _ _ _ Ex).
Qed.
End iommu_props.

(** ** Concrete instances *)

(** A segment of four pages; a CPU that maps its addresses one to one. *)
Definition demo_env : IommuEnv :=
  {| IOMMU_VADDR := 0xff000000; IOMMU_END := 0xff004000; mmu_v2p := fun v => v mod 2 ^ 32 |}.

Lemma demo_env_laws : IommuEnvLaws demo_env.
Proof.
  split; [done|done| |intros v; by apply Z.mod_pos_bound].
  intros v. cbn. unfold PAGE_SIZE. change (2 ^ 32) with (4096 * 1048576).
  Z.to_euclidean_division_equations. lia.
Qed.

(** The IOMMU after its initialisation, and after one buffer got a page. *)
Definition demo_blank : iommu40 := Iommu40 0 [] 0 0 0 [] [].
Definition demo_iommu : iommu40 :=
  match iommu40_init (E := demo_env) 0xf0300000 0xf0100000 0xf0200000 0x5203 1 demo_blank with
  | Done _ st => st | Fault _ => demo_blank end.

Lemma demo_iommu_ok : iommu_ok demo_iommu.
Proof. by vm_compute. Qed.

Lemma get_scsi_one_maps_witness :
  match iommu40_get_scsi_one (E := demo_env) 0x1f80 0x100 demo_iommu with
  | Done iova st' => iova = 0xff000f80 /\
      translate (page_table st') (iova + 0x7f) = Some (0x1f80 + 0x7f) /\
      translate (page_table st') (iova + 0x80) = None
  | Fault _ => False
  end.
Proof.
  pose proof (get_scsi_one_maps (E := demo_env) (IommuEnvLaws0 := demo_env_laws) 0x1f80 0x100
    demo_iommu demo_iommu_ok ltac:(lia) ltac:(unfold PAGE_SIZE; lia)) as H.
  destruct (iommu40_get_scsi_one _ _ _) as [iova st'|f] eqn:Er; [|by vm_compute in Er].
  assert (Ei : iova = 0xff000f80) by (vm_compute in Er; congruence). subst iova.
  destruct H as (_ & _ & _ & H & _). split; [reflexivity|].
  split; [exact (H 0x7f ltac:(lia))|]. rewrite (H 0x80 ltac:(lia)). by vm_compute.
Defined.

(** Two segments; the list ends with one that is not asked for. *)
Definition demo_sgl : list mmu_sglist := [Sg 0x5000 0x200 0; Sg 0x7010 0x1000 0; Sg 0 0 0].

Lemma scsi_sgl_roundtrip_witness :
  match iommu40_get_scsi_sgl (E := demo_env) demo_sgl 1 demo_iommu with
  | Done sg' st' => map dvma_addr sg' = [0xff001000; 0xff000010; 0] /\
      sgl_mapped (E := demo_env) 2 demo_sgl demo_iommu sg' st'
  | Fault _ => False
  end.
Proof.
  pose proof (scsi_sgl_roundtrip (E := demo_env) (IommuEnvLaws0 := demo_env_laws) demo_sgl 1
    demo_iommu demo_iommu_ok ltac:(cbn; lia)
    ltac:(repeat constructor; cbn; unfold PAGE_SIZE; lia)) as H.
  destruct (iommu40_get_scsi_sgl _ _ _) as [sg' st'|f] eqn:Er; [|by vm_compute in Er].
  destruct H as [H _]. split; [|exact H].
  apply (f_equal (fun r => match r with Done l _ => map dvma_addr l | Fault _ => [] end)) in Er.
  by vm_compute in Er.
Defined.
