(* ===== verification/Machine.v ===== *)
(** * The board around the processors (arch/sparc/meiko)

    The state that irq.c, timer.c and elan.c share: the PROM, the writes made
    to the interrupt PALs and the 82C54 timers, the kernel's notion of time,
    the trap table entry of level 14. *)

From stdpp Require Import prelude list numbers strings.
From Stdlib Require Import ZArith Lia.
From S2P Require Import Prelude Obp.

Definition HZ_sparc : Z := 100.
Definition SUN4M_NCPUS : Z := 4.
Definition PAGE_MASK_of (a : Z) : Z := Z.land a (2 ^ 32 - 4096).

(** Registers of [struct dino1_intregs_percpu] and of
    [struct dino1_timer_percpu]. *)
Inductive palreg := ctr_latch | mask | mset | pend | set_pend.
Inductive tmreg := limit10 | limit14 | control.
#[global] Instance palreg_eq_dec : EqDecision palreg.
Proof. solve_decision. Defined.

Inductive devwr :=
  | WrPal (cpu : Z) (r : palreg) (v : Z)
  | WrTimer (cpu : Z) (r : tmreg) (v : Z).

Record timeval := Tv { tv_sec : Z; tv_usec : Z }.

(** What the code uses of the hardware and of the rest of the kernel: the
    [n]-th value read from the nanosecond clock (seconds, nanoseconds), the
    mapping of device registers, the result of request_irq(). *)
Class Board := {
  elan_clock : nat -> Z * Z;
  obio_ranges : list linux_prom_registers -> list linux_prom_registers;
  sparc_alloc_io_at : Z -> Z -> Z -> Z -> Z;   (* phys, offset, len, which_io *)
  timer_irq_ret : Z;
  linux_num_cpus : Z;
  PROMREGS : Z                                 (* PROMREG_MAX *)
}.

Record machine {P : Prom} := Machine {
  m_prom : prom_st;
  m_writes : list devwr;        (* newest first *)
  dino1_interrupts : Z;         (* struct dino1_intregs * *)
  dino1_timers : Z;             (* struct dino1_timer_reg * *)
  elanreg : Z;                  (* elanreg_t * *)
  m_reads : nat;                (* readings of the nanosecond clock so far *)
  xtime : timeval;
  elan_lasttick : Z;            (* uint64_t *)
  xtime_lasttick : timeval;
  lvl14_resolution : Z;
  trap_level14 : list Z;        (* the four words of the trap table entry *)
  lvl14_save : list Z;
  patchme_maybe_smp_msg : Z
}.

Section machine.
Context {P : Prom} {B : Board}.
Implicit Types m : machine.
Abbreviation M := (eff machine).

Definition set_m_prom (x : prom_st) m : machine :=
  Machine _ x (m_writes m) (dino1_interrupts m) (dino1_timers m) (elanreg m) (m_reads m) (xtime m)
    (elan_lasttick m) (xtime_lasttick m) (lvl14_resolution m) (trap_level14 m) (lvl14_save m)
    (patchme_maybe_smp_msg m).
Definition set_m_writes (x : list devwr) m : machine :=
  Machine _ (m_prom m) x (dino1_interrupts m) (dino1_timers m) (elanreg m) (m_reads m) (xtime m)
    (elan_lasttick m) (xtime_lasttick m) (lvl14_resolution m) (trap_level14 m) (lvl14_save m)
    (patchme_maybe_smp_msg m).
Definition set_dino1_interrupts (x : Z) m : machine :=
  Machine _ (m_prom m) (m_writes m) x (dino1_timers m) (elanreg m) (m_reads m) (xtime m)
    (elan_lasttick m) (xtime_lasttick m) (lvl14_resolution m) (trap_level14 m) (lvl14_save m)
    (patchme_maybe_smp_msg m).
Definition set_dino1_timers (x : Z) m : machine :=
  Machine _ (m_prom m) (m_writes m) (dino1_interrupts m) x (elanreg m) (m_reads m) (xtime m)
    (elan_lasttick m) (xtime_lasttick m) (lvl14_resolution m) (trap_level14 m) (lvl14_save m)
    (patchme_maybe_smp_msg m).
Definition set_elanreg (x : Z) m : machine :=
  Machine _ (m_prom m) (m_writes m) (dino1_interrupts m) (dino1_timers m) x (m_reads m) (xtime m)
    (elan_lasttick m) (xtime_lasttick m) (lvl14_resolution m) (trap_level14 m) (lvl14_save m)
    (patchme_maybe_smp_msg m).
Definition set_m_reads (x : nat) m : machine :=
  Machine _ (m_prom m) (m_writes m) (dino1_interrupts m) (dino1_timers m) (elanreg m) x (xtime m)
    (elan_lasttick m) (xtime_lasttick m) (lvl14_resolution m) (trap_level14 m) (lvl14_save m)
    (patchme_maybe_smp_msg m).
Definition set_lasttick (t : timeval) (c : Z) m : machine :=
  Machine _ (m_prom m) (m_writes m) (dino1_interrupts m) (dino1_timers m) (elanreg m) (m_reads m)
    (xtime m) c t (lvl14_resolution m) (trap_level14 m) (lvl14_save m) (patchme_maybe_smp_msg m).
Definition set_lvl14_resolution (x : Z) m : machine :=
  Machine _ (m_prom m) (m_writes m) (dino1_interrupts m) (dino1_timers m) (elanreg m) (m_reads m)
    (xtime m) (elan_lasttick m) (xtime_lasttick m) x (trap_level14 m) (lvl14_save m)
    (patchme_maybe_smp_msg m).
Definition set_trap_level14 (x : list Z) (patch : Z) m : machine :=
  Machine _ (m_prom m) (m_writes m) (dino1_interrupts m) (dino1_timers m) (elanreg m) (m_reads m)
    (xtime m) (elan_lasttick m) (xtime_lasttick m) (lvl14_resolution m) x (lvl14_save m) patch.

Definition dev (e : devwr) : M unit := modify (fun m => set_m_writes (e :: m_writes m) m).
Definition ASSERT (b : bool) : M unit := if b then skip else fail Panic.
Definition m_on_prom {A} (c : eff prom_st A) : M A := zoom m_prom set_m_prom c.

(** The elements of promregs[] after prom_apply_obio_ranges() and the
    regcount; an element that was not filled in is not there.  [None]: the
    property could not be read. *)
Definition read_promregs (path : cstring) : M (option (list linux_prom_registers)) :=
  o ← m_on_prom (obp_getprop path (PROMREGS * sizeof_prom_reg));
  match o with
  | None => mret None
  | Some bs =>
      let regcount := Z.of_nat (length bs) / sizeof_prom_reg in
      mret (Some (obio_ranges (parse_prom_regs (Z.to_nat regcount) bs)))
  end.

(** promregs[4] = promregs[regcount - 1], then promregs[i] is one page above
    promregs[i - 1] for i = 1, 2, 3. *)
Definition page_above (r : linux_prom_registers) : linux_prom_registers :=
  PromReg (which_io r) (u32 (phys_addr r + 4096)) (reg_size r).
Definition regs_dance (regs : list linux_prom_registers) : M (list linux_prom_registers) :=
  last ← the OutOfBounds (last regs);
  r0 ← the OutOfBounds (regs !! 0%nat);
  let r1 := page_above r0 in
  let r2 := page_above r1 in
  mret (r0 :: r1 :: r2 :: page_above r2 :: last :: drop 5 regs).

(** map_irq_regs() and map_timer_regs() differ in the property. *)
Definition map_regs (path : cstring) : M Z :=
  o ← read_promregs path;
  match o with
  | None => mret 0
  | Some regs =>
      promregs ← regs_dance regs;
      r ← the OutOfBounds (promregs !! 0%nat);
      mret (sparc_alloc_io_at (phys_addr r) 0 (4096 * SUN4M_NCPUS) (which_io r))
  end.
End machine.

(** ** Mappings into user space

    What the mmap methods of the drivers see of a [struct vm_area_struct];
    the flag bits and the result of io_remap_page_range() are the kernel's. *)
Record vm_area := Vma { vm_start : Z; vm_end : Z; vm_offset : Z; vm_flags : Z }.
Class Vm := {
  VM_SHM : Z;
  VM_LOCKED : Z;
  VM_IO : Z;
  VM_WRITE : Z;
  VM_MAYWRITE : Z;
  io_remap_ret : Z
}.
Definition or_flags (f : Z) (v : vm_area) : vm_area :=
  Vma (vm_start v) (vm_end v) (vm_offset v) (Z.lor (vm_flags v) f).

(** ** An example board

    Its PROM has the nodes the files of this directory look for. *)
Definition board_prom : Prom := mem_prom 1
  (fun n => if n =? 1 then 2 else if n =? 3 then 4 else if n =? 4 then 7 else -1)
  (fun n nm =>
     if decide (nm = str "obio") then 3
     else if decide (nm = str "can") then 4
     else if decide (nm = str "interrupt") then 5
     else if decide (nm = str "counter") then 6
     else if decide (nm = str "elan") then 7
     else if decide (nm = str "leds") then 8 else 0)
  (fun _ _ => true).
Definition demo_reg (page : Z) : list Z := [0; 0; 0; 1; 0; 0; page; 0; 0; 0; 16; 0].
Definition board_props : props :=
  [((5, str "reg"), demo_reg 16 ++ demo_reg 32); ((6, str "reg"), demo_reg 48);
   ((7, str "reg"), demo_reg 64); ((8, str "reg"), demo_reg 80)].

(** Two processors; the clock gains 0.25 s from reading to reading. *)
Definition demo_board : Board := {|
  elan_clock := fun n => (1000 + Z.of_nat n / 4, Z.of_nat n mod 4 * 250000000);
  obio_ranges := fun l => l;
  sparc_alloc_io_at := fun phys off len io => 0xf0000000 + phys;
  timer_irq_ret := 0;
  linux_num_cpus := 2;
  PROMREGS := 16
|}.
Definition demo_machine : @machine board_prom :=
  Machine board_prom board_props [] 0 0 0 0 (Tv 900 0) 0 (Tv 0 0) 0 [0; 0; 0; 0]
    [11; 22; 33; 44] 0.
