(* ===== verification/Irq.v ===== *)
(** * The interrupt PALs (arch/sparc/meiko/irq.c)

    Masking of interrupts, interprocessor interrupts, timer latches and the
    initialisation. A function gets the number of the processor it runs on
    as the argument [me] (smp_processor_id()); save_and_cli() and
    restore_flags() around a single store leave no trace in the model. *)

From stdpp Require Import prelude list numbers gmap sets.
From Stdlib Require Import ZArith Lia.
From S2P Require Import Prelude Obp CanObj Machine.

Definition DINO1_INT_TIMER10 : Z := 10.
Definition DINO1_INT_TIMER14 : Z := 14.
Definition DINO1_INT_LATCH_10 : Z := Z.shiftl 1 8.
Definition DINO1_INT_LATCH_14 : Z := Z.shiftl 1 15.

Section irq.
Context {P : Prom} {B : Board}.
Implicit Types m : machine.
Abbreviation M := (eff machine).

(** The registers are 16 bits wide. *)
Definition IRQ_TO_MASK (irq : Z) : Z := u16 (Z.shiftl 1 irq).

Definition cpu_ok (cpu : Z) : bool := (cpu =? 0) || (cpu =? 1).
(** The levels enable_irq() and its kin take, and those of an IPI. *)
Definition maskable (irq : Z) : bool :=
  negb (irq =? 0) && negb (irq =? 4) && negb (irq =? 6) && negb (irq =? 11) && negb (irq =? 13).
Definition ipi_level (level : Z) : bool :=
  (level =? 1) || (level =? 4) || (level =? 6) || (level =? 12) || (level =? 13) || (level =? 15).

Definition dino1_disable_irq (me irq_nr : Z) : M unit :=
  ASSERT (cpu_ok me) ;; ASSERT (maskable irq_nr) ;; dev (WrPal me mask (IRQ_TO_MASK irq_nr)).
Definition dino1_enable_irq (me irq_nr : Z) : M unit :=
  ASSERT (cpu_ok me) ;; ASSERT (maskable irq_nr) ;; dev (WrPal me mset (IRQ_TO_MASK irq_nr)).
Definition dino1_disable_pil_irq (me pil : Z) : M unit :=
  ASSERT (cpu_ok me) ;; ASSERT (maskable pil) ;; dev (WrPal me mask (IRQ_TO_MASK pil)).
Definition dino1_enable_pil_irq (me pil : Z) : M unit :=
  ASSERT (cpu_ok me) ;; ASSERT (maskable pil) ;; dev (WrPal me mset (IRQ_TO_MASK pil)).

Definition dino1_send_ipi (cpu level : Z) : M unit :=
  ASSERT (cpu_ok cpu) ;; ASSERT (ipi_level level) ;; dev (WrPal cpu set_pend (IRQ_TO_MASK level)).
Definition dino1_clear_ipi (cpu level : Z) : M unit :=
  ASSERT (cpu_ok cpu) ;; ASSERT (ipi_level level) ;; dev (WrPal cpu pend (IRQ_TO_MASK level)).
Definition dino1_set_udt (cpu : Z) : M unit := skip.

Definition dino1_clear_clock_irq (me : Z) : M unit :=
  ASSERT (cpu_ok me) ;; dev (WrPal me ctr_latch DINO1_INT_LATCH_10).
Definition dino1_clear_profile_irq (cpu : Z) : M unit :=
  ASSERT (cpu_ok cpu) ;; dev (WrPal cpu ctr_latch DINO1_INT_LATCH_14).

(** sprintf "%d" of an unsigned int. *)
Definition dino1_irq_itoa (irq : Z) : cstring :=
  let n := s32 irq in if n <? 0 then 45 :: sprintf_lu (- n) else sprintf_lu n.

Definition map_irq_regs : M Z := map_regs OBP_INTERRUPT_REG.

Definition dino1_init_IRQ : M unit :=
  regs ← map_irq_regs;
  modify (set_dino1_interrupts regs) ;;
  if regs =? 0 then fail Panic
  else
    for_each (seqZ 0 linux_num_cpus) (fun cpu =>
      if cpu <? SUN4M_NCPUS
      then dev (WrPal cpu mask 0xfffe) ;; dev (WrPal cpu pend 0xfffe)
      else fail OutOfBounds).
End irq.

(** ** What the PALs do

    irq.h: a one written to mask clears, one written to mset sets the bit of
    a level in the processor's mask of enabled interrupts; pend and set_pend
    do the same with the pending soft interrupts. [en0] and [pe0] are the
    contents before the first write of the log. *)
Fixpoint pal_bits (clr set : palreg) (b0 : Z -> Z) (log : list devwr) (cpu : Z) : Z :=
  match log with
  | [] => b0 cpu
  | WrPal c r v :: log' =>
      let b := pal_bits clr set b0 log' cpu in
      if negb (c =? cpu) then b
      else if decide (r = clr) then Z.ldiff b v
      else if decide (r = set) then Z.lor b v
      else b
  | WrTimer _ _ _ :: log' => pal_bits clr set b0 log' cpu
  end.
Definition pal_enabled := pal_bits mask mset.
Definition pal_pending := pal_bits pend set_pend.

(** ** The abstract controller: two sets of (processor, level) *)

Inductive irq_op :=
  | DisableIrq (me irq : Z) | EnableIrq (me irq : Z)
  | DisablePil (me pil : Z) | EnablePil (me pil : Z)
  | SendIpi (cpu level : Z) | ClearIpi (cpu level : Z)
  | ClearClock (me : Z) | ClearProfile (cpu : Z).

Definition levels : Type := gset (Z * Z).

(** The processors with a PAL, the levels that can be masked, the levels of
    interprocessor interrupts. *)
Definition has_pal (c : Z) : bool := bool_decide (c ∈ [0; 1]).
Definition can_mask (i : Z) : bool := bool_decide (i ∈ [1; 2; 3; 5; 7; 8; 9; 10; 12; 14; 15]).
Definition is_ipi (l : Z) : bool := bool_decide (l ∈ [1; 4; 6; 12; 13; 15]).

(** One operation on the sets (enabled, pending); [None] is a panic. *)
Definition irq_spec (op : irq_op) (s : levels * levels) : option (levels * levels) :=
  let '(en, pe) := s in
  match op with
  | DisableIrq c i | DisablePil c i =>
      if has_pal c && can_mask i then Some (en ∖ {[(c, i)]}, pe) else None
  | EnableIrq c i | EnablePil c i =>
      if has_pal c && can_mask i then Some ({[(c, i)]} ∪ en, pe) else None
  | SendIpi c l => if has_pal c && is_ipi l then Some (en, {[(c, l)]} ∪ pe) else None
  | ClearIpi c l => if has_pal c && is_ipi l then Some (en, pe ∖ {[(c, l)]}) else None
  | ClearClock c | ClearProfile c => if has_pal c then Some (en, pe) else None
  end.
Fixpoint irq_specs (ops : list irq_op) (s : levels * levels) : option (levels * levels) :=
  match ops with [] => Some s | op :: ops' => s' ← irq_spec op s; irq_specs ops' s' end.

Section irq_props.
Context {P : Prom} {B : Board}.
Implicit Types m : machine.

Definition irq_do (op : irq_op) : eff machine unit :=
  match op with
  | DisableIrq c i => dino1_disable_irq c i | EnableIrq c i => dino1_enable_irq c i
  | DisablePil c i => dino1_disable_pil_irq c i | EnablePil c i => dino1_enable_pil_irq c i
  | SendIpi c l => dino1_send_ipi c l | ClearIpi c l => dino1_clear_ipi c l
  | ClearClock c => dino1_clear_clock_irq c | ClearProfile c => dino1_clear_profile_irq c
  end.
Definition irq_dos (ops : list irq_op) : eff machine unit := for_each ops irq_do.

(** The levels of an operation are those of the processor, 0 to 15. *)
Definition irq_op_level (op : irq_op) : Z :=
  match op with
  | DisableIrq _ i | EnableIrq _ i | DisablePil _ i | EnablePil _ i
  | SendIpi _ i | ClearIpi _ i => i
  | ClearClock _ | ClearProfile _ => 0
  end.
Definition level_ok (op : irq_op) : Prop := 0 <= irq_op_level op < 16.

(** The registers hold the sets. *)
Definition holds_set (bits : Z -> Z) (s : levels) : Prop :=
  forall c i, 0 <= i < 16 -> Z.testbit (bits c) i = bool_decide ((c, i) ∈ s).
Definition pal_abs (en0 pe0 : Z -> Z) m (s : levels * levels) : Prop :=
  holds_set (pal_enabled en0 (m_writes m)) s.1 /\ holds_set (pal_pending pe0 (m_writes m)) s.2.

Lemma irq_mask_testbit i j : 0 <= i < 16 -> 0 <= j -> Z.testbit (IRQ_TO_MASK i) j = (i =? j).
Proof.
  intros Hi Hj. unfold IRQ_TO_MASK. rewrite Z.shiftl_1_l, u16_id.
  2:{ split; [apply Z.pow_nonneg; lia|]. apply Z.pow_lt_mono_r; lia. }
  destruct (Z.eqb_spec i j) as [->|Hne]; [by apply Z.pow2_bits_true|by apply Z.pow2_bits_false].
Qed.

(** A write to a clear register removes the level, one to a set register
    adds it, any other leaves the set alone. *)
Lemma holds_clear clr set b0 log c i s :
  0 <= i < 16 -> holds_set (pal_bits clr set b0 log) s ->
  holds_set (pal_bits clr set b0 (WrPal c clr (IRQ_TO_MASK i) :: log)) (s ∖ {[(c, i)]}).
Proof.
  intros Hi Hs c' j Hj. cbn [pal_bits]. rewrite (decide_True _ _ eq_refl).
  destruct (Z.eqb_spec c c') as [<-|Hne]; cbn [negb].
  - rewrite Z.ldiff_spec, Hs, irq_mask_testbit by lia.
    destruct (Z.eqb_spec i j) as [<-|]; cbn; rewrite ?andb_false_r, ?andb_true_r;
      [symmetry; apply bool_decide_false|apply bool_decide_ext]; set_solver.
  - rewrite Hs by done. apply bool_decide_ext. set_solver.
Qed.

Lemma holds_set_bit clr set b0 log c i s :
  clr <> set -> 0 <= i < 16 -> holds_set (pal_bits clr set b0 log) s ->
  holds_set (pal_bits clr set b0 (WrPal c set (IRQ_TO_MASK i) :: log)) ({[(c, i)]} ∪ s).
Proof.
  intros Hcs Hi Hs c' j Hj. cbn [pal_bits]. rewrite (decide_False (P := set = clr)) by congruence.
  rewrite (decide_True _ _ eq_refl).
  destruct (Z.eqb_spec c c') as [<-|Hne]; cbn [negb].
  - rewrite Z.lor_spec, Hs, irq_mask_testbit by lia.
    destruct (Z.eqb_spec i j) as [<-|]; cbn; rewrite ?orb_false_r, ?orb_true_r;
      [symmetry; apply bool_decide_true|apply bool_decide_ext]; set_solver.
  - rewrite Hs by done. apply bool_decide_ext. set_solver.
Qed.

Lemma holds_other clr set b0 log c r v s :
  r <> clr -> r <> set -> holds_set (pal_bits clr set b0 log) s ->
  holds_set (pal_bits clr set b0 (WrPal c r v :: log)) s.
Proof.
  intros H1 H2 Hs c' j Hj. cbn [pal_bits]. rewrite !decide_False by done.
  destruct (negb _); by apply Hs.
Qed.

Lemma wp_assert b (Q : unit -> machine -> Prop) m : wp (ASSERT b) Q m <-> b = true /\ Q tt m.
Proof. destruct b; split; [done|by intros [_ ?]|done|by intros []]. Qed.

(** The tests of the code are these sets. *)
Lemma cpu_ok_has_pal c : cpu_ok c = has_pal c.
Proof.
  unfold cpu_ok, has_pal. apply eq_bool_prop_intro. rewrite Is_true_true, orb_true_iff, !Z.eqb_eq, bool_decide_spec, !elem_of_cons, elem_of_nil.
  tauto.
Qed.
Lemma ipi_level_is_ipi l : ipi_level l = is_ipi l.
Proof.
  unfold ipi_level, is_ipi. apply eq_bool_prop_intro.
  rewrite Is_true_true, !orb_true_iff, !Z.eqb_eq, bool_decide_spec, !elem_of_cons, elem_of_nil. tauto.
Qed.
Lemma maskable_can_mask i : 0 <= i < 16 -> maskable i = can_mask i.
Proof.
  intros Hi. unfold maskable, can_mask. apply eq_bool_prop_intro.
  rewrite Is_true_true, !andb_true_iff, !negb_true_iff, !Z.eqb_neq, bool_decide_spec, !elem_of_cons, elem_of_nil. lia.
Qed.

(** One operation. *)
Lemma irq_do_refines op en0 pe0 m s : level_ok op -> pal_abs en0 pe0 m s ->
  match irq_spec op s with
  | Some s' => wp (irq_do op) (fun _ m' => pal_abs en0 pe0 m' s') m
  | None => irq_do op m = Fault Panic
  end.
Proof.
  intros Hl [Hen Hpe]. destruct s as [en pe]. unfold level_ok in Hl.
  destruct op as [c i|c i|c i|c i|c i|c i|c|c]; cbn [irq_spec irq_do irq_op_level] in *;
  unfold dino1_disable_irq, dino1_enable_irq, dino1_disable_pil_irq, dino1_enable_pil_irq,
    dino1_send_ipi, dino1_clear_ipi, dino1_clear_clock_irq, dino1_clear_profile_irq;
  rewrite ?cpu_ok_has_pal, ?ipi_level_is_ipi, ?maskable_can_mask by done;
  destruct (has_pal c); try (cbn [andb ASSERT]; done);
  try (destruct (can_mask i); [|done]); try (destruct (is_ipi i); [|done]);
  (split; [first [by apply holds_clear|by apply holds_set_bit|by apply holds_other]|]);
  first [by apply holds_clear|by apply holds_set_bit|by apply holds_other].
Qed.

(** The initialisation clears both registers of every processor of the
    board; it fails only when the registers cannot be mapped or a processor
    number has no PAL. *)
Lemma init_loop_spec cpus en0 pe0 m :
  Forall (fun c => 0 <= c < SUN4M_NCPUS) cpus ->
  wp (for_each cpus (fun cpu =>
      if cpu <? SUN4M_NCPUS then dev (WrPal cpu mask 0xfffe) ;; dev (WrPal cpu pend 0xfffe)
      else fail OutOfBounds)) (fun _ m' =>
    forall c i, 1 <= i < 16 ->
      Z.testbit (pal_enabled en0 (m_writes m') c) i =
        negb (bool_decide (c ∈ cpus)) && Z.testbit (pal_enabled en0 (m_writes m) c) i /\
      Z.testbit (pal_pending pe0 (m_writes m') c) i =
        negb (bool_decide (c ∈ cpus)) && Z.testbit (pal_pending pe0 (m_writes m) c) i) m.
Proof.
  revert m. induction cpus as [|x cpus IH]; intros m Hc; cbn [for_each].
  { rewrite wp_skip. intros c i Hi. by rewrite bool_decide_false by apply not_elem_of_nil. }
  apply list.Forall_cons in Hc as [Hx Hc]. rewrite (proj2 (Z.ltb_lt _ _)) by lia.
  rewrite wp_bind, wp_bind. unfold dev. rewrite !wp_modify.
  eapply wp_mono; [by apply IH|]. cbv beta. intros _ m' Hm c i Hi.
  destruct (Hm c i Hi) as [-> ->]. cbn [m_writes set_m_writes].
  unfold pal_enabled, pal_pending. cbn [pal_bits].
  assert (Hbit : Z.testbit 65534 i = true).
  { change 65534 with (Z.ldiff (Z.ones 16) 1).
    rewrite Z.ldiff_spec, ones_testbit, (Z.bits_above_log2 1 i) by (cbn; lia).
    rewrite (proj2 (Z.ltb_lt i 16)) by lia. done. }
  rewrite (bool_decide_ext (c ∈ x :: cpus) (c = x \/ c ∈ cpus)) by by rewrite elem_of_cons.
  destruct (Z.eqb_spec x c) as [<-|Hne]; cbn [negb].
  - rewrite (bool_decide_true (x = x \/ _)) by by left. cbn [negb andb].
    destruct (decide (pend = mask)); [done|]. destruct (decide (pend = mset)); [done|].
    destruct (decide (mask = pend)); [done|]. destruct (decide (mask = set_pend)); [done|].
    rewrite !decide_True, !Z.ldiff_spec, Hbit by done. by rewrite !andb_false_r.
  - by rewrite (bool_decide_ext (c = x \/ c ∈ cpus) (c ∈ cpus)) by naive_solver.
Qed.

Lemma init_IRQ_clears en0 pe0 m regs m1 :
  map_irq_regs m = Done regs m1 -> regs <> 0 -> linux_num_cpus <= SUN4M_NCPUS ->
  m_writes m1 = m_writes m ->
  wp dino1_init_IRQ (fun _ m' => forall c i, 0 <= c < linux_num_cpus -> 1 <= i < 16 ->
      Z.testbit (pal_enabled en0 (m_writes m') c) i = false /\
      Z.testbit (pal_pending pe0 (m_writes m') c) i = false) m.
Proof.
  intros Hmap Hregs Hn Hw. unfold dino1_init_IRQ. rewrite wp_bind.
  unfold wp at 1. rewrite Hmap. rewrite wp_bind, wp_modify, (proj2 (Z.eqb_neq _ _)) by done.
  eapply wp_mono.
  - apply (init_loop_spec (seqZ 0 linux_num_cpus) en0 pe0). apply list.Forall_forall.
    intros c Hc. apply elem_of_seqZ in Hc. lia.
  - cbv beta. intros _ m' Hm c i Hc Hi. destruct (Hm c i Hi) as [-> ->].
    rewrite bool_decide_true by (apply elem_of_seqZ; lia). done.
Qed.

(** C26. The interrupt controller. Any sequence of the operations of irq.c on
    levels 0 to 15 makes the registers of the PALs hold exactly what the sets
    of enabled and pending (processor, level) pairs hold after the same
    operations; the code panics exactly when an operation names a processor
    other than 0 and 1 or a level the operation is not for. *)
Theorem pal_refines_sets ops en0 pe0 m s :
  Forall level_ok ops -> pal_abs en0 pe0 m s ->
  match irq_specs ops s with
  | Some s' => wp (irq_dos ops) (fun _ m' => pal_abs en0 pe0 m' s') m
  | None => irq_dos ops m = Fault Panic
  end.
Proof.
  intros Hops. revert m s. induction Hops as [|op ops Hop _ IH]; intros m s Habs; [done|].
  cbn [irq_specs]. unfold irq_dos. cbn [for_each].
  pose proof (irq_do_refines op en0 pe0 m s Hop Habs) as Hdo.
  destruct (irq_spec op s) as [s1|]; cbn [mbind option_bind].
  2:{ unfold mbind, eff_bind. by rewrite Hdo. }
  apply wp_done in Hdo as ([] & m1 & E1 & H1). specialize (IH m1 s1 H1). unfold irq_dos in IH.
  unfold wp, mbind, eff_bind. rewrite E1. exact IH.
Qed.
End irq_props.

(** A processor enables the CAN and SCSI levels, sends an IPI and masks the
    CAN again. *)
Definition demo_irq_ops : list irq_op :=
  [EnableIrq 0 2; EnablePil 1 3; SendIpi 1 15; DisableIrq 0 2; ClearClock 0].

Lemma pal_refines_sets_witness :
  irq_specs demo_irq_ops (∅, ∅) = Some ({[(1, 3)]}, {[(1, 15)]}) /\
  wp (irq_dos (P := board_prom) demo_irq_ops)
    (fun _ m' => pal_abs (fun _ => 0) (fun _ => 0) m' ({[(1, 3)]}, {[(1, 15)]})) demo_machine.
Proof.
  assert (Es : irq_specs demo_irq_ops (∅, ∅) = Some ({[(1, 3)]}, {[(1, 15)]})) by by vm_compute.
  assert (H0 : pal_abs (P := board_prom) (fun _ => 0) (fun _ => 0) demo_machine (∅, ∅)).
  { split; intros c i _; cbn; by rewrite Z.bits_0. }
  pose proof (pal_refines_sets (P := board_prom) demo_irq_ops (fun _ => 0) (fun _ => 0)
    demo_machine (∅, ∅) ltac:(repeat constructor; cbn; lia) H0) as H.
  rewrite Es in H. by split.
Defined.
