(* ===== verification/Timer.v ===== *)
(** * The 82C54 timers and the Elan clock (arch/sparc/meiko/timer.c, elan.c)

    gettimeofday() from the nanosecond clock of the Elan, the tick that feeds
    it, the programming of the interval timers. *)

From stdpp Require Import prelude list numbers.
From Stdlib Require Import ZArith Lia.
From S2P Require Import Prelude Obp Machine Irq.

Definition DINO1_TIMER_10_TICK : Z := 3200.
Definition DINO1_TIMER_14_TICK : Z := 800.
Definition DINO1_TIMER_10_SELECT : Z := 0x0.
Definition DINO1_TIMER_14_SELECT : Z := 0x40.
Definition DINO1_TIMER_RW_SHORT : Z := Z.shiftl 3 4.
Definition DINO1_TIMER_MODE_COUNT : Z := Z.shiftl 0 1.
Definition DINO1_TIMER_MODE_RATE : Z := Z.shiftl 2 1.

Definition L10_TIMER_COUNT : Z := 1000000000 / (HZ_sparc * DINO1_TIMER_10_TICK).
Definition L14_TIMER_COUNT : Z := 1000000000 / (HZ_sparc * DINO1_TIMER_14_TICK).

Definition u64 (x : Z) : Z := x mod 2 ^ 64.

Section timer.
Context {P : Prom} {B : Board}.
Implicit Types m : machine.
Abbreviation M := (eff machine).

(** ** elan.h and elan.c *)

(** The two halves of the register are the signed members of a
    [struct timespec]. *)
Definition clock_ns (c : Z * Z) : Z := u64 (u64 (s32 c.1) * 1000000000 + s32 c.2).

Definition elan_getclock : M Z :=
  r ← gets elanreg;
  if r =? 0 then fail NullDeref
  else
    n ← gets m_reads;
    modify (set_m_reads (S n)) ;;
    mret (clock_ns (elan_clock n)).

(** The loop of elan_udelay(); [fuel] bounds the readings. *)
Fixpoint udelay_loop (fuel : nat) (start usec : Z) : M unit :=
  match fuel with
  | O => fail OutOfFuel
  | S fuel' =>
      now ← elan_getclock;
      if u64 (now - start) <? u64 (usec * 1000) then udelay_loop fuel' start usec else skip
  end.
Definition elan_udelay (fuel : nat) (usec : Z) : M unit :=
  start ← elan_getclock; udelay_loop fuel start usec.

Definition elan_init : M unit :=
  o ← read_promregs OBP_CAN_ELAN_REG;
  match o with
  | None => fail Panic
  | Some promregs =>
      r ← the Uninit (promregs !! 0%nat);
      let reg := sparc_alloc_io_at (PAGE_MASK_of (phys_addr r)) 0 4096 (which_io r) in
      modify (set_elanreg reg) ;;
      ASSERT (negb (reg =? 0))
  end.

(** ** Time of day *)

(** The loops that carry microseconds over into seconds. *)
Fixpoint tv_carry (fuel : nat) (tv : timeval) : M timeval :=
  match fuel with
  | O => fail OutOfFuel
  | S fuel' =>
      if 1000000 <=? tv_usec tv
      then tv_carry fuel' (Tv (s32 (tv_sec tv + 1)) (tv_usec tv - 1000000))
      else mret tv
  end.
(** A long holds less than 2148 million. *)
Definition carry_fuel : nat := 2149.

Definition dino1_gettimeofday : M timeval :=
  last ← gets elan_lasttick;
  if 0 <? last then
    tv ← gets xtime_lasttick;
    now ← elan_getclock;
    let delta := s32 (u64 (now - last) / 1000) in
    ASSERT (0 <=? delta) ;;
    tv_carry carry_fuel (Tv (tv_sec tv) (s32 (tv_usec tv + delta)))
  else gets xtime.

Definition dino1_gettimeoffset : Z := 0.

Definition dino1_timer_intr : M unit :=
  tv ← gets xtime;
  tv ← tv_carry carry_fuel (Tv (tv_sec tv) (s32 (tv_usec tv + 1000000 / HZ_sparc)));
  now ← elan_getclock;
  modify (set_lasttick tv now).

(** ** The interval timers *)

Definition map_timer_regs : M Z := map_regs OBP_TIMER_REG.

Definition dino1_load_l10 (val mode : Z) : M unit :=
  dev (WrTimer 0 control (Z.lor (Z.lor DINO1_TIMER_10_SELECT DINO1_TIMER_RW_SHORT) mode)) ;;
  dev (WrTimer 0 limit10 (u8 (Z.land val 0xff))) ;;
  dev (WrTimer 0 limit10 (u8 (Z.shiftr val 8))).

Definition dino1_load_l14 (cpu val mode : Z) : M unit :=
  ASSERT (cpu_ok cpu) ;;
  dev (WrTimer cpu control (Z.lor (Z.lor DINO1_TIMER_14_SELECT DINO1_TIMER_RW_SHORT) mode)) ;;
  dev (WrTimer cpu limit14 (u8 (Z.land val 0xff))) ;;
  dev (WrTimer cpu limit14 (u8 (Z.shiftr val 8))).

Definition dino1_load_profile_irq (cpu limit : Z) : M unit :=
  dino1_load_l14 cpu (u16 limit) DINO1_TIMER_MODE_RATE.

(** The code as built for SMP. *)
Definition fix_trap_table : M unit :=
  save ← gets lvl14_save;
  modify (set_trap_level14 save 0x01000000).

Definition dino1_init_timers (me : Z) : M unit :=
  regs ← map_timer_regs;
  modify (set_dino1_timers regs) ;;
  if regs =? 0 then fail Panic
  else
    dino1_load_l10 (u16 L10_TIMER_COUNT) DINO1_TIMER_MODE_RATE ;;
    dino1_clear_clock_irq me ;;
    elan_init ;;
    if negb (timer_irq_ret =? 0) then fail Panic
    else
      for_each (seqZ 0 linux_num_cpus) (fun cpu => dino1_load_l14 cpu 0 DINO1_TIMER_MODE_COUNT) ;;
      dino1_disable_irq me DINO1_INT_TIMER14 ;;
      modify (set_lvl14_resolution L14_TIMER_COUNT) ;;
      fix_trap_table.

End timer.

(** ** What the 82C54 does with the writes

    A control word selects a counter and its mode and, for a counter
    accessed as a short, announces two bytes, the low one first. *)
Record counter := Counter { c_mode : Z; c_low : option Z; c_count : option Z }.

(** The counter of [cpu] that control words select with [sel] and whose
    register is [lim]; the log is newest first. *)
Fixpoint counter_of (cpu sel : Z) (lim : tmreg) (log : list devwr) : option counter :=
  match log with
  | [] => None
  | WrTimer c r v :: log' =>
      let old := counter_of cpu sel lim log' in
      if negb (c =? cpu) then old
      else match r with
           | control =>
               if Z.land v 0xc0 =? sel
               then if Z.land v 0x30 =? DINO1_TIMER_RW_SHORT
                    then Some (Counter (Z.land v 0xe) None None) else None
               else old
           | limit10 | limit14 =>
               match lim, r, old with
               | limit10, limit10, Some k | limit14, limit14, Some k =>
                   match c_low k with
                   | None => Some (Counter (c_mode k) (Some v) None)
                   | Some lo => Some (Counter (c_mode k) None (Some (lo + 256 * v)))
                   end
               | _, _, _ => old
               end
           end
  | WrPal _ _ _ :: log' => counter_of cpu sel lim log'
  end.
Definition counter10 (log : list devwr) : option counter :=
  counter_of 0 DINO1_TIMER_10_SELECT limit10 log.
Definition counter14 (cpu : Z) (log : list devwr) : option counter :=
  counter_of cpu DINO1_TIMER_14_SELECT limit14 log.
