(* ===== verification/TimerProps.v ===== *)
(** * Time of day and the interval timers

    Properties of Timer.v: what gettimeofday() returns, how long
    elan_udelay() waits, what the counters hold after the initialisation. *)

From stdpp Require Import prelude list numbers.
From Stdlib Require Import ZArith Lia.
From S2P Require Import Prelude Obp Machine Irq Timer.

Section clock.
Context {P : Prom} {B : Board}.
Implicit Types m : machine.

(** Microseconds of a time. *)
Definition usecs (tv : timeval) : Z := tv_sec tv * 1000000 + tv_usec tv.
Definition normal (tv : timeval) : Prop := 0 <= tv_usec tv < 1000000.
(** A normal time that is not near the end of the 32-bit seconds. *)
Definition in_range (tv : timeval) : Prop := normal tv /\ 0 <= tv_sec tv < 2 ^ 31 - 5000.

Lemma tv_carry_spec fuel tv m :
  0 <= tv_usec tv < Z.of_nat fuel * 1000000 -> 0 <= tv_sec tv < 2 ^ 31 - Z.of_nat fuel ->
  wp (tv_carry fuel tv) (fun tv' m' =>
    m' = m /\ normal tv' /\ usecs tv' = usecs tv /\ tv_sec tv <= tv_sec tv' < tv_sec tv + Z.of_nat fuel) m.
Proof.
  revert tv. induction fuel as [|fuel IH]; intros tv Hu Hs; [lia|]. cbn [tv_carry].
  destruct (Z.leb_spec 1000000 (tv_usec tv)).
  2:{ rewrite wp_ret. split_and!; [done|split; lia|done|lia|lia]. }
  assert (Hs32 : s32 (tv_sec tv + 1) = tv_sec tv + 1).
  { unfold s32. rewrite Z.mod_small by lia. lia. }
  rewrite Hs32. eapply wp_mono; [apply IH; cbn; lia|]. cbv beta. cbn [tv_sec tv_usec].
  intros tv' m' (-> & Hn & Hus & Hr). unfold usecs in *. cbn [tv_sec tv_usec] in *.
  split_and!; [done|done|lia|lia|lia].
Qed.

Lemma carry_spec sec usec m :
  0 <= usec < 2 ^ 31 -> 0 <= sec < 2 ^ 31 - 2149 ->
  wp (tv_carry carry_fuel (Tv sec usec)) (fun tv' m' =>
    m' = m /\ normal tv' /\ usecs tv' = sec * 1000000 + usec /\ sec <= tv_sec tv' < sec + 2149) m.
Proof.
  assert (E : Z.of_nat carry_fuel = 2149) by done. intros Hu Hs.
  eapply wp_mono; [apply tv_carry_spec; rewrite E; cbn [tv_sec tv_usec]; lia|].
  cbv beta. by rewrite E.
Qed.

Lemma getclock_spec m : elanreg m <> 0 ->
  elan_getclock m = Done (clock_ns (elan_clock (m_reads m))) (set_m_reads (S (m_reads m)) m).
Proof. intros Hr. unfold elan_getclock, mbind, eff_bind, gets. by rewrite (proj2 (Z.eqb_neq _ _) Hr). Qed.

(** The [n]-th reading from now, in nanoseconds. *)
Definition reading m (n : nat) : Z := clock_ns (elan_clock (m_reads m + n)).

Lemma reading_range m n : 0 <= reading m n < 2 ^ 64.
Proof. apply Z.mod_pos_bound. lia. Qed.

(** Less than half an hour since the last tick. *)
Definition recent (t0 now : Z) : Prop := t0 <= now < t0 + 1800 * 1000000000.

Lemma timer_intr_spec m : elanreg m <> 0 -> in_range (xtime m) ->
  wp dino1_timer_intr (fun _ m' => exists tv,
    m' = set_lasttick tv (reading m 0) (set_m_reads (S (m_reads m)) m) /\
    normal tv /\ 0 <= tv_sec tv < 2 ^ 31 - 2500 /\ usecs tv = usecs (xtime m) + 10000) m.
Proof.
  intros Hr [Hn Hs]. unfold dino1_timer_intr. rewrite wp_bind, wp_gets, wp_bind.
  change (1000000 / HZ_sparc) with 10000. unfold normal in Hn.
  assert (Hs32 : s32 (tv_usec (xtime m) + 10000) = tv_usec (xtime m) + 10000).
  { unfold s32. rewrite Z.mod_small by lia. lia. }
  rewrite Hs32. eapply wp_mono; [apply carry_spec; lia|].
  cbv beta. cbn [tv_sec tv_usec]. intros tv m' (-> & Hn' & Hu & Hr').
  rewrite wp_bind. unfold wp at 1. rewrite getclock_spec by done. rewrite wp_modify.
  exists tv. unfold reading. rewrite Nat.add_0_r. unfold usecs in *. cbn [tv_sec tv_usec] in *.
  split_and!; [done|done|lia|lia|lia].
Qed.

Lemma gettimeofday_spec m : elanreg m <> 0 -> 0 < elan_lasttick m ->
  normal (xtime_lasttick m) -> 0 <= tv_sec (xtime_lasttick m) < 2 ^ 31 - 2500 ->
  recent (elan_lasttick m) (reading m 0) ->
  wp dino1_gettimeofday (fun tv m' => m' = set_m_reads (S (m_reads m)) m /\ normal tv /\
    usecs tv = usecs (xtime_lasttick m) + (reading m 0 - elan_lasttick m) / 1000) m.
Proof.
  intros Hr Hl Hn Hs Hrec. unfold dino1_gettimeofday. rewrite wp_bind, wp_gets.
  rewrite (proj2 (Z.ltb_lt _ _)) by done. rewrite wp_bind, wp_gets, wp_bind.
  unfold wp at 1. rewrite getclock_spec by done.
  unfold recent, normal in *. pose proof (reading_range m 0) as Hrg.
  unfold reading in *. rewrite Nat.add_0_r in *.
  set (now := clock_ns (elan_clock (m_reads m))) in *.
  assert (Hd : s32 (u64 (now - elan_lasttick m) / 1000) = (now - elan_lasttick m) / 1000).
  { unfold u64. rewrite (Z.mod_small (now - elan_lasttick m)) by lia.
    unfold s32. rewrite Z.mod_small by (Z.to_euclidean_division_equations; lia). lia. }
  rewrite Hd. assert (Hb : 0 <= (now - elan_lasttick m) / 1000 <= 1800000000)
    by (Z.to_euclidean_division_equations; lia).
  rewrite wp_bind, wp_assert, (proj2 (Z.leb_le _ _)) by lia. split; [done|].
  set (d := (now - elan_lasttick m) / 1000) in *.
  assert (Hs32 : s32 (tv_usec (xtime_lasttick m) + d) = tv_usec (xtime_lasttick m) + d).
  { unfold s32. rewrite Z.mod_small by lia. lia. }
  rewrite Hs32. eapply wp_mono; [apply carry_spec; lia|].
  cbv beta. cbn [tv_sec tv_usec]. intros tv m' (-> & Hn' & Hu & _).
  split; [done|]. split; [done|]. rewrite Hu. unfold usecs. cbn. lia.
Qed.

(** C27. gettimeofday() after a tick. With the clock mapped and less than half
    an hour between readings, a tick followed by two calls of
    dino1_gettimeofday() makes the first call return the kernel's time at the
    tick plus one tick of 10 ms plus the whole microseconds the Elan clock
    advanced since the tick; tv_usec is below 1000000 in every result, no
    32-bit computation overflows, the carry loops end, and the second call
    never returns an earlier time than the first. *)
Theorem gettimeofday_after_tick m :
  elanreg m <> 0 -> in_range (xtime m) -> 0 < reading m 0 ->
  recent (reading m 0) (reading m 1) -> recent (reading m 0) (reading m 2) ->
  reading m 1 <= reading m 2 ->
  wp (dino1_timer_intr ;;
      tv1 ← dino1_gettimeofday;
      tv2 ← dino1_gettimeofday;
      mret (tv1, tv2)) (fun r _ =>
    usecs r.1 = usecs (xtime m) + 10000 + (reading m 1 - reading m 0) / 1000 /\
    normal r.1 /\ normal r.2 /\ usecs r.1 <= usecs r.2) m.
Proof.
  intros Hr Hx H0 H1 H2 H12. rewrite wp_bind.
  eapply wp_mono; [by apply timer_intr_spec|]. cbv beta.
  intros _ m1 (tv & -> & Hn & Hs & Hu). rewrite wp_bind.
  assert (E : forall x n, reading (set_m_reads (S (m_reads x)) m) n = clock_ns (elan_clock (S (m_reads x + n))))
    by done.
  eapply wp_mono; [apply gettimeofday_spec; try done|].
  { unfold reading in *. cbn. by rewrite Nat.add_0_r, Nat.add_1_r in *. }
  cbv beta. intros tv1 m2 (-> & Hn1 & Hu1). rewrite wp_bind.
  eapply wp_mono; [apply gettimeofday_spec; try done|].
  { unfold reading in *. cbn. by replace (S (S (m_reads m + 0))) with (m_reads m + 2)%nat by lia. }
  cbv beta. intros tv2 m3 (-> & Hn2 & Hu2). rewrite wp_ret. cbn [fst snd].
  unfold reading in *. cbn [set_m_reads set_lasttick m_reads elan_lasttick xtime_lasttick] in *.
  replace (S (m_reads m) + 0)%nat with (m_reads m + 1)%nat in * by lia.
  replace (S (S (m_reads m)) + 0)%nat with (m_reads m + 2)%nat in * by lia.
  replace (m_reads m + 0)%nat with (m_reads m) in * by lia.
  split_and!; [lia|done|done|]. rewrite Hu1, Hu2.
  apply Z.add_le_mono_l, Z.div_le_mono; lia.
Qed.

(** ** elan_udelay() *)

Lemma udelay_loop_spec n fuel start usec m :
  elanreg m <> 0 -> (n < fuel)%nat ->
  (forall k, (k < n)%nat -> u64 (reading m k - start) < u64 (usec * 1000)) ->
  u64 (usec * 1000) <= u64 (reading m n - start) ->
  udelay_loop fuel start usec m = Done tt (set_m_reads (m_reads m + n + 1)%nat m).
Proof.
  revert fuel m. induction n as [|n IH]; intros [|fuel] m Hr Hf Hlt Hge; try lia;
    cbn [udelay_loop]; unfold mbind, eff_bind; rewrite getclock_spec by done;
    replace (clock_ns (elan_clock (m_reads m))) with (reading m 0)
      by (unfold reading; by rewrite Nat.add_0_r).
  - rewrite (proj2 (Z.ltb_ge _ _)) by done. unfold skip. by rewrite Nat.add_0_r, Nat.add_1_r.
  - rewrite (proj2 (Z.ltb_lt _ _)) by (apply Hlt; lia).
    assert (Hsh : forall k, reading (set_m_reads (S (m_reads m)) m) k = reading m (S k)).
    { intros k. unfold reading. cbn. by rewrite Nat.add_succ_r. }
    rewrite IH; [|done|lia| |by rewrite Hsh].
    + cbn. by replace (m_reads m + S n + 1)%nat with (S (m_reads m + n + 1)) by lia.
    + intros k Hk. rewrite Hsh. apply Hlt. lia.
Qed.

(** elan_udelay() waits long enough and not longer: it returns at the
    first reading of the clock that is at least the asked number of
    microseconds after its own first reading, and if there is one it does
    return, with fuel for the readings up to it. *)
Theorem elan_udelay_waits n fuel usec m :
  elanreg m <> 0 -> (n < fuel)%nat -> 0 <= usec < 2 ^ 32 ->
  (forall k, (k < n)%nat -> u64 (reading m (S k) - reading m 0) < usec * 1000) ->
  usec * 1000 <= u64 (reading m (S n) - reading m 0) ->
  elan_udelay fuel usec m = Done tt (set_m_reads (m_reads m + n + 2)%nat m).
Proof.
  intros Hr Hf Hu Hlt Hge. unfold elan_udelay, mbind, eff_bind. rewrite getclock_spec by done.
  assert (Hu64 : u64 (usec * 1000) = usec * 1000) by (apply Z.mod_small; lia).
  assert (Hsh : forall k, reading (set_m_reads (S (m_reads m)) m) k = reading m (S k)).
  { intros k. unfold reading. cbn. by rewrite Nat.add_succ_r. }
  replace (clock_ns (elan_clock (m_reads m))) with (reading m 0)
    by (unfold reading; by rewrite Nat.add_0_r).
  rewrite (udelay_loop_spec n); [|done|done| |].
  - cbn. by replace (m_reads m + n + 2)%nat with (S (m_reads m + n + 1)) by lia.
  - intros k Hk. rewrite Hsh, Hu64. by apply Hlt.
  - by rewrite Hsh, Hu64.
Qed.

(** ** The counters *)

Lemma short_bytes val : 0 <= val < 2 ^ 16 ->
  u8 (Z.land val 0xff) + 256 * u8 (Z.shiftr val 8) = val.
Proof.
  intros Hv. change 0xff with (Z.ones 8). rewrite Z.land_ones, Z.shiftr_div_pow2 by lia.
  unfold u8. change (2 ^ 8) with 256. Z.to_euclidean_division_equations. lia.
Qed.

Definition short_mode (mode : Z) : Prop :=
  mode = DINO1_TIMER_MODE_COUNT \/ mode = DINO1_TIMER_MODE_RATE.

(** How the chip reads a control word. *)
Lemma control_word sel mode : short_mode mode ->
  sel = DINO1_TIMER_10_SELECT \/ sel = DINO1_TIMER_14_SELECT ->
  let v := Z.lor (Z.lor sel DINO1_TIMER_RW_SHORT) mode in
  Z.land v 0xc0 = sel /\ (Z.land v 0x30 =? DINO1_TIMER_RW_SHORT) = true /\ Z.land v 0xe = mode.
Proof. by intros [-> | ->] [-> | ->]. Qed.

Lemma load_l10_spec val mode m : 0 <= val < 2 ^ 16 -> short_mode mode ->
  wp (dino1_load_l10 val mode) (fun _ m' => exists log,
    m' = set_m_writes (log ++ m_writes m) m /\
    counter10 (m_writes m') = Some (Counter mode None (Some val)) /\
    Forall (fun e => match e with WrTimer _ _ _ => True | WrPal _ _ _ => False end) log) m.
Proof.
  intros Hv Hm. unfold dino1_load_l10, dev. rewrite !wp_bind, !wp_modify.
  eexists [_; _; _]. split; [reflexivity|]. cbn [m_writes set_m_writes].
  unfold counter10. cbn [counter_of]. change (negb (0 =? 0)) with false. cbn [counter_of].
  split; [|repeat constructor].
  destruct (control_word DINO1_TIMER_10_SELECT mode Hm) as (-> & -> & ->); [by left|].
  cbn [c_low c_mode c_count]. rewrite Z.eqb_refl. cbn [c_low c_mode]. by rewrite short_bytes.
Qed.

Lemma load_l14_spec cpu val mode m : cpu_ok cpu = true -> 0 <= val < 2 ^ 16 -> short_mode mode ->
  wp (dino1_load_l14 cpu val mode) (fun _ m' => exists log,
    m' = set_m_writes (log ++ m_writes m) m /\
    (forall c, counter14 c (m_writes m') =
       if cpu =? c then Some (Counter mode None (Some val)) else counter14 c (m_writes m)) /\
    counter10 (m_writes m') = counter10 (m_writes m) /\
    Forall (fun e => match e with WrTimer _ _ _ => True | WrPal _ _ _ => False end) log) m.
Proof.
  intros Hc Hv Hm. unfold dino1_load_l14, dev. rewrite wp_bind, wp_assert. split; [done|].
  rewrite !wp_bind, !wp_modify. eexists [_; _; _]. split; [reflexivity|].
  cbn [m_writes set_m_writes]. split; [|split; [|repeat constructor]].
  - intros c. unfold counter14. cbn [counter_of]. destruct (cpu =? c); cbn [negb]; [|done].
    destruct (control_word DINO1_TIMER_14_SELECT mode Hm) as (-> & -> & ->); [by right|].
    rewrite Z.eqb_refl. cbn [c_low c_mode]. by rewrite short_bytes.
  - unfold counter10. cbn [counter_of]. destruct (cpu =? 0); cbn [negb]; [|done].
    destruct (control_word DINO1_TIMER_14_SELECT mode Hm) as (-> & _ & _); [by right|]. done.
Qed.

Definition only_timer (log : list devwr) : Prop :=
  Forall (fun e => match e with WrTimer _ _ _ => True | WrPal _ _ _ => False end) log.

Lemma pal_only_timer clr set b0 log log' c : only_timer log ->
  pal_bits clr set b0 (log ++ log') c = pal_bits clr set b0 log' c.
Proof. by induction 1 as [|[] log Hx _ IH]; cbn [app pal_bits]. Qed.

(** The loop that stops the level 14 counters. *)
Lemma stop_l14_spec cpus m : Forall (fun c => cpu_ok c = true) cpus ->
  wp (for_each cpus (fun cpu => dino1_load_l14 cpu 0 DINO1_TIMER_MODE_COUNT)) (fun _ m' => exists log,
    m' = set_m_writes (log ++ m_writes m) m /\
    (forall c, c ∈ cpus ->
       counter14 c (m_writes m') = Some (Counter DINO1_TIMER_MODE_COUNT None (Some 0))) /\
    (forall c, counter14 c (m_writes m) = Some (Counter DINO1_TIMER_MODE_COUNT None (Some 0)) ->
       counter14 c (m_writes m') = Some (Counter DINO1_TIMER_MODE_COUNT None (Some 0))) /\
    counter10 (m_writes m') = counter10 (m_writes m)) m.
Proof.
  intros Hc. revert m. induction Hc as [|x cpus Hx _ IH]; intros m; cbn [for_each].
  { rewrite wp_skip. exists []. split; [by destruct m|]. split; [|done].
    intros c Hin. by apply elem_of_nil in Hin. }
  rewrite wp_bind. eapply wp_mono; [apply load_l14_spec; [done|lia|by left]|].
  cbv beta. intros _ m1 (log1 & -> & H14 & H10 & _).
  eapply wp_mono; [apply IH|]. cbv beta. intros _ m2 (log2 & -> & Hin & Hkeep & H10').
  cbn [m_writes set_m_writes] in *. exists (log2 ++ log1).
  split; [by rewrite <- app_assoc|]. split; [|split; [|congruence]].
  - intros c Hcin. apply elem_of_cons in Hcin as [-> | Hcin]; [|by apply Hin].
    apply Hkeep. by rewrite H14, Z.eqb_refl.
  - intros c Hk. apply Hkeep. rewrite H14. by destruct (x =? c).
Qed.

(** ** dino1_init_timers() *)

Lemma obp_getprop_pure path size st o st' : obp_getprop path size st = Done o st' -> st' = st.
Proof.
  unfold obp_getprop, obp_lookup, mbind, eff_bind. destruct (_ <=? _); [|done]. cbn.
  destruct (_ =? -1); intros [= _ <-]; done.
Qed.

Lemma read_promregs_frame path m m' o m1 : m_prom m' = m_prom m ->
  read_promregs path m = Done o m1 -> read_promregs path m' = Done o m'.
Proof.
  intros Hp. unfold read_promregs, m_on_prom, mbind, eff_bind, zoom. rewrite Hp.
  destruct (obp_getprop _ _ (m_prom m)) as [r st|] eqn:E; [|done].
  apply obp_getprop_pure in E as ->. destruct r as [bs|]; intros [= <- _].
  - rewrite <- Hp. by destruct m'.
  - rewrite <- Hp. by destruct m'.
Qed.

(** What dino1_init_timers() needs: the two register properties, mappings
    that succeed, the interrupt, at most the two processors that have PALs. *)
Record timers_available me m (t e : linux_prom_registers) : Prop := {
  ta_timer : exists ts m1, read_promregs OBP_TIMER_REG m = Done (Some (t :: ts)) m1;
  ta_timer_map : sparc_alloc_io_at (phys_addr t) 0 (4096 * SUN4M_NCPUS) (which_io t) <> 0;
  ta_elan : exists es m1, read_promregs OBP_CAN_ELAN_REG m = Done (Some (e :: es)) m1;
  ta_elan_map : sparc_alloc_io_at (PAGE_MASK_of (phys_addr e)) 0 4096 (which_io e) <> 0;
  ta_irq : timer_irq_ret = 0;
  ta_me : cpu_ok me = true;
  ta_cpus : linux_num_cpus <= 2
}.

Lemma map_regs_spec path t ts m m1 : read_promregs path m = Done (Some (t :: ts)) m1 ->
  map_regs path m = Done (sparc_alloc_io_at (phys_addr t) 0 (4096 * SUN4M_NCPUS) (which_io t)) m.
Proof.
  intros Hr. apply (read_promregs_frame _ m m) in Hr; [|done].
  unfold map_regs, mbind at 1, eff_bind. rewrite Hr.
  unfold regs_dance. destruct (list.last (t :: ts)) as [l|] eqn:El; [done|].
  by apply list.last_None in El.
Qed.

Lemma elan_init_spec e es m m1 : read_promregs OBP_CAN_ELAN_REG m = Done (Some (e :: es)) m1 ->
  sparc_alloc_io_at (PAGE_MASK_of (phys_addr e)) 0 4096 (which_io e) <> 0 ->
  elan_init m =
    Done tt (set_elanreg (sparc_alloc_io_at (PAGE_MASK_of (phys_addr e)) 0 4096 (which_io e)) m).
Proof.
  intros Hr Hne. apply (read_promregs_frame _ m m) in Hr; [|done].
  unfold elan_init, mbind at 1, eff_bind. rewrite Hr.
  apply Z.eqb_neq in Hne. unfold ASSERT, the, mbind, eff_bind, modify.
  cbn -[PAGE_MASK_of]. by rewrite Hne.
Qed.

(** dino1_init_timers() sets the board's clocks up: the level 10 counter
    runs at exactly HZ ticks a second, the level 14 counter of every
    processor is stopped and its interrupt masked on the processor that runs
    the initialisation, the profiling resolution is that of HZ ticks a second
    too, the Elan clock is mapped and the trap table entry of level 14 holds
    the saved vector. *)
Theorem init_timers_programs me m t e en0 : timers_available me m t e ->
  wp (dino1_init_timers me) (fun _ m' =>
    (exists n, counter10 (m_writes m') = Some (Counter DINO1_TIMER_MODE_RATE None (Some n)) /\
       n * DINO1_TIMER_10_TICK * HZ_sparc = 1000000000) /\
    (forall c, 0 <= c < linux_num_cpus ->
       counter14 c (m_writes m') = Some (Counter DINO1_TIMER_MODE_COUNT None (Some 0))) /\
    Z.testbit (pal_enabled en0 (m_writes m') me) DINO1_INT_TIMER14 = false /\
    lvl14_resolution m' * DINO1_TIMER_14_TICK * HZ_sparc = 1000000000 /\
    elanreg m' <> 0 /\ trap_level14 m' = lvl14_save m) m.
Proof.
  intros [(ts & m1 & Ht) Htm (es & m2 & He) Hem Hirq Hme Hcpus].
  unfold dino1_init_timers. rewrite wp_bind. unfold wp at 1, map_timer_regs.
  rewrite (map_regs_spec _ _ _ _ _ Ht), wp_bind, wp_modify, (proj2 (Z.eqb_neq _ _) Htm).
  rewrite wp_bind. eapply wp_mono; [apply load_l10_spec; [done|by right]|].
  cbv beta. intros _ m3 (log1 & -> & H10 & _).
  rewrite wp_bind. unfold dino1_clear_clock_irq, dev.
  rewrite wp_bind, wp_assert. split; [done|]. rewrite wp_modify, wp_bind. unfold wp at 1.
  match goal with |- context [elan_init ?x] =>
    rewrite (elan_init_spec e es x x (read_promregs_frame _ m x _ _ eq_refl He) Hem) end.
  rewrite Hirq. change (negb (0 =? 0)) with false. cbv iota. rewrite wp_bind.
  eapply wp_mono; [apply stop_l14_spec|].
  { apply list.Forall_forall. intros c Hc. apply elem_of_seqZ in Hc.
    unfold cpu_ok. apply orb_true_iff. rewrite !Z.eqb_eq. lia. }
  cbv beta. intros _ m4 (log2 & -> & H14 & _ & H10').
  unfold dino1_disable_irq, dev. rewrite wp_bind, wp_bind, wp_assert. split; [done|].
  rewrite wp_bind, wp_assert. split; [done|]. rewrite wp_modify, wp_bind, wp_modify.
  unfold fix_trap_table. rewrite wp_bind, wp_gets, wp_modify. cbn [m_writes elanreg lvl14_resolution
    trap_level14 lvl14_save set_trap_level14 set_lvl14_resolution set_m_writes set_elanreg
    set_dino1_timers] in *.
  split_and!; try done.
  - exists L10_TIMER_COUNT. split; [|done].
    unfold counter10 in *. cbn [counter_of]. rewrite H10'. cbn [counter_of]. exact H10.
  - intros c Hc. unfold counter14 in *. cbn [counter_of]. apply H14, elem_of_seqZ. lia.
  - unfold pal_enabled. cbn [pal_bits]. rewrite Z.eqb_refl. cbn [negb].
    rewrite (decide_True _ _ eq_refl), Z.ldiff_spec, irq_mask_testbit by done.
    apply andb_false_r.
Qed.
End clock.

(** ** Concrete instances *)

Definition demo_running : @machine board_prom :=
  match dino1_init_timers (B := demo_board) 0 demo_machine with Done _ m => m | Fault _ => demo_machine end.

Lemma gettimeofday_after_tick_witness :
  wp (dino1_timer_intr (B := demo_board) ;;
      tv1 ← dino1_gettimeofday (B := demo_board);
      tv2 ← dino1_gettimeofday (B := demo_board);
      mret (tv1, tv2)) (fun r _ =>
    usecs r.1 = 900000000 + 10000 + 250000 /\ normal r.1 /\ normal r.2 /\
    usecs r.1 <= usecs r.2) demo_running.
Proof.
  apply (gettimeofday_after_tick (B := demo_board) demo_running);
    [by vm_compute|by vm_compute|by vm_compute| | |by vm_compute];
    by vm_compute.
Defined.

Lemma elan_udelay_waits_witness :
  elan_udelay (B := demo_board) 10 600000 demo_running =
    Done tt (set_m_reads 4 demo_running).
Proof.
  apply (elan_udelay_waits (B := demo_board) 2 10 600000 demo_running);
    [by vm_compute|lia|lia| |by vm_compute].
  intros [|[|k]] Hk; [by vm_compute|by vm_compute|lia].
Defined.

Lemma init_timers_programs_witness :
  wp (dino1_init_timers (B := demo_board) 0) (fun _ m' =>
    counter10 (m_writes m') = Some (Counter DINO1_TIMER_MODE_RATE None (Some 3125)) /\
    elanreg m' <> 0) demo_machine.
Proof.
  assert (H : timers_available (B := demo_board) 0 demo_machine (PromReg 1 0x3000 0x1000)
                (PromReg 1 0x4000 0x1000)).
  { split; try done; by do 2 eexists. }
  pose proof (init_timers_programs (B := demo_board) 0 demo_machine _ _ (fun _ => 0) H) as Hw.
  eapply wp_mono; [exact Hw|]. cbv beta.
  intros _ m' ((n & Hn & Hp) & _ & _ & _ & He & _). split; [|exact He].
  unfold DINO1_TIMER_10_TICK, HZ_sparc in Hp. replace 3125 with n by lia. exact Hn.
Defined.
