(* ===== verification/CrossCall.v ===== *)
(** * Cross calls between the processors (smp4m_cross_call() in
    arch/sparc/meiko/smp.c)

    The processors run in parallel: the caller takes cross_call_lock, fills
    ccall_info, clears the two flags of every other processor and sends it an
    interrupt of level 15, runs the function itself and spins until all flags
    are set; the interrupt handler sets the first flag, runs the function and
    sets the second. A step of the model is one access to shared state by one
    processor; any order of the steps of different processors is an
    execution. Level 15 cannot be masked, so a processor takes the interrupt
    wherever it is, also while it spins for the lock with interrupts off; the
    interrupted code waits until the handler is done. Until
    smp_processors_ready is set, at the end of the boot, a call runs the
    function on the caller alone. *)

From stdpp Require Import prelude list numbers relations.
From Stdlib Require Import ZArith Lia.
From S2P Require Import Prelude.

(** The function and its five arguments: [struct smp_funcall] without the
    flags. *)
Record smp_funcall := Call { func : Z; arg1 : Z; arg2 : Z; arg3 : Z; arg4 : Z; arg5 : Z }.

(** Where a processor is in smp4m_cross_call(). *)
Inductive caller_pc :=
  | Outside
  | Locking (f : smp_funcall)             (* spin_lock_irqsave() *)
  | Filling (f : smp_funcall)             (* ccall_info.func = func; ... *)
  | ClearIn (f : smp_funcall) (i : Z)     (* head of the first loop, processors_in[i] *)
  | ClearOut (f : smp_funcall) (i : Z)    (* processors_out[i] *)
  | FireIpi (f : smp_funcall) (i : Z)     (* set_cpu_int(mid_xlate[i], ..) *)
  | RunLocal (f : smp_funcall)
  | WaitIn (f : smp_funcall) (i : Z)      (* while(!processors_in[i]) *)
  | WaitOut (f : smp_funcall) (i : Z)     (* while(!processors_out[i]) *)
  | Unlocking (f : smp_funcall).

(** Where it is in smp4m_cross_call_irq(). *)
Inductive handler_pc := HNone | HEnter | HRun | HLeave.

(** A processor: both positions, the pending bit of level 15, and the calls
    it has run, newest first. *)
Record cpu := Cpu {
  cpc : caller_pc;
  hpc : handler_pc;
  ipi15 : bool;
  ran : list smp_funcall
}.

Class SmpMap := {
  smp_num_cpus : Z;
  cpu_present_map : Z;
  smp_processors_ready : Z;
  num_cpus_pos : 0 < smp_num_cpus
}.

(** Shared state; [returned]: the calls that have returned, with their
    callers, newest first. *)
Record cc_state := CC {
  lock : option Z;
  ccall_info : option smp_funcall;
  processors_in : Z -> Z;
  processors_out : Z -> Z;
  cpus : Z -> cpu;
  returned : list (Z * smp_funcall)
}.

Section crosscall.
Context {S : SmpMap}.
Implicit Types s : cc_state.

(** mask & (1 << i), where mask = cpu_present_map & ~(1 << me). *)
Definition in_mask (me i : Z) : bool := Z.testbit cpu_present_map i && negb (i =? me).

Definition set_cpc (p : caller_pc) (c : cpu) : cpu := Cpu p (hpc c) (ipi15 c) (ran c).
Definition set_hpc (h : handler_pc) (c : cpu) : cpu := Cpu (cpc c) h (ipi15 c) (ran c).
Definition set_ipi15 (b : bool) (c : cpu) : cpu := Cpu (cpc c) (hpc c) b (ran c).
Definition run_func (f : smp_funcall) (c : cpu) : cpu :=
  Cpu (cpc c) (hpc c) (ipi15 c) (f :: ran c).

Definition upd {A} (i : Z) (g : A -> A) (h : Z -> A) : Z -> A :=
  fun j => if j =? i then g (h j) else h j.
Definition on_cpu (i : Z) (g : cpu -> cpu) s : cc_state :=
  CC (lock s) (ccall_info s) (processors_in s) (processors_out s) (upd i g (cpus s)) (returned s).
Definition goto (me : Z) (p : caller_pc) s : cc_state := on_cpu me (set_cpc p) s.
Definition set_lock (l : option Z) s : cc_state :=
  CC l (ccall_info s) (processors_in s) (processors_out s) (cpus s) (returned s).
Definition set_info (f : smp_funcall) s : cc_state :=
  CC (lock s) (Some f) (processors_in s) (processors_out s) (cpus s) (returned s).
Definition set_in (i v : Z) s : cc_state :=
  CC (lock s) (ccall_info s) (upd i (fun _ => v) (processors_in s)) (processors_out s) (cpus s)
    (returned s).
Definition set_out (i v : Z) s : cc_state :=
  CC (lock s) (ccall_info s) (processors_in s) (upd i (fun _ => v) (processors_out s)) (cpus s)
    (returned s).
Definition add_returned (me : Z) (f : smp_funcall) s : cc_state :=
  CC (lock s) (ccall_info s) (processors_in s) (processors_out s) (cpus s) ((me, f) :: returned s).

(** Processor [me] calls smp4m_cross_call(): only the local copy is run unless
    the processors are ready. *)
Definition cross_call_enter (me : Z) (f : smp_funcall) s : cc_state :=
  if smp_processors_ready =? 0 then on_cpu me (run_func f) s else goto me (Locking f) s.

(** One step of its body on processor [me]; [None] while it spins and outside
    the function. *)
Definition smp4m_cross_call (me : Z) s : option cc_state :=
  match cpc (cpus s me) with
  | Outside => None
  | Locking f => if lock s is None then Some (goto me (Filling f) (set_lock (Some me) s)) else None
  | Filling f => Some (goto me (ClearIn f 0) (set_info f s))
  | ClearIn f i =>
      if i <? smp_num_cpus
      then Some (goto me (ClearOut f i) (set_in i (b2z (negb (in_mask me i))) s))
      else Some (goto me (RunLocal f) s)
  | ClearOut f i =>
      Some (goto me (if in_mask me i then FireIpi f i else ClearIn f (i + 1))
             (set_out i (b2z (negb (in_mask me i))) s))
  | FireIpi f i => Some (goto me (ClearIn f (i + 1)) (on_cpu i (set_ipi15 true) s))
  | RunLocal f => Some (goto me (WaitIn f 0) (on_cpu me (run_func f) s))
  | WaitIn f i =>
      if processors_in s i =? 0 then None
      else Some (goto me (if i + 1 <? smp_num_cpus then WaitIn f (i + 1) else WaitOut f 0) s)
  | WaitOut f i =>
      if processors_out s i =? 0 then None
      else Some (goto me (if i + 1 <? smp_num_cpus then WaitOut f (i + 1) else Unlocking f) s)
  | Unlocking f => Some (goto me Outside (set_lock None (add_returned me f s)))
  end.

(** One step of smp4m_cross_call_irq() on processor [me]; the first one is
    the trap, which clears the pending bit. *)
Definition smp4m_cross_call_irq (me : Z) s : option cc_state :=
  match hpc (cpus s me) with
  | HNone => if ipi15 (cpus s me)
             then Some (on_cpu me (fun c => set_hpc HEnter (set_ipi15 false c)) s) else None
  | HEnter => Some (on_cpu me (set_hpc HRun) (set_in me 1 s))
  | HRun => match ccall_info s with
            | Some f => Some (on_cpu me (fun c => set_hpc HLeave (run_func f c)) s)
            | None => None
            end
  | HLeave => Some (on_cpu me (set_hpc HNone) (set_out me 1 s))
  end.

(** The steps of the system. A processor in the handler does not run the code
    the interrupt found it in. *)
Inductive cc_step s : cc_state -> Prop :=
  | step_call me f :                     (* some code calls smp_cross_call() *)
      cpc (cpus s me) = Outside -> hpc (cpus s me) = HNone ->
      cc_step s (cross_call_enter me f s)
  | step_prog s' : cc_prog s s' -> cc_step s s'
(** The steps of calls that have begun. *)
with cc_prog s : cc_state -> Prop :=
  | prog_main me s' :
      hpc (cpus s me) = HNone -> smp4m_cross_call me s = Some s' -> cc_prog s s'
  | prog_irq me s' : smp4m_cross_call_irq me s = Some s' -> cc_prog s s'.

(** No processor is in a cross call, nothing has run. *)
Definition cc_init : cc_state :=
  CC None None (fun _ => 0) (fun _ => 0) (fun _ => Cpu Outside HNone false []) [].

Definition cc_reachable s : Prop := rtc cc_step cc_init s.

(** The processors a call of [me] is for. *)
Definition target (me i : Z) : bool :=
  (i =? me) || (0 <=? i) && (i <? smp_num_cpus) && in_mask me i.

(** The calls among those returned that were for processor [i]. *)
Definition calls_for (i : Z) (l : list (Z * smp_funcall)) : list smp_funcall :=
  map snd (filter (fun x => target x.1 i) l).

(** ** The invariant *)

Definition calm (c : cpu) : Prop := hpc c = HNone /\ ipi15 c = false.
Definition waiting (c : cpu) : Prop :=
  cpc c = Outside \/ exists f, cpc c = Locking f.

(** The call a processor in the critical section makes, and the number of
    processors it has been through with the first loop: all of them after
    the loop. *)
Definition holder (p : caller_pc) : option (smp_funcall * Z) :=
  match p with
  | Outside | Locking _ => None
  | Filling f => Some (f, 0)
  | ClearIn f i | ClearOut f i | FireIpi f i => Some (f, i)
  | RunLocal f | WaitIn f _ | WaitOut f _ | Unlocking f => Some (f, smp_num_cpus)
  end.
Definition local_done (p : caller_pc) : bool :=
  match p with WaitIn _ _ | WaitOut _ _ | Unlocking _ => true | _ => false end.
(** The number of processors known to have set their flags. *)
Definition seen_in (p : caller_pc) : Z :=
  match p with WaitIn _ i => i | WaitOut _ _ | Unlocking _ => smp_num_cpus | _ => 0 end.
Definition seen_out (p : caller_pc) : Z :=
  match p with WaitOut _ i => i | Unlocking _ => smp_num_cpus | _ => 0 end.

(** The five stages of a processor that was interrupted. *)
Inductive stage := Pending | Entered | InSet | Ran | OutSet.
Definition at_stage (st : stage) (f : smp_funcall) (old : list smp_funcall) (c : cpu) (vin vout : Z)
    : Prop :=
  match st with
  | Pending => hpc c = HNone /\ ipi15 c = true /\ vin = 0 /\ vout = 0 /\ ran c = old
  | Entered => hpc c = HEnter /\ ipi15 c = false /\ vin = 0 /\ vout = 0 /\ ran c = old
  | InSet => hpc c = HRun /\ ipi15 c = false /\ vin = 1 /\ vout = 0 /\ ran c = old
  | Ran => hpc c = HLeave /\ ipi15 c = false /\ vin = 1 /\ vout = 0 /\ ran c = f :: old
  | OutSet => hpc c = HNone /\ ipi15 c = false /\ vin = 1 /\ vout = 1 /\ ran c = f :: old
  end.
Definition interrupted (f : smp_funcall) (old : list smp_funcall) (c : cpu) (vin vout : Z) : Prop :=
  exists st, at_stage st f old c vin vout.

(** Processor [i] while [me], at [p], makes the call [f] and has been through
    with the first [n] processors. *)
Definition other_ok (me : Z) (p : caller_pc) (f : smp_funcall) (n i : Z) s : Prop :=
  waiting (cpus s i) /\
  if (0 <=? i) && (i <? n) && in_mask me i
  then interrupted f (calls_for i (returned s)) (cpus s i) (processors_in s i) (processors_out s i)
  else calm (cpus s i) /\ ran (cpus s i) = calls_for i (returned s).

(** The flags of the processors the loop has been through that were not
    interrupted are set; the current one's are as far as the caller got. *)
Record held_ok (me : Z) (p : caller_pc) (f : smp_funcall) (n : Z) s : Prop := {
  ho_calm : calm (cpus s me);
  ho_ran : ran (cpus s me) =
    (if local_done p then [f] else []) ++ calls_for me (returned s);
  ho_info : match p with Filling _ => True | _ => ccall_info s = Some f end;
  ho_range : 0 <= n <= smp_num_cpus;
  ho_other : forall i, i <> me -> other_ok me p f n i s;
  ho_flags : forall i, 0 <= i < n -> in_mask me i = false ->
    processors_in s i = 1 /\ processors_out s i = 1;
  ho_cur : match p with
           | ClearOut _ i => i < smp_num_cpus /\ processors_in s i = b2z (negb (in_mask me i))
           | FireIpi _ i => i < smp_num_cpus /\ in_mask me i = true /\
               processors_in s i = 0 /\ processors_out s i = 0
           | WaitIn _ i | WaitOut _ i => 0 <= i < smp_num_cpus
           | _ => True
           end;
  ho_in : forall i, 0 <= i < seen_in p -> processors_in s i = 1;
  ho_out : forall i, 0 <= i < seen_out p -> processors_out s i = 1
}.

Definition cc_inv s : Prop :=
  match lock s with
  | None => forall i, waiting (cpus s i) /\ calm (cpus s i) /\ ran (cpus s i) = calls_for i (returned s)
  | Some me => exists f n, holder (cpc (cpus s me)) = Some (f, n) /\
      held_ok me (cpc (cpus s me)) f n s
  end.
End crosscall.
