(* ===== verification/CrossCallProps.v ===== *)
(** * Cross calls are an atomic broadcast that ends

    The invariant of CrossCall.v holds in every reachable state; every
    processor runs exactly the calls that are for it, all in one order; a call
    that has begun ends. *)

From stdpp Require Import prelude list numbers relations.
From Stdlib Require Import ZArith Lia.
From S2P Require Import Prelude CrossCall.

#[local] Set Default Proof Using "Type".

Section props.
Context {S : SmpMap} (Hready : smp_processors_ready <> 0).
Implicit Types s : cc_state.

Lemma enter_ready me f s : cross_call_enter me f s = goto me (Locking f) s.
Proof using Hready. unfold cross_call_enter. by rewrite (proj2 (Z.eqb_neq _ _) Hready). Qed.

Lemma upd_eq {A} i (g : A -> A) h : upd i g h i = g (h i).
Proof. unfold upd. by rewrite Z.eqb_refl. Qed.
Lemma upd_ne {A} i j (g : A -> A) h : j <> i -> upd i g h j = h j.
Proof. intros Hne. unfold upd. by rewrite (proj2 (Z.eqb_neq _ _) Hne). Qed.

(** Projections of an updated state; then the cases of the index. *)
Ltac proj := cbn [lock ccall_info processors_in processors_out cpus returned goto on_cpu set_lock
  set_info set_in set_out add_returned cpc hpc ipi15 ran set_cpc set_hpc set_ipi15 run_func] in *.
Ltac at_cpu := proj; rewrite ?upd_eq in *; rewrite ?upd_ne in * by (done || lia); proj.

Lemma in_mask_me me : in_mask me me = false.
Proof. unfold in_mask. rewrite Z.eqb_refl. apply andb_false_r. Qed.

Lemma interrupted_in f old c vin vout : interrupted f old c vin vout ->
  vin <> 0 -> vin = 1.
Proof. intros [st H] Hn. destruct st; cbn in H; naive_solver. Qed.
Lemma interrupted_out f old c vin vout : interrupted f old c vin vout ->
  vout <> 0 -> vout = 1.
Proof. intros [st H] Hn. destruct st; cbn in H; naive_solver. Qed.

(** The flag the caller waits for is the one the handler sets. *)
Lemma flag_in me p f n s i : held_ok me p f n s -> n = smp_num_cpus -> 0 <= i < smp_num_cpus ->
  processors_in s i <> 0 -> processors_in s i = 1.
Proof.
  intros H -> Hi Hne. destruct (in_mask me i) eqn:Em; [|by apply (ho_flags _ _ _ _ _ H)].
  assert (i <> me) by (intros ->; by rewrite in_mask_me in Em).
  destruct (ho_other _ _ _ _ _ H i) as [_ Ho]; [done|].
  rewrite (proj2 (Z.leb_le _ _)), (proj2 (Z.ltb_lt _ _)), Em in Ho by lia.
  by eapply interrupted_in; [exact Ho|].
Qed.
Lemma flag_out me p f n s i : held_ok me p f n s -> n = smp_num_cpus -> 0 <= i < smp_num_cpus ->
  processors_out s i <> 0 -> processors_out s i = 1.
Proof.
  intros H -> Hi Hne. destruct (in_mask me i) eqn:Em; [|by apply (ho_flags _ _ _ _ _ H)].
  assert (i <> me) by (intros ->; by rewrite in_mask_me in Em).
  destruct (ho_other _ _ _ _ _ H i) as [_ Ho]; [done|].
  rewrite (proj2 (Z.leb_le _ _)), (proj2 (Z.ltb_lt _ _)), Em in Ho by lia.
  by eapply interrupted_out; [exact Ho|].
Qed.

(** The caller moves on and changes nothing else. *)
Lemma held_goto me p p' f n s :
  held_ok me p f n s -> holder p' = Some (f, n) -> local_done p' = local_done p ->
  (match p' with Filling _ => True | _ => ccall_info s = Some f end) ->
  (match p' with
   | ClearOut _ i => i < smp_num_cpus /\ processors_in s i = b2z (negb (in_mask me i))
   | FireIpi _ i => i < smp_num_cpus /\ in_mask me i = true /\
       processors_in s i = 0 /\ processors_out s i = 0
   | WaitIn _ i | WaitOut _ i => 0 <= i < smp_num_cpus
   | _ => True
   end) ->
  (forall i, 0 <= i < seen_in p' -> processors_in s i = 1) ->
  (forall i, 0 <= i < seen_out p' -> processors_out s i = 1) ->
  held_ok me p' f n (goto me p' s).
Proof.
  intros [Hc Hr Hi Hn Ho Hf Hcur Hin Hout] Hh Hl Hi' Hcur' Hin' Hout'.
  split; at_cpu; try done.
  - by rewrite Hl.
  - intros i Hne. destruct (Ho i Hne) as [Hw Hst].
    unfold other_ok. at_cpu. done.
Qed.

(** A flag of the current processor is written; it is not yet interrupted. *)
Lemma held_set_in me f i v s : held_ok me (ClearIn f i) f i s ->
  held_ok me (ClearIn f i) f i (set_in i v s).
Proof.
  intros [Hc Hr Hi Hn Ho Hf Hcur Hin Hout].
  split; proj; try done; [| |intros j Hj; unfold seen_in in Hj; lia].
  - intros j Hne. destruct (Ho j Hne) as [Hw Hst]. split; [done|]. proj.
    destruct (_ && _) eqn:E; [|done]. rewrite upd_ne; [done|].
    apply andb_true_iff in E as [E _]. apply andb_true_iff in E as [_ E%Z.ltb_lt]. lia.
  - intros j Hj Hm. rewrite upd_ne by lia. by apply Hf.
Qed.
Lemma held_set_out me f i v s : held_ok me (ClearOut f i) f i s ->
  held_ok me (ClearOut f i) f i (set_out i v s).
Proof.
  intros [Hc Hr Hi Hn Ho Hf Hcur Hin Hout].
  split; proj; try done; [| |intros j Hj; unfold seen_out in Hj; lia].
  - intros j Hne. destruct (Ho j Hne) as [Hw Hst]. split; [done|]. proj.
    destruct (_ && _) eqn:E; [|done]. rewrite upd_ne; [done|].
    apply andb_true_iff in E as [E _]. apply andb_true_iff in E as [_ E%Z.ltb_lt]. lia.
  - intros j Hj Hm. rewrite upd_ne by lia. by apply Hf.
Qed.

Lemma in_range_S i n (b : bool) : i <> n ->
  (0 <=? i) && (i <? n + 1) && b = (0 <=? i) && (i <? n) && b.
Proof. intros Hne. destruct (Z.ltb_spec i (n + 1)), (Z.ltb_spec i n); try lia; done. Qed.

(** The loop is through with processor [i]: it was not in the mask. *)
Lemma held_next_skip me f i s :
  held_ok me (ClearOut f i) f i s -> in_mask me i = false ->
  processors_in s i = 1 -> processors_out s i = 1 ->
  held_ok me (ClearIn f (i + 1)) f (i + 1) (goto me (ClearIn f (i + 1)) s).
Proof.
  intros [Hc Hr Hi Hn Ho Hf [Hcur _] Hin Hout] Hm H1 H2.
  split; at_cpu; try done; [lia| |].
  - intros j Hne. destruct (Ho j Hne) as [Hw Hst]. split; at_cpu; [done|].
    destruct (Z.eqb_spec j i) as [->|Hji].
    + rewrite Hm, andb_false_r in Hst |- *. done.
    + by rewrite in_range_S.
  - intros j Hj Hmj. destruct (Z.eqb_spec j i) as [->|Hji]; [done|]. apply Hf; [lia|done].
Qed.

(** Or it is interrupted now. *)
Lemma held_next_fire me f i s :
  held_ok me (FireIpi f i) f i s ->
  held_ok me (ClearIn f (i + 1)) f (i + 1)
    (goto me (ClearIn f (i + 1)) (on_cpu i (set_ipi15 true) s)).
Proof.
  intros [Hc Hr Hi Hn Ho Hf (Hcur & Hm & H1 & H2) Hin Hout].
  assert (Hime : i <> me) by (intros ->; by rewrite in_mask_me in Hm).
  split; at_cpu; try done; [lia| |].
  - intros j Hne. destruct (Ho j Hne) as [Hw Hst]. unfold other_ok. at_cpu.
    destruct (Z.eqb_spec j i) as [->|Hji].
    + at_cpu. split; [done|].
      rewrite (proj2 (Z.leb_le 0 i)), (proj2 (Z.ltb_lt i (i + 1))), Hm by lia. cbn [andb].
      rewrite (proj2 (Z.ltb_ge i i)), andb_false_r in Hst by lia. destruct Hst as [[Hh _] Hst].
      by exists Pending.
    + at_cpu. split; [done|]. by rewrite in_range_S.
  - intros j Hj Hmj. destruct (Z.eqb_spec j i) as [->|Hji]; [congruence|]. apply Hf; [lia|done].
Qed.

Lemma held_local me f s : held_ok me (RunLocal f) f smp_num_cpus s ->
  held_ok me (WaitIn f 0) f smp_num_cpus (goto me (WaitIn f 0) (on_cpu me (run_func f) s)).
Proof.
  intros [Hc Hr Hi Hn Ho Hf Hcur Hin Hout]. pose proof num_cpus_pos.
  split; at_cpu; try done; [by rewrite Hr|].
  intros j Hne. destruct (Ho j Hne) as [Hw Hst]. unfold other_ok. at_cpu. done.
Qed.

Lemma held_set_info me f n s : held_ok me (Filling f) f n s ->
  held_ok me (Filling f) f n (set_info f s).
Proof. intros []. by split. Qed.

Lemma calls_for_cons me f i l :
  calls_for i ((me, f) :: l) = (if target me i then [f] else []) ++ calls_for i l.
Proof. unfold calls_for. rewrite filter_cons. cbn [fst]. by destruct (target me i). Qed.

(** ** Steps of the caller *)

(** At the end all flags are set: everybody has run the function. *)
Lemma held_unlock me f s i : held_ok me (Unlocking f) f smp_num_cpus s ->
  (i <> me -> waiting (cpus s i)) /\ calm (cpus s i) /\
  ran (cpus s i) = calls_for i ((me, f) :: returned s).
Proof.
  intros [Hc Hr Hi Hn Ho Hf Hcur Hin Hout]. rewrite calls_for_cons. unfold target.
  destruct (Z.eqb_spec i me) as [->|Hne]; [done|]. destruct (Ho i Hne) as [Hw Hst].
  cbn [orb]. split; [done|]. destruct (_ && _) eqn:E; [|done].
  apply andb_true_iff in E as [E _]. apply andb_true_iff in E as [E1%Z.leb_le E2%Z.ltb_lt].
  cbn [seen_in seen_out] in *. rewrite Hin, Hout in Hst by lia.
  destruct Hst as [[] Hst]; cbn in Hst; destruct Hst as (H1 & H2 & H3 & H4 & H5); try done.
Qed.

(** The caller sees a flag it waits for. *)
Lemma held_wait_in me f i s : held_ok me (WaitIn f i) f smp_num_cpus s -> processors_in s i <> 0 ->
  let p := if i + 1 <? smp_num_cpus then WaitIn f (i + 1) else WaitOut f 0 in
  held_ok me p f smp_num_cpus (goto me p s).
Proof.
  intros Hok Hne. pose proof num_cpus_pos as Hpos. pose proof (ho_cur _ _ _ _ _ Hok) as Hi. cbn in Hi.
  pose proof (flag_in _ _ _ _ _ _ Hok eq_refl Hi Hne) as H1. cbv zeta.
  destruct (Z.ltb_spec (i + 1) smp_num_cpus);
    apply (held_goto me (WaitIn f i)); try done; try exact (ho_info _ _ _ _ _ Hok); try lia;
    intros j Hj; cbn [seen_in seen_out] in Hj; try lia;
    (destruct (Z.eqb_spec j i) as [->|]; [done|]); apply (ho_in _ _ _ _ _ Hok); cbn; lia.
Qed.

Lemma held_wait_out me f i s : held_ok me (WaitOut f i) f smp_num_cpus s -> processors_out s i <> 0 ->
  let p := if i + 1 <? smp_num_cpus then WaitOut f (i + 1) else Unlocking f in
  held_ok me p f smp_num_cpus (goto me p s).
Proof.
  intros Hok Hne. pose proof (ho_cur _ _ _ _ _ Hok) as Hi. cbn in Hi.
  pose proof (flag_out _ _ _ _ _ _ Hok eq_refl Hi Hne) as H1. cbv zeta.
  destruct (Z.ltb_spec (i + 1) smp_num_cpus);
    apply (held_goto me (WaitOut f i)); try done; try exact (ho_info _ _ _ _ _ Hok); try lia;
    try exact (ho_in _ _ _ _ _ Hok); intros j Hj; cbn [seen_out] in Hj;
    (destruct (Z.eqb_spec j i) as [->|]; [done|]); apply (ho_out _ _ _ _ _ Hok); cbn; lia.
Qed.

Lemma inv_main_holder me f n s s' :
  lock s = Some me -> holder (cpc (cpus s me)) = Some (f, n) ->
  held_ok me (cpc (cpus s me)) f n s -> smp4m_cross_call me s = Some s' -> cc_inv s'.
Proof.
  intros Hl Hh Hok Hs. pose proof num_cpus_pos as Hpos. unfold smp4m_cross_call in Hs.
  destruct (cpc (cpus s me)) as [|g|g|g i|g i|g i|g|g i|g i|g]; try done;
    injection Hh as -> <-.
  - injection Hs as <-. unfold cc_inv. proj. rewrite Hl. at_cpu. exists f, 0. split; [done|].
    apply (held_goto me (Filling f)); try done; [by apply held_set_info|cbn; lia|cbn; lia].
  - pose proof (ho_range _ _ _ _ _ Hok). destruct (Z.ltb_spec i smp_num_cpus); injection Hs as <-;
      unfold cc_inv; proj; rewrite Hl; at_cpu.
    + exists f, i. split; [done|].
      apply (held_goto me (ClearIn f i)); try done; [by apply held_set_in|apply Hok| |cbn; lia|cbn; lia].
      at_cpu. done.
    + assert (i = smp_num_cpus) as -> by lia. exists f, smp_num_cpus. split; [done|].
      apply (held_goto me (ClearIn f smp_num_cpus)); try done; [apply Hok|cbn; lia|cbn; lia].
  - injection Hs as <-. unfold cc_inv. proj. rewrite Hl. at_cpu.
    pose proof (held_set_out me f i (b2z (negb (in_mask me i))) s Hok) as Hok'.
    destruct (ho_cur _ _ _ _ _ Hok) as [Hi Hin]. destruct (in_mask me i) eqn:Em.
    + exists f, i. split; [done|].
      apply (held_goto me (ClearOut f i)); try done; [apply Hok| |cbn; lia|cbn; lia].
      at_cpu. done.
    + exists f, (i + 1). split; [done|]. apply held_next_skip; try done. by at_cpu.
  - injection Hs as <-. unfold cc_inv. proj. rewrite Hl. at_cpu. exists f, (i + 1). split; [done|].
    by apply held_next_fire.
  - injection Hs as <-. unfold cc_inv. proj. rewrite Hl. at_cpu. exists f, smp_num_cpus.
    split; [done|]. by apply held_local.
  - destruct (Z.eqb_spec (processors_in s i) 0) as [|Hne]; [done|]. injection Hs as <-.
    pose proof (held_wait_in me f i s Hok Hne) as Hw. unfold cc_inv. proj. rewrite Hl. at_cpu.
    exists f, smp_num_cpus. split; [by destruct (_ <? _)|exact Hw].
  - destruct (Z.eqb_spec (processors_out s i) 0) as [|Hne]; [done|]. injection Hs as <-.
    pose proof (held_wait_out me f i s Hok Hne) as Hw. unfold cc_inv. proj. rewrite Hl. at_cpu.
    exists f, smp_num_cpus. split; [by destruct (_ <? _)|exact Hw].
  - injection Hs as <-. unfold cc_inv. proj. intros i.
    destruct (held_unlock me f s i Hok) as (Hw & Hc & Hr).
    destruct (Z.eqb_spec i me) as [->|Hne]; at_cpu; [|by split; [apply Hw|]].
    split; [by left|]. done.
Qed.

(** ** Steps of the interrupt handler *)

(** An interrupted processor [c] moves to the next stage; its flags become
    [vin] and [vout], which are 1 where they were. *)
Lemma held_stage me p f n s c s' :
  held_ok me p f n s -> holder p = Some (f, n) -> c <> me ->
  0 <= c < n -> in_mask me c = true ->
  (forall j, j <> c -> cpus s' j = cpus s j) -> waiting (cpus s' c) ->
  (forall j, j <> c -> processors_in s' j = processors_in s j) ->
  (forall j, j <> c -> processors_out s' j = processors_out s j) ->
  (processors_in s c = 1 -> processors_in s' c = 1) ->
  (processors_out s c = 1 -> processors_out s' c = 1) ->
  ccall_info s' = ccall_info s -> returned s' = returned s ->
  interrupted f (calls_for c (returned s)) (cpus s' c) (processors_in s' c) (processors_out s' c) ->
  held_ok me p f n s'.
Proof.
  intros [Hc Hr Hi Hn Ho Hf Hcur Hin Hout] Hh Hne Hrg Hm Hcpu Hw Hpin Hpout H1 H2 Einfo Eret Hst.
  split; rewrite ?Einfo, ?Eret, ?(Hcpu me) by done; try done.
  - intros j Hj. destruct (Z.eqb_spec j c) as [->|Hjc].
    + split; [done|]. rewrite (proj2 (Z.leb_le 0 c)), (proj2 (Z.ltb_lt c n)), Hm by lia.
      by rewrite Eret.
    + destruct (Ho j Hj) as [Hwj Hj']. unfold other_ok. by rewrite Hcpu, Hpin, Hpout, Eret.
  - intros j Hj Hmj. assert (j <> c) by congruence. rewrite Hpin, Hpout by done. by apply Hf.
  - destruct p; try done; injection Hh as -> ->.
    + rewrite Hpin by lia. done.
    + rewrite Hpin, Hpout by lia. done.
  - intros j Hj. destruct (Z.eqb_spec j c) as [->|]; [by apply H1, Hin|].
    rewrite Hpin by done. by apply Hin.
  - intros j Hj. destruct (Z.eqb_spec j c) as [->|]; [by apply H2, Hout|].
    rewrite Hpout by done. by apply Hout.
Qed.

Lemma inv_irq c s s' : cc_inv s -> smp4m_cross_call_irq c s = Some s' ->
  cc_inv s' /\ lock s' = lock s.
Proof.
  unfold cc_inv, smp4m_cross_call_irq. intros Hinv Hs.
  destruct (lock s) as [me|] eqn:El.
  2:{ destruct (Hinv c) as (_ & [E1 E2] & _). by rewrite E1, E2 in Hs. }
  destruct Hinv as (f & n & Hh & Hok).
  destruct (Z.eqb_spec c me) as [->|Hne].
  { destruct (ho_calm _ _ _ _ _ Hok) as [E1 E2]. by rewrite E1, E2 in Hs. }
  destruct (ho_other _ _ _ _ _ Hok c Hne) as [Hw Hst]. destruct (_ && _) eqn:E.
  2:{ destruct Hst as [[E1 E2] _]. by rewrite E1, E2 in Hs. }
  apply andb_true_iff in E as [E Hm]. apply andb_true_iff in E as [E1%Z.leb_le E2%Z.ltb_lt].
  assert (Hinfo : ccall_info s = Some f).
  { pose proof (ho_info _ _ _ _ _ Hok) as Hi.
    destruct (cpc (cpus s me)); try done. injection Hh as -> <-. lia. }
  assert (Hgo : forall g s1, s' = on_cpu c g s1 -> cpc (g (cpus s c)) = cpc (cpus s c) ->
    cpus s1 = cpus s -> lock s1 = lock s -> ccall_info s1 = ccall_info s ->
    returned s1 = returned s ->
    (forall j, j <> c -> processors_in s1 j = processors_in s j) ->
    (forall j, j <> c -> processors_out s1 j = processors_out s j) ->
    (processors_in s c = 1 -> processors_in s1 c = 1) ->
    (processors_out s c = 1 -> processors_out s1 c = 1) ->
    interrupted f (calls_for c (returned s)) (g (cpus s c)) (processors_in s1 c)
      (processors_out s1 c) ->
    match lock s' with
    | Some me => exists f n, holder (cpc (cpus s' me)) = Some (f, n) /\
        held_ok me (cpc (cpus s' me)) f n s'
    | None => forall i, waiting (cpus s' i) /\ calm (cpus s' i) /\
        ran (cpus s' i) = calls_for i (returned s')
    end /\ lock s' = Some me).
  { intros g s1 -> Hg Ec Elk Ei Er Hpi Hpo H1 H2 Hin. proj. rewrite Elk, El. split; [|done].
    exists f, n. rewrite upd_ne, Ec by done. split; [done|].
    apply (held_stage me _ f n s c); proj; try done.
    - intros j Hj. by rewrite upd_ne, Ec.
    - rewrite upd_eq, Ec. unfold waiting. by rewrite Hg.
    - by rewrite upd_eq, Ec. }
  destruct Hst as [[] (Eh & Ep & Ei & Eo & Er)]; rewrite Eh in Hs; rewrite ?Ep, ?Hinfo in Hs;
    try done; injection Hs as <-; eapply Hgo; try reflexivity; proj; try done;
    rewrite ?upd_eq; try (intros; by rewrite upd_ne); try lia; try done.
  - by exists Entered.
  - by exists InSet.
  - exists Ran. cbn. by rewrite Er.
  - by exists OutSet.
Qed.

(** ** Reachable states *)

Lemma inv_step s s' : cc_inv s -> cc_step s s' -> cc_inv s'.
Proof using Hready.
  intros Hinv [me f Hout Hh|s1 [me s2 Hh Hs|me s2 Hs]]; cycle 2.
  { by apply (inv_irq me s). }
  - rewrite enter_ready. unfold cc_inv in *. proj. destruct (lock s) as [o|].
    + destruct Hinv as (g & n & Hho & Hok).
      assert (Hne : me <> o) by (intros ->; by rewrite Hout in Hho).
      exists g, n. at_cpu. split; [done|]. destruct Hok as [Hc Hr Hi Hn Ho Hf Hcur Hin Hout'].
      split; at_cpu; try done. intros i Hi'. destruct (Ho i Hi') as [Hw Hst].
      unfold other_ok. destruct (Z.eqb_spec i me) as [->|]; at_cpu; [|done].
      split; [right; by exists f|done].
    + intros i. destruct (Hinv i) as (Hw & Hc & Hr).
      destruct (Z.eqb_spec i me) as [->|]; at_cpu; [|done]. split; [right; by exists f|done].
  - unfold cc_inv in Hinv. destruct (lock s) as [o|] eqn:El.
    + destruct Hinv as (g & n & Hho & Hok). destruct (Z.eqb_spec me o) as [->|Hne].
      { by eapply inv_main_holder. }
      destruct (ho_other _ _ _ _ _ Hok me Hne) as [[Hw|[h Hw]] _];
        unfold smp4m_cross_call in Hs; rewrite Hw in Hs; [done|]. by rewrite El in Hs.
    + destruct (Hinv me) as ([Hw|[h Hw]] & Hc & Hr);
        unfold smp4m_cross_call in Hs; rewrite Hw in Hs; [done|]. rewrite El in Hs.
      injection Hs as <-. unfold cc_inv. at_cpu. exists h, 0. split; [done|].
      pose proof num_cpus_pos. split; at_cpu; try done; [lia| |intros; lia|cbn; lia|cbn; lia].
      intros i Hi. destruct (Hinv i) as (Hwi & Hci & Hri). unfold other_ok. at_cpu.
      split; [done|]. destruct (Z.leb_spec 0 i), (Z.ltb_spec i 0); try lia; done.
Qed.

Lemma inv_steps s s' : rtc cc_step s s' -> cc_inv s -> cc_inv s'.
Proof using Hready. induction 1; eauto using inv_step. Qed.

Lemma reachable_inv s : cc_reachable s -> cc_inv s.
Proof using Hready. intros Hr. apply (inv_steps _ _ Hr). intros i. by split; [left|]. Qed.

(** C9. Cross calls are an atomic broadcast once the processors are ready. In every execution, whatever the
    order in which the processors take their steps: when no call is in
    progress, the calls a processor has run are exactly the returned calls
    that are for it (its own, and those of others if it is present and its
    number is below smp_num_cpus), each run once, and all processors ran them
    in the one order in which they returned; no interrupt is left over. While a call is in progress this
    holds up to the call itself, which a processor has run at most once. *)
Theorem cross_call_broadcast s : cc_reachable s ->
  match lock s with
  | None => forall i, ran (cpus s i) = calls_for i (returned s) /\ calm (cpus s i)
  | Some me => exists f, forall i,
      ran (cpus s i) = calls_for i (returned s) \/
      ran (cpus s i) = f :: calls_for i (returned s) /\ target me i = true
  end.
Proof using Hready.
  intros Hr. apply reachable_inv in Hr. unfold cc_inv in Hr. destruct (lock s) as [me|].
  2:{ intros i. by destruct (Hr i) as (_ & ? & ?). }
  destruct Hr as (f & n & Hh & Hok). exists f. intros i. unfold target.
  destruct (Z.eqb_spec i me) as [->|Hne].
  - rewrite (ho_ran _ _ _ _ _ Hok). destruct (local_done _); [by right|by left].
  - destruct (ho_other _ _ _ _ _ Hok i Hne) as [_ Hst]. cbn [orb].
    destruct (_ && in_mask me i) eqn:E; [|left; apply Hst].
    assert (Ht : (0 <=? i) && (i <? smp_num_cpus) && in_mask me i = true).
    { apply andb_true_iff in E as [E ->]. apply andb_true_iff in E as [-> E%Z.ltb_lt].
      pose proof (ho_range _ _ _ _ _ Hok). rewrite (proj2 (Z.ltb_lt i smp_num_cpus)) by lia. done. }
    rewrite Ht. destruct Hst as [[] Hst]; cbn in Hst; naive_solver.
Qed.

(** ** A call that has begun ends *)

(** Steps a processor still takes in the handler. *)
Definition irq_work (c : cpu) : Z :=
  (if ipi15 c then 4 else 0) +
  match hpc c with HNone => 0 | HEnter => 3 | HRun => 2 | HLeave => 1 end.
(** Steps the caller still takes, those of the processors it will interrupt
    included. *)
Definition call_work (p : caller_pc) : Z :=
  let n := smp_num_cpus in
  match p with
  | Outside | Locking _ => 0
  | Filling _ => 7 * n + 2 * n + 4
  | ClearIn _ i => 7 * (n - i) + 2 * n + 3
  | ClearOut _ i => 7 * (n - i) + 2 * n + 2
  | FireIpi _ i => 7 * (n - i) + 2 * n + 1
  | RunLocal _ => 2 * n + 2
  | WaitIn _ i => n - i + n + 1
  | WaitOut _ i => n - i + 1
  | Unlocking _ => 1
  end.
Definition cc_work (me : Z) s : Z :=
  call_work (cpc (cpus s me)) +
  foldr Z.add 0 (map (fun i => irq_work (cpus s i)) (seqZ 0 smp_num_cpus)).

(** Sums over the processors. *)
Lemma sum_ext (g h : Z -> Z) l : (forall i, i ∈ l -> g i = h i) ->
  foldr Z.add 0 (map g l) = foldr Z.add 0 (map h l).
Proof.
  induction l as [|x l IH]; intros Heq; [done|]. cbn. rewrite (Heq x), IH; [done| |left].
  intros i Hi. apply Heq. by right.
Qed.
Lemma sum_upd (g h : Z -> Z) c d l : NoDup l -> c ∈ l -> (forall i, i <> c -> g i = h i) ->
  g c = h c + d -> foldr Z.add 0 (map g l) = foldr Z.add 0 (map h l) + d.
Proof.
  intros Hnd. induction Hnd as [|x l Hx Hnd IH]; intros Hc Hne Hd; [by apply elem_of_nil in Hc|].
  cbn. apply elem_of_cons in Hc as [-> | Hc].
  - rewrite Hd, (sum_ext g h l); [lia|]. intros i Hi. apply Hne. by intros ->.
  - assert (x <> c) by by intros ->. rewrite (Hne x), IH by done. lia.
Qed.
Lemma sum_range (g : Z -> Z) k l : (forall i, 0 <= g i <= k) ->
  0 <= foldr Z.add 0 (map g l) <= k * Z.of_nat (length l).
Proof. intros Hg. induction l as [|x l IH]; cbn; [lia|]. specialize (Hg x). lia. Qed.

Definition irq_sum s : Z := foldr Z.add 0 (map (fun i => irq_work (cpus s i)) (seqZ 0 smp_num_cpus)).

Lemma irq_sum_goto me p s : irq_sum (goto me p s) = irq_sum s.
Proof.
  apply sum_ext. intros i _. destruct (Z.eqb_spec i me) as [->|]; at_cpu; done.
Qed.
Lemma irq_sum_cpus s1 s : cpus s1 = cpus s -> irq_sum s1 = irq_sum s.
Proof. intros Ec. unfold irq_sum. by rewrite Ec. Qed.
Lemma irq_sum_cpu c g s d : 0 <= c < smp_num_cpus ->
  irq_work (g (cpus s c)) = irq_work (cpus s c) + d ->
  irq_sum (on_cpu c g s) = irq_sum s + d.
Proof.
  intros Hc Hd. apply (sum_upd _ _ c).
  - apply NoDup_seqZ.
  - apply elem_of_seqZ. lia.
  - intros i Hi. by at_cpu.
  - by at_cpu.
Qed.

(** A call is made by a processor outside; the caller in progress is not. *)
Definition cc_call s s' : Prop := exists c f,
  cpc (cpus s c) = Outside /\ hpc (cpus s c) = HNone /\ s' = goto c (Locking f) s.

Lemma work_call me s s' f n : holder (cpc (cpus s me)) = Some (f, n) -> cc_call s s' ->
  cc_work me s' = cc_work me s.
Proof.
  intros Hh (c & g & Hc & _ & ->). unfold cc_work. fold (irq_sum (goto c (Locking g) s)) (irq_sum s).
  rewrite irq_sum_goto. destruct (Z.eqb_spec c me) as [->|]; [by rewrite Hc in Hh|]. by at_cpu.
Qed.

(** A processor that is interrupted is one of the first [n]. *)
Lemma irq_step_range me f n s c s' : held_ok me (cpc (cpus s me)) f n s ->
  smp4m_cross_call_irq c s = Some s' -> c <> me /\ 0 <= c < smp_num_cpus.
Proof.
  intros Hok Hs. unfold smp4m_cross_call_irq in Hs.
  destruct (Z.eqb_spec c me) as [->|Hne].
  { destruct (ho_calm _ _ _ _ _ Hok) as [E1 E2]. by rewrite E1, E2 in Hs. }
  destruct (ho_other _ _ _ _ _ Hok c Hne) as [_ Hst]. destruct (_ && _) eqn:E.
  2:{ destruct Hst as [[E1 E2] _]. by rewrite E1, E2 in Hs. }
  apply andb_true_iff in E as [E _]. apply andb_true_iff in E as [E1%Z.leb_le E2%Z.ltb_lt].
  pose proof (ho_range _ _ _ _ _ Hok). lia.
Qed.

Lemma work_irq me f n s c s' : held_ok me (cpc (cpus s me)) f n s ->
  smp4m_cross_call_irq c s = Some s' -> cc_work me s' < cc_work me s.
Proof.
  intros Hok Hs. destruct (irq_step_range _ _ _ _ _ _ Hok Hs) as [Hne Hc].
  assert (Hgo : forall g s1, cpus s1 = cpus s -> cpc (g (cpus s c)) = cpc (cpus s c) ->
    irq_work (g (cpus s c)) = irq_work (cpus s c) + -1 ->
    cc_work me (on_cpu c g s1) < cc_work me s).
  { intros g s1 Ec Hg Hw. unfold cc_work. fold (irq_sum (on_cpu c g s1)) (irq_sum s).
    rewrite (irq_sum_cpu c g s1 (-1)), (irq_sum_cpus s1 s) by (done || by rewrite Ec).
    proj. rewrite upd_ne, Ec by done. lia. }
  unfold smp4m_cross_call_irq in Hs. unfold irq_work in Hgo.
  destruct (hpc (cpus s c)) eqn:Eh.
  - destruct (ipi15 (cpus s c)) eqn:Ep; [|done]. injection Hs as <-. by apply Hgo.
  - injection Hs as <-. apply Hgo; try done. cbn. lia.
  - destruct (ccall_info s); [|done]. injection Hs as <-. apply Hgo; try done. cbn. lia.
  - injection Hs as <-. apply Hgo; try done. cbn. lia.
Qed.

Lemma work_main me f n s s' : lock s = Some me -> holder (cpc (cpus s me)) = Some (f, n) ->
  held_ok me (cpc (cpus s me)) f n s -> smp4m_cross_call me s = Some s' -> lock s' = Some me ->
  cc_work me s' < cc_work me s.
Proof.
  intros Hl Hh Hok Hs Hl'. unfold cc_work. fold (irq_sum s) (irq_sum s').
  assert (Hgo : forall p s1, s' = goto me p s1 -> cpus s1 = cpus s ->
    call_work p < call_work (cpc (cpus s me)) ->
    call_work (cpc (cpus s' me)) + irq_sum s' < call_work (cpc (cpus s me)) + irq_sum s).
  { intros p s1 -> Ec Hw. rewrite irq_sum_goto, (irq_sum_cpus s1 s Ec). at_cpu. lia. }
  pose proof (ho_range _ _ _ _ _ Hok) as Hr. pose proof (ho_cur _ _ _ _ _ Hok) as Hcur.
  unfold smp4m_cross_call in Hs.
  destruct (cpc (cpus s me)) as [|g|g|g i|g i|g i|g|g i|g i|g] eqn:Ep; try done;
    injection Hh as -> <-.
  - injection Hs as <-. eapply Hgo; try done. cbn [call_work]. lia.
  - destruct (Z.ltb_spec i smp_num_cpus); injection Hs as <-; eapply Hgo; try done;
      cbn [call_work]; lia.
  - injection Hs as <-. eapply Hgo; try done.
    destruct (in_mask me i); cbn [call_work]; lia.
  - injection Hs as <-. destruct Hcur as (Hi & Hm & _).
    assert (Hne : i <> me) by (intros ->; by rewrite in_mask_me in Hm).
    rewrite irq_sum_goto, (irq_sum_cpu i (set_ipi15 true) s 4); at_cpu.
    + cbn [call_work]. lia.
    + lia.
    + destruct (ho_other _ _ _ _ _ Hok i Hne) as [_ Hst].
      rewrite (proj2 (Z.ltb_ge i i)), andb_false_r in Hst by lia.
      destruct Hst as [[E1 E2] _]. unfold irq_work. proj. rewrite E1, E2. done.
  - injection Hs as <-. rewrite irq_sum_goto.
    assert (E : irq_sum (on_cpu me (run_func f) s) = irq_sum s).
    { apply sum_ext. intros j _. destruct (Z.eqb_spec j me) as [->|]; by at_cpu. }
    rewrite E. at_cpu. cbn [call_work]. lia.
  - destruct (processors_in s i =? 0); [done|]. injection Hs as <-. eapply Hgo; try done.
    destruct (Z.ltb_spec (i + 1) smp_num_cpus); cbn [call_work]; lia.
  - destruct (processors_out s i =? 0); [done|]. injection Hs as <-. eapply Hgo; try done.
    destruct (Z.ltb_spec (i + 1) smp_num_cpus); cbn [call_work]; lia.
  - injection Hs as <-. done.
Qed.

Lemma work_prog me s s' : cc_inv s -> lock s = Some me -> cc_prog s s' -> lock s' = Some me ->
  cc_work me s' < cc_work me s.
Proof.
  intros Hinv Hl Hs Hl'. unfold cc_inv in Hinv. rewrite Hl in Hinv.
  destruct Hinv as (f & n & Hh & Hok). destruct Hs as [c s' Hc Hs|c s' Hs].
  - destruct (Z.eqb_spec c me) as [->|Hne]; [by eapply work_main|].
    destruct (ho_other _ _ _ _ _ Hok c Hne) as [[Hw|[h Hw]] _];
      unfold smp4m_cross_call in Hs; rewrite Hw in Hs; [done|]. by rewrite Hl in Hs.
  - by eapply work_irq.
Qed.

Lemma work_range me s : cc_inv s -> lock s = Some me -> 0 <= cc_work me s <= 16 * smp_num_cpus + 4.
Proof.
  intros Hinv Hl. unfold cc_inv in Hinv. rewrite Hl in Hinv. destruct Hinv as (f & n & Hh & Hok).
  pose proof num_cpus_pos. pose proof (ho_range _ _ _ _ _ Hok). pose proof (ho_cur _ _ _ _ _ Hok).
  assert (0 <= irq_sum s <= 7 * smp_num_cpus).
  { unfold irq_sum. pose proof (sum_range (fun i => irq_work (cpus s i)) 7 (seqZ 0 smp_num_cpus)) as Hs.
    rewrite length_seqZ, Z2Nat.id in Hs by lia. apply Hs.
    intros i. unfold irq_work. destruct (ipi15 _), (hpc _); lia. }
  assert (0 <= call_work (cpc (cpus s me)) <= 9 * smp_num_cpus + 4).
  { destruct (cpc (cpus s me)); try done; injection Hh as _ <-; cbn [call_work]; lia. }
  unfold cc_work. fold (irq_sum s). lia.
Qed.

(** The caller waits for a flag only while the handler can take a step. *)
Lemma not_stuck me s : cc_inv s -> lock s = Some me -> exists s', cc_prog s s'.
Proof.
  intros Hinv Hl. unfold cc_inv in Hinv. rewrite Hl in Hinv. destruct Hinv as (f & n & Hh & Hok).
  destruct (smp4m_cross_call me s) as [s'|] eqn:Es.
  { exists s'. apply (prog_main _ me); [apply (ho_calm _ _ _ _ _ Hok)|done]. }
  assert (Hi : exists i, 0 <= i < n /\ (processors_in s i = 0 \/ processors_out s i = 0)).
  { pose proof (ho_cur _ _ _ _ _ Hok) as Hcur. unfold smp4m_cross_call in Es.
    destruct (cpc (cpus s me)) as [|g|g|g i|g i|g i|g|g i|g i|g]; try done; injection Hh as _ <-.
    - by destruct (i <? _).
    - exists i. split; [done|]. left. by destruct (Z.eqb_spec (processors_in s i) 0).
    - exists i. split; [done|]. right. by destruct (Z.eqb_spec (processors_out s i) 0). }
  destruct Hi as (i & Hi & Hflag).
  destruct (in_mask me i) eqn:Em.
  2:{ destruct (ho_flags _ _ _ _ _ Hok i Hi Em) as [E1 E2]. lia. }
  assert (Hne : i <> me) by (intros ->; by rewrite in_mask_me in Em).
  destruct (ho_other _ _ _ _ _ Hok i Hne) as [_ Hst].
  rewrite (proj2 (Z.leb_le _ _)), (proj2 (Z.ltb_lt _ _)), Em in Hst by lia.
  assert (Hinfo : ccall_info s = Some f).
  { pose proof (ho_info _ _ _ _ _ Hok) as Hin.
    destruct (cpc (cpus s me)); try done. injection Hh as -> <-. lia. }
  cut (is_Some (smp4m_cross_call_irq i s)).
  { intros [s' Hs]. exists s'. by apply (prog_irq _ i). }
  unfold smp4m_cross_call_irq.
  destruct Hst as [[] (-> & E1 & E2 & E3 & _)]; rewrite ?E1, ?Hinfo; (done || lia).
Qed.

(** One step of a call in progress, with the calls other processors may have
    begun to wait for the lock before it. *)
Definition held_step (me : Z) s s' : Prop :=
  exists s1, rtc cc_call s s1 /\ cc_prog s1 s' /\ lock s' = Some me.

Lemma calls_keep me s s1 : rtc cc_call s s1 -> cc_inv s -> lock s = Some me ->
  cc_inv s1 /\ lock s1 = Some me /\ cc_work me s1 = cc_work me s.
Proof using Hready.
  induction 1 as [s|s s2 s3 Hc _ IH]; intros Hinv Hl; [done|].
  assert (Hst : cc_step s s2) by (destruct Hc as (c & g & ? & ? & ->); rewrite <- enter_ready; by constructor).
  assert (Hl2 : lock s2 = Some me) by (by destruct Hc as (c & g & _ & _ & ->)).
  destruct (IH (inv_step _ _ Hinv Hst) Hl2) as (H1 & H2 & H3). split_and!; [done|done|].
  rewrite H3. unfold cc_inv in Hinv. rewrite Hl in Hinv. destruct Hinv as (f & n & Hh & _).
  by eapply work_call.
Qed.

(** C10. A cross call that has begun, the processors being ready, ends. While a call is in progress the
    processors are never stuck: some step of it is possible; and whatever the
    order of the steps and however many other processors start to wait for
    the lock, the caller gives the lock back after at most 16 * smp_num_cpus
    + 4 of them. *)
Theorem cross_call_ends s me : cc_reachable s -> lock s = Some me ->
  (exists s', cc_prog s s') /\
  (forall k s', nsteps (held_step me) k s s' -> Z.of_nat k <= 16 * smp_num_cpus + 4).
Proof using Hready.
  intros Hr Hl. apply reachable_inv in Hr. split; [by eapply not_stuck|]. intros k s' Hk.
  cut (cc_inv s' /\ lock s' = Some me /\ cc_work me s' + Z.of_nat k <= cc_work me s).
  { intros (Hi & Hl' & Hw). pose proof (work_range me s Hr Hl). pose proof (work_range me s' Hi Hl'). lia. }
  induction Hk as [s|k s s1 s2 (s3 & Hc & Hp & Hl1) _ IH]; [split_and!; [done|done|lia]|].
  destruct (calls_keep _ _ _ Hc Hr Hl) as (H1 & H2 & H3).
  destruct (IH (inv_step _ _ H1 (step_prog _ _ Hp)) Hl1) as (H4 & H5 & H6).
  pose proof (work_prog _ _ _ H1 H2 Hp Hl1). split_and!; [done|done|lia].
Qed.
End props.

(** Before the processors are ready nobody is interrupted and nobody waits. *)
Definition early {S : SmpMap} (s : cc_state) : Prop :=
  lock s = None /\ returned s = [] /\ forall i, cpc (cpus s i) = Outside /\ calm (cpus s i).

Lemma early_step {S : SmpMap} s s' : smp_processors_ready = 0 -> early s -> cc_step s s' -> early s'.
Proof.
  intros Hready (Hl & Hr & Hc) [me f Hout Hh|s1 [me s2 Hh Hs|me s2 Hs]].
  - unfold cross_call_enter. rewrite Hready. split; [done|]. split; [done|]. intros i.
    cbn [cpus on_cpu Z.eqb]. unfold upd. destruct (i =? me); apply Hc.
  - unfold smp4m_cross_call in Hs. by rewrite (proj1 (Hc me)) in Hs.
  - destruct (Hc me) as [_ [E1 E2]]. unfold smp4m_cross_call_irq in Hs. by rewrite E1, E2 in Hs.
Qed.

Lemma early_calls_local {S : SmpMap} s : smp_processors_ready = 0 -> cc_reachable s -> early s.
Proof.
  intros Hready Hr. unfold cc_reachable in Hr. assert (H0 : early cc_init) by by split_and!.
  induction Hr as [s|s1 s2 s3 Hs _ IH]; [done|]. by eapply IH, early_step.
Qed.

(** ** A concrete execution: processor 1 calls while processor 0 does *)

Definition two_cpus : SmpMap := {| smp_num_cpus := 2; cpu_present_map := 3; smp_processors_ready := 1; num_cpus_pos := eq_refl |}.

(** A schedule: who steps, and whether with a new call, in the code or in the
    handler. *)
Inductive sched := NewCall (me : Z) (f : smp_funcall) | Main (me : Z) | Irq (me : Z).
Definition sched_step {S : SmpMap} (e : sched) (s : cc_state) : option cc_state :=
  match e with
  | NewCall me f =>
      match cpc (cpus s me), hpc (cpus s me) with
      | Outside, HNone => Some (cross_call_enter me f s)
      | _, _ => None
      end
  | Main me => if hpc (cpus s me) is HNone then smp4m_cross_call me s else None
  | Irq me => smp4m_cross_call_irq me s
  end.
Fixpoint sched_run {S : SmpMap} (l : list sched) (s : cc_state) : option cc_state :=
  match l with [] => Some s | e :: l' => s' ← sched_step e s; sched_run l' s' end.

Lemma sched_step_sound {S : SmpMap} e s s' : sched_step e s = Some s' -> cc_step s s'.
Proof.
  destruct e as [me f|me|me]; cbn.
  - destruct (cpc (cpus s me)) eqn:Ec, (hpc (cpus s me)) eqn:Eh; try done.
    intros [= <-]. by constructor.
  - destruct (hpc (cpus s me)) eqn:Eh; try done. intros Hs. by apply step_prog, (prog_main _ me).
  - intros Hs. by apply step_prog, (prog_irq _ me).
Qed.
Lemma sched_run_sound {S : SmpMap} l s s' : sched_run l s = Some s' -> rtc cc_step s s'.
Proof.
  revert s. induction l as [|e l IH]; intros s; cbn; [by intros [= ->]|].
  destruct (sched_step e s) as [s1|] eqn:E; [|done]. cbn. intros Hs.
  eapply rtc_l; [by eapply sched_step_sound|by apply IH].
Qed.

Definition demo_f : smp_funcall := Call 1 0 0 0 0 0.
Definition demo_g : smp_funcall := Call 2 0 0 0 0 0.
(** Processor 0 fires its interrupt, processor 1 starts a call, is
    interrupted while it waits for the lock, and gets it afterwards. *)
Definition demo_half : list sched :=
  [NewCall 0 demo_f] ++ repeat (Main 0) 5 ++ [NewCall 1 demo_g] ++ repeat (Main 0) 4 ++
  [Irq 1; Irq 1].
Definition demo_sched : list sched :=
  demo_half ++ repeat (Main 0) 3 ++ [Irq 1; Irq 1] ++ repeat (Main 0) 2 ++
  repeat (Main 1) 9 ++ repeat (Irq 0) 4 ++ repeat (Main 1) 5.

Definition demo_end (l : list sched) : option (option Z * list smp_funcall) :=
  (fun s => (lock s, ran (cpus s 0))) <$> sched_run (S := two_cpus) l cc_init.

Lemma demo_end_run l o rs : demo_end l = Some (o, rs) -> exists s,
  sched_run (S := two_cpus) l cc_init = Some s /\ lock s = o /\ ran (cpus s 0) = rs.
Proof.
  unfold demo_end. destruct (sched_run l cc_init) as [s|]; [|done]. intros [= <- <-]. by exists s.
Qed.

Lemma cross_call_broadcast_witness : exists s,
  sched_run (S := two_cpus) demo_sched cc_init = Some s /\
  lock s = None /\ ran (cpus s 0) = [demo_g; demo_f] /\
  ran (cpus s 1) = calls_for (S := two_cpus) 1 (returned s).
Proof.
  assert (Eg : demo_end demo_sched = Some (None, [demo_g; demo_f])) by (vm_compute; reflexivity).
  destruct (demo_end_run _ _ _ Eg) as (s & E & El & Er).
  exists s. split; [exact E|]. split; [exact El|]. split; [exact Er|].
  pose proof (cross_call_broadcast (S := two_cpus) ltac:(done) s (sched_run_sound _ _ _ E)) as H.
  rewrite El in H. apply H.
Defined.

Lemma cross_call_ends_witness : exists s,
  sched_run (S := two_cpus) demo_half cc_init = Some s /\ lock s = Some 0 /\
  forall k s', nsteps (held_step (S := two_cpus) 0) k s s' -> Z.of_nat k <= 36.
Proof.
  assert (Eg : demo_end demo_half = Some (Some 0, [demo_f])) by (vm_compute; reflexivity).
  destruct (demo_end_run _ _ _ Eg) as (s & E & El & Er).
  exists s. split; [exact E|]. split; [exact El|].
  exact (proj2 (cross_call_ends (S := two_cpus) ltac:(done) s 0 (sched_run_sound _ _ _ E) El)).
Defined.
