(* ===== verification/Smp.v ===== *)
(** * Starting and interrupting the other processors (arch/sparc/meiko/smp.c)

    The boot of the secondary processors, the list along which interrupts are
    distributed, messages between processors and the profiling tick. The cross
    calls are in CrossCall.v. *)

From stdpp Require Import prelude list numbers.
From Stdlib Require Import ZArith Lia.
From S2P Require Import Prelude Obp Machine Irq Timer.

Definition IRQ_RESCHEDULE : Z := 13.
Definition IRQ_STOP_CPU : Z := 14.
Definition IRQ_CROSS_CALL : Z := 15.

(** The number of processors the kernel is built for, the boot processor and
    the module identifiers from the PROM; [arrives i]: the check of
    cpu_callin_map[i], counted from the start of processor [i], at which its
    entry is seen set, [None] if it never is. *)
Class SmpEnv := {
  NR_CPUS : Z;
  boot_cpu_id : Z;
  linux_cpu_mid : Z -> Z;
  arrives : Z -> option Z
}.

(** Calls with effects outside the modelled state. *)
Inductive smp_ev :=
  | StartCpu (cpu : Z)            (* prom_startcpu() *)
  | CallIn (cpu : Z)              (* cpu_callin_map[cpu] = 1, on the started processor *)
  | FreeTrapTable (cpu : Z)       (* free_page(trapbase_cpu..) *)
  | RunIdle (cpu t : Z)           (* %g6 and the memory map are those of task t *)
  | IntOn (cpu : Z).              (* __sti() *)

Record smp_state {P : Prom} := Smp {
  sm : machine;
  cpu_present_map : Z;
  cpu_number_map : list Z;
  cpu_logical_map : list Z;   (* __cpu_logical_map *)
  mid_xlate : list Z;
  data_mid : list Z;   (* cpu_data[].mid *)
  data_next : list Z;   (* cpu_data[].next *)
  current_set : list Z;   (* the index in task[] *)
  task : list Z;   (* task[]: the processor of each *)
  smp_num_cpus : Z;
  smp_activated : Z;
  smp_processors_ready : Z;
  prof_counter : list Z;
  prof_multiplier : list Z;
  smp_cpu_in_msg : list Z;
  smp_log : list smp_ev   (* newest first *)
}.

Section smp.
Context {P : Prom} {B : Board} {E : SmpEnv}.
Implicit Types s : smp_state.
Abbreviation M := (eff smp_state).

Definition set_sm (x : machine) s : smp_state :=
  Smp _ x (cpu_present_map s) (cpu_number_map s) (cpu_logical_map s) (mid_xlate s) (data_mid
    s) (data_next s) (current_set s) (task s) (smp_num_cpus s) (smp_activated s)
    (smp_processors_ready s) (prof_counter s) (prof_multiplier s) (smp_cpu_in_msg s) (smp_log
    s).
Definition set_cpu_present_map (x : Z) s : smp_state :=
  Smp _ (sm s) x (cpu_number_map s) (cpu_logical_map s) (mid_xlate s) (data_mid s) (data_next
    s) (current_set s) (task s) (smp_num_cpus s) (smp_activated s) (smp_processors_ready s)
    (prof_counter s) (prof_multiplier s) (smp_cpu_in_msg s) (smp_log s).
Definition set_cpu_number_map (x : list Z) s : smp_state :=
  Smp _ (sm s) (cpu_present_map s) x (cpu_logical_map s) (mid_xlate s) (data_mid s) (data_next
    s) (current_set s) (task s) (smp_num_cpus s) (smp_activated s) (smp_processors_ready s)
    (prof_counter s) (prof_multiplier s) (smp_cpu_in_msg s) (smp_log s).
Definition set_cpu_logical_map (x : list Z) s : smp_state :=
  Smp _ (sm s) (cpu_present_map s) (cpu_number_map s) x (mid_xlate s) (data_mid s) (data_next
    s) (current_set s) (task s) (smp_num_cpus s) (smp_activated s) (smp_processors_ready s)
    (prof_counter s) (prof_multiplier s) (smp_cpu_in_msg s) (smp_log s).
Definition set_mid_xlate (x : list Z) s : smp_state :=
  Smp _ (sm s) (cpu_present_map s) (cpu_number_map s) (cpu_logical_map s) x (data_mid s)
    (data_next s) (current_set s) (task s) (smp_num_cpus s) (smp_activated s)
    (smp_processors_ready s) (prof_counter s) (prof_multiplier s) (smp_cpu_in_msg s) (smp_log
    s).
Definition set_data_mid (x : list Z) s : smp_state :=
  Smp _ (sm s) (cpu_present_map s) (cpu_number_map s) (cpu_logical_map s) (mid_xlate s) x
    (data_next s) (current_set s) (task s) (smp_num_cpus s) (smp_activated s)
    (smp_processors_ready s) (prof_counter s) (prof_multiplier s) (smp_cpu_in_msg s) (smp_log
    s).
Definition set_data_next (x : list Z) s : smp_state :=
  Smp _ (sm s) (cpu_present_map s) (cpu_number_map s) (cpu_logical_map s) (mid_xlate s)
    (data_mid s) x (current_set s) (task s) (smp_num_cpus s) (smp_activated s)
    (smp_processors_ready s) (prof_counter s) (prof_multiplier s) (smp_cpu_in_msg s) (smp_log
    s).
Definition set_current_set (x : list Z) s : smp_state :=
  Smp _ (sm s) (cpu_present_map s) (cpu_number_map s) (cpu_logical_map s) (mid_xlate s)
    (data_mid s) (data_next s) x (task s) (smp_num_cpus s) (smp_activated s)
    (smp_processors_ready s) (prof_counter s) (prof_multiplier s) (smp_cpu_in_msg s) (smp_log
    s).
Definition set_task (x : list Z) s : smp_state :=
  Smp _ (sm s) (cpu_present_map s) (cpu_number_map s) (cpu_logical_map s) (mid_xlate s)
    (data_mid s) (data_next s) (current_set s) x (smp_num_cpus s) (smp_activated s)
    (smp_processors_ready s) (prof_counter s) (prof_multiplier s) (smp_cpu_in_msg s) (smp_log
    s).
Definition set_smp_num_cpus (x : Z) s : smp_state :=
  Smp _ (sm s) (cpu_present_map s) (cpu_number_map s) (cpu_logical_map s) (mid_xlate s)
    (data_mid s) (data_next s) (current_set s) (task s) x (smp_activated s)
    (smp_processors_ready s) (prof_counter s) (prof_multiplier s) (smp_cpu_in_msg s) (smp_log
    s).
Definition set_smp_activated (x : Z) s : smp_state :=
  Smp _ (sm s) (cpu_present_map s) (cpu_number_map s) (cpu_logical_map s) (mid_xlate s)
    (data_mid s) (data_next s) (current_set s) (task s) (smp_num_cpus s) x (smp_processors_ready
    s) (prof_counter s) (prof_multiplier s) (smp_cpu_in_msg s) (smp_log s).
Definition set_smp_processors_ready (x : Z) s : smp_state :=
  Smp _ (sm s) (cpu_present_map s) (cpu_number_map s) (cpu_logical_map s) (mid_xlate s)
    (data_mid s) (data_next s) (current_set s) (task s) (smp_num_cpus s) (smp_activated s) x
    (prof_counter s) (prof_multiplier s) (smp_cpu_in_msg s) (smp_log s).
Definition set_prof_counter (x : list Z) s : smp_state :=
  Smp _ (sm s) (cpu_present_map s) (cpu_number_map s) (cpu_logical_map s) (mid_xlate s)
    (data_mid s) (data_next s) (current_set s) (task s) (smp_num_cpus s) (smp_activated s)
    (smp_processors_ready s) x (prof_multiplier s) (smp_cpu_in_msg s) (smp_log s).
Definition set_prof_multiplier (x : list Z) s : smp_state :=
  Smp _ (sm s) (cpu_present_map s) (cpu_number_map s) (cpu_logical_map s) (mid_xlate s)
    (data_mid s) (data_next s) (current_set s) (task s) (smp_num_cpus s) (smp_activated s)
    (smp_processors_ready s) (prof_counter s) x (smp_cpu_in_msg s) (smp_log s).
Definition set_smp_cpu_in_msg (x : list Z) s : smp_state :=
  Smp _ (sm s) (cpu_present_map s) (cpu_number_map s) (cpu_logical_map s) (mid_xlate s)
    (data_mid s) (data_next s) (current_set s) (task s) (smp_num_cpus s) (smp_activated s)
    (smp_processors_ready s) (prof_counter s) (prof_multiplier s) x (smp_log s).
Definition set_smp_log (x : list smp_ev) s : smp_state :=
  Smp _ (sm s) (cpu_present_map s) (cpu_number_map s) (cpu_logical_map s) (mid_xlate s)
    (data_mid s) (data_next s) (current_set s) (task s) (smp_num_cpus s) (smp_activated s)
    (smp_processors_ready s) (prof_counter s) (prof_multiplier s) (smp_cpu_in_msg s) x.

(** Arrays of NR_CPUS elements. *)
Definition arr_get (arr : smp_state -> list Z) (i : Z) : M Z :=
  l ← gets arr; if 0 <=? i then the OutOfBounds (l !! Z.to_nat i) else fail OutOfBounds.
Definition arr_set (arr : smp_state -> list Z) (set : list Z -> smp_state -> smp_state) (i v : Z)
    : M unit :=
  l ← gets arr;
  if (0 <=? i) && (i <? Z.of_nat (length l))
  then modify (set (<[Z.to_nat i := v]> l)) else fail OutOfBounds.
Definition on_machine {A} (m : eff machine A) : M A := zoom sm set_sm m.
Definition smp_event (e : smp_ev) : M unit := modify (fun s => set_smp_log (e :: smp_log s) s).
Definition bit (i : Z) : Z := Z.shiftl 1 i.
Definition clear_bit (m i : Z) : Z := Z.ldiff m (bit i).

Definition smp_setup_percpu_timer (cpu : Z) : M unit :=
  arr_set prof_multiplier set_prof_multiplier cpu 1 ;;
  arr_set prof_counter set_prof_counter cpu 1 ;;
  mid ← arr_get mid_xlate cpu;
  res ← gets (fun s => lvl14_resolution (sm s));
  on_machine (dino1_load_profile_irq mid res) ;;
  when (cpu =? boot_cpu_id) (on_machine (dino1_enable_pil_irq cpu 14)).

(** A started processor, up to the point where it lets the boot processor go
    on, which sees the event as [arrives]. *)
Definition callin_start (cpuid : Z) : M unit :=
  mid ← arr_get mid_xlate boot_cpu_id;
  on_machine (dino1_set_udt mid) ;;
  smp_setup_percpu_timer cpuid ;;
  smp_event (CallIn cpuid).

(** !task[cpuid] || current_set[cpuid] != task[cpuid] *)
Definition idle_blocked (cpuid : Z) : M bool :=
  l ← gets task;
  match l !! Z.to_nat cpuid with
  | None => mret true
  | Some _ => c ← arr_get current_set cpuid; mret (negb (c =? cpuid))
  end.

(** while(cond) barrier(); *)
Fixpoint spin (fuel : nat) (cond : nat -> M bool) (k : nat) : M unit :=
  match fuel with
  | O => fail OutOfFuel
  | S fuel' => b ← cond k; if (b : bool) then spin fuel' cond (S k) else skip
  end.

(** The rest. [others k]: what the other processors did until the k-th check of
    the first loop; [commenced k]: the value of smp_commenced at the k-th
    check of the second. *)
Definition callin_rest (fuel : nat) (others : nat -> smp_state -> smp_state)
    (commenced : nat -> bool) (cpuid : Z) : M unit :=
  spin fuel (fun k => modify (others k) ;; idle_blocked cpuid) 0 ;;
  c ← arr_get current_set cpuid;
  smp_event (RunIdle cpuid c) ;;
  spin fuel (fun k => mret (negb (commenced k))) 0 ;;
  smp_event (IntOn cpuid).

Definition smp4m_callin (fuel : nat) (others : nat -> smp_state -> smp_state)
    (commenced : nat -> bool) (cpuid : Z) : M unit :=
  callin_start cpuid ;; callin_rest fuel others commenced cpuid.

(** ** smp4m_boot_cpus() *)

Definition called_in (i t : Z) : bool :=
  match arrives i with Some a => a <=? t | None => false end.

(** for(timeout = 0; timeout < 10000; timeout++): the number of the check
    that follows the loop. *)
Fixpoint wait_callin (fuel : nat) (i timeout : Z) : Z :=
  match fuel with
  | O => timeout
  | S fuel' => if called_in i timeout then timeout else wait_callin fuel' i (timeout + 1)
  end.
Definition callin_timeout : nat := Z.to_nat 10000.

(** The body for a processor that is present; the results are cpucount and
    what the last check of cpu_callin_map[i] sees. *)
Definition boot_present (i cpucount : Z) : M (Z * bool) :=
  modify (fun s => set_task (task s ++ [0]) s) ;;           (* kernel_thread() *)
  let cpucount := cpucount + 1 in
  l ← gets task;
  _ ← the NullDeref (l !! Z.to_nat cpucount);
  arr_set task set_task cpucount i ;;
  arr_set current_set set_current_set i cpucount ;;
  arr_set mid_xlate set_mid_xlate i (u8 (Z.land (linux_cpu_mid i) (Z.lnot 8))) ;;
  smp_event (StartCpu i) ;;
  let t := wait_callin callin_timeout i 0 in
  if called_in i t then
    arr_set cpu_number_map set_cpu_number_map i i ;;
    arr_set cpu_logical_map set_cpu_logical_map i i ;;
    mret (cpucount, called_in i (t + 1))
  else mret (cpucount - 1, called_in i (t + 1)).

Definition boot_one (i cpucount : Z) : M Z :=
  if i =? boot_cpu_id then mret cpucount
  else
    present ← gets cpu_present_map;
    r ← (if Z.testbit present i then boot_present i cpucount else mret (cpucount, false));
    when (negb r.2)
      (modify (fun s => set_cpu_present_map (clear_bit (cpu_present_map s) i) s) ;;
       arr_set cpu_number_map set_cpu_number_map i (-1)) ;;
    mret r.1.

Fixpoint boot_loop (l : list Z) (cpucount : Z) : M Z :=
  match l with
  | [] => mret cpucount
  | i :: l' => c ← boot_one i cpucount; boot_loop l' c
  end.

(** The list for the distribution of interrupts: the loop over the processors
    with first and prev. *)
Fixpoint ring_loop (l : list Z) (first prev : Z) : M (Z * Z) :=
  match l with
  | [] => mret (first, prev)
  | i :: l' =>
      present ← gets cpu_present_map;
      if Z.testbit present i then
        when (negb (prev =? -1)) (arr_set data_next set_data_next prev i) ;;
        mid ← arr_get mid_xlate i;
        arr_set data_mid set_data_mid i mid ;;
        ring_loop l' (if first =? -1 then i else first) i
      else ring_loop l' first prev
  end.
Definition irq_ring : M unit :=
  fp ← ring_loop (seqZ 0 NR_CPUS) (-1) (-1);
  arr_set data_next set_data_next fp.2 fp.1.

Definition free_trap_table (cpu : Z) : M unit :=
  present ← gets cpu_present_map;
  when (negb (Z.testbit present cpu)) (smp_event (FreeTrapTable cpu)).

Definition boot_finish (me cpucount : Z) : M unit :=
  (if cpucount =? 0 then modify (set_cpu_present_map (bit me))
   else modify (set_smp_activated 1) ;; modify (set_smp_num_cpus (cpucount + 1))) ;;
  irq_ring ;;
  free_trap_table 1 ;; free_trap_table 2 ;; free_trap_table 3 ;;
  modify (set_smp_processors_ready 1).

(** What the function does before it starts the others. *)
Definition boot_prepare : M unit :=
  modify (set_cpu_present_map 0) ;;
  for_each (seqZ 0 linux_num_cpus) (fun i =>
    modify (fun s => set_cpu_present_map (Z.lor (cpu_present_map s) (bit i)) s)) ;;
  for_each (seqZ 0 NR_CPUS) (fun i => arr_set cpu_number_map set_cpu_number_map i (-1)) ;;
  for_each (seqZ 0 NR_CPUS) (fun i => arr_set cpu_logical_map set_cpu_logical_map i (-1)) ;;
  arr_set mid_xlate set_mid_xlate boot_cpu_id (u8 (Z.land (linux_cpu_mid boot_cpu_id) (Z.lnot 8))) ;;
  arr_set cpu_number_map set_cpu_number_map boot_cpu_id 0 ;;
  arr_set cpu_logical_map set_cpu_logical_map 0 boot_cpu_id ;;
  arr_set task set_task 0 boot_cpu_id ;;                         (* current->processor *)
  mid ← arr_get mid_xlate boot_cpu_id;
  on_machine (dino1_set_udt mid) ;;
  smp_setup_percpu_timer boot_cpu_id.

Definition smp4m_boot_cpus : M unit :=
  boot_prepare ;;
  if linux_num_cpus =? 1 then skip
  else
    cpucount ← boot_loop (seqZ 0 NR_CPUS) 0;
    boot_finish boot_cpu_id cpucount.

(** ** Messages *)

Definition smp4m_irq_rotate (cpu : Z) : M unit :=
  ready ← gets smp_processors_ready;
  when (negb (ready =? 0))
    (next ← arr_get data_next cpu; mid ← arr_get data_mid next; on_machine (dino1_set_udt mid)).

Inductive msg := MSG_RESCHEDULE | MSG_STOP_CPU | MSG_OTHER (n : Z).
Inductive msg_target := MSG_ALL_BUT_SELF | MSG_ALL | MSG_CPU (cpu : Z).

Definition set_cpu_int (cpu irq : Z) : M unit :=
  mid ← arr_get mid_xlate cpu; on_machine (dino1_send_ipi mid irq).

Definition pass_to (me irq : Z) (target : msg_target) : M unit :=
  match target with
  | MSG_CPU cpu => set_cpu_int cpu irq
  | _ =>
      present ← gets cpu_present_map;
      let m := match target with MSG_ALL_BUT_SELF => clear_bit present me | _ => present end in
      for_each [0; 1; 2; 3] (fun i => when (Z.testbit m i) (set_cpu_int i irq))
  end.

Definition smp4m_message_pass (me : Z) (target : msg_target) (message : msg) : M unit :=
  let send irq :=
    n ← arr_get smp_cpu_in_msg me;
    arr_set smp_cpu_in_msg set_smp_cpu_in_msg me (u32 (n + 1)) ;;
    pass_to me irq target ;;
    n ← arr_get smp_cpu_in_msg me;
    arr_set smp_cpu_in_msg set_smp_cpu_in_msg me (u32 (n - 1)) in
  match message with
  | MSG_RESCHEDULE =>
      busy ← arr_get smp_cpu_in_msg me;
      if negb (busy =? 0) then skip else send IRQ_RESCHEDULE
  | MSG_STOP_CPU => send IRQ_STOP_CPU
  | MSG_OTHER _ => fail Panic
  end.

(** ** The patched calls

    sun4m_init_smp(): the kernel's references to these functions become those
    of this file; a black box is replaced by instructions (Tick.v). *)
Inductive smp_hook := H_smp_processor_id | H_load_current | H_smp_cross_call
  | H_smp_message_pass | H___smp_processor_id.
Inductive smp_impl := F_smp4m_blackbox_id | F_smp4m_blackbox_current | F_smp4m_cross_call
  | F_smp4m_message_pass | F___smp4m_processor_id.

Definition sun4m_init_smp : list (smp_hook * smp_impl) :=
  [(H_smp_processor_id, F_smp4m_blackbox_id); (H_load_current, F_smp4m_blackbox_current);
   (H_smp_cross_call, F_smp4m_cross_call); (H_smp_message_pass, F_smp4m_message_pass);
   (H___smp_processor_id, F___smp4m_processor_id)].

End smp.
