(* ===== verification/SmpProps.v ===== *)
(** * Which processors run after the boot, and what messages do

    Properties of Smp.v: the processor maps after smp4m_boot_cpus(), the list
    for the distribution of interrupts, the interprocessor messages. *)

From stdpp Require Import prelude list numbers.
From Stdlib Require Import ZArith Lia.
From S2P Require Import Prelude Obp Machine Irq Timer TimerProps Smp.

#[local] Set Default Proof Using "Type*".

Section props.
Context {P : Prom} {B : Board} {E : SmpEnv}.
Implicit Types s : smp_state.

Lemma wp_arr_set arr set i v (Q : unit -> smp_state -> Prop) s :
  0 <= i < Z.of_nat (length (arr s)) ->
  wp (arr_set arr set i v) Q s <-> Q tt (set (<[Z.to_nat i := v]> (arr s)) s).
Proof.
  intros Hi. unfold arr_set. rewrite wp_bind, wp_gets, (proj2 (Z.leb_le 0 i)), (proj2 (Z.ltb_lt i _)) by lia.
  done.
Qed.
Lemma wp_arr_get arr i v (Q : Z -> smp_state -> Prop) s :
  0 <= i -> arr s !! Z.to_nat i = Some v -> wp (arr_get arr i) Q s <-> Q v s.
Proof.
  intros Hi Hv. unfold arr_get. rewrite wp_bind, wp_gets, (proj2 (Z.leb_le 0 i)), Hv by lia. done.
Qed.

(** ** Waiting for a processor *)

(** Processor [i] runs in the end: the boot processor, and those present that
    call in before the last check. *)
Definition up (i : Z) : bool :=
  (i =? boot_cpu_id) || (0 <=? i) && (i <? linux_num_cpus) && called_in i 10000.

Lemma called_in_mono i t t' : t <= t' -> called_in i t = true -> called_in i t' = true.
Proof. unfold called_in. destruct (arrives i); [|done]. rewrite !Z.leb_le. lia. Qed.

Lemma wait_callin_spec fuel i t :
  let r := wait_callin fuel i t in
  t <= r <= t + Z.of_nat fuel /\ called_in i r = called_in i (t + Z.of_nat fuel) /\
  (r < t + Z.of_nat fuel -> called_in i r = true).
Proof.
  revert t. induction fuel as [|fuel IH]; intros t; cbn [wait_callin].
  { rewrite Z.add_0_r. split_and!; [lia|lia|done|lia]. }
  destruct (called_in i t) eqn:Ec.
  - split_and!; [lia|lia| |done]. rewrite Ec. symmetry. apply (called_in_mono i t); [lia|done].
  - specialize (IH (t + 1)). cbv zeta in IH |- *.
    replace (t + Z.of_nat (S fuel)) with (t + 1 + Z.of_nat fuel) by lia. intuition lia.
Qed.

(** The checks the boot makes after the loop: before the timeout they agree
    with the state at the timeout, provided the processor does not call in
    between the last two checks. *)
Definition punctual : Prop := forall i, called_in i 10001 = called_in i 10000.

Lemma callin_checks i : punctual ->
  let t := wait_callin callin_timeout i 0 in
  called_in i t = called_in i 10000 /\ called_in i (t + 1) = called_in i 10000.
Proof.
  intros Hp. pose proof (wait_callin_spec callin_timeout i 0) as Hw. cbv zeta in Hw |- *.
  replace (0 + Z.of_nat callin_timeout) with 10000 in Hw by (unfold callin_timeout; lia).
  destruct Hw as (Hr & Heq & Hlt). split; [done|].
  destruct (Z.eq_dec (wait_callin callin_timeout i 0) 10000) as [->|Hne]; [apply Hp|].
  assert (Ht : called_in i (wait_callin callin_timeout i 0) = true) by (apply Hlt; lia).
  rewrite <- Heq, Ht. eapply called_in_mono; [|exact Ht]. lia.
Qed.

(** ** The maps *)

(** The tables have their sizes. *)
Record sized s : Prop := {
  sz_number : Z.of_nat (length (cpu_number_map s)) = NR_CPUS;
  sz_logical : Z.of_nat (length (cpu_logical_map s)) = NR_CPUS;
  sz_xlate : Z.of_nat (length (mid_xlate s)) = NR_CPUS;
  sz_mid : Z.of_nat (length (data_mid s)) = NR_CPUS;
  sz_next : Z.of_nat (length (data_next s)) = NR_CPUS;
  sz_current : Z.of_nat (length (current_set s)) = NR_CPUS;
  sz_mult : Z.of_nat (length (prof_multiplier s)) = NR_CPUS;
  sz_counter : Z.of_nat (length (prof_counter s)) = NR_CPUS
}.

Ltac sized_tac := match goal with H : sized _ |- _ => destruct H end;
  split; cbn; rewrite ?length_insert; done.

Lemma clear_bit_testbit m i j : 0 <= i -> 0 <= j ->
  Z.testbit (clear_bit m i) j = Z.testbit m j && negb (i =? j).
Proof.
  intros Hi Hj. unfold clear_bit, bit. rewrite Z.ldiff_spec, Z.shiftl_1_l.
  destruct (Z.eqb_spec i j) as [->|Hne];
    [by rewrite Z.pow2_bits_true|by rewrite Z.pow2_bits_false].
Qed.
Lemma bit_testbit i j : 0 <= i -> 0 <= j -> Z.testbit (bit i) j = (i =? j).
Proof.
  intros Hi Hj. unfold bit. rewrite Z.shiftl_1_l.
  destruct (Z.eqb_spec i j) as [->|Hne];
    [by rewrite Z.pow2_bits_true|by rewrite Z.pow2_bits_false].
Qed.

(** The state of the maps when the loop is through with the processors
    [d]. *)
Record boot_inv (nc : Z) (d : list Z) (cpucount : Z) s : Prop := {
  bi_sized : sized s;
  bi_present : forall j, 0 <= j -> Z.testbit (cpu_present_map s) j =
    if bool_decide (j ∈ d) then up j else j <? linux_num_cpus;
  bi_number : forall j, 0 <= j < NR_CPUS -> cpu_number_map s !! Z.to_nat j =
    Some (if j =? boot_cpu_id then 0 else if bool_decide (j ∈ d) && up j then j else -1);
  bi_count : cpucount = Z.of_nat (length (filter (fun j => up j = true /\ j <> boot_cpu_id) d));
  bi_task : cpucount < Z.of_nat (length (task s));
  bi_num : smp_num_cpus s = nc
}.

Lemma filter_snoc_len d i :
  Z.of_nat (length (filter (fun j => up j = true /\ j <> boot_cpu_id) (d ++ [i]))) =
  Z.of_nat (length (filter (fun j => up j = true /\ j <> boot_cpu_id) d)) +
  b2z (up i && negb (i =? boot_cpu_id)).
Proof.
  rewrite list.filter_app, length_app, list.filter_cons, list.filter_nil.
  destruct (up i), (Z.eqb_spec i boot_cpu_id); case_decide; cbn; (lia || naive_solver).
Qed.

Lemma boot_present_spec nc d i c s : punctual -> boot_inv nc d c s -> 0 <= i < NR_CPUS ->
  i <> boot_cpu_id -> i ∉ d -> i < linux_num_cpus ->
  wp (boot_present i c) (fun r s' => r = (c + b2z (up i), up i) /\ sized s' /\
    cpu_present_map s' = cpu_present_map s /\
    cpu_number_map s' = (if up i then <[Z.to_nat i := i]> (cpu_number_map s) else cpu_number_map s) /\
    c + 1 < Z.of_nat (length (task s')) /\ smp_num_cpus s' = smp_num_cpus s) s.
Proof.
  intros Hpu [Hsz Hp Hn Hc Ht] Hi Hne Hd Hl.
  assert (Hc0 : 0 <= c) by lia. pose proof Hsz as [S1 S2 S3 S4 S5 S6 S7 S8].
  assert (Hup : up i = called_in i 10000).
  { unfold up. rewrite (proj2 (Z.eqb_neq _ _) Hne), (proj2 (Z.leb_le _ _)), (proj2 (Z.ltb_lt _ _)) by lia.
    done. }
  unfold boot_present. rewrite wp_bind, wp_modify, wp_bind, wp_gets. cbn [task set_task].
  destruct (lookup_lt_is_Some_2 (task s ++ [0]) (Z.to_nat (c + 1))) as [p Ep];
    [rewrite length_app; cbn; lia|].
  rewrite wp_bind, wp_the. exists p. split; [done|].
  rewrite wp_bind, wp_arr_set by (cbn; rewrite length_app; cbn; lia).
  rewrite wp_bind, wp_arr_set by (cbn; lia). rewrite wp_bind, wp_arr_set by (cbn; lia).
  rewrite wp_bind. unfold smp_event. rewrite wp_modify.
  destruct (callin_checks i Hpu) as [Et1 Et2]. rewrite Et1, Et2, <- Hup.
  destruct (up i).
  - rewrite wp_bind, wp_arr_set by (cbn; lia). rewrite wp_bind, wp_arr_set by (cbn; lia). rewrite wp_ret.
    split; [cbn; do 2 f_equal; lia|]. split; [sized_tac|]. split; [done|]. split; [done|].
    cbn. rewrite length_insert, length_app. cbn. split; [lia|done].
  - rewrite wp_ret. split; [cbn; f_equal; lia|]. split; [sized_tac|]. split; [done|]. split; [done|].
    cbn. rewrite length_insert, length_app. cbn. split; [lia|done].
Qed.

Lemma in_snoc (d : list Z) i j : bool_decide (j ∈ d ++ [i]) = bool_decide (j ∈ d) || (j =? i).
Proof.
  destruct (Z.eqb_spec j i) as [->|Hne].
  - rewrite orb_true_r. apply bool_decide_true. set_solver.
  - rewrite orb_false_r. apply bool_decide_ext. set_solver.
Qed.

(** The loop passes the boot processor over. *)
Lemma boot_inv_self nc d c s : boot_inv nc d c s -> boot_cpu_id ∉ d -> 0 <= boot_cpu_id < linux_num_cpus ->
  boot_inv nc (d ++ [boot_cpu_id]) c s.
Proof.
  intros [Hsz Hp Hn Hc Ht Hnum] Hd Hb. split; try done.
  - intros j Hj. rewrite Hp, in_snoc by done. destruct (Z.eqb_spec j boot_cpu_id) as [->|];
      [|by rewrite orb_false_r].
    rewrite bool_decide_false by done. unfold up. rewrite Z.eqb_refl. apply Z.ltb_lt. lia.
  - intros j Hj. rewrite Hn, in_snoc by done.
    destruct (Z.eqb_spec j boot_cpu_id); [done|by rewrite orb_false_r].
  - rewrite filter_snoc_len, Hc, Z.eqb_refl, andb_false_r. cbn. lia.
Qed.

Lemma up_beyond i : i <> boot_cpu_id -> (i <? linux_num_cpus) = false -> up i = false.
Proof. intros Hne El. unfold up. by rewrite (proj2 (Z.eqb_neq _ _) Hne), El, andb_false_r. Qed.

(** The maps after processor [i] was tried, before it is struck out. *)
Definition tried nc c i s s' : Prop :=
  sized s' /\ cpu_present_map s' = cpu_present_map s /\
  cpu_number_map s' = (if up i then <[Z.to_nat i := i]> (cpu_number_map s) else cpu_number_map s) /\
  c + b2z (up i) < Z.of_nat (length (task s')) /\ smp_num_cpus s' = nc.

Lemma number_after nc d c s i : boot_inv nc d c s -> 0 <= i < NR_CPUS -> i <> boot_cpu_id ->
  forall j, 0 <= j < NR_CPUS ->
  (<[Z.to_nat i := if up i then i else -1]> (cpu_number_map s)) !! Z.to_nat j =
    Some (if j =? boot_cpu_id then 0 else if bool_decide (j ∈ d ++ [i]) && up j then j else -1).
Proof.
  intros [Hsz _ Hn _ _ _] Hi Hne j Hj. pose proof (sz_number _ Hsz). rewrite in_snoc.
  destruct (Z.eqb_spec j i) as [->|Hji].
  - rewrite list_lookup_insert_eq by lia. by rewrite (proj2 (Z.eqb_neq _ _) Hne), orb_true_r.
  - by rewrite list_lookup_insert_ne, Hn, orb_false_r by lia.
Qed.

Lemma boot_inv_up nc d c s s' i : boot_inv nc d c s -> tried nc c i s s' -> up i = true ->
  0 <= i < NR_CPUS -> i ∉ d -> i <> boot_cpu_id -> boot_inv nc (d ++ [i]) (c + 1) s'.
Proof.
  intros Hinv (Hsz' & Hp' & Hn' & Ht' & Hnum') Eu Hi Hd Hne. rewrite Eu in Ht', Hn'. split; try done.
  - intros j Hj. rewrite Hp', (bi_present _ _ _ _ Hinv), in_snoc by done.
    destruct (Z.eqb_spec j i) as [->|]; [|by rewrite orb_false_r].
    rewrite bool_decide_false, Eu by done. cbn.
    destruct (i <? linux_num_cpus) eqn:El; [done|]. by rewrite up_beyond in Eu.
  - intros j Hj. pose proof (number_after nc d c s i Hinv Hi Hne j Hj) as Ha. rewrite Eu in Ha. by rewrite Hn'.
  - rewrite filter_snoc_len, (bi_count _ _ _ _ Hinv), Eu, (proj2 (Z.eqb_neq _ _) Hne). done.
Qed.

Lemma boot_inv_down nc d c s s' i : boot_inv nc d c s -> tried nc c i s s' -> up i = false ->
  0 <= i < NR_CPUS -> i ∉ d -> i <> boot_cpu_id ->
  boot_inv nc (d ++ [i]) c (set_cpu_number_map (<[Z.to_nat i := -1]> (cpu_number_map s'))
    (set_cpu_present_map (clear_bit (cpu_present_map s') i) s')).
Proof.
  intros Hinv (Hsz' & Hp' & Hn' & Ht' & Hnum') Eu Hi Hd Hne. rewrite Eu in Ht', Hn'. split; cbn.
  - sized_tac.
  - intros j Hj. rewrite clear_bit_testbit, Hp', (bi_present _ _ _ _ Hinv), in_snoc, (Z.eqb_sym i) by lia.
    destruct (Z.eqb_spec j i) as [->|].
    + by rewrite andb_false_r, orb_true_r, Eu.
    + by rewrite andb_true_r, orb_false_r.
  - intros j Hj. pose proof (number_after nc d c s i Hinv Hi Hne j Hj) as Ha. rewrite Eu in Ha. by rewrite Hn'.
  - rewrite filter_snoc_len, (bi_count _ _ _ _ Hinv), Eu. cbn. lia.
  - cbn in Ht'. lia.
  - done.
Qed.

Lemma boot_one_spec nc d i c s : punctual -> boot_inv nc d c s -> 0 <= i < NR_CPUS -> i ∉ d ->
  0 <= boot_cpu_id < linux_num_cpus ->
  wp (boot_one i c) (fun c' s' => boot_inv nc (d ++ [i]) c' s') s.
Proof.
  intros Hpu Hinv Hi Hd Hb. unfold boot_one.
  destruct (Z.eqb_spec i boot_cpu_id) as [->|Hne]; [rewrite wp_ret; by apply boot_inv_self|].
  rewrite wp_bind, wp_gets, (bi_present _ _ _ _ Hinv), bool_decide_false by (done || lia).
  rewrite wp_bind. apply (wp_mono _ (fun r s' => r = (c + b2z (up i), up i) /\ tried nc c i s s')).
  { unfold tried. pose proof (bi_num _ _ _ _ Hinv). destruct (Z.ltb_spec i linux_num_cpus).
    - eapply wp_mono; [by apply (boot_present_spec nc d)|]. cbv beta. intros r s' (-> & H1 & H2 & H3 & H4 & H5).
      split_and!; try done; [|congruence]. destruct (up i); cbn; lia.
    - rewrite wp_ret, up_beyond by (done || by apply Z.ltb_ge). cbn. rewrite Z.add_0_r.
      destruct Hinv. by split_and!. }
  intros r s' [-> Htr]. cbn [fst snd]. rewrite wp_bind. destruct (up i) eqn:Eu; cbn [negb when].
  - rewrite wp_skip, wp_ret. by apply (boot_inv_up nc d c s).
  - pose proof Htr as [Hsz' _]. pose proof (sz_number _ Hsz').
    rewrite wp_bind, wp_modify, wp_arr_set, wp_ret by (cbn; lia). cbn [b2z]. rewrite Z.add_0_r.
    exact (boot_inv_down nc d c s s' i Hinv Htr Eu Hi Hd Hne).
Qed.

Lemma boot_loop_spec nc l d c s : punctual -> boot_inv nc d c s -> NoDup (d ++ l) ->
  Forall (fun i => 0 <= i < NR_CPUS) l -> 0 <= boot_cpu_id < linux_num_cpus ->
  wp (boot_loop l c) (fun c' s' => boot_inv nc (d ++ l) c' s') s.
Proof.
  intros Hpu Hinv Hnd Hl Hb. revert d c s Hinv Hnd. induction Hl as [|i l Hi _ IH];
    intros d c s Hinv Hnd; cbn [boot_loop].
  { rewrite wp_ret. by rewrite app_nil_r. }
  rewrite wp_bind. eapply wp_mono.
  - apply (boot_one_spec nc d); try done. apply list.NoDup_app in Hnd as (_ & Hnd & _).
    intros Hin. apply (Hnd i Hin). by left.
  - cbv beta. intros c' s' Hinv'. replace (d ++ i :: l) with ((d ++ [i]) ++ l) by by rewrite <- app_assoc.
    apply IH; [done|]. by rewrite <- app_assoc.
Qed.

(** ** The distribution list *)

(** Along [l] every processor's next is the one that follows. *)
Definition linked (next : list Z) (l : list Z) : Prop :=
  forall k a b, l !! k = Some a -> l !! S k = Some b -> next !! Z.to_nat a = Some b.

Definition present_in (m : Z) (l : list Z) : list Z := filter (fun i => Z.testbit m i = true) l.

(** Only the list and its identifiers differ. *)
Definition ring_frame s s' : Prop :=
  exists dn dm, s' = set_data_next dn (set_data_mid dm s) /\
    length dn = length (data_next s) /\ length dm = length (data_mid s).

Lemma ring_frame_refl s : ring_frame s s.
Proof. exists (data_next s), (data_mid s). by destruct s. Qed.
Lemma ring_frame_trans s1 s2 s3 : ring_frame s1 s2 -> ring_frame s2 s3 -> ring_frame s1 s3.
Proof.
  intros (n2 & m2 & -> & H1 & H2) (n3 & m3 & -> & H3 & H4). exists n3, m3. cbn in *.
  split_and!; [done|congruence|congruence].
Qed.
Lemma ring_frame_next i v s : ring_frame s (set_data_next (<[i := v]> (data_next s)) s).
Proof. exists (<[i := v]> (data_next s)), (data_mid s). rewrite length_insert. by destruct s. Qed.
Lemma ring_frame_mid i v s : ring_frame s (set_data_mid (<[i := v]> (data_mid s)) s).
Proof. exists (data_next s), (<[i := v]> (data_mid s)). rewrite length_insert. by destruct s. Qed.
Lemma ring_frame_sized s s' : ring_frame s s' -> sized s -> sized s'.
Proof. intros (dn & dm & -> & H1 & H2) []. split; cbn; congruence. Qed.

Lemma linked_snoc next l p i : Forall (fun a => 0 <= a) l -> list.last l = Some p ->
  NoDup l -> linked next l -> (Z.to_nat p < length next)%nat ->
  linked (<[Z.to_nat p := i]> next) (l ++ [i]).
Proof.
  intros Hpos Hlast Hnd Hlk Hlen k a b Ha Hb. rewrite last_lookup in Hlast.
  assert (Hk : (k < length l)%nat).
  { apply lookup_lt_Some in Hb. rewrite length_app in Hb. cbn in Hb. lia. }
  rewrite lookup_app_l in Ha by done. rewrite list.Forall_lookup in Hpos.
  destruct (decide (k = pred (length l))) as [->|Hne].
  - rewrite Hlast in Ha. injection Ha as <-.
    rewrite lookup_app_r in Hb by lia. replace (S (pred (length l)) - length l)%nat with 0%nat in Hb by lia.
    injection Hb as <-. by rewrite list_lookup_insert_eq.
  - rewrite lookup_app_l in Hb by lia. rewrite list_lookup_insert_ne; [by eapply Hlk|].
    intros Eq. assert (a = p) as -> by (pose proof (Hpos _ _ Ha); pose proof (Hpos _ _ Hlast); lia).
    by pose proof (NoDup_lookup _ _ _ _ Hnd Ha Hlast).
Qed.

(** What the loop has built when it is through with the processors of which
    [d] are present. *)
Record ring_inv (d : list Z) (first prev : Z) s : Prop := {
  ri_sized : sized s;
  ri_linked : linked (data_next s) d;
  ri_first : first = from_option id (-1) (list.head d);
  ri_prev : prev = from_option id (-1) (list.last d);
  ri_range : Forall (fun a => 0 <= a < NR_CPUS) d;
  ri_nodup : NoDup d
}.

Lemma ring_next_spec d first prev i s : ring_inv d first prev s ->
  0 <= i < NR_CPUS -> i ∉ d ->
  wp (when (negb (prev =? -1)) (arr_set data_next set_data_next prev i)) (fun _ s' =>
    ring_frame s s' /\ linked (data_next s') (d ++ [i])) s.
Proof.
  intros [Hsz Hlk Hf Hp Hr Hnd] Hi Hd. destruct (list.last d) as [p|] eqn:El.
  - assert (Hpr : 0 <= p < NR_CPUS).
    { rewrite last_lookup in El. rewrite list.Forall_lookup in Hr. by eapply Hr. }
    cbn in Hp. subst prev. rewrite (proj2 (Z.eqb_neq _ _)) by lia. cbn [negb when].
    pose proof (sz_next _ Hsz). rewrite wp_arr_set by lia. split; [apply ring_frame_next|].
    apply linked_snoc; try done; [|lia]. eapply list.Forall_impl; [exact Hr|]. by intros a [Ha _].
  - cbn in Hp. subst prev. rewrite Z.eqb_refl. cbn [negb when]. rewrite wp_skip.
    apply last_None in El as ->. split; [apply ring_frame_refl|]. intros k a b Ha Hb. by destruct k.
Qed.

Lemma ring_loop_spec l d first prev s : ring_inv d first prev s ->
  NoDup (d ++ l) -> Forall (fun i => 0 <= i < NR_CPUS) l ->
  wp (ring_loop l first prev) (fun r s' => ring_frame s s' /\
    ring_inv (d ++ present_in (cpu_present_map s) l) r.1 r.2 s') s.
Proof.
  intros Hinv Hnd Hl. revert d first prev s Hinv Hnd.
  induction Hl as [|i l Hi _ IH]; intros d first prev s Hinv Hnd; cbn [ring_loop].
  { rewrite wp_ret. unfold present_in. rewrite list.filter_nil, app_nil_r.
    split; [apply ring_frame_refl|done]. }
  rewrite wp_bind, wp_gets. unfold present_in. rewrite list.filter_cons.
  assert (Hi' : i ∉ d).
  { apply list.NoDup_app in Hnd as (_ & Hnd & _). intros Hin. apply (Hnd i Hin). by left. }
  destruct (Z.testbit (cpu_present_map s) i) eqn:Eb; case_decide; try done.
  2:{ apply IH; [done|]. eapply sublist_NoDup; [exact Hnd|].
      apply sublist_app; [done|]. by apply sublist_cons. }
  rewrite wp_bind. eapply wp_mono; [by eapply ring_next_spec|].
  cbv beta. intros _ s1 [Hfr Hlk]. destruct Hinv as [Hsz _ Hf Hp Hr Hnd'].
  pose proof (ring_frame_sized _ _ Hfr Hsz) as Hsz1. pose proof Hsz1 as [_ _ Hx Hm _ _ _ _].
  destruct (lookup_lt_is_Some_2 (mid_xlate s1) (Z.to_nat i)) as [mid Emid]; [lia|].
  rewrite wp_bind, (wp_arr_get _ _ mid) by (done || lia). rewrite wp_bind, wp_arr_set by lia.
  set (s2 := set_data_mid (<[Z.to_nat i := mid]> (data_mid s1)) s1).
  assert (Hfr2 : ring_frame s s2) by (eapply ring_frame_trans; [exact Hfr|apply ring_frame_mid]).
  assert (Epm : cpu_present_map s2 = cpu_present_map s) by (by destruct Hfr2 as (? & ? & -> & _)).
  eapply wp_mono.
  - apply (IH (d ++ [i])); [|by rewrite <- app_assoc]. split.
    + exact (ring_frame_sized _ _ Hfr2 Hsz).
    + exact Hlk.
    + destruct d as [|x d]; cbn in Hf; subst first; [done|]. apply list.Forall_cons in Hr as [Hx' _].
      by rewrite (proj2 (Z.eqb_neq _ _)) by lia.
    + by rewrite last_snoc.
    + apply list.Forall_app. by rewrite list.Forall_singleton.
    + apply list.NoDup_app. split; [done|]. split; [|apply NoDup_singleton].
      intros x Hxd Hxi. apply list_elem_of_singleton in Hxi. congruence.
  - cbv beta. intros r s' [Hfr' Hri]. split; [by eapply ring_frame_trans|].
    rewrite Epm in Hri. unfold present_in in Hri. by rewrite <- app_assoc in Hri.
Qed.

(** Following the list from a processor. *)
Fixpoint follow (next : list Z) (k : nat) (i : Z) : option Z :=
  match k with O => Some i | S k' => j ← next !! Z.to_nat i; follow next k' j end.

Definition cyclic (next : list Z) (l : list Z) : Prop :=
  linked next l /\
  (forall a z, list.head l = Some a -> list.last l = Some z -> next !! Z.to_nat z = Some a).

Lemma follow_cyclic next l j k a : cyclic next l -> l !! j = Some a ->
  follow next k a = l !! ((j + k) mod length l)%nat.
Proof.
  intros [Hlk Hend]. revert j a. induction k as [|k IH]; intros j a Ha;
    pose proof (lookup_lt_Some _ _ _ Ha) as Hj; cbn [follow].
  { by rewrite Nat.add_0_r, Nat.mod_small. }
  destruct (decide (S j = length l)) as [E1|Hne].
  - destruct (lookup_lt_is_Some_2 l 0%nat) as [b Hb]; [lia|].
    assert (Hn : next !! Z.to_nat a = Some b).
    { apply Hend; [by rewrite head_lookup|]. rewrite last_lookup, <- E1. exact Ha. }
    rewrite Hn. cbn [mbind option_bind]. rewrite (IH 0%nat b Hb).
    replace (j + S k)%nat with (0 + k + 1 * length l)%nat by lia. by rewrite Nat.Div0.mod_add.
  - destruct (lookup_lt_is_Some_2 l (S j)) as [b Hb]; [lia|].
    rewrite (Hlk j a b Ha Hb). cbn [mbind option_bind]. rewrite (IH (S j) b Hb).
    by replace (S j + k)%nat with (j + S k)%nat by lia.
Qed.

(** From every processor of a cycle one reaches every other. *)
Lemma cyclic_reaches next l a b : cyclic next l -> a ∈ l -> b ∈ l ->
  exists k, (k < length l)%nat /\ follow next k a = Some b.
Proof.
  intros Hc [i Hi]%list_elem_of_lookup [j Hj]%list_elem_of_lookup.
  pose proof (lookup_lt_Some _ _ _ Hi). pose proof (lookup_lt_Some _ _ _ Hj).
  exists ((j + length l - i) mod length l)%nat. split; [apply Nat.mod_upper_bound; lia|].
  rewrite (follow_cyclic _ _ i _ _ Hc Hi), Nat.Div0.add_mod_idemp_r.
  replace (i + (j + length l - i))%nat with (j + 1 * length l)%nat by lia.
  by rewrite Nat.Div0.mod_add, Nat.mod_small.
Qed.

Lemma irq_ring_spec s m : sized s -> cpu_present_map s = m -> 0 <= NR_CPUS ->
  present_in m (seqZ 0 NR_CPUS) <> [] ->
  wp irq_ring (fun _ s' => ring_frame s s' /\
    cyclic (data_next s') (present_in m (seqZ 0 NR_CPUS))) s.
Proof.
  intros Hsz Em Hnr Hne. unfold irq_ring. rewrite wp_bind. eapply wp_mono.
  - apply (ring_loop_spec (seqZ 0 NR_CPUS) []).
    + by split; [| |done|done|apply list.Forall_nil|apply list.NoDup_nil].
    + apply NoDup_seqZ.
    + apply list.Forall_forall. intros i Hi. apply elem_of_seqZ in Hi. lia.
  - cbv beta. rewrite Em. cbn [app]. set (l := present_in m _) in *.
    intros [f p] s1 [Hfr [Hsz1 Hlk Hf Hp Hr Hnd]]. cbn [fst snd] in *.
    destruct (list.last l) as [z|] eqn:El; [|by apply last_None in El].
    destruct l as [|a l'] eqn:Ell; [done|]. cbn in Hf, Hp. subst f p.
    assert (Hz : 0 <= z < NR_CPUS).
    { rewrite last_lookup in El. rewrite list.Forall_lookup in Hr. by eapply Hr. }
    pose proof (sz_next _ Hsz1) as Hlen. rewrite wp_arr_set by lia. cbn.
    split; [eapply ring_frame_trans; [exact Hfr|apply ring_frame_next]|]. split.
    + intros k x y Hx Hy. rewrite list_lookup_insert_ne; [by eapply Hlk|]. intros Eq.
      rewrite list.Forall_lookup in Hr. pose proof (Hr _ _ Hx).
      assert (x = z) as -> by lia. rewrite last_lookup in El.
      pose proof (NoDup_lookup _ _ _ _ Hnd Hx El). apply lookup_lt_Some in Hy. cbn in *. lia.
    + intros x y [= <-] Hy. rewrite El in Hy. injection Hy as <-.
      apply list_lookup_insert_eq. lia.
Qed.

(** ** The preparation *)

(** An array in the state. *)
Class Field (arr : smp_state -> list Z) (set : list Z -> smp_state -> smp_state) : Prop := {
  fld_get : forall x s, arr (set x s) = x;
  fld_set : forall x y s, set x (set y s) = set x s;
  fld_id : forall s, set (arr s) s = s
}.
#[local] Instance field_number : Field cpu_number_map set_cpu_number_map.
Proof. split; try done. by intros []. Qed.
#[local] Instance field_logical : Field cpu_logical_map set_cpu_logical_map.
Proof. split; try done. by intros []. Qed.

Lemma fill_spec arr set `{!Field arr set} v l s :
  Forall (fun i => 0 <= i < Z.of_nat (length (arr s))) l ->
  wp (for_each l (fun i => arr_set arr set i v)) (fun _ s' => exists x,
    s' = set x s /\ length x = length (arr s) /\
    forall j, 0 <= j -> j ∈ l -> x !! Z.to_nat j = Some v) s.
Proof.
  intros Hl.
  cut (wp (for_each l (fun i => arr_set arr set i v)) (fun _ s' => exists x,
    s' = set x s /\ length x = length (arr s) /\
    forall j, 0 <= j -> j ∈ l \/ arr s !! Z.to_nat j = Some v -> x !! Z.to_nat j = Some v) s).
  { intros Hc. eapply wp_mono; [exact Hc|]. cbv beta. intros _ s' (x & -> & H1 & H2). exists x.
    split_and!; [done|done|]. intros j Hj Hin. apply H2; [done|by left]. }
  revert s Hl. induction l as [|i l IH]; intros s Hl; cbn [for_each].
  { rewrite wp_skip. exists (arr s). rewrite fld_id. split_and!; [done|done|].
    intros j _ [Hin|Hj]; [by apply elem_of_nil in Hin|done]. }
  apply list.Forall_cons in Hl as [Hi Hl]. rewrite wp_bind, wp_arr_set by done. eapply wp_mono.
  { apply IH. by rewrite fld_get, length_insert. }
  cbv beta. intros _ s' (x & -> & Hx & Hin). rewrite fld_get, length_insert in Hx.
  exists x. rewrite fld_set. split_and!; [done|done|]. intros j Hj Hor. rewrite fld_get in Hin.
  destruct (Z.eqb_spec j i) as [->|Hne].
  - apply Hin; [done|]. right. apply list_lookup_insert_eq. lia.
  - apply Hin; [done|]. destruct Hor as [[->|Hor]%elem_of_cons|Hor]; [done|by left|].
    right. by rewrite list_lookup_insert_ne by lia.
Qed.

Lemma present_spec l s : Forall (fun i => 0 <= i) l ->
  wp (for_each l (fun i => modify (fun s => set_cpu_present_map (Z.lor (cpu_present_map s) (bit i)) s)))
    (fun _ s' => exists m, s' = set_cpu_present_map m s /\
      forall j, 0 <= j -> Z.testbit m j = Z.testbit (cpu_present_map s) j || bool_decide (j ∈ l)) s.
Proof.
  intros Hl. revert s. induction Hl as [|i l Hi _ IH]; intros s; cbn [for_each].
  { rewrite wp_skip. exists (cpu_present_map s). split; [by destruct s|]. intros j _.
    rewrite bool_decide_false by apply not_elem_of_nil. by rewrite orb_false_r. }
  rewrite wp_bind, wp_modify. eapply wp_mono; [apply IH|].
  cbv beta. intros _ s' (m & -> & Hm). exists m. split; [done|]. intros j Hj.
  rewrite Hm by done. cbn. rewrite Z.lor_spec, bit_testbit by done.
  rewrite (bool_decide_ext (j ∈ i :: l) (j = i \/ j ∈ l)) by by rewrite elem_of_cons.
  destruct (Z.eqb_spec i j) as [->|Hne].
  - rewrite (bool_decide_true (j = j \/ _)) by by left. by rewrite !orb_true_r.
  - rewrite (bool_decide_ext (j = i \/ j ∈ l) (j ∈ l)) by naive_solver. by rewrite orb_false_r.
Qed.

(** What the machine must be like: tables of NR_CPUS entries, at most 32
    processors, a boot processor among those the PROM counts, with a PAL. *)
Record bootable s : Prop := {
  bo_sized : sized s;
  bo_task : (0 < length (task s))%nat;
  bo_cpus : 2 <= linux_num_cpus <= NR_CPUS;
  bo_nr : NR_CPUS <= 32;
  bo_boot : 0 <= boot_cpu_id < linux_num_cpus;
  bo_pal : cpu_ok boot_cpu_id = true;
  bo_mid : cpu_ok (u8 (Z.land (linux_cpu_mid boot_cpu_id) (Z.lnot 8))) = true
}.

Lemma percpu_timer_spec cpu mid s : sized s -> 0 <= cpu < NR_CPUS ->
  mid_xlate s !! Z.to_nat cpu = Some mid -> cpu_ok mid = true -> cpu_ok cpu = true ->
  wp (smp_setup_percpu_timer cpu) (fun _ s' => exists m pc pm,
    s' = set_sm m (set_prof_counter pc (set_prof_multiplier pm s)) /\
    length pc = length (prof_counter s) /\ length pm = length (prof_multiplier s) /\
    counter14 mid (m_writes m) =
      Some (Counter DINO1_TIMER_MODE_RATE None (Some (u16 (lvl14_resolution (sm s)))))) s.
Proof.
  intros Hsz Hc Hmid Hok Hok'. pose proof Hsz as [_ _ _ _ _ _ H7 H8].
  unfold smp_setup_percpu_timer. rewrite wp_bind, wp_arr_set, wp_bind, wp_arr_set by (cbn; lia).
  rewrite wp_bind, (wp_arr_get _ _ mid) by (done || lia). rewrite wp_bind, wp_gets, wp_bind.
  unfold on_machine, dino1_load_profile_irq. rewrite wp_zoom.
  eapply wp_mono; [apply load_l14_spec; [done|apply u16_range|by right]|].
  cbv beta. cbn. intros _ m (log & -> & H14 & _). cbn in H14.
  assert (H14' := H14 mid). rewrite Z.eqb_refl in H14'.
  destruct (cpu =? boot_cpu_id); cbn [when].
  - rewrite wp_zoom. unfold dino1_enable_pil_irq, dev. rewrite wp_bind, wp_assert.
    split; [done|]. rewrite wp_bind, wp_assert. split; [done|]. rewrite wp_modify.
    do 3 eexists. split; [reflexivity|]. cbn. rewrite !length_insert.
    split_and!; [done|done|]. exact H14'.
  - rewrite wp_skip. do 3 eexists. split; [reflexivity|]. cbn. rewrite !length_insert. done.
Qed.

Lemma boot_prepare_spec s : bootable s ->
  wp boot_prepare (fun _ s' => boot_inv (smp_num_cpus s) [] 0 s') s.
Proof.
  intros [Hsz Ht Hcpus Hnr Hb Hpal Hmid]. unfold boot_prepare.
  rewrite wp_bind, wp_modify, wp_bind. eapply wp_mono.
  { apply present_spec, list.Forall_forall. intros i Hi. apply elem_of_seqZ in Hi. lia. }
  cbv beta. intros _ s1 (m & -> & Hm).
  assert (Hall : Forall (fun i => 0 <= i < NR_CPUS) (seqZ 0 NR_CPUS)).
  { apply list.Forall_forall. intros i Hi. apply elem_of_seqZ in Hi. lia. }
  pose proof Hsz as [H1 H2 H3 H4 H5 H6 H7 H8].
  rewrite wp_bind. eapply wp_mono; [apply (fill_spec cpu_number_map set_cpu_number_map); cbn; by rewrite H1|].
  cbv beta. cbn. intros _ s2 (x & -> & Hx & Hxv).
  rewrite wp_bind. eapply wp_mono; [apply (fill_spec cpu_logical_map set_cpu_logical_map); cbn; by rewrite H2|].
  cbv beta. cbn. intros _ s3 (y & -> & Hy & Hyv).
  rewrite wp_bind, wp_arr_set by (cbn; lia). rewrite wp_bind, wp_arr_set by (cbn; lia).
  rewrite wp_bind, wp_arr_set by (cbn; lia). rewrite wp_bind, wp_arr_set by (cbn; lia).
  rewrite wp_bind, (wp_arr_get _ _ (u8 (Z.land (linux_cpu_mid boot_cpu_id) (Z.lnot 8)))); [|lia|].
  2:{ cbn. apply list_lookup_insert_eq. lia. }
  rewrite wp_bind. unfold on_machine, dino1_set_udt. rewrite wp_zoom, wp_skip.
  eapply wp_mono.
  { apply percpu_timer_spec; [|lia| |exact Hmid|done].
    - split; cbn; rewrite ?length_insert; (done || lia).
    - cbn. apply list_lookup_insert_eq. lia. }
  cbv beta. cbn. intros _ s4 (mm & pc & pm & -> & Hpc & Hpm & _).
  split; cbn.
  - split; cbn; rewrite ?length_insert; (done || congruence || lia).
  - intros j Hj. rewrite Hm by done. cbn. rewrite Z.bits_0.
    rewrite (bool_decide_false (j ∈ [])) by apply not_elem_of_nil. cbn.
    destruct (Z.ltb_spec j linux_num_cpus); [apply bool_decide_true|apply bool_decide_false];
      rewrite elem_of_seqZ; lia.
  - intros j Hj. rewrite (bool_decide_false (j ∈ [])) by apply not_elem_of_nil. cbn.
    destruct (Z.eqb_spec j boot_cpu_id) as [->|Hne].
    + apply list_lookup_insert_eq. lia.
    + rewrite list_lookup_insert_ne by lia. apply Hxv; [lia|]. apply elem_of_seqZ. lia.
  - done.
  - rewrite length_insert. lia.
  - done.
Qed.

Lemma up_range i s : bootable s -> up i = true -> 0 <= i < linux_num_cpus.
Proof.
  intros [] Hu. unfold up in Hu. apply orb_true_iff in Hu as [->%Z.eqb_eq|Hu]; [done|].
  apply andb_true_iff in Hu as [Hu _]. apply andb_true_iff in Hu as [?%Z.leb_le ?%Z.ltb_lt]. lia.
Qed.

(** The processors that run besides the boot processor. *)
Definition others : list Z :=
  filter (fun j => up j = true /\ j <> boot_cpu_id) (seqZ 0 NR_CPUS).

Lemma free_trap_spec cpu s :
  wp (free_trap_table cpu) (fun _ s' => exists l, s' = set_smp_log l s) s.
Proof.
  unfold free_trap_table. rewrite wp_bind, wp_gets. destruct (Z.testbit _ _); cbn [negb when].
  - rewrite wp_skip. exists (smp_log s). by destruct s.
  - unfold smp_event. rewrite wp_modify. by eexists.
Qed.

Lemma boot_finish_spec nc s0 n s : bootable s0 -> boot_inv nc (seqZ 0 NR_CPUS) n s ->
  wp (boot_finish boot_cpu_id n) (fun _ s' =>
    (forall j, 0 <= j -> Z.testbit (cpu_present_map s') j = up j) /\
    cpu_number_map s' = cpu_number_map s /\
    smp_num_cpus s' = (if n =? 0 then smp_num_cpus s else n + 1) /\
    smp_processors_ready s' = 1 /\
    cyclic (data_next s') (present_in (cpu_present_map s') (seqZ 0 NR_CPUS))) s.
Proof.
  intros Hbo [Hsz Hp Hn Hc Ht Hnum]. pose proof Hbo as [_ _ Hcpus Hnr Hb _ _].
  assert (Hpres : forall j, 0 <= j -> Z.testbit (cpu_present_map s) j = up j).
  { intros j Hj. rewrite Hp by done. destruct (bool_decide_reflect (j ∈ seqZ 0 NR_CPUS)) as [|Hout]; [done|].
    rewrite elem_of_seqZ in Hout. destruct (up j) eqn:Eu; [|by apply Z.ltb_ge; lia].
    apply (up_range _ _ Hbo) in Eu. lia. }
  unfold boot_finish. rewrite wp_bind.
  apply (wp_mono _ (fun _ s' => sized s' /\
    (forall j, 0 <= j -> Z.testbit (cpu_present_map s') j = up j) /\
    cpu_number_map s' = cpu_number_map s /\
    smp_num_cpus s' = (if n =? 0 then smp_num_cpus s else n + 1))).
  { destruct (Z.eqb_spec n 0) as [E0|].
    - rewrite wp_modify. split; [sized_tac|]. cbn. split; [|done]. intros j Hj.
      rewrite bit_testbit by lia. destruct (Z.eqb_spec boot_cpu_id j) as [<-|Hne].
      + unfold up. by rewrite Z.eqb_refl.
      + destruct (up j) eqn:Eu; [|done]. pose proof (up_range _ _ Hbo Eu) as Hjr.
        assert (Hin : j ∈ filter (fun j => up j = true /\ j <> boot_cpu_id) (seqZ 0 NR_CPUS)).
        { apply list_elem_of_filter. split; [by split|]. apply elem_of_seqZ. lia. }
        destruct (filter _ _); [by apply elem_of_nil in Hin|cbn in Hc; lia].
    - rewrite wp_bind, !wp_modify. by split; [sized_tac|]. }
  intros [] s1 (Hsz1 & Hp1 & Hn1 & Hnum1). rewrite wp_bind. eapply wp_mono.
  { apply irq_ring_spec; [done|reflexivity|lia|]. unfold present_in. intros Hnil.
    assert (Hin : boot_cpu_id ∈ filter (fun i => Z.testbit (cpu_present_map s1) i = true) (seqZ 0 NR_CPUS)).
    { apply list_elem_of_filter. split; [|apply elem_of_seqZ; lia].
      rewrite Hp1 by lia. unfold up. by rewrite Z.eqb_refl. }
    rewrite Hnil in Hin. by apply elem_of_nil in Hin. }
  cbv beta. intros _ s2 [(dn & dm & -> & _) Hcyc].
  rewrite wp_bind. eapply wp_mono; [apply free_trap_spec|]. cbv beta. intros _ s3 (l3 & ->).
  rewrite wp_bind. eapply wp_mono; [apply free_trap_spec|]. cbv beta. intros _ s4 (l4 & ->).
  rewrite wp_bind. eapply wp_mono; [apply free_trap_spec|]. cbv beta. intros _ s5 (l5 & ->).
  rewrite wp_modify. by cbn in *.
Qed.

(** C22. smp4m_boot_cpus() on a board with several processors. The processors
    in cpu_present_map are in the end exactly the boot processor and those
    that called in before the timeout; cpu_number_map gives them their
    numbers and all others -1; smp_num_cpus counts them if there is more than
    one; and the list for the distribution of interrupts leads from every
    running processor to every other one, and only along running ones. This
    holds if no processor calls in between the last two checks of its entry
    in cpu_callin_map. *)
Theorem boot_cpus_spec s : punctual -> bootable s ->
  wp smp4m_boot_cpus (fun _ s' =>
    (forall j, 0 <= j -> Z.testbit (cpu_present_map s') j = up j) /\
    (forall j, 0 <= j < NR_CPUS -> cpu_number_map s' !! Z.to_nat j =
       Some (if j =? boot_cpu_id then 0 else if up j then j else -1)) /\
    smp_num_cpus s' =
      (if Z.of_nat (length others) =? 0 then smp_num_cpus s else Z.of_nat (length others) + 1) /\
    smp_processors_ready s' = 1 /\
    (forall i k, up i = true -> exists j, follow (data_next s') k i = Some j /\ up j = true) /\
    (forall i j, up i = true -> up j = true ->
       exists k, Z.of_nat k < NR_CPUS /\ follow (data_next s') k i = Some j)) s.
Proof.
  intros Hpu Hbo. pose proof Hbo as [_ _ Hcpus Hnr Hb _ _]. unfold smp4m_boot_cpus.
  rewrite wp_bind. eapply wp_mono; [by apply boot_prepare_spec|]. cbv beta.
  intros _ s1 Hinv. rewrite (proj2 (Z.eqb_neq linux_num_cpus 1)) by lia. rewrite wp_bind.
  eapply wp_mono.
  { apply (boot_loop_spec (smp_num_cpus s) (seqZ 0 NR_CPUS) []); try done; [apply NoDup_seqZ|].
    apply list.Forall_forall. intros i Hi. apply elem_of_seqZ in Hi. lia. }
  cbv beta. cbn [app]. intros n s2 Hinv2.
  eapply wp_mono; [by eapply boot_finish_spec|]. cbv beta.
  intros _ s3 (Hp & Hn & Hnum & Hready & Hcyc). destruct Hinv2 as [_ _ Hn2 Hc _ Hnc].
  assert (Hin : forall i, i ∈ present_in (cpu_present_map s3) (seqZ 0 NR_CPUS) <-> up i = true).
  { intros i. unfold present_in. rewrite list_elem_of_filter, elem_of_seqZ. split.
    - intros [Hb' Hr]. rewrite Hp in Hb' by lia. done.
    - intros Hu. pose proof (up_range _ _ Hbo Hu). rewrite Hp by lia. split; [done|lia]. }
  assert (Hlen : Z.of_nat (length (present_in (cpu_present_map s3) (seqZ 0 NR_CPUS))) <= NR_CPUS).
  { unfold present_in. pose proof (list.length_filter (fun i => Z.testbit (cpu_present_map s3) i = true)
      (seqZ 0 NR_CPUS)) as Hl. rewrite length_seqZ in Hl. lia. }
  split_and!; [done| | |done| |].
  - intros j Hj. rewrite Hn, Hn2 by done. rewrite bool_decide_true by (apply elem_of_seqZ; lia). done.
  - rewrite Hnum, Hc, Hnc. done.
  - intros i k Hi. apply Hin in Hi. pose proof Hi as [x Hx]%list_elem_of_lookup.
    rewrite (follow_cyclic _ _ _ _ _ Hcyc Hx).
    pose proof (lookup_lt_Some _ _ _ Hx).
    destruct (lookup_lt_is_Some_2 (present_in (cpu_present_map s3) (seqZ 0 NR_CPUS))
      ((x + k) mod length (present_in (cpu_present_map s3) (seqZ 0 NR_CPUS)))%nat) as [j Hj].
    { apply Nat.mod_upper_bound. lia. }
    exists j. split; [done|]. apply Hin. by eapply list_elem_of_lookup_2.
  - intros i j Hi Hj. apply Hin in Hi, Hj.
    destruct (cyclic_reaches _ _ _ _ Hcyc Hi Hj) as (k & Hk & Hf). exists k. split; [lia|done].
Qed.

(** ** Messages *)

(** The processors a message goes to. *)
Definition recipients (me : Z) (target : msg_target) s : list Z :=
  match target with
  | MSG_CPU cpu => [cpu]
  | MSG_ALL_BUT_SELF => filter (fun i => Z.testbit (clear_bit (cpu_present_map s) me) i = true) [0; 1; 2; 3]
  | MSG_ALL => filter (fun i => Z.testbit (cpu_present_map s) i = true) [0; 1; 2; 3]
  end.

(** Every recipient has a PAL; [mid] is its module identifier. *)
Definition reachable_mid (mid : Z -> Z) (l : list Z) s : Prop :=
  Forall (fun t => 0 <= t /\ mid_xlate s !! Z.to_nat t = Some (mid t) /\ cpu_ok (mid t) = true) l.

Definition post_ipi (m : Z) (irq : Z) s : smp_state :=
  set_sm (set_m_writes (WrPal m set_pend (IRQ_TO_MASK irq) :: m_writes (sm s)) (sm s)) s.

Lemma set_cpu_int_spec mid t irq s : 0 <= t -> mid_xlate s !! Z.to_nat t = Some mid ->
  cpu_ok mid = true ->
  set_cpu_int t irq s = if ipi_level irq then Done tt (post_ipi mid irq s) else Fault Panic.
Proof.
  intros Ht Hm Hok. unfold set_cpu_int, arr_get, mbind, eff_bind, gets.
  rewrite (proj2 (Z.leb_le 0 t) Ht), Hm. cbn. unfold on_machine, zoom, dino1_send_ipi, ASSERT.
  rewrite Hok. by destruct (ipi_level irq).
Qed.

Lemma post_ipis_spec mid irq b l s : reachable_mid mid (filter (fun i => b i = true) l) s ->
  for_each l (fun i => when (b i) (set_cpu_int i irq)) s =
  if ipi_level irq then Done tt (fold_left (fun s t => post_ipi (mid t) irq s) (filter (fun i => b i = true) l) s)
  else match filter (fun i => b i = true) l with [] => Done tt s | _ :: _ => Fault Panic end.
Proof.
  revert s. induction l as [|i l IH]; intros s Hr; cbn [for_each].
  { rewrite list.filter_nil. by destruct (ipi_level irq). }
  rewrite list.filter_cons in *. destruct (b i); case_decide; try done; cbn [when].
  - unfold reachable_mid in Hr. apply list.Forall_cons in Hr as [(H1 & H2 & H3) Hr].
    unfold mbind at 1, eff_bind. rewrite (set_cpu_int_spec (mid i)) by done.
    destruct (ipi_level irq) eqn:El; [|done]. cbn [fold_left]. by rewrite IH.
  - unfold mbind at 1, eff_bind, skip. by apply IH.
Qed.

Lemma pass_to_spec mid me irq target s : reachable_mid mid (recipients me target s) s ->
  pass_to me irq target s =
  if ipi_level irq then Done tt (fold_left (fun s t => post_ipi (mid t) irq s) (recipients me target s) s)
  else match recipients me target s with [] => Done tt s | _ :: _ => Fault Panic end.
Proof.
  intros Hr. destruct target as [| |c]; cbn [pass_to recipients] in *.
  - unfold mbind at 1, eff_bind, gets. by apply post_ipis_spec.
  - unfold mbind at 1, eff_bind, gets. by apply post_ipis_spec.
  - apply list.Forall_singleton in Hr as (H1 & H2 & H3).
    rewrite (set_cpu_int_spec (mid c)) by done. by destruct (ipi_level irq).
Qed.

(** Counting up and down again. *)
Lemma post_ipis_in_msg (mid : Z -> Z) irq l s x :
  fold_left (fun s t => post_ipi (mid t) irq s) l (set_smp_cpu_in_msg x s) =
  set_smp_cpu_in_msg x (fold_left (fun s t => post_ipi (mid t) irq s) l s).
Proof. revert s. induction l as [|t l IH]; intros s; [done|]. cbn [fold_left]. by rewrite <- IH. Qed.
Lemma post_ipis_get (mid : Z -> Z) irq l s :
  smp_cpu_in_msg (fold_left (fun s t => post_ipi (mid t) irq s) l s) = smp_cpu_in_msg s.
Proof. revert s. induction l as [|t l IH]; intros s; [done|]. cbn [fold_left]. by rewrite IH. Qed.

(** Sending with the counter of nested messages up, and down again. *)
Definition counted_send (me irq : Z) (target : msg_target) : eff smp_state unit :=
  n ← arr_get smp_cpu_in_msg me;
  arr_set smp_cpu_in_msg set_smp_cpu_in_msg me (u32 (n + 1)) ;;
  pass_to me irq target ;;
  n ← arr_get smp_cpu_in_msg me;
  arr_set smp_cpu_in_msg set_smp_cpu_in_msg me (u32 (n - 1)).

Lemma in_msg_get me s v : 0 <= me -> smp_cpu_in_msg s !! Z.to_nat me = Some v ->
  arr_get smp_cpu_in_msg me s = Done v s.
Proof. intros Hme Hv. unfold arr_get, mbind, eff_bind, gets. by rewrite (proj2 (Z.leb_le 0 me) Hme), Hv. Qed.

Lemma in_msg_set me s v : 0 <= me -> (Z.to_nat me < length (smp_cpu_in_msg s))%nat ->
  arr_set smp_cpu_in_msg set_smp_cpu_in_msg me v s =
    Done tt (set_smp_cpu_in_msg (<[Z.to_nat me := v]> (smp_cpu_in_msg s)) s).
Proof.
  intros Hme Hl. unfold arr_set, mbind, eff_bind, gets.
  by rewrite (proj2 (Z.leb_le 0 me) Hme), (proj2 (Z.ltb_lt me _)) by lia.
Qed.

Lemma counted_send_spec mid me irq target n s :
  0 <= me -> smp_cpu_in_msg s !! Z.to_nat me = Some n -> 0 <= n < 2 ^ 32 ->
  reachable_mid mid (recipients me target s) s ->
  counted_send me irq target s =
    if ipi_level irq
    then Done tt (fold_left (fun s t => post_ipi (mid t) irq s) (recipients me target s) s)
    else match recipients me target s with [] => Done tt s | _ :: _ => Fault Panic end.
Proof.
  intros Hme Hn Hrange Hr. pose proof (lookup_lt_Some _ _ _ Hn) as Hlen.
  assert (Hback : u32 (u32 (n + 1) - 1) = n).
  { unfold u32. rewrite Zminus_mod_idemp_l. replace (n + 1 - 1) with n by lia. by apply Z.mod_small. }
  set (x := <[Z.to_nat me := u32 (n + 1)]> (smp_cpu_in_msg s)).
  assert (Hx : x !! Z.to_nat me = Some (u32 (n + 1))) by (by apply list_lookup_insert_eq).
  assert (Hxx : <[Z.to_nat me := n]> x = smp_cpu_in_msg s).
  { unfold x. by rewrite list_insert_insert_eq, list_insert_id. }
  assert (Hxl : length x = length (smp_cpu_in_msg s)) by (unfold x; by rewrite length_insert).
  unfold counted_send, mbind, eff_bind. rewrite (in_msg_get me s n), in_msg_set by done. fold x.
  rewrite (pass_to_spec mid) by done. change (recipients me target (set_smp_cpu_in_msg x s))
    with (recipients me target s). destruct (ipi_level irq).
  - rewrite post_ipis_in_msg, (in_msg_get me (set_smp_cpu_in_msg x _) _ Hme Hx), in_msg_set
      by (cbn; rewrite ?Hxl; done).
    cbn. rewrite Hback, Hxx. f_equal. rewrite <- (post_ipis_get mid irq (recipients me target s) s).
    by destruct (fold_left _ _ _).
  - destruct (recipients me target s); [|done].
    rewrite (in_msg_get me (set_smp_cpu_in_msg x _) _ Hme Hx), in_msg_set by (cbn; rewrite ?Hxl; done).
    cbn. rewrite Hback, Hxx. by destruct s.
Qed.

(** C31. smp4m_message_pass(), whatever the target. A reschedule message is
    dropped while the sender is already sending one, and else makes level 13
    pending on each recipient, in the order of their numbers, and restores
    the sender's counter. A stop message panics as soon as it has a
    recipient: its level 14 is none of those dino1_send_ipi() accepts. Other
    messages panic. *)
Theorem message_pass_spec mid me target message n s :
  0 <= me -> smp_cpu_in_msg s !! Z.to_nat me = Some n -> 0 <= n < 2 ^ 32 ->
  reachable_mid mid (recipients me target s) s ->
  smp4m_message_pass me target message s =
  match message with
  | MSG_RESCHEDULE =>
      Done tt (if n =? 0
               then fold_left (fun s t => post_ipi (mid t) IRQ_RESCHEDULE s) (recipients me target s) s
               else s)
  | MSG_STOP_CPU => match recipients me target s with [] => Done tt s | _ :: _ => Fault Panic end
  | MSG_OTHER _ => Fault Panic
  end.
Proof.
  intros Hme Hn Hrange Hr. pose proof (fun irq => counted_send_spec mid me irq target n s Hme Hn Hrange Hr) as Hsend.
  destruct message; unfold smp4m_message_pass; cbn [negb].
  - unfold mbind at 1, eff_bind. rewrite (in_msg_get me s n) by done.
    destruct (Z.eqb_spec n 0); cbn [negb]; [|done]. apply Hsend.
  - apply (Hsend IRQ_STOP_CPU).
  - done.
Qed.
End props.

(** ** A board with two processors

    Processor 1 calls in at the third check; its module identifiers carry the
    bit that is masked out. *)
Definition demo_smp : SmpEnv := {|
  NR_CPUS := 4; boot_cpu_id := 0; linux_cpu_mid := fun i => 8 + i;
  arrives := fun i => if i =? 1 then Some 3 else None
|}.
Definition four (x : Z) : list Z := [x; x; x; x].
Definition demo_off : @smp_state board_prom :=
  Smp _ demo_running 0 (four 0) (four 0) (four 0) (four 0) (four 0) (four 0) [0] 1 0 0
    (four 0) (four 0) (four 0) [].
Definition demo_booted : @smp_state board_prom :=
  match smp4m_boot_cpus (B := demo_board) (E := demo_smp) demo_off with
  | Done _ s => s | Fault _ => demo_off end.

Lemma demo_punctual : punctual (E := demo_smp).
Proof. intros i. unfold called_in. cbn. by destruct (i =? 1). Qed.
Lemma demo_bootable : bootable (B := demo_board) (E := demo_smp) demo_off.
Proof. split; [by split|cbn; lia|done|done|done|done|done]. Qed.

Lemma boot_cpus_spec_witness :
  wp (smp4m_boot_cpus (B := demo_board) (E := demo_smp)) (fun _ s' =>
    Z.testbit (cpu_present_map s') 1 = true /\ Z.testbit (cpu_present_map s') 2 = false /\
    smp_num_cpus s' = 2 /\ exists k, follow (data_next s') k 1 = Some 0) demo_off.
Proof.
  eapply wp_mono;
    [exact (boot_cpus_spec (B := demo_board) (E := demo_smp) demo_off demo_punctual demo_bootable)|].
  cbv beta. intros _ s' (Hp & _ & Hn & _ & _ & Hf).
  split; [by rewrite Hp|]. split; [by rewrite Hp|]. split; [rewrite Hn; vm_compute; reflexivity|].
  destruct (Hf 1 0 eq_refl eq_refl) as (k & _ & Hk). by exists k.
Defined.

Lemma message_pass_spec_witness :
  smp4m_message_pass 0 MSG_ALL_BUT_SELF MSG_STOP_CPU demo_booted = Fault Panic.
Proof.
  refine (message_pass_spec (fun i => i) 0 MSG_ALL_BUT_SELF MSG_STOP_CPU 0 demo_booted _ _ _ _);
    [lia|by vm_compute|lia|].
  assert (E : recipients 0 MSG_ALL_BUT_SELF demo_booted = [1]) by by vm_compute.
  rewrite E. apply list.Forall_singleton. split; [lia|]. split; [vm_compute; reflexivity|reflexivity].
Defined.
