(* ===== verification/SmpIdle.v ===== *)
(** * Which started processors get to run

    The idle task of each processor after the boot, and the wait of
    smp4m_callin() for it. *)

From stdpp Require Import prelude list numbers.
From Stdlib Require Import ZArith Lia.
From S2P Require Import Prelude Obp Machine Irq Timer TimerProps Smp SmpProps.

(** What holds when a computation ends without a fault. *)
Definition if_done {S A} (m : eff S A) (Q : A -> S -> Prop) (s : S) : Prop :=
  forall a s', m s = Done a s' -> Q a s'.

Section if_done.
Context {S A B : Type}.
Implicit Types m : eff S A.

Lemma done_ret (a : A) (Q : A -> S -> Prop) s : Q a s -> if_done (mret a) Q s.
Proof. by intros HQ ? ? [= <- <-]. Qed.
Lemma done_skip (Q : unit -> S -> Prop) s : Q tt s -> if_done skip Q s.
Proof. by intros HQ ? ? [= <- <-]. Qed.
Lemma done_gets (g : S -> A) (Q : A -> S -> Prop) s : Q (g s) s -> if_done (gets g) Q s.
Proof. by intros HQ ? ? [= <- <-]. Qed.
Lemma done_modify (g : S -> S) (Q : unit -> S -> Prop) s : Q tt (g s) -> if_done (modify g) Q s.
Proof. by intros HQ ? ? [= <- <-]. Qed.
Lemma done_the e (o : option A) (Q : A -> S -> Prop) s :
  (forall a, o = Some a -> Q a s) -> if_done (the e o) Q s.
Proof. intros HQ a s'. destruct o; [|done]. intros [= <- <-]. by apply HQ. Qed.
Lemma done_bind m (f : A -> eff S B) (Q : B -> S -> Prop) s :
  if_done m (fun a s' => if_done (f a) Q s') s -> if_done (m ≫= f) Q s.
Proof.
  intros Hm b s'. unfold mbind, eff_bind. destruct (m s) as [a s1|] eqn:E; [|done].
  by apply (Hm a s1).
Qed.
Lemma done_mono m (P Q : A -> S -> Prop) s :
  if_done m P s -> (forall a s', P a s' -> Q a s') -> if_done m Q s.
Proof. intros Hm HPQ a s' E. by apply HPQ, Hm. Qed.
Lemma wp_and_done m (P Q : A -> S -> Prop) s :
  wp m P s -> if_done m Q s -> wp m (fun a s' => P a s' /\ Q a s') s.
Proof. unfold wp, if_done. destruct (m s); [|done]. auto. Qed.
End if_done.

(** What a computation leaves alone. *)
Definition keeps {S A X} (f : S -> X) (m : eff S A) : Prop :=
  forall s, if_done m (fun _ s' => f s' = f s) s.

Create HintDb keeps.

Section keeps.
Context {S A B X : Type} (f : S -> X).

Lemma keeps_ret (a : A) : keeps f (mret a).
Proof. intros s. by apply done_ret. Qed.
Lemma keeps_skip : keeps f skip.
Proof. intros s. by apply done_skip. Qed.
Lemma keeps_gets (g : S -> A) : keeps f (gets g).
Proof. intros s. by apply done_gets. Qed.
Lemma keeps_fail e : keeps f (fail e : eff S A).
Proof. by intros s a s'. Qed.
Lemma keeps_the e (o : option A) : keeps f (the e o : eff S A).
Proof. intros s. by apply done_the. Qed.
Lemma keeps_modify g : (forall s, f (g s) = f s) -> keeps f (modify g).
Proof. intros Hg s. by apply done_modify. Qed.
Lemma keeps_bind (m : eff S A) (k : A -> eff S B) :
  keeps f m -> (forall a, keeps f (k a)) -> keeps f (m ≫= k).
Proof.
  intros Hm Hk s. apply done_bind. eapply done_mono; [apply Hm|]. cbv beta. intros a s1 <-. apply Hk.
Qed.
Lemma keeps_when (b : bool) (m : eff S unit) : keeps f m -> keeps f (when b m).
Proof. destruct b; [done|]. intros _. apply keeps_skip. Qed.
Lemma keeps_if (b : bool) (m1 m2 : eff S A) : keeps f m1 -> keeps f m2 -> keeps f (if b then m1 else m2).
Proof. by destruct b. Qed.
Lemma keeps_zoom {T} (get : S -> T) set (m : eff T A) :
  (forall x s, f (set x s) = f s) -> keeps f (zoom get set m).
Proof. intros Hs s a s'. unfold zoom. destruct (m (get s)); [|done]. intros [= <- <-]. apply Hs. Qed.
End keeps.

Lemma keeps_for_each {S X Y} (f : S -> X) (l : list Y) (body : Y -> eff S unit) :
  (forall y, keeps f (body y)) -> keeps f (for_each l body).
Proof.
  intros Hb. induction l as [|y l IH]; cbn [for_each]; [apply keeps_skip|].
  apply keeps_bind; [apply Hb|done].
Qed.

#[export] Hint Resolve keeps_ret keeps_skip keeps_gets keeps_fail keeps_the keeps_bind keeps_when
  keeps_if keeps_for_each keeps_modify keeps_zoom : keeps.

Ltac keeps_tac := repeat (apply keeps_bind; [solve [auto 6 with keeps]|intros]); auto 9 with keeps.

Section idle.
Context {P : Prom} {B : Board} {E : SmpEnv}.
Implicit Types s : smp_state.

Lemma done_arr_set arr set i v (Q : unit -> smp_state -> Prop) s :
  (0 <= i < Z.of_nat (length (arr s)) -> Q tt (set (<[Z.to_nat i := v]> (arr s)) s)) ->
  if_done (arr_set arr set i v) Q s.
Proof.
  intros HQ. apply done_bind, done_gets.
  destruct (Z.leb_spec 0 i), (Z.ltb_spec i (Z.of_nat (length (arr s)))); cbn [andb]; try done.
  apply done_modify. by apply HQ.
Qed.

(** A secondary processor that runs, and one that is started. *)
Abbreviation running := (fun j => up j = true /\ j <> boot_cpu_id).
Abbreviation started := (fun j => j < linux_num_cpus /\ j <> boot_cpu_id).

(** The task given to a processor when the loop is through with [d]. *)
Definition rank (d : list Z) : Z := 1 + Z.of_nat (length (filter running d)).

(** After the processors [d]: the running ones have the tasks of their rank,
    and there is one task more than processors were started. *)
Record idle_inv (d : list Z) (c : Z) s : Prop := {
  id_count : c + 1 = rank d;
  id_current : forall k j, d !! k = Some j -> running j ->
    current_set s !! Z.to_nat j = Some (rank (take k d));
  id_tasks : length (task s) = S (length (filter started d))
}.

Lemma rank_snoc d i : rank (d ++ [i]) = rank d + b2z (up i && negb (i =? boot_cpu_id)).
Proof. unfold rank. rewrite filter_snoc_len. lia. Qed.

Lemma started_snoc d i : length (filter started (d ++ [i])) =
  (length (filter started d) + (if bool_decide (started i) then 1 else 0))%nat.
Proof.
  rewrite list.filter_app, length_app, list.filter_cons, list.filter_nil.
  case_decide; case_bool_decide; (done || cbn; lia).
Qed.

(** The entries of the processors before stay. *)
Lemma current_snoc d i s s' :
  (forall k j, d !! k = Some j -> running j -> current_set s !! Z.to_nat j = Some (rank (take k d))) ->
  (forall j, 0 <= j -> j ∈ d -> current_set s' !! Z.to_nat j = current_set s !! Z.to_nat j) ->
  Forall (fun j => 0 <= j) d -> (running i -> current_set s' !! Z.to_nat i = Some (rank d)) ->
  forall k j, (d ++ [i]) !! k = Some j -> running j ->
    current_set s' !! Z.to_nat j = Some (rank (take k (d ++ [i]))).
Proof.
  intros Hold Hsame Hpos Hi k j Hk Hr.
  destruct (decide (k < length d)%nat) as [Hlt|Hge].
  - rewrite lookup_app_l in Hk by done. pose proof (list_elem_of_lookup_2 _ _ _ Hk) as Hin.
    rewrite list.Forall_forall in Hpos. rewrite Hsame by auto.
    rewrite take_app_le by lia. by apply Hold.
  - rewrite lookup_app_r in Hk by lia. apply list_lookup_singleton_Some in Hk as [Hk <-].
    rewrite take_app_le, take_ge by lia. by apply Hi.
Qed.
(** The invariant only reads the two tables. *)
Lemma idle_inv_same d c s s' :
  current_set s' = current_set s -> task s' = task s -> idle_inv d c s -> idle_inv d c s'.
Proof. intros E1 E2 [H1 H2 H3]. split; [done| |by rewrite E2]. intros k j. rewrite E1. apply H2. Qed.

Lemma idle_inv_skip d i c s : Forall (fun j => 0 <= j) d -> ~ running i -> ~ started i ->
  idle_inv d c s -> idle_inv (d ++ [i]) c s.
Proof.
  intros Hpos Hr Hs [H1 H2 H3]. split.
  - rewrite rank_snoc, H1. destruct (up i) eqn:Eu; cbn; [|lia].
    destruct (Z.eqb_spec i boot_cpu_id); cbn; [lia|]. by destruct Hr.
  - by apply (current_snoc d i s s).
  - by rewrite started_snoc, bool_decide_false, Nat.add_0_r.
Qed.

Lemma boot_present_idle d i c s : punctual -> idle_inv d c s -> Forall (fun j => 0 <= j) d ->
  0 <= i -> i ∉ d -> i <> boot_cpu_id -> i < linux_num_cpus ->
  if_done (boot_present i c) (fun r s' => idle_inv (d ++ [i]) r.1 s') s.
Proof.
  intros Hpu [H1 H2 H3] Hpos Hi Hd Hne Hl. unfold boot_present.
  assert (Hup : up i = called_in i 10000).
  { unfold up. rewrite (proj2 (Z.eqb_neq _ _) Hne), (proj2 (Z.leb_le _ _)), (proj2 (Z.ltb_lt _ _)) by lia.
    done. }
  apply done_bind, done_modify, done_bind, done_gets, done_bind, done_the. intros p _.
  apply done_bind, done_arr_set. intros _. apply done_bind, done_arr_set. cbn. intros Hc.
  apply done_bind, done_arr_set. intros _. apply done_bind, done_modify.
  destruct (callin_checks i Hpu) as [-> ->]. rewrite <- Hup.
  assert (Hres : forall s', task s' = <[Z.to_nat (c + 1) := i]> (task s ++ [0]) ->
    current_set s' = <[Z.to_nat i := c + 1]> (current_set s) ->
    idle_inv (d ++ [i]) (c + b2z (up i)) s').
  { intros s' Et Ec. split.
    - rewrite rank_snoc, <- H1, (proj2 (Z.eqb_neq _ _) Hne), andb_true_r. lia.
    - apply (current_snoc d i s s'); [done| |done|].
      + intros j Hj Hin. rewrite Ec, list_lookup_insert_ne; [done|]. intros Eij.
        apply Hd. by replace i with j by lia.
      + intros _. rewrite Ec, list_lookup_insert_eq by lia. by rewrite H1.
    - rewrite Et, length_insert, length_app, started_snoc, bool_decide_true by done. cbn. lia. }
  destruct (up i).
  - apply done_bind, done_arr_set. intros _. apply done_bind, done_arr_set. intros _.
    apply done_ret. by apply Hres.
  - apply done_ret. replace (c + 1 - 1) with (c + b2z false) by (cbn; lia). by apply Hres.
Qed.

Lemma boot_one_idle nc d i c s : punctual -> boot_inv nc d c s -> idle_inv d c s ->
  Forall (fun j => 0 <= j) d -> 0 <= i -> i ∉ d ->
  if_done (boot_one i c) (fun c' s' => idle_inv (d ++ [i]) c' s') s.
Proof.
  intros Hpu Hinv Hid Hpos Hi Hd. unfold boot_one.
  destruct (Z.eqb_spec i boot_cpu_id) as [->|Hne].
  { apply done_ret, idle_inv_skip; try done; by intros [_ ?]. }
  apply done_bind, done_gets, done_bind.
  rewrite (bi_present _ _ _ _ Hinv), bool_decide_false by done.
  apply (done_mono _ (fun r s' => idle_inv (d ++ [i]) r.1 s')).
  { destruct (Z.ltb_spec i linux_num_cpus); [by apply boot_present_idle|].
    apply done_ret, idle_inv_skip; try done; [|lia]. intros [Hu _]. unfold up in Hu.
    rewrite (proj2 (Z.eqb_neq _ _) Hne), (proj2 (Z.ltb_ge i _)), andb_false_r in Hu by lia. done. }
  intros r s' Hr. apply done_bind.
  apply (done_mono _ (fun _ s' => idle_inv (d ++ [i]) r.1 s')); [|intros _ s1 H1; by apply done_ret].
  destruct (negb r.2); cbn [when]; [|by apply done_skip].
  apply done_bind, done_modify, done_arr_set. intros _. by eapply idle_inv_same; [..|exact Hr].
Qed.

Lemma boot_loop_idle nc l d c s : punctual -> boot_inv nc d c s -> idle_inv d c s ->
  NoDup (d ++ l) -> Forall (fun i => 0 <= i < NR_CPUS) (d ++ l) ->
  0 <= boot_cpu_id < linux_num_cpus ->
  wp (boot_loop l c) (fun c' s' => boot_inv nc (d ++ l) c' s' /\ idle_inv (d ++ l) c' s') s.
Proof.
  intros Hpu Hinv Hid Hnd Hl Hb. revert d c s Hinv Hid Hnd Hl.
  induction l as [|i l IH]; intros d c s Hinv Hid Hnd Hl; cbn [boot_loop].
  { rewrite wp_ret. by rewrite app_nil_r. }
  assert (Hi : 0 <= i < NR_CPUS /\ i ∉ d).
  { apply list.NoDup_app in Hnd as (_ & Hnd & _). apply list.Forall_app in Hl as [_ Hl].
    apply list.Forall_cons in Hl as [Hl _]. split; [done|]. intros Hin. apply (Hnd i Hin). by left. }
  destruct Hi as [Hi Hd]. rewrite wp_bind. eapply wp_mono.
  - apply wp_and_done; [by apply (boot_one_spec nc d)|].
    apply (boot_one_idle nc); try done; [|lia]. apply list.Forall_app in Hl as [Hl _].
    eapply list.Forall_impl; [exact Hl|]. cbv beta. lia.
  - cbv beta. intros c' s' [Hinv' Hid']. replace (d ++ i :: l) with ((d ++ [i]) ++ l) in * by by rewrite <- app_assoc.
    by apply IH.
Qed.

(** ** Before and after the loop *)

(** The tables of idle_inv, apart from the contents of task[]. *)
Definition idle_tables s : list Z * nat := (current_set s, length (task s)).

Lemma keeps_arr_get {X} (f : smp_state -> X) arr i : keeps f (arr_get arr i).
Proof. unfold arr_get. auto with keeps. Qed.
Lemma keeps_arr_set {X} (f : smp_state -> X) arr set i v :
  (forall l s, length l = length (arr s) -> f (set l s) = f s) -> keeps f (arr_set arr set i v).
Proof.
  intros Hs s. apply done_arr_set. intros _. apply Hs. apply length_insert.
Qed.
Lemma keeps_task i v : keeps idle_tables (arr_set task set_task i v).
Proof. apply keeps_arr_set. intros l s Hl. unfold idle_tables. cbn. by rewrite Hl. Qed.

#[local] Hint Resolve keeps_arr_get keeps_arr_set keeps_task : keeps.

Lemma prepare_keeps : keeps idle_tables boot_prepare.
Proof.
  unfold boot_prepare, smp_setup_percpu_timer, on_machine. keeps_tac.
Qed.

Lemma ring_loop_keeps l first prev : keeps idle_tables (ring_loop l first prev).
Proof.
  revert first prev. induction l as [|i l IH]; intros first prev; cbn [ring_loop]; auto 9 with keeps.
Qed.

Lemma finish_keeps me n : keeps idle_tables (boot_finish me n).
Proof.
  unfold boot_finish, irq_ring, free_trap_table, smp_event.
  pose proof ring_loop_keeps. keeps_tac.
Qed.

(** ** The wait for the idle task *)

Lemma seqZ_snoc n : seqZ 0 (Z.of_nat (S n)) = seqZ 0 (Z.of_nat n) ++ [Z.of_nat n].
Proof.
  rewrite Nat2Z.inj_succ, <- Z.add_1_r, seqZ_app by lia. done.
Qed.

(** With processor 0 as the boot processor, a processor has the task of its
    number exactly if all before it run. *)
Lemma rank_seq n : boot_cpu_id = 0 ->
  rank (seqZ 0 (Z.of_nat (S n))) <= Z.of_nat (S n) /\
  (rank (seqZ 0 (Z.of_nat (S n))) = Z.of_nat (S n) <-> forall j, 0 < j < Z.of_nat (S n) -> up j = true).
Proof.
  intros Hb. induction n as [|n [IHle IH]].
  { change (seqZ 0 (Z.of_nat 1)) with ([] ++ [0]). rewrite rank_snoc, Hb, andb_false_r. change (rank []) with 1. cbn.
    split; [lia|]. split; [lia|done]. }
  rewrite seqZ_snoc, rank_snoc, Hb. destruct (Z.eqb_spec (Z.of_nat (S n)) 0); [lia|].
  rewrite andb_true_r. split; [destruct (up _); cbn -[Z.of_nat]; lia|]. split.
  - intros Hr j Hj. destruct (up (Z.of_nat (S n))) eqn:Eu; cbn -[Z.of_nat] in Hr; [|lia].
    destruct (Z.eq_dec j (Z.of_nat (S n))) as [->|]; [done|]. apply IH; lia.
  - intros Hall. rewrite (Hall (Z.of_nat (S n)) ltac:(lia)), (proj2 IH).
    + cbn -[Z.of_nat]. lia.
    + intros j Hj. apply Hall. lia.
Qed.

Lemma started_seq n : boot_cpu_id = 0 -> Z.of_nat (S n) <= linux_num_cpus ->
  length (filter started (seqZ 0 (Z.of_nat (S n)))) = n.
Proof.
  intros Hb. induction n as [|n IH]; intros Hn.
  { change (seqZ 0 (Z.of_nat 1)) with ([] ++ [0]). rewrite started_snoc, bool_decide_false; [done|].
    intros [_ ?]. congruence. }
  rewrite seqZ_snoc, started_snoc, IH, bool_decide_true by (rewrite ?Hb; lia). lia.
Qed.

Lemma started_all : boot_cpu_id = 0 -> 0 < linux_num_cpus <= NR_CPUS ->
  linux_num_cpus - 1 <= Z.of_nat (length (filter started (seqZ 0 NR_CPUS))).
Proof.
  intros Hb Hl. replace NR_CPUS with (linux_num_cpus + (NR_CPUS - linux_num_cpus)) by lia.
  rewrite seqZ_app by lia. rewrite list.filter_app, length_app.
  replace linux_num_cpus with (Z.of_nat (S (Z.to_nat (linux_num_cpus - 1)))) at 2 by lia.
  rewrite started_seq by (done || lia). lia.
Qed.

Lemma spin_stuck fuel (cond : nat -> eff smp_state bool) k s : (forall k, cond k s = Done true s) ->
  spin fuel cond k s = Fault OutOfFuel.
Proof.
  intros Hc. revert k. induction fuel as [|fuel IH]; intros k; [done|].
  cbn [spin]. unfold mbind, eff_bind. rewrite Hc. apply IH.
Qed.

Lemma spin_until fuel (go : nat -> bool) k j s : go j = true -> (k <= j)%nat -> (j < k + fuel)%nat ->
  spin fuel (fun k => mret (negb (go k))) k s = Done tt s.
Proof.
  intros Hg. revert k. induction fuel as [|fuel IH]; intros k Hk Hj; [lia|].
  cbn [spin]. unfold mbind, eff_bind, mret, eff_ret. destruct (go k) eqn:Ek; [done|]. cbn [negb].
  apply IH; [|lia]. destruct (decide (k = j)); [congruence|lia].
Qed.

Lemma bind_done {A C} (m : eff smp_state A) (f : A -> eff smp_state C) s a s' :
  m s = Done a s' -> (m ≫= f) s = f a s'.
Proof. unfold mbind, eff_bind. by intros ->. Qed.

(** The rest of smp4m_callin() in a state where the tables stand still. *)
Lemma callin_rest_spec fuel (commenced : nat -> bool) i c s : 0 <= i ->
  (Z.to_nat i < length (task s))%nat -> current_set s !! Z.to_nat i = Some c ->
  (exists k, (k < fuel)%nat /\ commenced k = true) ->
  callin_rest fuel (fun _ s => s) commenced i s =
    if c =? i then Done tt (set_smp_log (IntOn i :: RunIdle i c :: smp_log s) s) else Fault OutOfFuel.
Proof.
  intros Hi Ht Hc (k & Hk & Hgo). destruct fuel as [|fuel]; [lia|]. unfold callin_rest.
  assert (Hb : idle_blocked i s = Done (negb (c =? i)) s).
  { unfold idle_blocked, arr_get, mbind, eff_bind, gets. destruct (lookup_lt_is_Some_2 _ _ Ht) as [t ->].
    by rewrite (proj2 (Z.leb_le 0 i)), Hc. }
  assert (Hcond : forall k : nat, (modify (fun s => s) ;; idle_blocked i) s = Done (negb (c =? i)) s) by done.
  destruct (Z.eqb_spec c i) as [->|Hne]; cbn [negb] in *.
  - rewrite (bind_done _ _ s tt s) by (cbn [spin]; by rewrite (bind_done _ _ s false s)).
    rewrite (bind_done _ _ s i s).
    2:{ unfold arr_get. rewrite (bind_done _ _ s (current_set s) s) by done.
        by rewrite (proj2 (Z.leb_le 0 i)), Hc. }
    rewrite (bind_done _ _ s tt (set_smp_log (RunIdle i i :: smp_log s) s)) by done.
    by erewrite bind_done by (by apply (spin_until (S fuel) commenced 0 k); [|lia..]).
  - unfold mbind at 1, eff_bind. rewrite spin_stuck; [done|]. intros k'. apply (Hcond k').
Qed.

(** C23. Which processors get to run. If processor 0 boots the machine, a
    processor that called in passes its wait for the idle task, runs that task
    and takes interrupts once smp_commenced is set, provided every processor
    before it called in too. If one before it did not, the boot gave the task
    meant for this one to nobody, and it waits forever although it is counted
    as running. *)
Theorem callin_released s : boot_cpu_id = 0 -> punctual -> bootable s -> length (task s) = 1%nat ->
  wp smp4m_boot_cpus (fun _ s' => forall i commenced fuel, 0 < i -> up i = true ->
    (exists k, (k < fuel)%nat /\ commenced k = true) ->
    let rest := callin_rest fuel (fun _ s => s) commenced i s' in
    ((forall j, 0 < j < i -> up j = true) ->
       rest = Done tt (set_smp_log (IntOn i :: RunIdle i i :: smp_log s') s')) /\
    (forall j, 0 < j < i -> up j = false -> rest = Fault OutOfFuel)) s.
Proof.
  intros Hb0 Hpu Hbo Ht. pose proof Hbo as [_ _ Hcpus Hnr Hb _ _]. unfold smp4m_boot_cpus.
  rewrite wp_bind. eapply wp_mono; [apply wp_and_done; [by apply boot_prepare_spec|apply prepare_keeps]|].
  cbv beta. intros _ s1 [Hinv Hk1]. rewrite (proj2 (Z.eqb_neq linux_num_cpus 1)) by lia. rewrite wp_bind.
  injection Hk1 as _ Ht1. eapply wp_mono.
  { apply (boot_loop_idle (smp_num_cpus s) (seqZ 0 NR_CPUS) [] 0 s1); try done; [|apply NoDup_seqZ|].
    - split; [done|by intros k j Hk|]. rewrite Ht1, Ht. done.
    - apply list.Forall_forall. intros i Hi. apply elem_of_seqZ in Hi. lia. }
  cbv beta. cbn [app]. intros n s2 [Hinv2 Hid].
  eapply wp_mono; [apply wp_and_done; [by eapply boot_finish_spec|apply finish_keeps]|].
  cbv beta. intros _ s3 [_ Hk3]. injection Hk3 as Hcur Htask.
  intros i commenced fuel Hi Hu Hgo. cbv zeta. pose proof (up_range _ _ Hbo Hu) as Hr.
  pose proof (started_all Hb0 ltac:(lia)) as Hst. destruct Hid as [_ Hc Hlen].
  assert (Hcu : current_set s3 !! Z.to_nat i = Some (rank (seqZ 0 i))).
  { rewrite Hcur, (Hc (Z.to_nat i) i).
    - replace NR_CPUS with (i + (NR_CPUS - i)) by lia. rewrite seqZ_app by lia.
      by rewrite take_app_le, take_ge by (rewrite length_seqZ; lia).
    - rewrite lookup_seqZ. lia.
    - split; [done|lia]. }
  rewrite (callin_rest_spec fuel commenced i _ s3 ltac:(lia) ltac:(lia) Hcu Hgo).
  pose proof (rank_seq (Z.to_nat (i - 1)) Hb0) as [_ Hrank].
  replace (Z.of_nat (S (Z.to_nat (i - 1)))) with i in Hrank by lia. split.
  - intros Hall. apply Hrank in Hall. rewrite Hall, Z.eqb_refl. done.
  - intros j Hj Hup. destruct (Z.eqb_spec (rank (seqZ 0 i)) i) as [Heq|]; [|done].
    apply Hrank with (j := j) in Heq; [congruence|done].
Qed.
End idle.

(** * Example: of three processors, the second is stuck

    The third calls in, but waits for its idle task forever. *)
Definition three_board : Board := {|
  elan_clock := elan_clock (Board := demo_board);
  obio_ranges := fun l => l;
  sparc_alloc_io_at := sparc_alloc_io_at (Board := demo_board);
  timer_irq_ret := 0;
  linux_num_cpus := 3;
  PROMREGS := 16
|}.
Definition stuck_smp : SmpEnv := {|
  NR_CPUS := 4; boot_cpu_id := 0; linux_cpu_mid := fun i => 8 + i;
  arrives := fun i => if i =? 2 then Some 3 else None
|}.

Lemma callin_released_witness :
  wp (smp4m_boot_cpus (B := three_board) (E := stuck_smp)) (fun _ s' =>
    Z.testbit (cpu_present_map s') 2 = true /\
    callin_rest 7 (fun _ s => s) (fun _ => true) 2 s' =
      Fault OutOfFuel) demo_off.
Proof.
  assert (Hp : punctual (E := stuck_smp)) by (intros i; unfold called_in; cbn; by destruct (i =? 2)).
  assert (Hbo : bootable (B := three_board) (E := stuck_smp) demo_off).
  { split; [by split|cbn; lia|done|done|done|done|done]. }
  eapply wp_mono.
  - apply wp_and_done.
    + exact (callin_released (B := three_board) (E := stuck_smp) demo_off eq_refl Hp Hbo eq_refl).
    + instantiate (1 := fun _ s' => Z.testbit (cpu_present_map s') 2 = true).
      intros [] s'. vm_compute. intros [= <-]. reflexivity.
  - cbv beta. intros _ s' [H Ht]. split; [exact Ht|].
    apply (H 2 (fun _ => true) 7%nat ltac:(lia) eq_refl (ex_intro _ 0%nat (conj (Nat.lt_0_succ 6) eq_refl)) )
      with (j := 1); [lia|reflexivity].
Defined.
