(* ===== verification/Tick.v ===== *)
(** * The profiling tick and the patched instructions (arch/sparc/meiko/smp.c)

    smp4m_percpu_timer_interrupt() with the profile buffer and the accounting
    of the running task, and the instructions that replace smp_processor_id()
    and the load of the current task. *)

From stdpp Require Import prelude list numbers.
From Stdlib Require Import ZArith Lia.
From S2P Require Import Prelude Obp Machine Irq Timer TimerProps Smp SmpProps.

Definition DEF_PRIORITY : Z := 20 * HZ_sparc / 100.

(** The members of the running [struct task_struct] that are used. *)
Record task_info := Task { pid : Z; counter_ : Z; priority : Z; need_resched : Z }.

(** kstat: the total and that of each processor. *)
Record cpu_stat := Stat { st_total : Z; st_cpu : list Z }.

Record tick_state {P : Prom} := Tick {
  tk_smp : smp_state;
  prof_buffer : option (list Z);     (* unsigned int *, NULL without profiling *)
  prof_shift : Z;
  prof_len : Z;
  stext : Z;
  current : task_info;
  cpu_nice : cpu_stat;
  cpu_user : cpu_stat;
  cpu_system : cpu_stat;
  accounted : list (Z * Z * Z)       (* update_one_process(current, 1, user, system, cpu) *)
}.

Section tick.
Context {P : Prom} {B : Board} {E : SmpEnv}.
Implicit Types t : tick_state.
Abbreviation M := (eff tick_state).

Definition set_tk_smp (x : smp_state) t : tick_state :=
  Tick _ x (prof_buffer t) (prof_shift t) (prof_len t) (stext t) (current t) (cpu_nice t)
    (cpu_user t) (cpu_system t) (accounted t).
Definition set_prof_buffer (x : option (list Z)) t : tick_state :=
  Tick _ (tk_smp t) x (prof_shift t) (prof_len t) (stext t) (current t) (cpu_nice t)
    (cpu_user t) (cpu_system t) (accounted t).
Definition set_current (x : task_info) t : tick_state :=
  Tick _ (tk_smp t) (prof_buffer t) (prof_shift t) (prof_len t) (stext t) x (cpu_nice t)
    (cpu_user t) (cpu_system t) (accounted t).
Definition set_cpu_nice (x : cpu_stat) t : tick_state :=
  Tick _ (tk_smp t) (prof_buffer t) (prof_shift t) (prof_len t) (stext t) (current t) x
    (cpu_user t) (cpu_system t) (accounted t).
Definition set_cpu_user (x : cpu_stat) t : tick_state :=
  Tick _ (tk_smp t) (prof_buffer t) (prof_shift t) (prof_len t) (stext t) (current t) (cpu_nice t)
    x (cpu_system t) (accounted t).
Definition set_cpu_system (x : cpu_stat) t : tick_state :=
  Tick _ (tk_smp t) (prof_buffer t) (prof_shift t) (prof_len t) (stext t) (current t) (cpu_nice t)
    (cpu_user t) x (accounted t).
Definition set_accounted (x : list (Z * Z * Z)) t : tick_state :=
  Tick _ (tk_smp t) (prof_buffer t) (prof_shift t) (prof_len t) (stext t) (current t) (cpu_nice t)
    (cpu_user t) (cpu_system t) x.

Definition on_smp {A} (m : eff smp_state A) : M A := zoom tk_smp set_tk_smp m.

(** prof_buffer[i]++ under ticker_lock. *)
Definition prof_incr (i : Z) : M unit :=
  o ← gets prof_buffer;
  b ← the NullDeref o;
  if 0 <=? i then
    v ← the OutOfBounds (b !! Z.to_nat i);
    modify (set_prof_buffer (Some (<[Z.to_nat i := u32 (v + 1)]> b)))
  else fail OutOfBounds.

Definition sparc_do_profile (pc : Z) : M unit :=
  o ← gets prof_buffer;
  cur ← gets current;
  match o with
  | Some _ =>
      when (negb (pid cur =? 0))
        (base ← gets stext;
         shift ← gets prof_shift;
         len ← gets prof_len;
         let pc := Z.shiftr (u32 (pc - base)) shift in
         if pc <? len then prof_incr pc else prof_incr (u32 (len - 1)))
  | None => skip
  end.

(** kstat.cpu_..++ and kstat.per_cpu_..[cpu]++ *)
Definition stat_incr (cpu : Z) (s : cpu_stat) : option cpu_stat :=
  v ← (if 0 <=? cpu then st_cpu s !! Z.to_nat cpu else None);
  Some (Stat (u32 (st_total s + 1)) (<[Z.to_nat cpu := u32 (v + 1)]> (st_cpu s))).
Definition kstat_incr (get : tick_state -> cpu_stat) (set : cpu_stat -> tick_state -> tick_state)
    (cpu : Z) : M unit :=
  s ← gets get; s' ← the OutOfBounds (stat_incr cpu s); modify (set s').

Definition account (cpu : Z) (user : bool) : M unit :=
  modify (fun t => set_accounted ((b2z user, b2z (negb user), cpu) :: accounted t) t) ;;
  cur ← gets current;
  let c := s32 (counter_ cur - 1) in
  modify (set_current (if c <? 0 then Task (pid cur) 0 (priority cur) 1
                       else Task (pid cur) c (priority cur) (need_resched cur))) ;;
  if user then
    if priority cur <? DEF_PRIORITY
    then kstat_incr cpu_nice set_cpu_nice cpu
    else kstat_incr cpu_user set_cpu_user cpu
  else kstat_incr cpu_system set_cpu_system cpu.

(** irq_enter() and irq_exit() leave the modelled state alone. *)
Definition smp4m_percpu_timer_interrupt (cpu : Z) (user : bool) (pc : Z) : M unit :=
  mid ← on_smp (arr_get mid_xlate cpu);
  on_smp (on_machine (dino1_clear_profile_irq mid)) ;;
  when (negb user) (sparc_do_profile pc) ;;
  c ← on_smp (arr_get prof_counter cpu);
  let c := u32 (c - 1) in
  on_smp (arr_set prof_counter set_prof_counter cpu c) ;;
  when (c =? 0)
    (cur ← gets current;
     when (negb (pid cur =? 0)) (account cpu user) ;;
     m ← on_smp (arr_get prof_multiplier cpu);
     on_smp (arr_set prof_counter set_prof_counter cpu m)).

End tick.

(** ** Patched instructions *)

(** The words the functions store at addr[0], addr[1], addr[2], and at
    addr[0], addr[2], addr[4]; [w] is the instruction found at addr[0]. *)
Definition smp4m_blackbox_id (w : Z) : list Z :=
  let rd := Z.land w 0x3e000000 in
  let rs1 := Z.shiftr rd 11 in
  [Z.lor 0x81580000 rd; Z.lor (Z.lor 0x8130200c rd) rs1; Z.lor (Z.lor 0x80082003 rd) rs1].
Definition smp4m_blackbox_current (w : Z) : list Z :=
  let rd := Z.land w 0x3e000000 in
  let rs1 := Z.shiftr rd 11 in
  [Z.lor 0x81580000 rd; Z.lor (Z.lor 0x8130200a rd) rs1; Z.lor (Z.lor 0x8008200c rd) rs1].

(** The three instructions of the SPARC that occur: format 3 with an
    immediate operand, rd %tbr, srl and and. *)
Definition i_op3 : field := Fld 19 6.
Definition i_rd : field := Fld 25 5.
Definition i_rs1 : field := Fld 14 5.
Definition i_imm : field := Fld 0 13.
Definition exec (tbr : Z) (w : Z) (regs : Z -> Z) : option (Z -> Z) :=
  let src := regs (fget i_rs1 w) in
  let imm := fget i_imm w in
  let put v := Some (fun r => if (r =? fget i_rd w) && negb (r =? 0) then v else regs r) in
  if negb (fget (Fld 30 2) w =? 2) then None
  else if fget i_op3 w =? 0x2b then put tbr
  else if fget (Fld 13 1) w =? 0 then None
  else if fget i_op3 w =? 0x26 then put (Z.shiftr src (Z.land imm 31))
  else if fget i_op3 w =? 0x01 then (if imm <? 4096 then put (Z.land src imm) else None)
  else None.
Fixpoint execs (tbr : Z) (ws : list Z) (regs : Z -> Z) : option (Z -> Z) :=
  match ws with
  | [] => Some regs
  | w :: ws' => r ← exec tbr w regs; execs tbr ws' r
  end.

(** * Properties *)

Section tick_props.
Context {P : Prom} {B : Board} {E : SmpEnv}.
Implicit Types t : tick_state.

(** C30. The profile buffer. Whatever address was interrupted, also one below
    the start of the kernel or far behind its end, sparc_do_profile() stays
    inside the buffer of prof_len counters: it adds one to exactly one of
    them, that of the address if it has one and the last one otherwise. *)
Theorem do_profile_bounds pc t b : prof_buffer t = Some b -> pid (current t) <> 0 ->
  Z.of_nat (length b) = prof_len t -> 0 < prof_len t < 2 ^ 32 -> 0 <= prof_shift t ->
  wp (sparc_do_profile pc) (fun _ t' => exists i v, 0 <= i < prof_len t /\
    i = Z.min (Z.shiftr (u32 (pc - stext t)) (prof_shift t)) (prof_len t - 1) /\
    b !! Z.to_nat i = Some v /\
    t' = set_prof_buffer (Some (<[Z.to_nat i := u32 (v + 1)]> b)) t) t.
Proof.
  intros Hb Hpid Hlen Hr Hsh. unfold sparc_do_profile. rewrite wp_bind, wp_gets, wp_bind, wp_gets, Hb.
  rewrite (proj2 (Z.eqb_neq _ _) Hpid). cbn [negb when].
  rewrite wp_bind, wp_gets, wp_bind, wp_gets, wp_bind, wp_gets. cbv zeta.
  set (i := Z.shiftr (u32 (pc - stext t)) (prof_shift t)).
  assert (Hi : 0 <= i) by (apply Z.shiftr_nonneg, u32_range).
  assert (Hgo : forall j, 0 <= j < prof_len t -> j = Z.min i (prof_len t - 1) ->
    wp (prof_incr j) (fun _ t' => exists i0 v, 0 <= i0 < prof_len t /\
      i0 = Z.min i (prof_len t - 1) /\ b !! Z.to_nat i0 = Some v /\
      t' = set_prof_buffer (Some (<[Z.to_nat i0 := u32 (v + 1)]> b)) t) t).
  { intros j Hj Hmin. unfold prof_incr. rewrite wp_bind, wp_gets, wp_bind, wp_the.
    exists b. split; [done|]. rewrite (proj2 (Z.leb_le 0 j)) by lia.
    destruct (lookup_lt_is_Some_2 b (Z.to_nat j)) as [v Hv]; [lia|].
    rewrite wp_bind, wp_the. exists v. split; [done|]. rewrite wp_modify. by exists j, v. }
  destruct (Z.ltb_spec i (prof_len t)).
  - apply Hgo; lia.
  - rewrite u32_id by lia. apply Hgo; lia.
Qed.

Lemma stat_incr_ok cpu s : 0 <= cpu < Z.of_nat (length (st_cpu s)) ->
  exists s', stat_incr cpu s = Some s' /\ length (st_cpu s') = length (st_cpu s).
Proof.
  intros Hc. unfold stat_incr. rewrite (proj2 (Z.leb_le 0 cpu)) by lia.
  destruct (lookup_lt_is_Some_2 (st_cpu s) (Z.to_nat cpu)) as [v Hv]; [lia|].
  rewrite Hv. eexists. split; [done|]. apply length_insert.
Qed.

(** Processor [cpu] can take ticks: the tables reach it, the profile buffer
    is sound, a task runs, and the multiplier is [k]. *)
Record ticking (cpu k : Z) t : Prop := {
  ti_cpu : 0 <= cpu;
  ti_mid : exists mid, mid_xlate (tk_smp t) !! Z.to_nat cpu = Some mid /\ cpu_ok mid = true;
  ti_mult : prof_multiplier (tk_smp t) !! Z.to_nat cpu = Some k;
  ti_k : 1 <= k < 2 ^ 32;
  ti_pid : pid (current t) <> 0;
  ti_prof : forall b, prof_buffer t = Some b ->
    Z.of_nat (length b) = prof_len t /\ 0 < prof_len t < 2 ^ 32 /\ 0 <= prof_shift t;
  ti_nice : cpu < Z.of_nat (length (st_cpu (cpu_nice t)));
  ti_user : cpu < Z.of_nat (length (st_cpu (cpu_user t)));
  ti_system : cpu < Z.of_nat (length (st_cpu (cpu_system t)))
}.

Definition tick_counter (cpu : Z) t : option Z := prof_counter (tk_smp t) !! Z.to_nat cpu.

(** What the steps of a tick leave alone. *)
Definition tick_frame t t' : Prop :=
  tk_smp t' = tk_smp t /\ prof_len t' = prof_len t /\ prof_shift t' = prof_shift t /\
  pid (current t') = pid (current t) /\
  (forall b', prof_buffer t' = Some b' -> exists b, prof_buffer t = Some b /\ length b' = length b) /\
  length (st_cpu (cpu_nice t')) = length (st_cpu (cpu_nice t)) /\
  length (st_cpu (cpu_user t')) = length (st_cpu (cpu_user t)) /\
  length (st_cpu (cpu_system t')) = length (st_cpu (cpu_system t)).

Lemma ticking_frame cpu k t t' : tick_frame t t' -> ticking cpu k t -> ticking cpu k t'.
Proof.
  intros (E1 & E2 & E3 & E4 & Hb & E5 & E6 & E7) [H1 H2 H3 H4 H5 H6 H7 H8 H9].
  split; rewrite ?E1, ?E4, ?E5, ?E6, ?E7; try done.
  intros b' Hb'. destruct (Hb b' Hb') as (b & Hb0 & Hl). rewrite E2, E3, Hl. by apply H6.
Qed.

Lemma do_profile_frame pc cpu k t : ticking cpu k t ->
  wp (sparc_do_profile pc) (fun _ t' => tick_frame t t' /\ accounted t' = accounted t) t.
Proof.
  intros Ht. destruct (prof_buffer t) as [b|] eqn:Eb.
  - destruct (ti_prof _ _ _ Ht b Eb) as (H1 & H2 & H3).
    eapply wp_mono; [apply (do_profile_bounds pc t b); try done; apply Ht|].
    cbv beta. intros _ t' (i & v & _ & _ & _ & ->). split; [|done].
    split_and!; try done. intros b' [= <-]. exists b. by rewrite length_insert.
  - unfold sparc_do_profile. rewrite wp_bind, wp_gets, wp_bind, wp_gets, Eb, wp_skip.
    split; [|done]. split_and!; try done. intros b' Hb'. by exists b'.
Qed.

Lemma kstat_spec get (set : cpu_stat -> tick_state -> tick_state) cpu t Q :
  0 <= cpu < Z.of_nat (length (st_cpu (get t))) ->
  (forall s', length (st_cpu s') = length (st_cpu (get t)) -> Q tt (set s' t)) ->
  wp (kstat_incr get set cpu) Q t.
Proof.
  intros Hc HQ. destruct (stat_incr_ok cpu (get t) Hc) as (s' & Hs' & Hl).
  unfold kstat_incr. rewrite wp_bind, wp_gets, wp_bind, wp_the. exists s'. split; [done|].
  rewrite wp_modify. by apply HQ.
Qed.

Lemma account_spec cpu k user t : ticking cpu k t ->
  wp (account cpu user) (fun _ t' => tick_frame t t' /\
    accounted t' = (b2z user, b2z (negb user), cpu) :: accounted t) t.
Proof.
  intros Ht. unfold account. rewrite wp_bind, wp_modify, wp_bind, wp_gets, wp_bind, wp_modify.
  destruct Ht as [H1 _ _ _ _ _ H7 H8 H9].
  assert (Hb : forall b', prof_buffer t = Some b' ->
    exists b, prof_buffer t = Some b /\ length b' = length b) by (intros b' ?; by exists b').
  destruct user; cbn [b2z negb]; [destruct (_ <? DEF_PRIORITY)|];
    (apply kstat_spec; [cbn; lia|]; intros s' Hl; cbn in Hl;
     split; [split_and!|]; cbn; try done; by destruct (_ <? 0)).
Qed.

(** One tick. *)
Lemma tick_spec cpu k user pc c t : ticking cpu k t -> tick_counter cpu t = Some c -> 1 <= c <= k ->
  wp (smp4m_percpu_timer_interrupt cpu user pc) (fun _ t' => ticking cpu k t' /\
    tick_counter cpu t' = Some (if c =? 1 then k else c - 1) /\
    accounted t' = (if c =? 1 then [(b2z user, b2z (negb user), cpu)] else []) ++ accounted t) t.
Proof.
  intros Ht Hc Hck. pose proof Ht as [Hcpu (mid & Hmid & Hok) Hmult Hk _ _ _ _ _].
  unfold smp4m_percpu_timer_interrupt, on_smp. rewrite wp_bind, wp_zoom, (wp_arr_get _ _ mid) by done.
  rewrite wp_bind, wp_zoom. unfold on_machine, dino1_clear_profile_irq, dev.
  rewrite wp_zoom, wp_bind, wp_assert. split; [done|]. rewrite wp_modify.
  set (t1 := set_tk_smp _ _). assert (Ht1 : ticking cpu k t1) by (destruct Ht; split; eauto).
  assert (Hc1 : tick_counter cpu t1 = Some c) by done.
  assert (Ha1 : accounted t1 = accounted t) by done.
  clearbody t1. rewrite wp_bind.
  apply (wp_mono _ (fun _ t' => tick_frame t1 t' /\ accounted t' = accounted t1)).
  { destruct user; cbn [negb when]; [|by eapply do_profile_frame].
    rewrite wp_skip. split; [|done]. split_and!; try done. intros b' ?. by exists b'. }
  intros _ t2 [Hfr Ha2]. pose proof (ticking_frame _ _ _ _ Hfr Ht1) as Ht2.
  assert (Hc2 : tick_counter cpu t2 = Some c) by (unfold tick_counter; by destruct Hfr as [-> _]).
  rewrite Ha1 in Ha2. clear Hfr Ht1 Hc1 Ha1. unfold tick_counter in Hc2.
  assert (Hlen : (Z.to_nat cpu < length (prof_counter (tk_smp t2)))%nat) by by eapply lookup_lt_Some.
  rewrite wp_bind, wp_zoom, (wp_arr_get _ _ c) by done. cbv zeta. rewrite u32_id by lia.
  replace (set_tk_smp (tk_smp t2) t2) with t2 by (by destruct t2).
  rewrite wp_bind, wp_zoom, wp_arr_set by lia.
  set (t3 := set_tk_smp _ t2). assert (Ht3 : ticking cpu k t3) by (destruct Ht2; split; eauto).
  assert (Hl3 : (Z.to_nat cpu < length (prof_counter (tk_smp t3)))%nat)
    by (cbn; by rewrite length_insert).
  assert (Hc3 : tick_counter cpu t3 = Some (c - 1)) by (by apply list_lookup_insert_eq).
  assert (Ha3 : accounted t3 = accounted t) by done. clearbody t3.
  destruct (Z.eqb_spec c 1) as [->|Hne]; cbn [Z.sub Z.opp Z.add Z.pos_sub].
  2:{ rewrite (proj2 (Z.eqb_neq (c - 1) 0)) by lia. cbn [when]. rewrite wp_skip. done. }
  change (1 - 1 =? 0) with true. cbn [when]. rewrite wp_bind, wp_gets.
  rewrite (proj2 (Z.eqb_neq _ _) (ti_pid _ _ _ Ht3)). cbn [negb when]. rewrite wp_bind.
  eapply wp_mono; [by eapply account_spec|]. cbv beta. intros _ t4 [Hfr Ha4].
  pose proof (ticking_frame _ _ _ _ Hfr Ht3) as Ht4. destruct Hfr as [E4 _].
  rewrite wp_bind, wp_zoom, (wp_arr_get _ _ k) by (done || apply Ht4).
  rewrite wp_zoom, wp_arr_set by (cbn; rewrite E4; lia). split; [|split].
  - destruct Ht4; split; eauto.
  - unfold tick_counter. cbn. rewrite E4. by apply list_lookup_insert_eq.
  - cbn. by rewrite Ha4, Ha3.
Qed.

(** C29. Profiling ticks and accounting. Of any sequence of ticks on a
    processor, in user or kernel mode, at any addresses, exactly every k-th
    is accounted to the running task, where k is the processor's multiplier:
    after k * q + r ticks, r < k, there were q calls of update_one_process(),
    and the processor's counter stands at k - r; no tick is lost or counted
    twice and none of them fails. *)
Theorem ticks_accounted cpu k l t : ticking cpu k t -> tick_counter cpu t = Some k ->
  wp (for_each l (fun x => smp4m_percpu_timer_interrupt cpu x.1 x.2)) (fun _ t' =>
    exists q r new, Z.of_nat (length l) = k * q + r /\ 0 <= r < k /\
      accounted t' = new ++ accounted t /\ Z.of_nat (length new) = q /\
      tick_counter cpu t' = Some (k - r)) t.
Proof.
  intros Ht Hc. pose proof (ti_k _ _ _ Ht) as Hk.
  cut (forall c, tick_counter cpu t = Some c -> 1 <= c <= k ->
    wp (for_each l (fun x => smp4m_percpu_timer_interrupt cpu x.1 x.2)) (fun _ t' =>
      exists q c' new, k - c + Z.of_nat (length l) = k * q + (k - c') /\ 1 <= c' <= k /\
        accounted t' = new ++ accounted t /\ Z.of_nat (length new) = q /\
        tick_counter cpu t' = Some c') t).
  { intros Hcut. eapply wp_mono; [apply (Hcut k); [done|lia]|]. cbv beta.
    intros _ t' (q & c' & new & H1 & H2 & H3 & H4 & H5). exists q, (k - c'), new.
    rewrite H5. split_and!; [lia|lia|lia|done|done|f_equal; lia]. }
  clear Hc. revert t Ht. induction l as [|x l IH]; intros t Ht c Hc Hck; cbn [for_each].
  { rewrite wp_skip. exists 0, c, []. split_and!; [cbn; lia|lia|lia|done|done|done]. }
  rewrite wp_bind. eapply wp_mono; [by apply tick_spec|]. cbv beta. intros _ t1 (Ht1 & Hc1 & Ha1).
  eapply wp_mono; [apply (IH t1 Ht1 _ Hc1); destruct (Z.eqb_spec c 1); lia|]. cbv beta.
  intros _ t' (q & c' & new & H1 & H2 & H3 & H4 & H5).
  rewrite Ha1, app_assoc in H3. do 2 eexists. exists (new ++ (if c =? 1 then [(b2z x.1, b2z (negb x.1), cpu)] else [])).
  split; [|split; [exact H2|split; [exact H3|split; [reflexivity|exact H5]]]].
  rewrite length_app, Nat2Z.inj_add, H4, Z.mul_add_distr_l. cbn [length].
  destruct (Z.eqb_spec c 1); cbn [length]; lia.
Qed.
End tick_props.

(** ** The patched instructions compute the processor's number *)

(** The bits of the destination register of the instruction found. *)
Lemma rd_bits w : 0 <= w -> Z.land w 0x3e000000 = Z.shiftl (fget i_rd w) 25.
Proof.
  intros Hw. apply Z.bits_inj'. intros i Hi.
  rewrite Z.land_spec, Z.shiftl_spec by lia. change 0x3e000000 with (Z.shiftl (Z.ones 5) 25).
  rewrite Z.shiftl_spec by lia. destruct (Z.ltb_spec i 25).
  { rewrite !(Z.testbit_neg_r _ (i - 25)) by lia. apply andb_false_r. }
  rewrite ones_testbit, fget_testbit by (unfold fld_ok; cbn; lia). cbn [f_off f_wid i_rd].
  by replace (i - 25 + 25) with i by lia.
Qed.

(** What three instructions with destination and source [r] do: shift the
    trap base register by [sh] and mask it with [m]. *)
Definition patch (sh m r : Z) : list Z :=
  [Z.lor 0x81580000 (Z.shiftl r 25);
   Z.lor (Z.lor (0x81302000 + sh) (Z.shiftl r 25)) (Z.shiftr (Z.shiftl r 25) 11);
   Z.lor (Z.lor (0x80082000 + m) (Z.shiftl r 25)) (Z.shiftr (Z.shiftl r 25) 11)].
(** The fields of these instructions, for the two pairs the code uses. *)
Definition patch_ok (sh m r : Z) : bool :=
  match patch sh m r with
  | [w0; w1; w2] =>
      (fget (Fld 30 2) w0 =? 2) && (fget i_op3 w0 =? 0x2b) && (fget i_rd w0 =? r) &&
      (fget (Fld 30 2) w1 =? 2) && (fget i_op3 w1 =? 0x26) && (fget i_rd w1 =? r) &&
      (fget i_rs1 w1 =? r) && (fget i_imm w1 =? sh) && (fget (Fld 13 1) w1 =? 1) &&
      (fget (Fld 30 2) w2 =? 2) && (fget i_op3 w2 =? 0x01) && (fget i_rd w2 =? r) &&
      (fget i_rs1 w2 =? r) && (fget i_imm w2 =? m) && (fget (Fld 13 1) w2 =? 1)
  | _ => false
  end.
Lemma patch_all r : 0 <= r < 32 -> patch_ok 12 3 r && patch_ok 10 12 r = true.
Proof.
  intros Hr. assert (Hall : forallb (fun r => patch_ok 12 3 r && patch_ok 10 12 r) (seqZ 0 32) = true)
    by (vm_compute; reflexivity).
  rewrite forallb_forall in Hall. apply Hall. apply list_elem_of_In, elem_of_seqZ. lia.
Qed.

(** Decode with the known fields. *)
Ltac fields := repeat match goal with H : fget _ _ = _ |- _ => rewrite H end;
  cbn [negb Z.eqb Pos.eqb mbind option_bind].

Lemma patch_runs sh m r tbr regs : patch_ok sh m r = true -> 0 < r -> 0 <= sh < 32 -> m < 4096 ->
  exists regs', execs tbr (patch sh m r) regs = Some regs' /\
    regs' r = Z.land (Z.shiftr tbr sh) m /\ forall r', r' <> r -> regs' r' = regs r'.
Proof.
  intros Hok Hr Hsh Hm. unfold patch_ok, patch in *.
  repeat (apply andb_true_iff in Hok as [Hok ?]).
  repeat match goal with H : (_ =? _) = true |- _ => apply Z.eqb_eq in H end.
  cbn [execs]. unfold exec at 1. fields. unfold exec at 1. fields. unfold exec at 1. fields.
  rewrite (proj2 (Z.ltb_lt m 4096)) by done. cbn [mbind option_bind].
  eexists. split; [reflexivity|]. cbv beta. rewrite !Z.eqb_refl.
  rewrite (proj2 (Z.eqb_neq r 0)) by lia. cbn [negb andb].
  change 31 with (Z.ones 5). rewrite Z.land_ones, Z.mod_small by lia. split; [done|].
  intros r' Hne. by rewrite (proj2 (Z.eqb_neq r' r) Hne).
Qed.

(** The instructions the kernel patches itself with. Whatever instruction
    with a destination register other than %g0 stood at the place, the three
    words smp4m_blackbox_id() puts there leave bits 12 and 13 of the trap base
    register in that register, those smp4m_blackbox_current() puts there the
    offset of four times that number, and no other register changes. *)
Theorem blackbox_computes w tbr regs : 0 <= w -> fget i_rd w <> 0 ->
  exists r1 r2,
    execs tbr (smp4m_blackbox_id w) regs = Some r1 /\
    r1 (fget i_rd w) = Z.land (Z.shiftr tbr 12) 3 /\
    execs tbr (smp4m_blackbox_current w) regs = Some r2 /\
    r2 (fget i_rd w) = 4 * Z.land (Z.shiftr tbr 12) 3 /\
    forall r, r <> fget i_rd w -> r1 r = regs r /\ r2 r = regs r.
Proof.
  intros Hw Hne. assert (Hr : 0 <= fget i_rd w < 32) by (apply (fget_range i_rd); unfold fld_ok; cbn; lia).
  unfold smp4m_blackbox_id, smp4m_blackbox_current. rewrite rd_bits by done.
  set (r := fget i_rd w) in *. pose proof (patch_all r Hr) as [H1 H2]%andb_true_iff.
  destruct (patch_runs 12 3 r tbr regs H1) as (r1 & E1 & V1 & F1); [lia|lia|lia|].
  destruct (patch_runs 10 12 r tbr regs H2) as (r2 & E2 & V2 & F2); [lia|lia|lia|].
  exists r1, r2. split; [exact E1|]. split; [exact V1|]. split; [exact E2|]. split.
  - rewrite V2. change 4 with (2 ^ 2). rewrite Z.mul_comm, <- Z.shiftl_mul_pow2 by lia.
    rewrite Z.shiftl_land. change (Z.shiftl 3 2) with 12. apply Z.bits_inj'. intros i Hi.
    rewrite !Z.land_spec, Z.shiftr_spec, Z.shiftl_spec by lia.
    destruct (Z.ltb_spec i 2).
    + assert (Z.testbit 12 i = false) as ->; [|by rewrite !andb_false_r].
      assert (i = 0 \/ i = 1) as [-> | ->] by lia; done.
    + rewrite Z.shiftr_spec by lia. by replace (i - 2 + 12) with (i + 10) by lia.
  - intros x Hx. split; [by apply F1|by apply F2].
Qed.

Lemma blackbox_computes_witness : exists r1,
  execs 0x3f001230 (smp4m_blackbox_id 0x91c00000) (fun _ => 7) = Some r1 /\
  r1 8 = 1 /\ r1 9 = 7.
Proof.
  destruct (blackbox_computes 0x91c00000 0x3f001230 (fun _ => 7)) as (r1 & r2 & H1 & H2 & _ & _ & H3);
    [lia|done|].
  exists r1. split; [exact H1|]. split; [exact H2|]. apply (H3 9). done.
Defined.

(** ** A concrete processor *)

Definition demo_tick : @tick_state board_prom :=
  Tick _ (set_prof_multiplier (four 3) (set_prof_counter (four 3) demo_booted))
    (Some [0; 0; 0; 0]) 2 4 0x1000 (Task 7 5 20 0) (Stat 0 (four 0)) (Stat 0 (four 0))
    (Stat 0 (four 0)) [].

Lemma demo_ticking : ticking 1 3 demo_tick.
Proof.
  split; try (cbn; lia); try done.
  - by exists 1.
  - intros b [= <-]. cbn. lia.
Qed.

Lemma do_profile_bounds_witness :
  wp (sparc_do_profile 0xfff) (fun _ t' => prof_buffer t' = Some [0; 0; 0; 1]) demo_tick.
Proof.
  eapply wp_mono.
  - apply (do_profile_bounds 0xfff demo_tick [0; 0; 0; 0]); try done; cbn; lia.
  - cbv beta. intros _ t' (i & v & _ & -> & Hv & ->). vm_compute in Hv. injection Hv as <-. done.
Defined.

Lemma ticks_accounted_witness :
  wp (for_each (repeat (true, 0) 7) (fun x =>
        smp4m_percpu_timer_interrupt 1 x.1 x.2)) (fun _ t' =>
    Z.of_nat (length (accounted t')) = 2 /\ tick_counter 1 t' = Some 2) demo_tick.
Proof.
  eapply wp_mono.
  - apply (ticks_accounted 1 3 (repeat (true, 0) 7) demo_tick demo_ticking).
    vm_compute. reflexivity.
  - cbv beta. intros _ t' (q & r & new & H1 & H2 & -> & H4 & H5). cbn in H1.
    rewrite app_nil_r, H4. assert (q = 2 /\ r = 1) as [-> ->] by lia. by split.
Defined.
