(* ===== verification/Bargraph.v ===== *)
(** * The bargraph driver (drivers/meiko/bargraph.c)

    One process at a time may have the device open; while nobody has, a timer
    shows a pattern on the sixteen LEDs. A method is a state transformer that
    runs to its end; the timer's function is one more of them. *)

From stdpp Require Import prelude list numbers.
From Stdlib Require Import ZArith Lia.
From S2P Require Import Prelude Obp Machine.

Definition HZ_DELAY : Z := HZ_sparc / 10.
Inductive bg_cmd := BGSET | BGGET | BG_OTHER (cmd : Z).

(** What the kernel did for the driver. *)
Inductive bg_ev :=
  | BgRemap (start phys len io : Z)      (* io_remap_page_range() *)
  | BgUnmap (reg : Z).                   (* sparc_free_io() *)

Class BgEnv := { bg_misc_register_ret : Z }.

Record bg_state {P : Prom} := Bg {
  bg_prom : prom_st;
  bg_jiffies : Z;
  bg_timer : option Z;          (* expiry, while queued *)
  bg_usecount : Z;
  mod_use_count : Z;
  reg : Z;                      (* bargraph_reg_t *, 0 is NULL *)
  leds : Z;                     (* reg->leds *)
  bg_which_io : Z;
  bg_phys_addr : Z;
  next : Z;                     (* static of bg_update_pattern() *)
  bg_registered : bool;         (* bg_dev is a misc device *)
  bg_log : list bg_ev
}.

Section bargraph.
Context {P : Prom} {B : Board} {V : Vm} {G : BgEnv}.
Implicit Types s : bg_state.
Abbreviation M := (eff bg_state).

Definition set_bg_prom (x : prom_st) s : bg_state :=
  Bg _ x (bg_jiffies s) (bg_timer s) (bg_usecount s) (mod_use_count s) (reg s) (leds s)
    (bg_which_io s) (bg_phys_addr s) (next s) (bg_registered s) (bg_log s).
Definition set_bg_jiffies (x : Z) s : bg_state :=
  Bg _ (bg_prom s) x (bg_timer s) (bg_usecount s) (mod_use_count s) (reg s) (leds s)
    (bg_which_io s) (bg_phys_addr s) (next s) (bg_registered s) (bg_log s).
Definition set_bg_timer (x : option Z) s : bg_state :=
  Bg _ (bg_prom s) (bg_jiffies s) x (bg_usecount s) (mod_use_count s) (reg s) (leds s)
    (bg_which_io s) (bg_phys_addr s) (next s) (bg_registered s) (bg_log s).
Definition set_bg_usecount (x : Z) s : bg_state :=
  Bg _ (bg_prom s) (bg_jiffies s) (bg_timer s) x (mod_use_count s) (reg s) (leds s)
    (bg_which_io s) (bg_phys_addr s) (next s) (bg_registered s) (bg_log s).
Definition set_mod_use_count (x : Z) s : bg_state :=
  Bg _ (bg_prom s) (bg_jiffies s) (bg_timer s) (bg_usecount s) x (reg s) (leds s)
    (bg_which_io s) (bg_phys_addr s) (next s) (bg_registered s) (bg_log s).
Definition set_reg (x : Z) s : bg_state :=
  Bg _ (bg_prom s) (bg_jiffies s) (bg_timer s) (bg_usecount s) (mod_use_count s) x (leds s)
    (bg_which_io s) (bg_phys_addr s) (next s) (bg_registered s) (bg_log s).
Definition set_leds (x : Z) s : bg_state :=
  Bg _ (bg_prom s) (bg_jiffies s) (bg_timer s) (bg_usecount s) (mod_use_count s) (reg s) x
    (bg_which_io s) (bg_phys_addr s) (next s) (bg_registered s) (bg_log s).
Definition set_bg_which_io (x : Z) s : bg_state :=
  Bg _ (bg_prom s) (bg_jiffies s) (bg_timer s) (bg_usecount s) (mod_use_count s) (reg s)
    (leds s) x (bg_phys_addr s) (next s) (bg_registered s) (bg_log s).
Definition set_bg_phys_addr (x : Z) s : bg_state :=
  Bg _ (bg_prom s) (bg_jiffies s) (bg_timer s) (bg_usecount s) (mod_use_count s) (reg s)
    (leds s) (bg_which_io s) x (next s) (bg_registered s) (bg_log s).
Definition set_next (x : Z) s : bg_state :=
  Bg _ (bg_prom s) (bg_jiffies s) (bg_timer s) (bg_usecount s) (mod_use_count s) (reg s)
    (leds s) (bg_which_io s) (bg_phys_addr s) x (bg_registered s) (bg_log s).
Definition set_bg_registered (x : bool) s : bg_state :=
  Bg _ (bg_prom s) (bg_jiffies s) (bg_timer s) (bg_usecount s) (mod_use_count s) (reg s)
    (leds s) (bg_which_io s) (bg_phys_addr s) (next s) x (bg_log s).
Definition set_bg_log (x : list bg_ev) s : bg_state :=
  Bg _ (bg_prom s) (bg_jiffies s) (bg_timer s) (bg_usecount s) (mod_use_count s) (reg s)
    (leds s) (bg_which_io s) (bg_phys_addr s) (next s) (bg_registered s) x.

Definition bg_add_timer (expires : Z) : M unit :=
  t ← gets bg_timer;
  if t is Some _ then fail TimerAddedTwice else modify (set_bg_timer (Some expires)).

(** Storing into reg->leds. *)
Definition put_leds (v : Z) : M unit :=
  r ← gets reg; if r =? 0 then fail NullDeref else modify (set_leds (u16 v)).

(** [quiet] only suppresses a message. *)
Definition bg_start_pattern (quiet : Z) : M unit :=
  j ← gets bg_jiffies; bg_add_timer (u32 (j + HZ_DELAY)).

Definition bg_stop_pattern : M unit :=
  modify (set_bg_timer None) ;; put_leds (Z.lnot 0).

Definition patterns : list Z :=
  [0x040f; 0x0417; 0x0513; 0x1151; 0x3150; 0x7140; 0xf020; 0xe820; 0xc8a0; 0x8a88; 0x0a8c; 0x028e].

Definition bg_update_pattern : M unit :=
  r ← gets reg;
  if r =? 0 then skip
  else
    n ← gets next;
    p ← the OutOfBounds (patterns !! Z.to_nat n);
    put_leds (Z.lnot p) ;;
    let n := u32 (n + 1) in
    modify (set_next (if n =? Z.of_nat (length patterns) then 0 else n)) ;;
    bg_start_pattern 1.

(** ** File operations *)

(** The vm_area_struct after the call is part of the result. *)
Definition bg_mmap (v : vm_area) : M (Z * vm_area) :=
  let len := u32 (vm_end v - vm_start v) in
  if 4096 <? len then mret (- EINVAL, v)
  else if negb (vm_offset v =? 0) then mret (- EINVAL, v)
  else
    let v := or_flags VM_IO (or_flags (Z.lor VM_SHM VM_LOCKED) v) in
    phys ← gets bg_phys_addr;
    io ← gets bg_which_io;
    modify (fun s => set_bg_log (BgRemap (vm_start v) phys len io :: bg_log s) s) ;;
    if negb (io_remap_ret =? 0) then mret (- EAGAIN, v) else mret (0, v).

(** [user]: the value at the user's address, [None] when the page is not
    accessible; the second result is what is stored there. *)
Definition bg_ioctl (cmd : bg_cmd) (user : option Z) : M (Z * option Z) :=
  r ← gets reg;
  if r =? 0 then mret (- ENXIO, user)
  else
    match cmd with
    | BGGET =>
        match user with
        | Some _ => v ← gets leds; mret (0, Some v)
        | None => mret (- EFAULT, None)
        end
    | BGSET =>
        match user with
        | Some v => put_leds v ;; mret (0, user)
        | None => mret (- EFAULT, None)
        end
    | BG_OTHER _ => mret (- EINVAL, user)
    end.

Definition bg_open : M Z :=
  n ← gets bg_usecount;
  r ← gets reg;
  if 0 <? n then mret (- EBUSY)
  else if r =? 0 then mret (- ENXIO)
  else
    bg_stop_pattern ;;
    modify (fun s => set_bg_usecount (bg_usecount s + 1) s) ;;
    modify (fun s => set_mod_use_count (mod_use_count s + 1) s) ;;
    mret 0.

Definition bg_release : M Z :=
  bg_start_pattern 0 ;;
  modify (fun s => set_bg_usecount (bg_usecount s - 1) s) ;;
  modify (fun s => set_mod_use_count (mod_use_count s - 1) s) ;;
  mret 0.

(** ** Loading and unloading *)

(** The size of a property that is not there, -1, is divided as an unsigned
    number. *)
Definition bg_map : M Z :=
  o ← zoom bg_prom set_bg_prom (obp_getprop OBP_LEDS_REG (PROMREGS * sizeof_prom_reg));
  let size := match o with Some bs => Z.of_nat (length bs) | None => -1 end in
  let bs := match o with Some bs => bs | None => [] end in
  let regcount := u32 size / sizeof_prom_reg in
  if PROMREGS <? regcount then fail OutOfBounds
  else
    r ← the Uninit (obio_ranges (parse_prom_regs (Z.to_nat regcount) bs) !! 0%nat);
    modify (set_bg_which_io (which_io r)) ;;
    modify (set_bg_phys_addr (PAGE_MASK_of (phys_addr r))) ;;
    mret (sparc_alloc_io_at (PAGE_MASK_of (phys_addr r)) 0 4096 (which_io r)).

Definition bg_unmap (addrp : Z) : M unit := modify (fun s => set_bg_log (BgUnmap addrp :: bg_log s) s).

Definition bg_init_module : M Z :=
  r ← bg_map;
  modify (set_reg r) ;;
  if r =? 0 then mret (-1)
  else if negb (bg_misc_register_ret =? 0) then bg_unmap r ;; mret bg_misc_register_ret
  else modify (set_bg_registered true) ;; bg_start_pattern 0 ;; mret 0.

Definition bg_cleanup_module : M unit :=
  bg_stop_pattern ;;
  r ← gets reg;
  bg_unmap r ;;
  modify (set_bg_registered false).

(** ** What can happen to the driver once it is loaded *)

Inductive bg_event :=
  | EvOpen
  | EvRelease                                   (* the last close of an open file *)
  | EvIoctl (cmd : bg_cmd) (user : option Z)
  | EvMmap (v : vm_area)
  | EvTimer (now : Z).                          (* the timer expires at [now] *)

Definition bg_enabled (e : bg_event) s : bool :=
  match e with
  | EvRelease => 0 <? bg_usecount s
  | EvIoctl _ _ | EvMmap _ => 0 <? bg_usecount s
  | EvTimer now => if bg_timer s is Some t then t =? now else false
  | EvOpen => true
  end.
(** The kernel takes a timer from the queue before it calls its function. *)
Definition bg_handle (e : bg_event) : M unit :=
  match e with
  | EvOpen => bg_open ;; skip
  | EvRelease => bg_release ;; skip
  | EvIoctl cmd user => bg_ioctl cmd user ;; skip
  | EvMmap v => bg_mmap v ;; skip
  | EvTimer now =>
      modify (set_bg_jiffies now) ;; modify (set_bg_timer None) ;; bg_update_pattern
  end.
End bargraph.
