(* ===== verification/BargraphProps.v ===== *)
(** * The bargraph driver: its invariant, its pattern, its owner

    Properties of Bargraph.v over all sequences of events. *)

From stdpp Require Import prelude list numbers.
From Stdlib Require Import ZArith Lia.
From S2P Require Import Prelude Obp Machine Bargraph.

#[local] Set Default Proof Using "Type".

Section props.
Context {P : Prom} {B : Board} {V : Vm} {G : BgEnv}.
Implicit Types s : bg_state.

(** The registers are mapped, and either nobody has the device open and the
    timer is queued, or one has and it is not. *)
Record bg_ok s : Prop := {
  bk_reg : reg s <> 0;
  bk_next : 0 <= next s < 12;
  bk_use : (bg_usecount s = 0 /\ is_Some (bg_timer s)) \/ (bg_usecount s = 1 /\ bg_timer s = None);
  bk_mod : mod_use_count s = bg_usecount s
}.

(** Events that cannot happen in a state are left out. *)
Definition bg_step (e : bg_event) : eff bg_state unit :=
  fun s => if bg_enabled e s then bg_handle e s else skip s.
Definition bg_run (l : list bg_event) : eff bg_state unit := for_each l bg_step.

Lemma wp_put_leds v (Q : unit -> bg_state -> Prop) s : reg s <> 0 ->
  wp (put_leds v) Q s <-> Q tt (set_leds (u16 v) s).
Proof. intros Hr. unfold put_leds. by rewrite wp_bind, wp_gets, (proj2 (Z.eqb_neq _ _) Hr). Qed.
Lemma wp_start_pattern q (Q : unit -> bg_state -> Prop) s : bg_timer s = None ->
  wp (bg_start_pattern q) Q s <-> Q tt (set_bg_timer (Some (u32 (bg_jiffies s + HZ_DELAY))) s).
Proof. intros Ht. unfold bg_start_pattern, bg_add_timer. by rewrite wp_bind, wp_gets, wp_bind, wp_gets, Ht. Qed.

(** One step of the pattern, the timer being off the queue. *)
Lemma update_pattern_spec s : reg s <> 0 -> 0 <= next s < 12 -> bg_timer s = None ->
  wp bg_update_pattern (fun _ s' => exists p, patterns !! Z.to_nat (next s) = Some p /\
    s' = set_bg_timer (Some (u32 (bg_jiffies s + HZ_DELAY)))
           (set_next ((next s + 1) mod 12) (set_leds (u16 (Z.lnot p)) s))) s.
Proof.
  intros Hr Hn Ht. unfold bg_update_pattern. rewrite wp_bind, wp_gets, (proj2 (Z.eqb_neq _ _) Hr).
  rewrite wp_bind, wp_gets.
  destruct (lookup_lt_is_Some_2 patterns (Z.to_nat (next s))) as [p Hp]; [cbn; lia|].
  rewrite wp_bind, wp_the. exists p. split; [done|]. rewrite wp_bind, wp_put_leds by done.
  cbv zeta. rewrite wp_bind, wp_modify, wp_start_pattern by done. exists p. split; [done|].
  cbn [next set_leds]. rewrite (u32_id (next s + 1)) by lia. change (Z.of_nat (length patterns)) with 12.
  assert (E : (if next s + 1 =? 12 then 0 else next s + 1) = (next s + 1) mod 12).
  { destruct (Z.eqb_spec (next s + 1) 12) as [->|]; [done|]. by rewrite Z.mod_small by lia. }
  by rewrite E.
Qed.

(** Everything but an open, a release and a store into the register. *)
Definition passive (e : bg_event) : bool :=
  match e with EvRelease | EvIoctl BGSET _ => false | _ => true end.

Lemma bg_step_spec e s : bg_ok s ->
  wp (bg_step e) (fun _ s' => bg_ok s' /\
    (bg_usecount s = 1 -> passive e = true -> bg_usecount s' = 1 /\ leds s' = leds s)) s.
Proof.
  intros Hok. pose proof Hok as [Hr Hn Hu Hm]. unfold bg_step, wp.
  destruct (bg_enabled e s) eqn:Ee; [|by split]. fold (wp (bg_handle e) (fun _ s' => bg_ok s' /\
    (bg_usecount s = 1 -> passive e = true -> bg_usecount s' = 1 /\ leds s' = leds s)) s).
  destruct e as [| |cmd user|v|now]; cbn [bg_handle bg_enabled] in *; rewrite wp_bind.
  - unfold bg_open. rewrite wp_bind, wp_gets, wp_bind, wp_gets, (proj2 (Z.eqb_neq _ _) Hr).
    destruct Hu as [[Eu Ht]|[Eu Ht]]; rewrite Eu; cbn [Z.ltb Z.compare].
    + unfold bg_stop_pattern. rewrite wp_bind, wp_bind, wp_modify, wp_put_leds by done.
      rewrite wp_bind, wp_modify, wp_bind, wp_modify, wp_ret. split; [|cbn; lia].
      split; cbn; [done|done|right; by rewrite Eu|lia].
    + rewrite wp_ret, wp_skip. done.
  - apply Z.ltb_lt in Ee. destruct Hu as [[Eu Ht]|[Eu Ht]]; [lia|].
    unfold bg_release. rewrite wp_bind, wp_start_pattern, wp_bind, wp_modify, wp_bind, wp_modify by done.
    rewrite wp_ret, wp_skip. split; [|done].
    split; cbn; [done|done|left; rewrite Eu; by split|lia].
  - apply Z.ltb_lt in Ee. unfold bg_ioctl. rewrite wp_bind, wp_gets, (proj2 (Z.eqb_neq _ _) Hr).
    destruct cmd as [| |c], user as [x|]; try (by rewrite wp_ret, wp_skip).
    + rewrite wp_bind, wp_put_leds, wp_ret, wp_skip by done. by split.
    + rewrite wp_bind, wp_gets, wp_ret, wp_skip. done.
  - unfold bg_mmap. cbv zeta. destruct (4096 <? u32 (vm_end v - vm_start v)); [by rewrite wp_ret, wp_skip|].
    destruct (negb (vm_offset v =? 0)); [by rewrite wp_ret, wp_skip|].
    rewrite wp_bind, wp_gets, wp_bind, wp_gets, wp_bind, wp_modify.
    destruct (negb _); rewrite wp_ret, wp_skip; by split.
  - destruct (bg_timer s) as [t|] eqn:Et; [|done]. destruct Hu as [[Eu _]|[_ Hc]]; [|done].
    rewrite wp_modify, wp_bind, wp_modify. eapply wp_mono; [by apply update_pattern_spec|].
    cbv beta. intros _ s' (p & _ & ->). cbn. split; [|lia].
    split; cbn; [done|by apply Z.mod_pos_bound|left; by split|done].
Qed.

(** Before the module is loaded. *)
Definition bg_fresh s : Prop :=
  bg_timer s = None /\ next s = 0 /\ bg_usecount s = 0 /\ mod_use_count s = 0.

Lemma bg_run_ok l s : bg_ok s -> wp (bg_run l) (fun _ s' => bg_ok s') s.
Proof.
  revert s. induction l as [|e l IH]; intros s Hok; [done|]. unfold bg_run. cbn [for_each].
  rewrite wp_bind. eapply wp_mono; [by apply bg_step_spec|]. cbv beta. intros _ s' [Hok' _].
  by apply IH.
Qed.

Lemma bg_map_frame r s s' : bg_map s = Done r s' ->
  bg_timer s' = bg_timer s /\ next s' = next s /\ bg_usecount s' = bg_usecount s /\
  mod_use_count s' = mod_use_count s.
Proof.
  unfold bg_map, mbind, eff_bind, zoom. destruct (obp_getprop _ _ _) as [o st|]; [|done].
  cbv zeta. destruct (_ <? _); [done|]. unfold the. destruct (_ !! _); [|done]. cbn.
  by intros [= <- <-].
Qed.

(** C32. The bargraph driver. After a successful init_module() every sequence
    of opens, closes, ioctls, mmaps and timer expiries runs without a NULL
    dereference and without a second add_timer() on the queued timer; at
    every point either nobody has the device open and the pattern's timer is
    queued, or exactly one process has it open and the timer is not. *)
Theorem bargraph_safe l s r s1 : bg_fresh s -> bg_map s = Done r s1 -> r <> 0 ->
  bg_misc_register_ret = 0 ->
  wp (bg_init_module ;; bg_run l) (fun _ s' => bg_ok s') s.
Proof.
  intros (Ht & Hn & Hu & Hm) Emap Hr Hmisc. destruct (bg_map_frame _ _ _ Emap) as (E1 & E2 & E3 & E4).
  unfold bg_init_module. rewrite wp_bind, wp_bind. unfold wp at 1. rewrite Emap.
  rewrite wp_bind, wp_modify, (proj2 (Z.eqb_neq _ _) Hr), Hmisc. cbn [negb Z.eqb].
  rewrite wp_bind, wp_modify, wp_bind, wp_start_pattern by (cbn; congruence). rewrite wp_ret.
  apply bg_run_ok. split; cbn; [done|lia|left; split; [lia|done]|lia].
Qed.

Lemma wp_bgset v Q s : reg s <> 0 ->
  wp (bg_ioctl BGSET (Some v)) Q s <-> Q (0, Some v) (set_leds (u16 v) s).
Proof.
  intros Hr. unfold bg_ioctl. rewrite wp_bind, wp_gets, (proj2 (Z.eqb_neq _ _) Hr).
  by rewrite wp_bind, wp_put_leds, wp_ret.
Qed.

(** The LEDs belong to the process that has the device open. A value it
    stores with BGSET is what BGGET returns after any sequence of events
    without another BGSET and without its close: attempts of others to open
    the device fail, and the pattern does not run. *)
Theorem opener_owns_leds v user l s : bg_ok s -> bg_usecount s = 1 ->
  Forall (fun e => passive e = true) l ->
  wp (bg_ioctl BGSET (Some v) ;; bg_run l ;; bg_ioctl BGGET (Some user)) (fun r s' =>
    r = (0, Some (u16 v)) /\ bg_usecount s' = 1) s.
Proof.
  intros Hok Hu Hl. rewrite wp_bind, wp_bgset, wp_bind by apply Hok.
  set (s0 := set_leds (u16 v) s). assert (Hok0 : bg_ok s0) by (by destruct Hok).
  assert (Hu0 : bg_usecount s0 = 1) by done. assert (Hv : leds s0 = u16 v) by done. clearbody s0.
  apply (wp_mono _ (fun _ s' => bg_ok s' /\ bg_usecount s' = 1 /\ leds s' = u16 v)).
  - unfold bg_run. revert s0 Hok0 Hu0 Hv. induction Hl as [|e l He _ IH]; intros s0 Hok0 Hu0 Hv;
      cbn [for_each]; [by rewrite wp_skip|].
    rewrite wp_bind. eapply wp_mono; [by apply bg_step_spec|]. cbv beta.
    intros _ s1 [Hok1 Hp]. destruct (Hp Hu0 He) as [Hu1 Hv1]. apply IH; [done|done|congruence].
  - intros _ s' (Hok' & Hu' & Hv'). unfold bg_ioctl.
    rewrite wp_bind, wp_gets, (proj2 (Z.eqb_neq _ _) (bk_reg _ Hok')), wp_bind, wp_gets, wp_ret.
    by rewrite Hv'.
Qed.

(** The queued timer expires. *)
Definition bg_expire : eff bg_state unit :=
  t ← gets bg_timer;
  match t with Some now => bg_handle (EvTimer now) | None => skip end.

(** The pattern. While nobody opens the device the timer keeps running at
    intervals of HZ / 10, and the n-th expiry puts the complement of the n-th
    of the twelve patterns on the LEDs, counted around from where the pattern
    stands. *)
Theorem pattern_plays n s t : bg_ok s -> bg_timer s = Some t -> 0 <= t < 2 ^ 32 ->
  wp (for_each (replicate (S n) tt) (fun _ => bg_expire)) (fun _ s' => exists p,
    patterns !! Z.to_nat ((next s + Z.of_nat n) mod 12) = Some p /\
    leds s' = u16 (Z.lnot p) /\ next s' = (next s + Z.of_nat n + 1) mod 12 /\
    bg_timer s' = Some (u32 (t + HZ_DELAY * (Z.of_nat n + 1)))) s.
Proof.
  intros Hok Ht Hr. revert s t Hok Ht Hr. induction n as [|n IH]; intros s t Hok Ht Hr.
  - cbn [replicate for_each]. rewrite wp_bind. unfold bg_expire. rewrite wp_bind, wp_gets, Ht.
    cbn [bg_handle]. rewrite wp_bind, wp_modify, wp_bind, wp_modify.
    eapply wp_mono; [apply update_pattern_spec; [apply Hok|apply Hok|done]|].
    cbv beta. intros _ s' (p & Hp & ->). rewrite wp_skip. exists p. cbn in Hp |- *.
    pose proof (bk_next _ Hok). rewrite Z.add_0_r, (Z.mod_small (next s)) by lia.
    by split_and!.
  - change (replicate (S (S n)) tt) with (tt :: replicate (S n) tt). cbn [for_each].
    rewrite wp_bind. unfold bg_expire at 1. rewrite wp_bind, wp_gets, Ht.
    cbn [bg_handle]. rewrite wp_bind, wp_modify, wp_bind, wp_modify.
    eapply wp_mono; [apply update_pattern_spec; [apply Hok|apply Hok|done]|].
    cbv beta. intros _ s1 (p & Hp & ->).
    assert (Hok1 : bg_ok (set_bg_timer (Some (u32 (t + HZ_DELAY)))
      (set_next ((next s + 1) mod 12) (set_leds (u16 (Z.lnot p)) (set_bg_timer None (set_bg_jiffies t s)))))).
    { destruct Hok as [H1 H2 [[H3 _]|[_ H3]] H4]; [|congruence].
      split; cbn; [done|by apply Z.mod_pos_bound|left; by split|done]. }
    eapply wp_mono; [eapply (IH _ _ Hok1); [done|apply u32_range]|]. cbv beta.
    intros _ s' (p' & Hp' & Hl & Hn & Ht'). exists p'. cbn [next set_bg_timer set_next] in Hp', Hn.
    replace (next s + Z.of_nat (S n)) with (next s + 1 + Z.of_nat n) by lia.
    rewrite Z.add_mod_idemp_l in Hp' by done. split; [exact Hp'|]. split; [done|].
    split.
    + rewrite Hn. rewrite <- Z.add_assoc, Z.add_mod_idemp_l by done. f_equal. lia.
    + rewrite Ht'. f_equal. unfold u32. rewrite Z.add_mod_idemp_l by done. f_equal. lia.
Qed.
End props.

(** ** A concrete bargraph *)

Definition demo_bg_env : BgEnv := {| bg_misc_register_ret := 0 |}.
Definition demo_vm : Vm :=
  {| VM_SHM := 0x400; VM_LOCKED := 0x2000; VM_IO := 0x4000; VM_WRITE := 2; VM_MAYWRITE := 0x20;
     io_remap_ret := 0 |}.
Definition demo_bg : @bg_state board_prom :=
  Bg board_prom board_props 100 None 0 0 0 0 0 0 0 false [].
Definition demo_bg_loaded : @bg_state board_prom :=
  match bg_init_module (B := demo_board) (G := demo_bg_env) demo_bg with
  | Done _ s => s | Fault _ => demo_bg end.
Definition demo_bg_open : @bg_state board_prom :=
  match bg_open demo_bg_loaded with Done _ s => s | Fault _ => demo_bg end.

Definition demo_bg_events : list bg_event :=
  [EvTimer 110; EvOpen; EvIoctl BGSET (Some 5); EvOpen; EvRelease; EvTimer 120].

Lemma bargraph_safe_witness :
  wp (bg_init_module (B := demo_board) (G := demo_bg_env) ;; bg_run (V := demo_vm) demo_bg_events)
    (fun _ s' => bg_ok s') demo_bg.
Proof.
  refine (bargraph_safe (B := demo_board) (V := demo_vm) (G := demo_bg_env) demo_bg_events demo_bg
    _ _ _ eq_refl _ eq_refl); [by split_and!|done].
Defined.

Lemma demo_bg_open_ok : bg_ok demo_bg_open /\ bg_usecount demo_bg_open = 1.
Proof. split; [split; [done|done|by right|done]|done]. Qed.

Lemma opener_owns_leds_witness :
  wp (bg_ioctl BGSET (Some 0x1234) ;; bg_run (V := demo_vm) [EvOpen; EvTimer 110] ;;
      bg_ioctl BGGET (Some 0)) (fun r s' => r = (0, Some 0x1234) /\ bg_usecount s' = 1) demo_bg_open.
Proof.
  apply (opener_owns_leds (V := demo_vm) 0x1234 0 [EvOpen; EvTimer 110] demo_bg_open);
    [apply demo_bg_open_ok|done|by repeat constructor].
Defined.

Lemma pattern_plays_witness :
  wp (for_each (replicate 14 tt) (fun _ => bg_expire (V := demo_vm)))
    (fun _ s' => leds s' = 0xfbe8 /\ bg_timer s' = Some 250) demo_bg_loaded.
Proof.
  eapply wp_mono.
  - apply (pattern_plays (V := demo_vm) 13 demo_bg_loaded 110);
      [split; [done|done|by left|done]|done|lia].
  - cbv beta. intros _ s' (p & Hp & Hl & _ & Ht). rewrite Hl, Ht. vm_compute in Hp.
    injection Hp as <-. by split.
Defined.
