(* ===== verification/TestProgs.v ===== *)
(** * The test programs (cmd/testled.c, cmd/testclock.c)

    testled shows a pattern on the LEDs through the bargraph driver; testclock
    compares gettimeofday() with the clock of the Elan. Both run over the
    models of what they test: Bargraph.v and Timer.v. *)

From stdpp Require Import prelude list numbers.
From Stdlib Require Import ZArith Lia.
From S2P Require Import Prelude Obp Machine Timer TimerProps Bargraph BargraphProps.

(** ** testled *)

Section testled.
Context {P : Prom} {B : Board} {V : Vm} {G : BgEnv}.
Implicit Types s : bg_state.
Abbreviation M := (eff bg_state).

(** patterns of testled.c, the one that is compiled in *)
Definition eyeball : list Z := [0x1000; 0x2000; 0x4000; 0x8000; 0x4000; 0x2000].

(** update(); a failing ioctl() ends the program. *)
Definition update (val : Z) : M unit :=
  '(r, _) ← bg_ioctl BGSET (Some val);
  if r <? 0 then fail (Exit 1) else skip.

(** The body of the loop of main(), with the static [next]. *)
Definition led_round (next : Z) : M Z :=
  p ← the OutOfBounds (eyeball !! Z.to_nat next);
  let value := u16 (Z.lnot p) in
  let next := u16 (next + 1) in
  update value ;;
  mret (if next =? Z.of_nat (length eyeball) then 0 else next).

(** The loop: one round for each element of [gaps], which is what happens to
    the driver while the program sleeps. *)
Fixpoint led_loop (gaps : list (list bg_event)) (next : Z) : M Z :=
  match gaps with
  | [] => mret next
  | gap :: gaps' => n ← led_round next; bg_run gap ;; led_loop gaps' n
  end.

(** main() as long as it runs. *)
Definition testled (gaps : list (list bg_event)) : M Z :=
  r ← bg_open;
  if r <? 0 then fail (Exit 1) else led_loop gaps 0.

(** What the LEDs show in round [i]. *)
Definition shown (i : Z) : Z := u16 (Z.lnot (default 0 (eyeball !! Z.to_nat (i mod 6)))).

Lemma led_round_spec s n : bg_ok s -> 0 <= n < 6 ->
  wp (led_round n) (fun n' s' => n' = (n + 1) mod 6 /\ s' = set_leds (shown n) s) s.
Proof.
  intros Hs Hn. destruct (lookup_lt_is_Some_2 eyeball (Z.to_nat n)) as [p Hp]; [cbn; lia|].
  unfold led_round, update, bg_ioctl. rewrite wp_bind, wp_the. exists p. split; [done|]. cbv zeta.
  rewrite wp_bind, wp_bind, wp_bind, wp_gets, (proj2 (Z.eqb_neq _ _) (bk_reg _ Hs)).
  rewrite wp_bind, wp_put_leds, wp_ret by apply Hs. rewrite wp_skip, wp_ret.
  assert (En : u16 (n + 1) = n + 1) by (apply Z.mod_small; lia). rewrite En.
  change (Z.of_nat (length eyeball)) with 6. split.
  - destruct (Z.eqb_spec (n + 1) 6) as [->|]; [done|]. by rewrite Z.mod_small by lia.
  - f_equal. unfold shown. rewrite (Z.mod_small n 6), Hp by lia. unfold u16. by rewrite Z.mod_mod.
Qed.

Lemma bg_run_passive l s : bg_ok s -> bg_usecount s = 1 -> Forall (fun e => passive e = true) l ->
  wp (bg_run l) (fun _ s' => bg_ok s' /\ bg_usecount s' = 1 /\ leds s' = leds s) s.
Proof.
  intros Hs Hu Hl. revert s Hs Hu. induction Hl as [|e l He _ IH]; intros s Hs Hu; [done|].
  unfold bg_run. cbn [for_each]. rewrite wp_bind. eapply wp_mono; [by apply bg_step_spec|].
  intros _ s1 [Hs1 H1]. destruct (H1 Hu He) as [Hu1 <-]. by apply IH.
Qed.

Lemma led_loop_spec gaps : forall n s, bg_ok s -> bg_usecount s = 1 -> 0 <= n < 6 ->
  Forall (Forall (fun e => passive e = true)) gaps ->
  wp (led_loop gaps n) (fun n' s' => bg_ok s' /\ bg_usecount s' = 1 /\
    n' = (n + Z.of_nat (length gaps)) mod 6 /\
    leds s' = match length gaps with O => leds s | S k => shown (n + Z.of_nat k) end) s.
Proof.
  induction gaps as [|gap gaps IH]; intros n s Hs Hu Hn Hg; cbn [led_loop].
  { rewrite wp_ret. cbn. rewrite Z.add_0_r. by rewrite Z.mod_small. }
  apply list.Forall_cons in Hg as [Hgap Hg]. rewrite wp_bind.
  eapply wp_mono; [by apply led_round_spec|]. intros n1 s1' [-> ->].
  rewrite wp_bind. set (s1 := set_leds _ s).
  assert (Hs1 : bg_ok s1) by (destruct Hs; by split).
  eapply wp_mono; [by apply (bg_run_passive gap s1)|]. intros _ s2 (Hs2 & Hu2 & Hl2).
  pose proof (Z.mod_pos_bound (n + 1) 6 ltac:(lia)).
  eapply wp_mono; [by apply (IH ((n + 1) mod 6) s2)|].
  intros n' s' (Hs' & Hu' & -> & Hl). cbn [length]. do 2 (split; [done|]).
  split; [rewrite Zplus_mod_idemp_l; apply (f_equal (fun z => z mod 6)); lia|]. rewrite Hl. destruct (length gaps) as [|k].
  - rewrite Hl2. cbn. by rewrite Z.add_0_r.
  - unfold shown. rewrite Zplus_mod_idemp_l. by replace (n + 1 + Z.of_nat k) with (n + Z.of_nat (S k)) by lia.
Qed.

(** C33. testled over the bargraph driver. Loaded and open for nobody else, the
    driver takes every pattern: after n rounds the LEDs show the pattern of
    round n - 1, of a cycle of six, whatever other processes and the timer
    did in between short of storing into the register themselves; the program
    neither fails nor reads outside its table, and the device stays taken. *)
Theorem testled_cycles gaps s : bg_ok s -> bg_usecount s = 0 ->
  Forall (Forall (fun e => passive e = true)) gaps ->
  wp (testled gaps) (fun next s' => bg_ok s' /\
    next = Z.of_nat (length gaps) mod 6 /\
    leds s' = match length gaps with O => 0xffff | S k => shown (Z.of_nat k) end /\
    bg_open s' = Done (- EBUSY) s') s.
Proof.
  intros Hs Hu Hg. pose proof Hs as [Hr Hn Huse Hm]. destruct Huse as [[_ Ht]|[? _]]; [|lia].
  unfold testled, bg_open at 1, bg_stop_pattern.
  rewrite wp_bind, wp_bind, wp_gets, wp_bind, wp_gets, Hu, (proj2 (Z.eqb_neq _ _) Hr). cbn [Z.ltb Z.compare].
  rewrite wp_bind, wp_bind, wp_modify, wp_put_leds by done. rewrite wp_bind, wp_modify, wp_bind, wp_modify, wp_ret.
  cbn [Z.ltb Z.compare]. set (s1 := set_mod_use_count _ _).
  assert (Hs1 : bg_ok s1 /\ bg_usecount s1 = 1).
  { unfold s1. split; [|cbn; lia]. split; cbn; [done|done|right; by rewrite Hu|lia]. }
  destruct Hs1 as [Hs1 Hu1]. eapply wp_mono; [by apply led_loop_spec|].
  intros n s' (Hs' & Hu' & -> & Hl). do 2 (split; [done|]). split; [by rewrite Hl|].
  unfold bg_open, mbind, eff_bind, gets. by rewrite Hu'.
Qed.
End testled.

(** ** testclock *)

Definition EVENT_DELAY_US : Z := 100.
Definition SAMPLES : Z := 100000.

Record sample_t := Sample { t_elan : Z; t_sys : Z }.

(** gettimeofday(): the n-th call, [None] if it fails. *)
Class UserClock := { gettimeofday : nat -> option (Z * Z) }.

(** The other system calls of testclock: do they succeed? *)
Class ClockEnv := { open_elan : bool; mmap_elan : bool; munmap_elan : bool; mlock_dat : bool;
  sched_setscheduler : Z -> Z -> bool }.
Definition SCHED_OTHER : Z := 0.
Definition SCHED_FIFO : Z := 1.

Record clocks {P : Prom} := Clocks { ck_elan : machine; ck_calls : nat }.

(** The lines of the report: the latency of gettimeofday(), the sum that is
    divided by SAMPLES and the maximum, the elapsed times of both clocks. *)
Record report := Report { latency : Z; total : Z; maximum : Z; elapsed_elan : Z; elapsed_sys : Z }.

Section testclock.
Context {P : Prom} {B : Board} {U : UserClock} {CE : ClockEnv}.
Abbreviation M := (eff clocks).

(** A failing system call ends the program. *)
Definition must (ok : bool) : M unit := if ok then skip else fail (Exit 1).

Definition elan_init : M unit := must open_elan ;; must mmap_elan.
Definition elan_fini : M unit := must munmap_elan.
Definition rtprio_init (policy : Z) : M unit :=
  must mlock_dat ;;
  let sched_priority := if policy =? SCHED_FIFO then 99 else 0 in
  must (sched_setscheduler policy sched_priority).

Definition on_elan {A} (m : eff machine A) : M A := zoom ck_elan (fun e s => Clocks _ e (ck_calls s)) m.

Definition sys_getusec : M Z :=
  n ← gets ck_calls;
  modify (fun s => Clocks _ (ck_elan s) (S n)) ;;
  match gettimeofday n with
  | None => fail (Exit 1)
  | Some (sec, usec) => mret (u64 (sec * 1000000 + usec))
  end.

(** The loop that takes the samples; [fuel] bounds the readings of a delay. *)
Fixpoint take_samples (n fuel : nat) : M (list sample_t) :=
  match n with
  | O => mret []
  | S n' =>
      te ← on_elan elan_getclock;
      ts ← sys_getusec;
      on_elan (elan_udelay fuel EVENT_DELAY_US) ;;
      rest ← take_samples n' fuel;
      mret (Sample te ts :: rest)
  end.

(** The tally: delta is the difference of neighbours. *)
Fixpoint tally (prev : Z) (dat : list sample_t) (tot max : Z) : Z * Z :=
  match dat with
  | [] => (tot, max)
  | d :: dat' =>
      let delta := u64 (t_sys d - prev) in
      tally (t_sys d) dat' (u64 (tot + delta)) (if max <? delta then delta else max)
  end.

(** main() between the set-up and elan_fini(), with [n] samples. *)
Definition measure (n fuel : nat) : M report :=
  t1 ← on_elan elan_getclock;
  sys_getusec ;;
  t2 ← on_elan elan_getclock;
  let gettod_usec := s32 (u64 (t2 - t1) / 1000) in
  dat ← take_samples n fuel;
  first ← the OutOfBounds (head dat);
  last ← the OutOfBounds (list.last dat);
  let '(tot, max) := tally (t_sys first) (tail dat) 0 0 in
  mret (Report gettod_usec tot max (u64 (t_elan last - t_elan first)) (u64 (t_sys last - t_sys first))).

Definition testclock (n fuel : nat) : M report :=
  elan_init ;;
  rtprio_init SCHED_FIFO ;;
  r ← measure n fuel;
  elan_fini ;;
  rtprio_init SCHED_OTHER ;;
  mret r.

Lemma u64_l a b : u64 (u64 a + b) = u64 (a + b).
Proof. apply Zplus_mod_idemp_l. Qed.
Lemma u64_r a b : u64 (a + u64 b) = u64 (a + b).
Proof. apply Zplus_mod_idemp_r. Qed.

Lemma tally_spec prev dat tot max : 0 <= tot < 2 ^ 64 ->
  let r := tally prev dat tot max in
  r.1 = u64 (tot + (default prev (t_sys <$> list.last dat) - prev)) /\ max <= r.2 /\
  (forall k a b, (prev :: map t_sys dat) !! k = Some a -> (prev :: map t_sys dat) !! S k = Some b ->
     u64 (b - a) <= r.2) /\
  (r.2 = max \/ exists k a b, (prev :: map t_sys dat) !! k = Some a /\
     (prev :: map t_sys dat) !! S k = Some b /\ r.2 = u64 (b - a)).
Proof.
  revert prev tot max. induction dat as [|d dat IH]; intros prev tot max Ht; cbn [tally].
  { cbn. split; [unfold u64; rewrite Z.mod_small; lia|]. split; [lia|]. split; [|by left].
    intros [|k] a b _ Hb; cbn in Hb; by rewrite ?lookup_nil in Hb. }
  set (delta := u64 (t_sys d - prev)). set (mx := if max <? delta then delta else max).
  assert (Ht' : 0 <= u64 (tot + delta) < 2 ^ 64) by (unfold u64; apply Z.mod_pos_bound; lia).
  destruct (IH (t_sys d) (u64 (tot + delta)) mx Ht') as (H1 & H2 & H3 & H4). cbv zeta.
  assert (Hmx : max <= mx /\ delta <= mx) by (unfold mx; destruct (Z.ltb_spec max delta); lia).
  split; [|split; [lia|split]].
  - rewrite H1, u64_l, Z.add_shuffle0. unfold delta. rewrite u64_r. unfold u64.
    apply (f_equal (fun z => z mod 2 ^ 64)). rewrite list.last_cons. destruct (list.last dat); cbn; lia.
  - intros [|k] a b Ha Hb; [|by apply (H3 k)]. cbn in Ha, Hb. injection Ha as <-. injection Hb as <-. lia.
  - destruct H4 as [H4|(k & a & b & Ha & Hb & E)]; [|right; by exists (S k), a, b].
    unfold mx in H4. destruct (Z.ltb_spec max delta); [|by left]. right.
    exists O, prev, (t_sys d). done.
Qed.

(** What is measured. However the clocks run, wrap-around included, the
    sum it divides by the number of samples for the average is the elapsed
    time of its last line, which spans one interval less than there are
    samples. *)
Lemma measure_report n fuel s r s' : measure n fuel s = Done r s' ->
  total r = elapsed_sys r /\ 0 <= maximum r.
Proof.
  unfold measure, mbind, eff_bind. destruct (on_elan elan_getclock s) as [t1 s1|]; [|done].
  destruct (sys_getusec s1) as [t s2|]; [|done]. destruct (on_elan elan_getclock s2) as [t2 s3|]; [|done].
  cbv zeta. destruct (take_samples n fuel s3) as [dat s4|]; [|done].
  destruct dat as [|d dat]; [done|]. cbn [head the]. unfold mret at 1, eff_ret.
  rewrite list.last_cons. pose proof (tally_spec (t_sys d) dat 0 0 ltac:(lia)) as (H1 & H2 & _).
  cbn [tail]. destruct (tally (t_sys d) dat 0 0) as [tot mx]. cbn [fst snd] in *.
  assert (E : tot = u64 (default (t_sys d) (t_sys <$> list.last dat) - t_sys d)).
  { rewrite H1. by apply (f_equal u64). }
  destruct (list.last dat) as [l|]; cbn [the]; unfold mret, eff_ret; intros [= <- _]; cbn in *; by split.
Qed.

Lemma testclock_report n fuel s r s' : testclock n fuel s = Done r s' ->
  total r = elapsed_sys r /\ 0 <= maximum r.
Proof.
  unfold testclock, mbind, eff_bind. destruct (elan_init s) as [? s1|]; [|done].
  destruct (rtprio_init SCHED_FIFO s1) as [? s2|]; [|done].
  destruct (measure n fuel s2) as [r' s3|] eqn:Em; [|done]. destruct (elan_fini s3) as [? s4|]; [|done].
  destruct (rtprio_init SCHED_OTHER s4) as [? s5|]; [|done]. unfold mret, eff_ret. intros [= <- _].
  by eapply measure_report.
Qed.
End testclock.

(** ** Examples *)

Lemma testled_cycles_witness :
  wp (testled (V := demo_vm) [[EvOpen; EvTimer 110]; [EvIoctl BGGET (Some 0)]])
    (fun next s' => next = 2 /\ leds s' = 0xdfff) demo_bg_loaded.
Proof.
  eapply wp_mono.
  - apply (testled_cycles (V := demo_vm) [[EvOpen; EvTimer 110]; [EvIoctl BGGET (Some 0)]] demo_bg_loaded).
    + split; [done|done|by left|done].
    + done.
    + repeat constructor.
  - intros next s' (_ & Hn & Hl & _). split; [exact Hn|exact Hl].
Defined.

(** Four samples, 250 ms apart by the Elan and 200 ms by gettimeofday(): the
    average that is printed is 150 ms. *)
#[local] Instance demo_clock : UserClock := {| gettimeofday := fun n => Some (7, 200000 * Z.of_nat n) |}.
#[local] Instance demo_calls : ClockEnv := {| open_elan := true; mmap_elan := true; munmap_elan := true;
  mlock_dat := true; sched_setscheduler := fun _ _ => true |}.
Example testclock_runs :
  match testclock (B := demo_board) 4 5 (Clocks _ demo_running 0) with
  | Done r _ => total r = 600000 /\ maximum r = 200000 /\ total r / 4 = 150000
  | Fault _ => False
  end.
Proof. vm_compute. repeat split. Qed.
