(* ===== verification/ElanDrv.v ===== *)
(** * The Elan clock driver (drivers/meiko/elan.c)

    The page with the nanosecond clock can be mapped read-only by any process.
    The other file of that name, which maps the clock for the kernel, is in
    Timer.v. *)

From stdpp Require Import prelude list numbers.
From Stdlib Require Import ZArith Lia.
From S2P Require Import Prelude Obp Machine TimerProps.

Definition ELAN_MAJOR : Z := 60.

Class ElanEnv := { register_chrdev_ret : Z }.

Record elan_state {P : Prom} := Elan {
  el_prom : prom_st;
  reg_which_io : Z;
  reg_phys_addr : Z;
  el_use_count : Z;
  chrdev : bool;                          (* the major number is registered *)
  el_maps : list (Z * Z * Z * Z)          (* io_remap_page_range(start, phys, len, io) *)
}.

Section elan.
Context {P : Prom} {B : Board} {V : Vm} {G : ElanEnv}.
Implicit Types s : elan_state.
Abbreviation M := (eff elan_state).

Definition set_el_prom (x : prom_st) s : elan_state :=
  Elan _ x (reg_which_io s) (reg_phys_addr s) (el_use_count s) (chrdev s) (el_maps s).
Definition set_regs (io phys : Z) s : elan_state :=
  Elan _ (el_prom s) io phys (el_use_count s) (chrdev s) (el_maps s).
Definition set_el_use_count (x : Z) s : elan_state :=
  Elan _ (el_prom s) (reg_which_io s) (reg_phys_addr s) x (chrdev s) (el_maps s).
Definition set_chrdev (x : bool) s : elan_state :=
  Elan _ (el_prom s) (reg_which_io s) (reg_phys_addr s) (el_use_count s) x (el_maps s).
Definition set_el_maps (x : list (Z * Z * Z * Z)) s : elan_state :=
  Elan _ (el_prom s) (reg_which_io s) (reg_phys_addr s) (el_use_count s) (chrdev s) x.

Definition elan_ioctl : M Z := mret (- EINVAL).
Definition elan_open : M Z := modify (fun s => set_el_use_count (el_use_count s + 1) s) ;; mret 0.
Definition elan_release : M Z := modify (fun s => set_el_use_count (el_use_count s - 1) s) ;; mret 0.

(** With the vm_area_struct after the call. *)
Definition elan_mmap (v : vm_area) : M (Z * vm_area) :=
  let len := u32 (vm_end v - vm_start v) in
  if 4096 <? len then mret (- EINVAL, v)
  else if negb (vm_offset v =? 0) then mret (- EINVAL, v)
  else
    let v := or_flags VM_IO (or_flags (Z.lor VM_SHM VM_LOCKED) v) in
    if has (vm_flags v) VM_WRITE || has (vm_flags v) VM_MAYWRITE then mret (- EPERM, v)
    else
      phys ← gets reg_phys_addr;
      io ← gets reg_which_io;
      modify (fun s => set_el_maps ((vm_start v, phys, len, io) :: el_maps s) s) ;;
      if negb (io_remap_ret =? 0) then mret (- EAGAIN, v) else mret (0, v).

Definition elan_getphys : M Z :=
  o ← zoom el_prom set_el_prom (obp_getprop OBP_CAN_ELAN_REG (PROMREGS * sizeof_prom_reg));
  match o with
  | None => mret (-1)
  | Some bs =>
      let regcount := Z.of_nat (length bs) / sizeof_prom_reg in
      r ← the Uninit (obio_ranges (parse_prom_regs (Z.to_nat regcount) bs) !! 0%nat);
      modify (set_regs (which_io r) (PAGE_MASK_of (phys_addr r))) ;;
      mret 0
  end.

Definition elan_init_module : M Z :=
  if negb (register_chrdev_ret =? 0) then mret (- ENXIO)
  else
    modify (set_chrdev true) ;;
    r ← elan_getphys;
    if r <? 0 then modify (set_chrdev false) ;; mret (-1) else mret 0.

Definition elan_cleanup_module : M unit := modify (set_chrdev false).

(** * Properties *)

(** elan_mmap() gives out at most the one page of the clock, at offset 0, and
    never to a mapping that is or may become writable; every other request
    fails without a mapping. The flags are changed even when the request is
    then refused with -EPERM. *)
Lemma elan_mmap_readonly v s :
  wp (elan_mmap v) (fun r s' =>
    (r.1 = 0 -> vm_offset v = 0 /\ u32 (vm_end v - vm_start v) <= 4096 /\
       has (vm_flags r.2) VM_WRITE = false /\ has (vm_flags r.2) VM_MAYWRITE = false /\
       el_maps s' = (vm_start v, reg_phys_addr s, u32 (vm_end v - vm_start v), reg_which_io s) ::
                    el_maps s) /\
    (r.1 = - EINVAL \/ r.1 = - EPERM -> s' = s)) s.
Proof.
  unfold elan_mmap. cbv zeta.
  destruct (Z.ltb_spec 4096 (u32 (vm_end v - vm_start v))); [rewrite wp_ret; by split|].
  destruct (Z.eqb_spec (vm_offset v) 0); cbn [negb]; [|rewrite wp_ret; by split].
  destruct (has _ VM_WRITE) eqn:Ew; cbn [orb]; [rewrite wp_ret; by split|].
  destruct (has _ VM_MAYWRITE) eqn:Em; [rewrite wp_ret; by split|].
  rewrite wp_bind, wp_gets, wp_bind, wp_gets, wp_bind, wp_modify.
  destruct (negb (io_remap_ret =? 0)); rewrite wp_ret; cbn [fst snd].
  - split; [done|]. by intros [? | ?].
  - split; [done|]. by intros [? | ?].
Qed.

(** A module that could not find its registers leaves nothing registered. *)
Lemma elan_init_unregisters s : chrdev s = false ->
  wpl elan_init_module (fun r s' => chrdev s' = bool_decide (r = 0)) s \/
  elan_init_module s = Fault OutOfBounds \/ elan_init_module s = Fault Uninit.
Proof.
  intros Hc. unfold elan_init_module. destruct (negb (register_chrdev_ret =? 0)); [by left|].
  unfold elan_getphys, wpl, mbind, eff_bind, modify, zoom. cbn [el_prom set_chrdev].
  destruct (obp_getprop _ _ (el_prom s)) as [o st|f] eqn:Eo.
  2:{ right. left. f_equal. revert Eo. unfold obp_getprop, obp_lookup, mbind, eff_bind.
      destruct (_ <=? _); [|by intros [= <-]]. cbn. by destruct (_ =? -1). }
  destruct o as [bs|]; [|by left]. cbv zeta. unfold the.
  destruct (_ !! _); [by left|right; by right].
Qed.
End elan.
